(* ===== verification/_CoqProject ===== *)
-Q . S2P
Prelude.v
CString.v
Prog.v
Strbuf.v
ParseOptions.v
ParseFacts.v
Types.v
SimKernel.v
Sysfs.v
Param.v
Tree.v
Demo.v
Device.v
Wq.v
Filter.v
Enable.v
ConfigAttr.v
Json.v
JsonStore.v
JsonUtil.v
Listing.v
Commands.v
Config.v
ListCmd.v
Help.v
Main.v
ParseLines.v
Size.v
SysfsFacts.v
ParamFacts.v
DeviceFacts.v
WqFacts.v
TreeFacts.v
TreeInit.v
TreeFree.v
FilterFacts.v
ConfigFacts.v
ListFacts.v
SlotFacts.v
LoadFacts.v
Skeleton.v
Reload.v
LoadSafe.v
KeepFacts.v
KeepConfig.v
MainFacts.v
FirstLook.v
DeviceSafe.v
Bitmap.v
Str.v
Ccan.v
CList.v
CListFacts.v
Layout.v
Idxd.v
DsaMove.v
