(* ===== verification/Prelude.v ===== *)
(** * accel-config, verified

    A model and proofs for accel-config: libaccfg, the library that configures
    the Intel DSA and IAX accelerators through sysfs (accfg/lib/libaccfg.c), the
    helpers under it (util/), and the commands built on it (accfg/).

    ** The program

    The kernel's idxd driver shows every accelerator as a directory of attribute
    files, with directories for its groups, work queues and engines below it.  The
    library reads the directories into a tree of objects (a context, its devices,
    their groups, work queues and engines), answers most getters from the tree and
    some from the files, and changes a device by writing attribute files; enabling
    and disabling write the device's or queue's name to a driver's bind or unbind
    file.  The commands parse names and options, find objects and call the library.

    ** The model

    A C function is a [prog (world F)] (Prog): from a world it is [Done] with a
    result and a world, or [Exited], or [Fault], undefined behaviour: a NULL or
    dangling dereference, or a write past a buffer.  A theorem that a run is [Done],
    or a [wp], says that there is none of it.  The world (Types) holds the library's
    memory (five maps from addresses to structures, and the next free address), its
    static variables, [errno], the number of open descriptors, the trace of writes
    with their results, and [fs], the state of everything outside the process, of
    an abstract type.  The class [Kernel] gives the system calls on it; [KernelLaws]
    is what POSIX says of them (a count of bytes is at most what was asked, an error
    number is positive).  Every call may change [fs], so the driver and other processes
    are part of it, and every allocation may fail.  [sim] (SimKernel) is a concrete
    kernel that satisfies the laws and Demo a machine on it with one device: the
    instances of the theorems run there.

    Integers are [Z] with the conversion of C written where C converts ([s32],
    [u32], [u64] below); strings are what is before the NUL; [strtol], [strtoull],
    [sscanf] and the integer formats of [printf] are CString's functions.

    ** The files

    Definitions, from the bottom up; the functions keep the names of the source, and what a
    macro generates once per field is one definition with the field as its argument.

    - Prelude: machine integers, error numbers, tactics.  CString: C strings, number
      parsing and printing, with their round trips.  Prog: the monad, [wp], frames
      ([respects]) and totality ([always]) with their tactics.
    - Strbuf: util/strbuf.c, with its theorems.  ParseOptions: util/parse-options.c, over the
      array of arguments and the variables the options point at.  CList: ccan/list and
      util/list.h, over a memory of list nodes.
    - Types: the structures of accfg/lib/private.h and accfg/libaccel_config.h.
    - Sysfs: util/sysfs.c.  Param: the helpers of libaccfg.c that read and write one
      parameter, command status strings, the saved error.  Tree: contexts, the
      construction and release of objects, initialisation on first use, navigation,
      look-ups, and util/log.c but for the printing.  Device: devices and groups.  Wq:
      work queues and engines.
    - Filter: util/filter.c.  Enable: accfg/enable.c.  ConfigAttr: accfg/config_attr.c.
      Commands: the options of these two files, and the commands as they are called.
    - Json, JsonStore: what the code uses of json-c, to read and to build documents, as
      classes with laws and a concrete instance each.  JsonUtil: util/json.c.  Listing:
      util/filter.h and the callbacks of a walk, of list and of save-config.  ListCmd: the rest
      of accfg/list.c.  Config: accfg/config.c, load-config and config-user-default.
    - Help: util/help.c.  Main: util/main.c and accfg/accel-config.c, the whole program.
    - Bitmap: util/bitmap.c, with its theorems.  Size: util/size.c, with its theorem.
    - Str: ccan/str.  Ccan: ccan/endian, for a host of either byte order, and ccan/minmax; both with
      their theorems.
    - Layout: structures of C as types with a size, an alignment and members at bit positions.  Idxd:
      accfg/idxd.h, the flags and codes of the device and its structures as such types.
    - DsaMove: the memory move of the test program (test/accel_test.c, test/dsa_prep.c, test/dsa.c),
      on descriptors of Idxd and a device given by a class, with its theorem.
    - SimKernel, Demo: the machine of the instances.

    Theorems, by the file they are about: ParseFacts, ParseLines (ParseOptions and the tables of the
    commands), SysfsFacts, ParamFacts, DeviceFacts, WqFacts, TreeFacts, TreeInit, TreeFree,
    FilterFacts, ConfigFacts (Filter, Enable, ConfigAttr), ListFacts, SlotFacts (JsonUtil, Listing),
    LoadFacts, Skeleton, LoadSafe, Reload (Config), KeepFacts, KeepConfig, MainFacts (all commands and main),
    FirstLook, DeviceSafe (the commands on devices and groups, in main), CListFacts.

    ** What is proved

    - The program (MainFacts, on KeepFacts and KeepConfig): every command of the table keeps the
      library's memory a tree and the references of the contexts, and frees no object; so when main
      returns nothing of the memory of the library is left, and its status is EXIT_SUCCESS exactly
      when the command ran and returned 0.  On the demo machine what save-config writes load-config reads back.
    - Total correctness of four commands (FirstLook, DeviceSafe): enable-device, disable-device,
      config-device and config-group bring main to its end on every machine, without undefined
      behaviour.  The tree the first look builds is [steady] (Skeleton), and the calls after it are
      [safe] there: they keep the skeleton of the tree, and the saved error points at its objects.
      The other commands read work queues or engines, where undefined behaviour can be reached.
    - Attribute access (SysfsFacts): what reading and writing a file return on every
      branch, which bytes are written, that no descriptor is lost; that enumeration
      returns whatever its callback does, and what its result means.
    - Parameters (ParamFacts): an integer attribute is read as the integer it shows;
      which command status codes have a string.
    - Setters (DeviceFacts, WqFacts): one specification, [stored] (which file is opened, the one
      write that is made to it, the result that goes with what the write did, and when the member
      changes), which the setters of groups and queues refine.  The operation configuration round trip; the size limit;
      where a long string overruns its buffer.
    - Enabling and disabling (DeviceFacts, WqFacts): a success means that the name was written
      to the right file and, for a queue, that the state read after it was the one
      wanted; clients stop a disable that is not forced before anything is written.
    - The tree (TreeFacts, TreeInit, TreeFree): [tree_ok] is kept by everything that adds or frees
      objects, whatever the files hold and whatever allocation fails; look-ups end and
      answer the first match; giving up the last reference frees exactly what belongs to the
      context.  The logic there, [tri], is [wp] on the heap alone, with an argument that says
      whether undefined behaviour is admitted: it is for work queues, whose type is
      dereferenced unread; it is excluded for devices, groups, and, while the pointer
      [device->group] is NULL or a group, engines.
    - Command lines (ParseFacts, ParseLines): with a table that fits its variables the parser always
      ends, without undefined behaviour, leaves each variable a value of its type, and keeps a
      part of what it read, in order; the tables of all commands fit; numbers are read back from lines of
      any length; a wrong one, wherever it stands, ends the process with status 0.
    - The commands (FilterFacts, ConfigFacts): names are read back or overrun their buffers; which
      result a command reports; values out of range, and traffic classes on a device too old for
      them, are never written to a group, and the others are, in order, up to the first failure.
    - Listings (ListFacts, SlotFacts): the object of a queue has the attributes load-config reads,
      with the values of the queue, its mode and its operations as they were just read; that of a
      group lacks the traffic classes, and on IAX devices the read buffers; which arrays a queue or
      engine joins.  A member may be missing for want of memory ([js_short]); SlotFacts assumes that
      an array or object that is there finds memory for an entry ([JsonRoom]).
    - Configuration files (LoadFacts, Skeleton, LoadSafe): the parse of a document ends; on an enumerated tree and a document of the usual shape there is no
      undefined behaviour but the one of the threshold, and only attributes change (Skeleton); what an active queue
      and a nested object do to the rest; what a default queue is given.
    - The round trip of a queue's configuration (Reload): what ListFacts shows to be saved, loaded on the
      queue it was saved of, writes each value to its own attribute, in order, and changes nothing
      in memory but the cached mode and the saved errors.
    - String buffers (Strbuf): the operations refine lists of bytes; reading a descriptor ends with
      all its bytes; the process is ended for want of memory only when a request was refused that is
      no larger than three halves of what the string needs ([room]).
    - Linked lists (CListFacts): every operation and loop on a memory that holds a list is the
      operation on that list, other lists are untouched, and the lists Tree has in the place of ccan's are
      these; the consistency check always ends and accepts exactly the memories that hold a list.
    - Bit arrays and sizes: [bitmap_set], [bitmap_clear] against bits; what the searches really
      answer; what a size with a suffix means, and the overflow it misses.
    - Strings, byte order (Str, Ccan): what the tests of prefixes and suffixes and the count of
      substrings answer; that the room reserved for a number is enough; that the conversions of
      byte order do what they say on hosts of both orders, one of them apart.
    - Descriptors (Layout, Idxd, DsaMove): members are written without touching the others; a memory move
      that the device interrupts is continued with what is left; it ends, with a time-out when the
      last answer is late and with OK when it is not, and after a success of the device the bytes of
      the source are at the destination and nothing else has changed.

    ** Bounds

    Where the recursion of the code is not structural there is fuel, and running out is a
    [Fault] (for a document, see below), so a theorem that excludes faults says that the fuel
    is enough.  The loops over the tree's lists ([foreach], [foreach_acc]) have the length of the list when the
    loop starts, plus one step to see its end: [foreach_tri], [foreach_find] (TreeInit).  The parser has a
    step per argument ([step_loop]) and a step per letter of a bunch of switches ([switches]), plus one:
    [parse_options_ends].  [strbuf_read] has a step per byte and chunk the descriptor delivers.  The
    parse of a document has its size as the depth of calls, and what a call without fuel answers is
    an argument of its own: [json_parse_array_fuel] shows that it plays no part.  Loops over list nodes have the number of nodes of the memory.
    [print_base] has the binary logarithm as fuel.  [strcount] has a step per character, plus one
    ([strcount_spec]; for the empty needle no fuel is enough, as in C); the wait for a memory move has a
    step per stop of the device, plus one ([dsa_wait_memcpy_moves]), and looks once a millisecond.  The other recursions are structural.

    ** What is not modelled

    The test programs (test/, accfg/test.c) but for the memory move: they drive the devices through
    the library, keep no state beyond their descriptors, and are no part of the tool.  The macros of
    ccan that act at compile time (container_of, ARRAY_SIZE, build_assert, check_type, short_types): the
    definitions that use one contain what it does.  libc, the kernel and json-c are classes
    or arguments with their documented laws, apart from what CString has of libc.
    An object of the library is in the model's memory from the moment it is complete and linked to its
    parent: the blocks of one that is under construction, and whether every early exit of the
    constructors frees them, are not part of the model.  The allocations of the parser are an argument
    ([alloc_ok]); the theorems that say how a command line ends assume that they succeed ([alloc_all]),
    as the copy of an unknown switch is used without a test.  A wait for a device by UMWAIT, whose
    clock is the processor's, is not modelled.
    Messages on stderr have no effect, except the usage texts, which are part of the
    state of the parser: [do_log] restores [errno]; names composed for a message are
    computed, so that a NULL in one is a [Fault]. *)

From stdpp Require Export base numbers list list_numbers strings gmap.
From Stdlib Require Export ZArith Lia.

#[export] Set Default Goal Selector "!".
#[export] Set Warnings "-notation-for-abbreviation,-clear-no-such-hyp".

Open Scope Z_scope.

(** ** Machine integers

    A C integer of w bits is a [Z]; a conversion to its type is the
    function below.  Two's complement, LP64: [int] has 32 bits, [long],
    [size_t] and pointers have 64. *)

Definition u8 (x : Z) : Z := x mod 2 ^ 8.
Definition u16 (x : Z) : Z := x mod 2 ^ 16.
Definition u32 (x : Z) : Z := x mod 2 ^ 32.
Definition u64 (x : Z) : Z := x mod 2 ^ 64.
Definition s32 (x : Z) : Z := (x + 2 ^ 31) mod 2 ^ 32 - 2 ^ 31.
Definition s64 (x : Z) : Z := (x + 2 ^ 63) mod 2 ^ 64 - 2 ^ 63.

Definition INT_MAX : Z := 2147483647.
Definition UINT_MAX : Z := 4294967295.
Definition LONG_MAX : Z := 9223372036854775807.
Definition LONG_MIN : Z := -9223372036854775808.
Definition ULLONG_MAX : Z := 18446744073709551615.

Ltac zpow := change (2 ^ 8) with 256 in *; change (2 ^ 16) with 65536 in *;
  change (2 ^ 31) with 2147483648 in *; change (2 ^ 32) with 4294967296 in *;
  change (2 ^ 63) with 9223372036854775808 in *;
  change (2 ^ 64) with 18446744073709551616 in *.

(** [wrap_lia] decides linear goals about conversions of constants-width
    integers: it unfolds them and hands the divisions to [lia]. *)
Ltac wrap_lia := unfold u8, u16, u32, u64, s32, s64, INT_MAX, UINT_MAX,
  LONG_MAX, LONG_MIN, ULLONG_MAX in *; zpow; Z.div_mod_to_equations; lia.

Lemma u32_range x : 0 <= u32 x < 2 ^ 32.
Proof. apply Z.mod_pos_bound; lia. Qed.

Lemma u64_range x : 0 <= u64 x < 2 ^ 64.
Proof. apply Z.mod_pos_bound; lia. Qed.

Lemma s32_range x : - 2 ^ 31 <= s32 x < 2 ^ 31.
Proof. wrap_lia. Qed.

Lemma s64_range x : - 2 ^ 63 <= s64 x < 2 ^ 63.
Proof. wrap_lia. Qed.

Lemma u32_id x : 0 <= x < 2 ^ 32 → u32 x = x.
Proof. apply Z.mod_small. Qed.

Lemma u64_id x : 0 <= x < 2 ^ 64 → u64 x = x.
Proof. apply Z.mod_small. Qed.

Lemma s32_id x : - 2 ^ 31 <= x < 2 ^ 31 → s32 x = x.
Proof. wrap_lia. Qed.

Lemma s64_id x : - 2 ^ 63 <= x < 2 ^ 63 → s64 x = x.
Proof. wrap_lia. Qed.

Lemma s32_u32 x : s32 (u32 x) = s32 x.
Proof. wrap_lia. Qed.

Create HintDb cint.
#[export] Set Warnings "-implicit-create-rewrite-hint-db".
#[export] Hint Resolve u32_range u64_range s32_range s64_range : cint.
#[export] Hint Rewrite u32_id u64_id s32_id s64_id using (wrap_lia || lia) : cint.

(** ** Bits of machine words *)

Lemma testbit_u64 x n : 0 <= n → Z.testbit (u64 x) n = (n <? 64) && Z.testbit x n.
Proof.
  intros Hn. unfold u64. destruct (Z.ltb_spec n 64).
  - by rewrite Z.mod_pow2_bits_low.
  - by rewrite Z.mod_pow2_bits_high by lia.
Qed.

Lemma testbit_bound x w n : 0 <= x < 2 ^ w → w <= n → Z.testbit x n = false.
Proof.
  intros [H0 H1] Hn. destruct (decide (w < 0)) as [Hw|Hw].
  { rewrite Z.pow_neg_r in H1 by lia. lia. }
  rewrite <- (Z.mod_small x (2 ^ w)) by lia. apply Z.mod_pow2_bits_high; lia.
Qed.

Lemma u64_lor x y : u64 (Z.lor x y) = Z.lor (u64 x) (u64 y).
Proof.
  apply Z.bits_inj'; intros n Hn.
  rewrite Z.lor_spec, !testbit_u64, Z.lor_spec by done.
  by destruct (n <? 64).
Qed.

Lemma bits_u64_range x : 0 <= x → (∀ n, 64 <= n → Z.testbit x n = false) → 0 <= x < 2 ^ 64.
Proof.
  intros Hx H. split; [done|].
  assert (u64 x = x) as <-; [|apply u64_range].
  apply Z.bits_inj'; intros n Hn. rewrite testbit_u64 by done.
  destruct (Z.ltb_spec n 64); [done|]. simpl. symmetry. apply H; lia.
Qed.

(** ** Error numbers (Linux, asm-generic) *)

Definition EPERM : Z := 1.
Definition ENOENT : Z := 2.
Definition EIO : Z := 5.
Definition ENXIO : Z := 6.
Definition ENOMEM : Z := 12.
Definition EBUSY : Z := 16.
Definition ENODEV : Z := 19.
Definition EINVAL : Z := 22.
Definition ENOSPC : Z := 28.
Definition ERANGE : Z := 34.
