(* ===== verification/CString.v ===== *)
(** * C strings and the parts of <string.h>, <stdlib.h> and <stdio.h> the code uses

    A NUL-terminated string is the Stdlib [string] of its characters before the
    NUL; [cstr] is the string a byte buffer holds.  [strtol], [strtoull] and the
    [sscanf] conversions are those of ISO C and glibc on LP64; [print_d],
    [print_u] and [print_x] are the conversions %d, %u and %x of [printf]. *)

From S2P Require Import Prelude.
From Stdlib Require Export Ascii.
#[export] Set Default Goal Selector "!".
Local Open Scope string_scope.
Local Open Scope Z_scope.

(** ** Characters *)

Definition code (c : ascii) : Z := Z.of_N (N_of_ascii c).
Definition chr (z : Z) : ascii := ascii_of_N (Z.to_N z).
Definition NUL : ascii := "000".
Definition NL : ascii := "010".
Definition slash : ascii := "/".

Definition isspace (c : ascii) : bool :=
  (code c =? 32) || (9 <=? code c) && (code c <=? 13).
Definition islower (c : ascii) : bool := (97 <=? code c) && (code c <=? 122).

(** ** Strings *)

Definition strlen (s : string) : Z := Z.of_nat (String.length s).

(** The prefix of [s] before the first character satisfying [p], and the rest. *)
Fixpoint span (p : ascii → bool) (s : string) : string * string :=
  match s with
  | EmptyString => ("", "")
  | String c s' => if p c then let (a, b) := span p s' in (String c a, b) else ("", s)
  end.

Definition cstr (buf : string) : string := (span (λ c, negb (Ascii.eqb c NUL)) buf).1.
Definition strcmp_eq (s t : string) : bool := String.eqb s t.
Definition strncmp_eq (s t : string) (n : Z) : bool :=
  String.eqb (String.substring 0 (Z.to_nat n) s) (String.substring 0 (Z.to_nat n) t).
Definition strchr_in (s : string) (c : ascii) : bool :=
  match (span (λ x, negb (Ascii.eqb x c)) s).2 with EmptyString => false | _ => true end.
(** [*strchrnul(s, c) = 0]: what is left of [s]. *)
Definition cut_at (c : ascii) (s : string) : string := (span (λ x, negb (Ascii.eqb x c)) s).1.

(** The string without its last character if that is a newline. *)
Fixpoint strip_nl (s : string) : string :=
  match s with
  | EmptyString => ""
  | String c EmptyString => if Ascii.eqb c NL then "" else s
  | String c s' => String c (strip_nl s')
  end.

Fixpoint strstr_in (s t : string) : bool :=
  String.prefix t s || match s with String _ s' => strstr_in s' t | EmptyString => false end.

(** [strrchr(s, c) + 1]; [None] when there is no [c], where the C expression is
    the address 1. *)
Fixpoint after_last (c : ascii) (s : string) : option string :=
  match s with
  | EmptyString => None
  | String x s' =>
      match after_last c s' with
      | Some r => Some r
      | None => if Ascii.eqb x c then Some s' else None
      end
  end.

(** POSIX [basename] of a path that does not end in a slash. *)
Definition basename (s : string) : string :=
  match after_last slash s with Some r => r | None => s end.

(** ** Printing integers *)

Definition digit_char (d : Z) : ascii := chr (if d <? 10 then 48 + d else 87 + d).
Definition digit_val (c : ascii) : option Z :=
  let k := code c in
  if (48 <=? k) && (k <=? 57) then Some (k - 48)
  else if (97 <=? k) && (k <=? 122) then Some (k - 87)
  else if (65 <=? k) && (k <=? 90) then Some (k - 55)
  else None.

Fixpoint print_digits (base : Z) (fuel : nat) (n : Z) (acc : string) : string :=
  match fuel with
  | O => acc
  | S fuel' =>
      if n <? base then String (digit_char n) acc
      else print_digits base fuel' (n / base) (String (digit_char (n mod base)) acc)
  end.

Definition print_base (base n : Z) : string :=
  print_digits base (S (Z.to_nat (Z.log2 n))) n "".
Definition print_u (n : Z) : string := print_base 10 n.
Definition print_x (n : Z) : string := print_base 16 n.
Definition print_d (n : Z) : string := if n <? 0 then "-" +:+ print_u (- n) else print_u n.

(** ** strtol, strtoull, atoi *)

Fixpoint scan_digits (base acc : Z) (s : string) : Z * string :=
  match s with
  | String c s' =>
      match digit_val c with
      | Some d => if d <? base then scan_digits base (acc * base + d) s' else (acc, s)
      | None => (acc, s)
      end
  | EmptyString => (acc, s)
  end.

Definition is_digit (base : Z) (c : ascii) : bool :=
  match digit_val c with Some d => d <? base | None => false end.

Definition starts_digit (base : Z) (s : string) : bool :=
  match s with String c _ => is_digit base c | EmptyString => false end.

(** The base in force and the digits, after the optional prefix: [base] is 0, 10 or 16. *)
Definition strip_prefix (base : Z) (s : string) : Z * string :=
  match s with
  | String "0" (String ("x" | "X") s' ) =>
      if ((base =? 0) || (base =? 16)) && starts_digit 16 s' then (16, s')
      else (if base =? 0 then 8 else base, s)
  | String "0" _ => (if base =? 0 then 8 else base, s)
  | _ => (if base =? 0 then 10 else base, s)
  end.

Definition scan_sign (s : string) : bool * string :=
  match s with
  | String "-" s' => (true, s')
  | String "+" s' => (false, s')
  | _ => (false, s)
  end.

(** A magnitude with its sign and the rest of the input; [None] when no digit was read. *)
Definition scan_int (base : Z) (s : string) : option (bool * Z * string) :=
  let (neg, s1) := scan_sign (span isspace s).2 in
  let (b, s2) := strip_prefix base s1 in
  if starts_digit b s2 then
    let (m, rest) := scan_digits b 0 s2 in Some (neg, m, rest)
  else None.

Record strto := Strto {
  st_val : Z;          (* the value returned *)
  st_rest : string;    (* what the end pointer points at *)
  st_conv : bool;      (* a digit was converted: the end pointer is not the start *)
  st_range : bool;     (* errno was set to ERANGE *)
}.

Definition strtol (s : string) (base : Z) : strto :=
  match scan_int base s with
  | None => Strto 0 s false false
  | Some (neg, m, rest) =>
      let v := if neg then - m else m in
      Strto (Z.max LONG_MIN (Z.min LONG_MAX v)) rest true ((v <? LONG_MIN) || (LONG_MAX <? v))
  end.

Definition strtoull (s : string) (base : Z) : strto :=
  match scan_int base s with
  | None => Strto 0 s false false
  | Some (neg, m, rest) =>
      Strto (if ULLONG_MAX <? m then ULLONG_MAX else u64 (if neg then - m else m)) rest true
        (ULLONG_MAX <? m)
  end.

Definition atoi (s : string) : Z := s32 (st_val (strtol s 10)).

(** ** sscanf *)

(** One numeric conversion: the value of its [strto*] function, a matching
    failure, or an input failure (the input ended before it). *)
Inductive conv :=
  | ConvOk (v : Z) (rest : string)
  | ConvMatch
  | ConvInput.

Definition scan_conv (f : string → Z → strto) (base : Z) (s : string) : conv :=
  match (span isspace s).2 with
  | EmptyString => ConvInput
  | s1 => let r := f s1 base in
          if st_conv r then ConvOk (st_val r) (st_rest r) else ConvMatch
  end.

Definition literal (l s : string) : option string :=
  if String.prefix l s
  then Some (String.substring (String.length l) (String.length s - String.length l) s)
  else None.

(** ["%x,%x,...,%x"] with [k] conversions into 32-bit objects: the result of
    [sscanf] and the values assigned. *)
Fixpoint sscanf_hex (k : nat) (done : Z) (s : string) : Z * list Z :=
  match k with
  | O => (done, [])
  | S k' =>
      match scan_conv strtoull 16 s with
      | ConvOk v rest =>
          match k', literal "," rest with
          | S _, Some rest' =>
              let '(r, l) := sscanf_hex k' (done + 1) rest' in (r, u32 v :: l)
          | _, _ => (done + 1, [u32 v])
          end
      | ConvMatch => (done, [])
      | ConvInput => (if done =? 0 then -1 else done, [])
      end
  end.

(** ["<prefix>%lu.%lu"]: the two values when both conversions succeed. *)
Definition sscanf_pair (prefix s : string) : option (Z * Z) :=
  match literal prefix s with
  | None => None
  | Some s1 =>
      match scan_conv strtoull 10 s1 with
      | ConvOk a rest =>
          match literal "." rest with
          | Some s2 => match scan_conv strtoull 10 s2 with
                       | ConvOk b _ => Some (a, b)
                       | _ => None
                       end
          | None => None
          end
      | _ => None
      end
  end.

(** ["%*[a-z]%d"]: the result of [sscanf] and the value assigned, if any. *)
Definition sscanf_name_id (s : string) : Z * option Z :=
  match span islower s with
  | ("", "") => (-1, None)
  | ("", _) => (0, None)
  | (_, rest) => match scan_conv strtol 10 rest with
                 | ConvOk v _ => (1, Some (s32 v))
                 | ConvMatch => (0, None)
                 | ConvInput => (-1, None)
                 end
  end.

(** ** Lemmas *)

Lemma append_cons c s t : String c s +:+ t = String c (s +:+ t).
Proof. done. Qed.

Lemma span_false p s : match s with String c _ => p c = false | _ => True end → span p s = ("", s).
Proof. destruct s as [|c s]; [done|]. simpl. by intros ->. Qed.

Lemma span_app p s t :
  (∀ c, In c (String.list_ascii_of_string s) → p c = true) → (span p (s +:+ t)) =
  (s +:+ (span p t).1, (span p t).2).
Proof.
  induction s as [|c s IH]; intros Hs; simpl; [apply surjective_pairing|].
  rewrite (Hs c) by (by left). rewrite IH by (intros; apply Hs; by right). done.
Qed.

Definition digit_ok (d : Z) : bool :=
  let c := digit_char d in
  bool_decide (digit_val c = Some d) && negb (isspace c) &&
  negb (Ascii.eqb c "-") && negb (Ascii.eqb c "+") && negb (Ascii.eqb c NUL) &&
  negb (Ascii.eqb c NL) && negb (Ascii.eqb c "," ) && Bool.eqb (Ascii.eqb c "0") (d =? 0).

Lemma digit_char_ok d : 0 <= d < 36 → digit_ok d = true.
Proof.
  intros Hd. assert (forallb digit_ok (seqZ 0 36) = true) as H. { by vm_compute. }
  rewrite forallb_forall in H. apply H. apply list_elem_of_In, elem_of_seqZ. lia.
Qed.

Lemma digit_val_char d : 0 <= d < 36 → digit_val (digit_char d) = Some d.
Proof.
  intros Hd. pose proof (digit_char_ok d Hd) as H. unfold digit_ok in H.
  rewrite !andb_true_iff, bool_decide_eq_true in H. by destruct H as [[[[[[[H _] _] _] _] _] _] _].
Qed.

Section print.
Context (base : Z) (base_range : 2 <= base <= 36).

Lemma scan_print_digits fuel n acc :
  0 <= n → (Z.to_nat (Z.log2 n) < fuel)%nat →
  scan_digits base 0 (print_digits base fuel n acc) = scan_digits base n acc.
Proof.
  revert n acc. induction fuel as [|fuel IH]; intros n acc Hn Hf; [lia|]. simpl.
  destruct (Z.ltb_spec n base).
  - simpl. rewrite digit_val_char by lia. by destruct (Z.ltb_spec n base); [|lia].
  - rewrite IH.
    + simpl. pose proof (Z.mod_pos_bound n base). rewrite digit_val_char by lia.
      destruct (Z.ltb_spec (n mod base) base); [|lia]. f_equal. rewrite Z.mul_comm.
      symmetry. apply Z.div_mod. lia.
    + apply Z.div_pos; lia.
    + assert (Z.log2 (n / base) < Z.log2 n); [|pose proof (Z.log2_nonneg (n / base)); lia].
      assert (n / base <= n / 2) as Hle by (apply Z.div_le_compat_l; lia).
      apply Z.log2_le_mono in Hle. rewrite <- Z.div2_div in Hle.
      enough (Z.log2 (Z.div2 n) < Z.log2 n) by lia.
      rewrite Z.div2_spec, Z.log2_shiftr by lia. pose proof (Z.log2_pos n). lia.
Qed.

Lemma print_digits_head fuel n acc :
  0 <= n → (Z.to_nat (Z.log2 n) < fuel)%nat →
  ∃ d s, print_digits base fuel n acc = String (digit_char d) s ∧ 0 <= d < base ∧
    (d = 0 → n = 0 ∧ s = acc).
Proof.
  revert n acc. induction fuel as [|fuel IH]; intros n acc Hn Hf; [lia|]. simpl.
  destruct (Z.ltb_spec n base) as [|Hge].
  - exists n, acc. split; [done|]. split; [lia|done].
  - destruct (IH (n / base) (String (digit_char (n mod base)) acc)) as (d & s & Hd & Hr & H0).
    + apply Z.div_pos; lia.
    + assert (Z.log2 (n / base) < Z.log2 n); [|pose proof (Z.log2_nonneg (n / base)); lia].
      assert (n / base <= n / 2) as Hle by (apply Z.div_le_compat_l; lia).
      apply Z.log2_le_mono in Hle. rewrite <- Z.div2_div in Hle.
      enough (Z.log2 (Z.div2 n) < Z.log2 n) by lia.
      rewrite Z.div2_spec, Z.log2_shiftr by lia. pose proof (Z.log2_pos n). lia.
    + exists d, s. split; [done|]. split; [done|]. intros Hz. apply H0 in Hz as [Hz _].
      assert (1 <= n / base); [|lia]. apply Z.div_le_lower_bound; lia.
Qed.
End print.

Lemma print_digits_app base fuel n acc t :
  print_digits base fuel n acc +:+ t = print_digits base fuel n (acc +:+ t).
Proof.
  revert n acc. induction fuel as [|fuel IH]; intros n acc; [done|]. simpl.
  destruct (n <? base); [done|]. by rewrite IH.
Qed.

Lemma print_base_nonempty base n : 2 <= base <= 36 → 0 <= n → print_base base n ≠ "".
Proof.
  intros Hb Hn. unfold print_base.
  by destruct (print_digits_head base Hb (S (Z.to_nat (Z.log2 n))) n "" Hn) as (d & s & -> & _);
    [lia|].
Qed.

(** [stops rest]: no digit up to f and no x can follow. *)
Definition stops (rest : string) : Prop :=
  match rest with
  | String c _ => is_digit 16 c = false ∧ c ≠ "x"%char ∧ c ≠ "X"%char
  | EmptyString => True
  end.

Lemma strip_prefix_other b c s :
  c ≠ "0"%char → strip_prefix b (String c s) = (if b =? 0 then 10 else b, String c s).
Proof. intros H. destruct c as [[] [] [] [] [] [] [] []]; done. Qed.

Lemma strip_prefix_zero b s :
  stops s → strip_prefix b (String "0" s) = (if b =? 0 then 8 else b, String "0" s).
Proof.
  intros H. destruct s as [|c s]; [done|]. destruct H as (_ & Hx & HX).
  by destruct c as [[] [] [] [] [] [] [] []].
Qed.

Lemma scan_sign_other c s :
  c ≠ "-"%char → c ≠ "+"%char → scan_sign (String c s) = (false, String c s).
Proof. intros H1 H2. destruct c as [[] [] [] [] [] [] [] []]; done. Qed.

Lemma digit_char_class d : 0 <= d < 36 →
  isspace (digit_char d) = false ∧ digit_char d ≠ "-"%char ∧ digit_char d ≠ "+"%char ∧
  (digit_char d = "0"%char ↔ d = 0).
Proof.
  intros Hd. pose proof (digit_char_ok d Hd) as H. unfold digit_ok in H.
  rewrite !andb_true_iff, !negb_true_iff, Bool.eqb_true_iff in H.
  destruct H as [[[[[[[_ H1] H2] H3] _] _] _] H4].
  split; [done|]. split; [by apply Ascii.eqb_neq|]. split; [by apply Ascii.eqb_neq|].
  rewrite <- Ascii.eqb_eq, H4. lia.
Qed.

Lemma scan_digits_stops base acc s : base <= 16 → stops s → scan_digits base acc s = (acc, s).
Proof.
  destruct s as [|c s]; [done|]. simpl. unfold is_digit. intros Hb [Hd _].
  destruct (digit_val c) as [d|]; [|done]. destruct (Z.ltb_spec d base); [lia|done].
Qed.

Definition base_reads (b0 base : Z) : Prop :=
  (b0 = 0 ∧ base = 10) ∨ (b0 = 10 ∧ base = 10) ∨ (b0 = 16 ∧ base = 16).

Lemma scan_number b0 base n rest :
  base_reads b0 base → 0 <= n → stops rest →
  ∃ d s, print_base base n +:+ rest = String (digit_char d) s ∧ 0 <= d < 36 ∧
  (let (b, s2) := strip_prefix b0 (String (digit_char d) s) in
   starts_digit b s2 = true ∧ scan_digits b 0 s2 = (n, rest)).
Proof.
  intros Hb Hn Hrest. unfold print_base. rewrite print_digits_app.
  assert (2 <= base <= 36) as Hbase by (unfold base_reads in Hb; lia).
  destruct (print_digits_head base Hbase (S (Z.to_nat (Z.log2 n))) n ("" +:+ rest))
    as (d & s & Heq & Hd & H0); [done|lia|].
  pose proof (scan_print_digits base Hbase (S (Z.to_nat (Z.log2 n))) n ("" +:+ rest) Hn
    ltac:(lia)) as Hscan.
  rewrite Heq in Hscan |- *. exists d, s. split; [done|]. split; [lia|].
  destruct (digit_char_class d) as (_ & _ & _ & Hz); [lia|].
  rewrite (scan_digits_stops _ _ ("" +:+ rest)) in Hscan by (done || unfold base_reads in Hb; lia).
  destruct (decide (d = 0)) as [->|Hnz].
  - destruct H0 as [-> ->]; [done|]. change (digit_char 0) with "0"%char in *.
    rewrite strip_prefix_zero by done.
    destruct (b0 =? 0) eqn:Hb0; simpl.
    + by rewrite scan_digits_stops by (done || lia).
    + unfold base_reads in Hb. assert (b0 = 10 ∨ b0 = 16) as [-> | ->] by lia.
      all: split; [done|]; by rewrite scan_digits_stops by (done || lia).
  - rewrite strip_prefix_other by tauto.
    assert ((if b0 =? 0 then 10 else b0) = base) as ->
      by (unfold base_reads in Hb; destruct (Z.eqb_spec b0 0); lia).
    split; [|done]. simpl. unfold is_digit. rewrite digit_val_char by lia. lia.
Qed.

Lemma scan_int_print b0 base n rest :
  base_reads b0 base → 0 <= n → stops rest →
  scan_int b0 (print_base base n +:+ rest) = Some (false, n, rest).
Proof.
  intros Hb Hn Hrest. destruct (scan_number b0 base n rest) as (d & s & -> & Hd & H); [done..|].
  destruct (digit_char_class d Hd) as (Hs & Hm & Hp & _). unfold scan_int.
  rewrite span_false by done. cbn [snd]. rewrite scan_sign_other by done.
  destruct (strip_prefix b0 (String (digit_char d) s)) as [b s2]. destruct H as [-> ->]. done.
Qed.

Lemma scan_int_neg b0 base n rest :
  base_reads b0 base → 0 <= n → stops rest →
  scan_int b0 ("-" +:+ print_base base n +:+ rest) = Some (true, n, rest).
Proof.
  intros Hb Hn Hrest. destruct (scan_number b0 base n rest) as (d & s & Heq & Hd & H); [done..|].
  unfold scan_int. change ("-" +:+ print_base base n +:+ rest) with
    (String "-" (print_base base n +:+ rest)). rewrite Heq.
  rewrite span_false by done. cbn [snd scan_sign].
  destruct (strip_prefix b0 (String (digit_char d) s)) as [b s2]. destruct H as [-> ->]. done.
Qed.

Lemma strtol_print_d b0 x rest :
  b0 = 0 ∨ b0 = 10 → LONG_MIN <= x <= LONG_MAX → stops rest →
  strtol (print_d x +:+ rest) b0 = Strto x rest true false.
Proof.
  intros Hb Hx Hrest. assert (base_reads b0 10) by (unfold base_reads; lia).
  unfold strtol, print_d, print_u, LONG_MIN, LONG_MAX in *. destruct (Z.ltb_spec x 0).
  - change (("-" +:+ print_base 10 (- x)) +:+ rest) with ("-" +:+ print_base 10 (- x) +:+ rest).
    rewrite (scan_int_neg b0 10) by (done || lia). cbv zeta iota. f_equal; lia.
  - rewrite (scan_int_print b0 10) by (done || lia). cbv zeta iota. f_equal; lia.
Qed.

Lemma strtoull_print base b0 x rest :
  base_reads b0 base → 0 <= x <= ULLONG_MAX → stops rest →
  strtoull (print_base base x +:+ rest) b0 = Strto x rest true false.
Proof.
  intros Hb Hx Hrest. unfold strtoull. rewrite (scan_int_print b0 base) by (done || lia).
  destruct (Z.ltb_spec ULLONG_MAX x); [lia|]. f_equal. apply u64_id.
  unfold ULLONG_MAX in Hx. lia.
Qed.

(** Printed numbers: length and characters. *)
Lemma print_digits_length base fuel n acc k :
  2 <= base → 0 <= n → (Z.to_nat (Z.log2 n) < fuel)%nat → n < base ^ Z.of_nat (S k) →
  (String.length (print_digits base fuel n acc) <= S k + String.length acc)%nat.
Proof.
  intros Hb. revert n acc k. induction fuel as [|fuel IH]; intros n acc k Hn Hf Hk; [lia|].
  simpl. destruct (Z.ltb_spec n base) as [|Hge]; [simpl; lia|].
  destruct k as [|k]; [change (Z.of_nat 1) with 1 in Hk; lia|].
  assert (String.length (print_digits base fuel (n / base)
    (String (digit_char (n mod base)) acc)) <= S k + S (String.length acc))%nat as H; [|lia].
  apply (IH (n / base) (String (digit_char (n mod base)) acc) k).
  - apply Z.div_pos; lia.
  - assert (Z.log2 (n / base) < Z.log2 n); [|pose proof (Z.log2_nonneg (n / base)); lia].
    assert (n / base <= n / 2) as Hle by (apply Z.div_le_compat_l; lia).
    apply Z.log2_le_mono in Hle. rewrite <- Z.div2_div in Hle.
    enough (Z.log2 (Z.div2 n) < Z.log2 n) by lia.
    rewrite Z.div2_spec, Z.log2_shiftr by lia. pose proof (Z.log2_pos n). lia.
  - apply Z.div_lt_upper_bound; [lia|]. rewrite Nat2Z.inj_succ, Z.pow_succ_r in Hk by lia. lia.
Qed.

Definition chars (s : string) (P : ascii → Prop) : Prop := Forall P (String.list_ascii_of_string s).

Lemma chars_app s t P : chars (s +:+ t) P ↔ chars s P ∧ chars t P.
Proof.
  unfold chars. rewrite <- Forall_app. f_equiv. induction s as [|c s IH]; [done|].
  simpl. by rewrite IH.
Qed.

Lemma print_digits_chars base fuel n acc (P : ascii → Prop) :
  2 <= base <= 36 → 0 <= n → (∀ d, 0 <= d < 36 → P (digit_char d)) → chars acc P →
  chars (print_digits base fuel n acc) P.
Proof.
  intros Hb Hn HP. revert n acc Hn. induction fuel as [|fuel IH]; intros n acc Hn Hacc; [done|].
  simpl. destruct (Z.ltb_spec n base); [constructor; [apply HP; lia|done]|].
  apply IH; [apply Z.div_pos; lia|]. pose proof (Z.mod_pos_bound n base).
  constructor; [apply HP; lia|done].
Qed.

Lemma span_chars p s t :
  chars s (λ c, p c = true) → span p (s +:+ t) = (s +:+ (span p t).1, (span p t).2).
Proof. intros H. apply span_app. unfold chars in H. rewrite Forall_forall in H.
  intros c Hc. apply H. by apply list_elem_of_In. Qed.

Lemma append_empty_r (s : string) : s +:+ "" = s.
Proof. induction s as [|c s IH]; [done|]. rewrite append_cons. by rewrite IH. Qed.

Lemma append_assoc (s t u : string) : (s +:+ t) +:+ u = s +:+ (t +:+ u).
Proof. induction s as [|c s IH]; [done|]. rewrite !append_cons. by rewrite IH. Qed.

Lemma append_length s t : String.length (s +:+ t) = (String.length s + String.length t)%nat.
Proof. induction s as [|c s IH]; [done|]. rewrite append_cons. simpl. by rewrite IH. Qed.

Lemma cstr_clean s : chars s (λ c, c ≠ NUL) → cstr s = s.
Proof.
  intros H. unfold cstr. rewrite <- (append_empty_r s) at 1. rewrite span_chars.
  - simpl. apply append_empty_r.
  - eapply Forall_impl; [exact H|]. intros c Hc. by apply negb_true_iff, Ascii.eqb_neq.
Qed.

(** ["%x,%x,...,%x"] *)
Fixpoint print_hex_list (l : list Z) : string :=
  match l with
  | [] => ""
  | [x] => print_x x
  | x :: l' => print_x x +:+ "," +:+ print_hex_list l'
  end.

Lemma print_hex_list_cons x y l :
  print_hex_list (x :: y :: l) = print_x x +:+ "," +:+ print_hex_list (y :: l).
Proof. done. Qed.

Lemma scan_conv_print base b0 x rest :
  base_reads b0 base → 0 <= x <= ULLONG_MAX → stops rest →
  scan_conv strtoull b0 (print_base base x +:+ rest) = ConvOk x rest.
Proof.
  intros Hb Hx Hrest. unfold scan_conv.
  destruct (scan_number b0 base x rest) as (d & s & Heq & Hd & _); [done|lia|done|].
  rewrite Heq. destruct (digit_char_class d Hd) as (Hs & _).
  rewrite span_false by done. cbn [snd]. rewrite <- Heq.
  by rewrite (strtoull_print base) by done.
Qed.

Lemma substring_all (s : string) : String.substring 0 (String.length s) s = s.
Proof. induction s as [|c s IH]; [done|]. simpl. by rewrite IH. Qed.

Lemma literal_comma s : literal "," (String "," s) = Some s.
Proof.
  unfold literal. simpl. rewrite Nat.sub_0_r, substring_all.
  by destruct s.
Qed.

Lemma sscanf_hex_print l done :
  0 <= done → Forall (λ x, 0 <= x < 2 ^ 32) l →
  sscanf_hex (length l) done (print_hex_list l) = (done + Z.of_nat (length l), l).
Proof.
  intros Hd Hl. revert done Hd. induction Hl as [|x l Hx Hl IH]; intros done Hd.
  { simpl. f_equal. lia. }
  assert (0 <= x <= ULLONG_MAX) by (unfold ULLONG_MAX; lia).
  destruct l as [|y l].
  - cbn [print_hex_list length sscanf_hex]. rewrite <- (append_empty_r (print_x x)).
    unfold print_x. rewrite (scan_conv_print 16 16) by (try done; unfold base_reads; lia).
    by rewrite u32_id.
  - rewrite print_hex_list_cons. remember (y :: l) as l' eqn:Hl'.
    cbn [length sscanf_hex]. unfold print_x.
    rewrite (scan_conv_print 16 16) by (try done; unfold base_reads; lia).
    change ("," +:+ print_hex_list l') with (String "," (print_hex_list l')).
    rewrite literal_comma, u32_id, IH by lia. rewrite Hl'. cbn [length]. f_equal. lia.
Qed.

Lemma strlen_app s t : strlen (s +:+ t) = strlen s + strlen t.
Proof. unfold strlen. rewrite append_length. lia. Qed.

Lemma strlen_path p s : strlen (p +:+ "/" +:+ s) = strlen p + 1 + strlen s.
Proof. rewrite !strlen_app. change (strlen "/") with 1. lia. Qed.

(** A 64-bit integer prints as at most 21 characters. *)
Lemma print_u_short n : 0 <= n < 10 ^ 20 → strlen (print_u n) <= 20.
Proof.
  intros Hn. unfold print_u, print_base, strlen.
  pose proof (print_digits_length 10 (S (Z.to_nat (Z.log2 n))) n "" 19) as Hlen.
  change (Z.of_nat 20) with 20 in Hlen. simpl (String.length "") in Hlen. lia.
Qed.

Lemma print_d_short v : - 2 ^ 63 <= v < 2 ^ 64 → strlen (print_d v) <= 21.
Proof.
  intros Hv. unfold print_d. destruct (Z.ltb_spec v 0).
  - rewrite strlen_app. change (strlen "-") with 1.
    pose proof (print_u_short (- v) ltac:(lia)). lia.
  - pose proof (print_u_short v ltac:(lia)). lia.
Qed.

Lemma print_x_length x : 0 <= x < 2 ^ 32 → (String.length (print_x x) <= 8)%nat.
Proof.
  intros Hx. unfold print_x, print_base.
  pose proof (print_digits_length 16 (S (Z.to_nat (Z.log2 x))) x "" 7) as Hlen.
  change (16 ^ Z.of_nat 8) with (2 ^ 32) in Hlen. simpl (String.length "") in Hlen. lia.
Qed.

Lemma print_hex_list_length l :
  Forall (λ x, 0 <= x < 2 ^ 32) l → (String.length (print_hex_list l) <= 9 * length l)%nat.
Proof.
  induction 1 as [|x l Hx Hl IH]; [done|]. pose proof (print_x_length x Hx).
  destruct l as [|y l]; [simpl in *; lia|]. rewrite print_hex_list_cons, !append_length.
  simpl (String.length ","). cbn [length] in *. lia.
Qed.

Lemma substring_prefix n s : (String.length s <= n)%nat → String.substring 0 n s = s.
Proof.
  revert s. induction n as [|n IH]; intros [|ch s] Hn; simpl in *; [done|lia|done|].
  f_equal. apply IH. lia.
Qed.

#[global] Arguments sscanf_hex k done s : simpl never.
