(* ===== verification/Prog.v ===== *)
(** * Programs with state, exit and undefined behaviour

    A C function body is a [prog S A]: from a state it returns a value and a
    state ([Done]), ends the process ([Exited]) or does something C leaves
    undefined ([Fault]: a NULL or dangling dereference, a write past a buffer).
    A theorem that a run is [Done] therefore says that it is free of those.

    The file also holds the functional update of record fields, and the two
    program logics of the development: [wp] (total: the run is [Done] and its
    result satisfies the postcondition) and [respects] (every [Done] run is
    related to its start by a preorder; for frames and invariants). *)

From S2P Require Import Prelude.

#[local] Set Warnings "-postfix-notation-not-level-1".

(** ** Record update: [r <| f := v |>] *)

Class Eta (R : Type) := eta_expand : R → R.
Class Upd {R A : Type} (f : R → A) := upd : (A → A) → R → R.

Ltac solve_upd f :=
  match type of f with
  | ?R → ?A =>
      let e := eval cbv beta delta [eta_expand] in (eta_expand (R := R)) in
      let e := eval red in e in
      match (eval pattern f in e) with
      | ?body f => let b := eval cbv beta in (λ (g : A → A) (r : R), body (λ r', g (f r')) r)
                   in exact b
      end
  end.
#[export] Hint Extern 1 (@Upd _ _ ?f) => solve_upd f : typeclass_instances.

Notation "r <| f := v |>" := (upd (f := f) (λ _, v) r)
  (at level 12, f at next level, v at level 200, left associativity).
Notation "r <| f ::= g |>" := (upd (f := f) g r)
  (at level 12, f at next level, g at level 200, left associativity).
Arguments upd {R A} f {Upd} g r / : assert.

(** ** The monad *)

Inductive outcome (S A : Type) :=
  | Done (a : A) (s : S)
  | Exited (code : Z) (s : S)
  | Fault.
Arguments Done {S A} a s.
Arguments Exited {S A} code s.
Arguments Fault {S A}.

Definition prog (S A : Type) : Type := S → outcome S A.

#[export] Instance prog_ret S : MRet (prog S) := λ A a s, Done a s.
#[export] Instance prog_bind S : MBind (prog S) := λ A B k m s,
  match m s with
  | Done a s' => k a s'
  | Exited c s' => Exited c s'
  | Fault => Fault
  end.

Section ops.
Context {S : Type}.
Definition get : prog S S := λ s, Done s s.
Definition gets {A} (f : S → A) : prog S A := λ s, Done (f s) s.
Definition modify (f : S → S) : prog S unit := λ s, Done () (f s).
Definition fault {A} : prog S A := λ _, Fault.
Definition exit {A} (code : Z) : prog S A := λ s, Exited code s.

(** A pointer that must not be NULL, a value that must be there. *)
Definition must {A} (o : option A) : prog S A :=
  match o with Some a => mret a | None => fault end.

(** [for (...)] over a list fixed before the loop; [true] is [break]. *)
Fixpoint for_each {A} (l : list A) (body : A → prog S unit) : prog S unit :=
  match l with
  | [] => mret ()
  | a :: l' => body a ;; for_each l' body
  end.
End ops.

(** A program on a part of the state: [get] finds it, [put] replaces it. *)
Definition zoom {S T A} (get : T → S) (put : S → T → T) (m : prog S A) : prog T A := λ t,
  match m (get t) with
  | Done a s => Done a (put s t)
  | Exited c s => Exited c (put s t)
  | Fault => Fault
  end.

(** ** Total correctness *)

Definition wp {S A} (m : prog S A) (Q : A → S → Prop) (s : S) : Prop :=
  match m s with Done a s' => Q a s' | _ => False end.

Section wp.
Context {S : Type}.
Implicit Types s : S.

Lemma wp_ret {A} (a : A) Q s : Q a s → wp (mret a) Q s.
Proof. done. Qed.

Lemma wp_bind {A B} (m : prog S A) (k : A → prog S B) Q s :
  wp m (λ a, wp (k a) Q) s → wp (m ≫= k) Q s.
Proof. unfold wp, mbind, prog_bind. by destruct (m s). Qed.

Lemma wp_get (Q : S → S → Prop) s : Q s s → wp get Q s.
Proof. done. Qed.
Lemma wp_must {A} (o : option A) a (Q : A → S → Prop) s : o = Some a → Q a s → wp (must o) Q s.
Proof. by intros ->. Qed.

Lemma wp_mono {A} (m : prog S A) (Q Q' : A → S → Prop) s :
  (∀ a s', Q a s' → Q' a s') → wp m Q s → wp m Q' s.
Proof. unfold wp. destruct (m s); eauto. Qed.

Lemma wp_Done {A} (m : prog S A) Q s : wp m Q s ↔ ∃ a s', m s = Done a s' ∧ Q a s'.
Proof.
  unfold wp. split; [destruct (m s); [eauto|done..]|]. by intros (a & s' & -> & H).
Qed.

Lemma bind_Done {A B} (m : prog S A) (k : A → prog S B) s b s' :
  (m ≫= k) s = Done b s' ↔ ∃ a s1, m s = Done a s1 ∧ k a s1 = Done b s'.
Proof.
  unfold mbind, prog_bind. split; [destruct (m s); [eauto|done..]|]. by intros (a & s1 & -> & H).
Qed.
End wp.

(** Running a bind whose first part is known. *)
Lemma get_bind {S A} (k : S → prog S A) s : (get ≫= k) s = k s s.
Proof. done. Qed.
Lemma bind_run {S A B} (m : prog S A) (k : A → prog S B) s a s' : m s = Done a s' → (m ≫= k) s = k a s'.
Proof. intros H. unfold mbind, prog_bind. by rewrite H. Qed.

(** [wpx X]: like [wp], but the run may also end the process, with a status in [X]. *)
Definition wpx {S A} (X : Z → Prop) (m : prog S A) (Q : A → S → Prop) (s : S) : Prop :=
  match m s with Done a s' => Q a s' | Exited c _ => X c | Fault => False end.

Section wpx.
Context {S : Type} (X : Z → Prop).
Implicit Types s : S.

Lemma wpx_ret {A} (a : A) Q s : Q a s → wpx X (mret a) Q s.
Proof. done. Qed.
Lemma wpx_bind {A B} (m : prog S A) (k : A → prog S B) Q s :
  wpx X m (λ a, wpx X (k a) Q) s → wpx X (m ≫= k) Q s.
Proof. unfold wpx, mbind, prog_bind. by destruct (m s). Qed.
Lemma wpx_mono {A} (m : prog S A) (Q Q' : A → S → Prop) s :
  wpx X m Q s → (∀ a s', Q a s' → Q' a s') → wpx X m Q' s.
Proof. unfold wpx. destruct (m s); eauto. Qed.
Lemma wpx_get (Q : S → S → Prop) s : Q s s → wpx X get Q s.
Proof. done. Qed.
Lemma wpx_modify (f : S → S) (Q : unit → S → Prop) s : Q () (f s) → wpx X (modify f) Q s.
Proof. done. Qed.
Lemma wpx_exit {A} c (Q : A → S → Prop) s : X c → wpx X (exit c) Q s.
Proof. done. Qed.
Lemma wpx_must {A} (o : option A) a (Q : A → S → Prop) s : o = Some a → Q a s → wpx X (must o) Q s.
Proof. by intros ->. Qed.
Lemma wp_wpx {A} (m : prog S A) Q s : wp m Q s → wpx X m Q s.
Proof. unfold wp, wpx. by destruct (m s). Qed.
End wpx.

(** ** Frames *)

Definition respects {S A} (R : relation S) (m : prog S A) : Prop :=
  ∀ s a s', m s = Done a s' → R s s'.

Section respects.
Context {S : Type} (R : relation S) `{!PreOrder R}.

Lemma respects_ret {A} (a : A) : respects R (mret a).
Proof. intros s a' s' [= <- <-]. reflexivity. Qed.
Lemma respects_get : respects R get.
Proof. intros s a' s' [= <- <-]. reflexivity. Qed.
Lemma respects_gets {A} (f : S → A) : respects R (gets f).
Proof. intros s a' s' [= <- <-]. reflexivity. Qed.
Lemma respects_fault {A} : respects R (fault : prog S A).
Proof. done. Qed.
Lemma respects_exit {A} c : respects R (exit c : prog S A).
Proof. done. Qed.
Lemma respects_must {A} (o : option A) : respects R (must o : prog S A).
Proof. destruct o; [apply respects_ret|apply respects_fault]. Qed.
Lemma respects_bind {A B} (m : prog S A) (k : A → prog S B) :
  respects R m → (∀ a, respects R (k a)) → respects R (m ≫= k).
Proof.
  intros Hm Hk s b s' (a & s1 & H1 & H2)%bind_Done. etrans; [by eapply Hm|by eapply Hk].
Qed.
Lemma respects_modify (f : S → S) : (∀ s, R s (f s)) → respects R (modify f).
Proof. intros Hf s a s' [= _ <-]. apply Hf. Qed.
Lemma respects_for_each {A} (l : list A) (body : A → prog S unit) :
  (∀ a, respects R (body a)) → respects R (for_each l body).
Proof.
  intros Hb. induction l as [|a l IH]; simpl; [apply respects_ret|].
  by apply respects_bind.
Qed.
End respects.

Create HintDb frame discriminated.
#[export] Hint Resolve respects_ret respects_get respects_gets respects_fault respects_exit
  respects_must respects_bind respects_for_each : frame.

(** [frame] proves [respects R body] by walking [body]: it splits binds and
    matches and ends at the [frame] lemmas of the functions called. *)
Ltac frame_step :=
  match goal with
  | |- ∀ _, _ => intro
  | |- respects _ (mret _) => apply respects_ret
  | |- respects _ (_ ≫= _) => apply respects_bind
  | |- respects _ (gets _) => apply respects_gets
  | |- respects _ get => apply respects_get
  | |- respects _ (must _) => apply respects_must
  | |- respects _ fault => apply respects_fault
  | |- respects _ (exit _) => apply respects_exit
  | |- respects _ (for_each _ _) => apply respects_for_each
  | |- respects _ (match ?x with _ => _ end) => destruct x
  | |- respects _ (let _ := _ in _) => cbv zeta
  | |- PreOrder _ => typeclasses eauto
  end.
Ltac frame := repeat (first [frame_step | solve [eauto with frame]]).

(** ** Programs that are [Done] from every state *)

Definition always {S A} (m : prog S A) : Prop := ∀ s, ∃ a s', m s = Done a s'.

Section always.
Context {S : Type}.

Lemma always_ret {A} (a : A) : always (S := S) (mret a).
Proof. intros s. by eexists _, _. Qed.
Lemma always_gets {A} (f : S → A) : always (gets f).
Proof. intros s. by eexists _, _. Qed.
Lemma always_modify (f : S → S) : always (modify f).
Proof. intros s. by eexists _, _. Qed.
Lemma always_bind {A B} (m : prog S A) (k : A → prog S B) :
  always m → (∀ a, always (k a)) → always (m ≫= k).
Proof.
  intros Hm Hk s. destruct (Hm s) as (a & s1 & H1). destruct (Hk a s1) as (b & s2 & H2).
  exists b, s2. apply bind_Done. eauto.
Qed.

(** A program that is always [Done] and respects [R] ends in a related state. *)
Lemma wp_always {A} (R : relation S) (m : prog S A) s :
  always m → respects R m → wp m (λ _, R s) s.
Proof. intros Hm HR. destruct (Hm s) as (a & s' & Hr). unfold wp. rewrite Hr. by eapply HR. Qed.

Lemma wp_respects {A} (R : relation S) (m : prog S A) Q s :
  respects R m → wp m Q s → wp m (λ a s', Q a s' ∧ R s s') s.
Proof.
  intros HR. unfold wp. destruct (m s) as [a s'| |] eqn:Hm; [|done..].
  intros HQ. split; [done|]. by eapply HR.
Qed.
End always.

Create HintDb always discriminated.
#[export] Hint Resolve always_ret always_gets always_modify always_bind : always.
Ltac always_step :=
  match goal with
  | |- ∀ _, _ => intro
  | |- always (mret _) => apply always_ret
  | |- always (_ ≫= _) => apply always_bind
  | |- always (gets _) => apply always_gets
  | |- always (modify _) => apply always_modify
  | |- always (match ?x with _ => _ end) => destruct x
  | |- always (let _ := _ in _) => cbv zeta
  end.
Ltac always := repeat (first [always_step | solve [eauto with always]]).
