(* ===== verification/Strbuf.v ===== *)
(** * util/strbuf.c, util/strbuf.h, util/wrapper.c, util/abspath.c: growing strings

    A [struct strbuf] is the state of the programs here.  Its buffer is the shared
    one-byte [strbuf_slopbuf], NULL (for a moment, inside [strbuf_grow]) or bytes of
    its own, [None] for those that were never written.  [size_t] wraps at 2^64.
    [realloc_ok] says which requests [realloc] grants; [die] ends the process with
    128.  A failed [assert] is a [Fault]. *)

From S2P Require Import Prelude CString Prog.
Local Open Scope Z_scope.

(** ** The structure *)

Inductive buffer :=
  | Slop
  | Null
  | Own (bytes : list (option ascii)).

(* util/strbuf.h:60-64 strbuf *)
Record strbuf := Strbuf { alloc : Z; len : Z; buf : buffer }.
#[export] Instance eta_strbuf : Eta strbuf := λ r, Strbuf (alloc r) (len r) (buf r).

(* util/strbuf.h:66-66 STRBUF_INIT *)
Definition STRBUF_INIT : strbuf := Strbuf 0 0 Slop.

(* util/usage.c:34-38 die_builtin *)
Definition die {S A} : prog S A := exit 128.

(** The scratch programs on bytes that the functions below share: bytes from [pos]
    on replaced by [data], and [n] bytes read; outside the buffer is undefined. *)
Definition write_bytes (pos : Z) (data b : list (option ascii)) : option (list (option ascii)) :=
  if (0 <=? pos) && (pos + Z.of_nat (length data) <=? Z.of_nat (length b))
  then Some (take (Z.to_nat pos) b ++ data ++ drop (Z.to_nat pos + length data) b) else None.
Definition read_bytes (pos n : Z) (b : list (option ascii)) : option (list (option ascii)) :=
  if (0 <=? pos) && (0 <=? n) && (pos + n <=? Z.of_nat (length b))
  then Some (take (Z.to_nat n) (drop (Z.to_nat pos) b)) else None.

Definition own : prog strbuf (list (option ascii)) :=
  sb ← get; match buf sb with Own b => mret b | _ => fault end.
Definition memcpy (pos : Z) (data : list (option ascii)) : prog strbuf unit :=
  b ← own; b' ← must (write_bytes pos data b); modify (λ sb, sb <| buf := Own b' |>).
Definition memmove (dst src n : Z) : prog strbuf unit :=
  b ← own; d ← must (read_bytes src n b); memcpy dst d.
Definition c_assert (b : bool) : prog strbuf unit := if b then mret () else fault.

(* util/util.h:41-41 alloc_nr *)
Definition alloc_nr (x : Z) : Z := u64 (u64 (x + 16) * 3) / 2.

Section strbuf.
Context (realloc_ok : Z → bool).

(** [realloc] keeps the bytes there are and leaves the new ones unset. *)
(* util/wrapper.c:36-48 xrealloc *)
Definition xrealloc (b : buffer) (size : Z) : prog strbuf buffer :=
  let old := match b with Own b => b | _ => [] end in
  if realloc_ok size
  then mret (Own (take (Z.to_nat size) old ++ replicate (Z.to_nat size - length old) None))
  else die.

(* util/util.h:61-70 ALLOC_GROW *)
Definition ALLOC_GROW (nr : Z) : prog strbuf unit :=
  sb ← get;
  if alloc sb <? nr then
    let n := if alloc_nr (alloc sb) <? nr then nr else alloc_nr (alloc sb) in
    modify (λ sb, sb <| alloc := n |>) ;;
    b ← xrealloc (buf sb) n;
    modify (λ sb, sb <| buf := b |>)
  else mret ().

(* util/strbuf.c:64-71 strbuf_grow *)
Definition strbuf_grow (extra : Z) : prog strbuf unit :=
  sb ← get;
  if u64 (u64 (len sb + extra) + 1) <=? len sb then die
  else
    (if alloc sb =? 0 then modify (λ sb, sb <| buf := Null |>) else mret ()) ;;
    ALLOC_GROW (u64 (u64 (len sb + extra) + 1)).

(* util/strbuf.c:39-45 strbuf_init *)
Definition strbuf_init (hint : Z) : prog strbuf unit :=
  modify (λ _, STRBUF_INIT) ;;
  if hint =? 0 then mret () else strbuf_grow (u64 hint).

(* util/strbuf.c:47-53 strbuf_release *)
Definition strbuf_release : prog strbuf unit :=
  sb ← get;
  if alloc sb =? 0 then mret ()
  else modify (λ sb, sb <| buf := Null |>) ;; strbuf_init 0.

(** The string and its length; [None] is the NULL of a buffer never grown. *)
(* util/strbuf.c:55-62 strbuf_detach *)
Definition strbuf_detach : prog strbuf (option (list (option ascii)) * Z) :=
  sb ← get;
  res ← (if alloc sb =? 0 then mret None else b ← own; mret (Some b));
  strbuf_init 0 ;;
  mret (res, len sb).

(* util/strbuf.h:74-76 strbuf_avail *)
Definition strbuf_avail (sb : strbuf) : Z :=
  if alloc sb =? 0 then 0 else s64 (u64 (alloc sb - len sb - 1)).

(* util/strbuf.h:80-86 strbuf_setlen *)
Definition strbuf_setlen (n : Z) : prog strbuf unit :=
  sb ← get;
  (if alloc sb =? 0 then strbuf_grow 0 else mret ()) ;;
  sb ← get;
  c_assert (n <? alloc sb) ;;
  modify (λ sb, sb <| len := n |>) ;;
  memcpy n [Some NUL].

(* util/strbuf.c:73-91 strbuf_splice *)
Definition strbuf_splice (pos n : Z) (data : option (list ascii)) (dlen : Z) : prog strbuf unit :=
  sb ← get;
  if u64 (pos + n) <? pos then die
  else if len sb <? pos then die
  else if len sb <? u64 (pos + n) then die
  else
    (if n <=? dlen then strbuf_grow (dlen - n) else mret ()) ;;
    sb ← get;
    memmove (pos + dlen) (pos + n) (len sb - pos - n) ;;
    match data with
    | Some d => c_assert (dlen <=? Z.of_nat (length d)) ;; memcpy pos (Some <$> take (Z.to_nat dlen) d)
    | None => mret ()
    end ;;
    strbuf_setlen (u64 (len sb + dlen - n)).

(* util/strbuf.c:93-96 strbuf_remove *)
Definition strbuf_remove (pos n : Z) : prog strbuf unit := strbuf_splice pos n None 0.

(* util/strbuf.c:98-103 strbuf_add *)
Definition strbuf_add (data : list ascii) : prog strbuf unit :=
  let n := Z.of_nat (length data) in
  strbuf_grow n ;;
  sb ← get;
  memcpy (len sb) (Some <$> data) ;;
  strbuf_setlen (u64 (len sb + n)).

(* util/strbuf.h:98-100 strbuf_addstr *)
Definition strbuf_addstr (s : string) : prog strbuf unit := strbuf_add (String.list_ascii_of_string s).

(* util/strbuf.h:89-93 strbuf_addch *)
Definition strbuf_addch (c : ascii) : prog strbuf unit :=
  strbuf_grow 1 ;;
  sb ← get;
  memcpy (len sb) [Some c] ;;
  modify (λ sb, sb <| len := u64 (len sb + 1) |>) ;;
  sb ← get;
  memcpy (len sb) [Some NUL].

(** [vsnprintf] of a format that prints [out] into the [size] bytes from [pos]: what
    fits with its NUL; the length of [out], or -1 when no [int] holds it. *)
Definition vsnprintf (pos size : Z) (out : list ascii) : prog strbuf Z :=
  if INT_MAX <? Z.of_nat (length out) then mret (-1)
  else
    (if size <=? 0 then mret ()
     else memcpy pos ((Some <$> take (Z.to_nat (size - 1)) out) ++ [Some NUL])) ;;
    mret (Z.of_nat (length out)).

(* util/strbuf.c:105-127 strbuf_addf *)
Definition strbuf_addf (out : list ascii) : prog strbuf unit :=
  sb ← get;
  (if strbuf_avail sb =? 0 then strbuf_grow 64 else mret ()) ;;
  sb ← get;
  n ← vsnprintf (len sb) (u64 (alloc sb - len sb)) out;
  if n <? 0 then die
  else
    sb ← get;
    (if strbuf_avail sb <? n then
       strbuf_grow n ;;
       sb ← get;
       n ← vsnprintf (len sb) (u64 (alloc sb - len sb)) out;
       sb ← get;
       if strbuf_avail sb <? n then die else mret ()
     else mret ()) ;;
    sb ← get;
    strbuf_setlen (u64 (len sb + n)).

(** *** strbuf_read

    The descriptor is the list of what [read] finds: a chunk of bytes, of which a
    call takes as many as it asks for, or an error; at the end of the list, the
    end of the file. *)
Inductive chunk :=
  | Chunk (data : list ascii)
  | ReadError.

Definition read_fd (fd : list chunk) (n : Z) : option (list ascii) * list chunk :=
  match fd with
  | [] => (Some [], [])
  | ReadError :: fd' => (None, fd')
  | Chunk d :: fd' =>
      (Some (take (Z.to_nat n) d),
       match drop (Z.to_nat n) d with [] => fd' | d' => Chunk d' :: fd' end)
  end.

(* util/strbuf.c:135-150 strbuf_read *)
Fixpoint read_loop (fuel : nat) (oldlen oldalloc : Z) (fd : list chunk) : prog strbuf bool :=
  match fuel with
  | O => fault
  | S fuel' =>
      sb ← get;
      match read_fd fd (u64 (alloc sb - len sb - 1)) with
      | (None, _) =>
          (if oldalloc =? 0 then strbuf_release else strbuf_setlen oldlen) ;; mret false
      | (Some [], _) => mret true
      | (Some d, fd') =>
          memcpy (len sb) (Some <$> d) ;;
          modify (λ sb, sb <| len := u64 (len sb + Z.of_nat (length d)) |>) ;;
          strbuf_grow 8192 ;;
          read_loop fuel' oldlen oldalloc fd'
      end
  end.

(** As many steps as there are bytes and chunks, and one to see the end. *)
Fixpoint read_fuel (fd : list chunk) : nat :=
  match fd with
  | [] => 1
  | Chunk d :: fd' => S (length d) + read_fuel fd'
  | ReadError :: _ => 1
  end.

(* util/strbuf.c:129-154 strbuf_read *)
Definition strbuf_read (fd : list chunk) (hint : Z) : prog strbuf Z :=
  sb ← get;
  strbuf_grow (if hint =? 0 then 8192 else u64 hint) ;;
  ok ← read_loop (read_fuel fd) (len sb) (alloc sb) fd;
  if (ok : bool) then
    sb' ← get;
    memcpy (len sb') [Some NUL] ;;
    mret (s64 (u64 (len sb' - len sb)))
  else mret (-1).

(** ** Names of files *)

(* util/util.h:83-86 is_absolute_path *)
Definition is_absolute_path (path : string) : bool :=
  match path with String c _ => Ascii.eqb c slash | EmptyString => false end.

(** The C string at the start of a detached buffer; [None]: no NUL, or NULL. *)
Fixpoint c_string (b : list (option ascii)) : option string :=
  match b with
  | Some c :: b' => if Ascii.eqb c NUL then Some EmptyString else String c <$> c_string b'
  | _ => None
  end.

(* util/abspath.c:7-16 prefix_filename *)
Definition prefix_filename (pfx : option string) (arg : string) : prog strbuf string :=
  match pfx with
  | Some pfx => if is_absolute_path arg then mret () else strbuf_addstr pfx
  | None => mret ()
  end ;;
  strbuf_addstr arg ;;
  '(res, _) ← strbuf_detach;
  must (res ≫= c_string).

(** In any program: the local [struct strbuf path] starts as [STRBUF_INIT]. *)
Definition with_strbuf {S A} (m : prog strbuf A) : prog S A := λ s,
  match m STRBUF_INIT with
  | Done a _ => Done a s
  | Exited c _ => Exited c s
  | Fault => Fault
  end.

(** The new value of [*file]. *)
(* util/abspath.c:18-24 fix_filename *)
Definition fix_filename {S} (prefix file : option string) : prog S (option string) :=
  match file, prefix with
  | Some f, Some _ =>
      if is_absolute_path f || strcmp_eq "-" f then mret file
      else f' ← with_strbuf (prefix_filename prefix f); mret (Some f')
  | _, _ => mret file
  end.
End strbuf.

(** ** Contents

    [fits sb s n]: the buffer starts with the bytes of [s] and has room for [n]
    more and the NUL; [holds sb s], the invariant of strbuf.h: the buffer is the
    string [s], with its NUL, or it is the shared empty one. *)

Section contents.
Implicit Types sb : strbuf.
Implicit Types s : list ascii.

Definition fits sb s (n : Z) : Prop :=
  ∃ junk, buf sb = Own ((Some <$> s) ++ junk) ∧ len sb = Z.of_nat (length s) ∧
    alloc sb = Z.of_nat (length s + length junk) ∧ n < Z.of_nat (length junk) ∧ alloc sb < 2 ^ 63.

Definition owned sb s : Prop :=
  ∃ junk, buf sb = Own ((Some <$> s) ++ Some NUL :: junk) ∧ len sb = Z.of_nat (length s) ∧
    alloc sb = Z.of_nat (length s + S (length junk)) ∧ alloc sb < 2 ^ 63.
Definition holds sb s : Prop := sb = STRBUF_INIT ∧ s = [] ∨ owned sb s.

(** What an operation that appends starts from. *)
Definition begins sb s : Prop := sb = STRBUF_INIT ∧ s = [] ∨ fits sb s 0.

Lemma holds_begins sb s : holds sb s → begins sb s.
Proof.
  intros [?|(junk & Hb & Hl & Ha & Hw)]; [by left|right].
  exists (Some NUL :: junk). simpl. repeat split; [done..|lia|done].
Qed.
Lemma fits_mono sb s n m : m <= n → fits sb s n → fits sb s m.
Proof. intros Hm (j & ?&?&?&?&?). exists j. repeat split; [done..|lia|done]. Qed.
End contents.

Lemma owned_holds sb s : owned sb s → holds sb s.
Proof. by right. Qed.
Lemma owned_alloc sb s : owned sb s → alloc sb ≠ 0.
Proof. intros (j & _ & _ & -> & _). lia. Qed.
Lemma wpx_owned X (m : prog strbuf unit) s sb :
  wpx X m (λ _ sb', owned sb' s) sb → wpx X m (λ _ sb', holds sb' s) sb.
Proof. intros H. eapply wpx_mono; [exact H|]. intros [] sb'. apply owned_holds. Qed.

(** The bytes of a buffer made of three parts. *)
Lemma write_mid (a b c d : list (option ascii)) :
  length b = length d →
  write_bytes (Z.of_nat (length a)) d (a ++ b ++ c) = Some (a ++ d ++ c).
Proof.
  intros Hl. unfold write_bytes. rewrite !length_app, Hl.
  destruct (_ && _) eqn:Hc; [|apply andb_false_iff in Hc as [?%Z.leb_gt|?%Z.leb_gt]; lia].
  f_equal. rewrite Nat2Z.id, take_app_length.
  rewrite (drop_app_add a (b ++ c) (length d)).
  by rewrite <- Hl, drop_app_length.
Qed.
Lemma read_mid (a b c : list (option ascii)) :
  read_bytes (Z.of_nat (length a)) (Z.of_nat (length b)) (a ++ b ++ c) = Some b.
Proof.
  unfold read_bytes. rewrite !length_app.
  destruct (_ && _) eqn:Hc.
  - by rewrite !Nat2Z.id, drop_app_length, take_app_length.
  - rewrite !andb_false_iff, !Z.leb_gt in Hc. lia.
Qed.

(** ** The operations on contents

    Each ends in the buffer it should, or the process ends because [realloc] refused. *)

Lemma write_at (pos : Z) (a b c d : list (option ascii)) :
  pos = Z.of_nat (length a) → length b = length d →
  write_bytes pos d (a ++ b ++ c) = Some (a ++ d ++ c).
Proof. intros ->. apply write_mid. Qed.

Lemma memcpy_wpx X pos a b c d (Q : unit → strbuf → Prop) sb :
  buf sb = Own (a ++ b ++ c) → pos = Z.of_nat (length a) → length b = length d →
  Q () (sb <| buf := Own (a ++ d ++ c) |>) →
  wpx X (memcpy pos d) Q sb.
Proof.
  intros Hb -> Hl HQ. unfold memcpy, own, wpx, mbind, prog_bind. simpl. rewrite Hb. simpl.
  by rewrite write_mid.
Qed.

Lemma memmove_wpx X dst src n l d (Q : unit → strbuf → Prop) sb :
  buf sb = Own l → read_bytes src n l = Some d → wpx X (memcpy dst d) Q sb →
  wpx X (memmove dst src n) Q sb.
Proof.
  intros Hb Hr HQ. unfold memmove, own, wpx, mbind, prog_bind, get. rewrite Hb.
  unfold mret, prog_ret. by rewrite Hr.
Qed.

Section specs.
Context (realloc_ok : Z → bool).
(** No object is larger than PTRDIFF_MAX. *)
Hypothesis realloc_max : ∀ n, realloc_ok n = true → n < 2 ^ 63.
(** The largest request there is, to make room for a string of [k] bytes and its NUL. *)
Definition room (k : Z) : Z := (k + 16) * 3 / 2.
(** The process ends because [realloc] refused one that is no larger. *)
Definition oom (k c : Z) : Prop := c = 128 ∧ ∃ n, 0 < n <= room k ∧ realloc_ok n = false.
Notation safe k := (wpx (oom k)).

Lemma oom_mono k k' c : k <= k' → oom k c → oom k' c.
Proof.
  intros Hk [-> (n & Hn & Hr)]. split; [done|]. exists n. split; [|done]. split; [lia|]. etrans; [apply Hn|]. unfold room.
  apply Z.div_le_mono; lia.
Qed.

Lemma xrealloc_spec k b l size :
  b = Own l ∨ b = Null ∧ l = [] → Z.of_nat (length l) <= size → 0 < size <= room k →
  ∀ sb, safe k (xrealloc realloc_ok b size) (λ b' sb', sb' = sb ∧ ∃ new, b' = Own (l ++ new) ∧
    Z.of_nat (length l + length new) = size ∧ size < 2 ^ 63) sb.
Proof.
  intros Hb Hl Hk sb. unfold xrealloc.
  assert (Ho : match b with Own b => b | _ => [] end = l) by (destruct Hb as [->|[-> ->]]; done).
  rewrite Ho. destruct (realloc_ok size) eqn:Hr; [|split; eauto].
  apply wpx_ret. split; [done|]. rewrite take_ge by lia.
  apply realloc_max in Hr. eexists; split; [done|]. rewrite length_replicate. lia.
Qed.

Lemma ALLOC_GROW_spec k sb l nr :
  buf sb = Own l ∨ buf sb = Null ∧ l = [] → alloc sb = Z.of_nat (length l) → alloc sb < 2 ^ 63 →
  0 < nr < 2 ^ 64 → nr <= k + 1 →
  safe k (ALLOC_GROW realloc_ok nr) (λ _ sb', len sb' = len sb ∧ ∃ new, buf sb' = Own (l ++ new) ∧
    alloc sb' = Z.of_nat (length l + length new) ∧ nr <= alloc sb' < 2 ^ 63) sb.
Proof.
  intros Hb Ha Hw Hnr Hk. unfold ALLOC_GROW. apply wpx_bind, wpx_get.
  destruct (Z.ltb_spec (alloc sb) nr).
  - set (n := if alloc_nr (alloc sb) <? nr then nr else alloc_nr (alloc sb)).
    assert (nr <= n) as Hn by (subst n; destruct (Z.ltb_spec (alloc_nr (alloc sb)) nr); lia).
    assert (n <= room k) as Hroom.
    { assert (alloc_nr (alloc sb) <= room k).
      { unfold alloc_nr, room. apply Z.div_le_mono; [done|]. wrap_lia. }
      subst n. destruct (alloc_nr (alloc sb) <? nr); [|done]. unfold room. apply Z.div_le_lower_bound; lia. }
    apply wpx_bind, wpx_modify, wpx_bind. simpl.
    eapply wpx_mono; [apply (xrealloc_spec _ _ l); [done|lia|lia]|].
    intros b s' (-> & new & -> & Hl & Hmax). apply wpx_modify. simpl.
    split; [done|]. exists new. split_and!; (done || lia).
  - apply wpx_ret. split; [done|]. destruct Hb as [Hb|[_ ->]]; [|simpl in *; lia].
    exists []. rewrite app_nil_r. simpl. split_and!; (done || lia).
Qed.

Lemma begins_bytes sb s :
  begins sb s → ∃ l junk, l = (Some <$> s) ++ junk ∧ len sb = Z.of_nat (length s) ∧
    alloc sb = Z.of_nat (length l) ∧ alloc sb < 2 ^ 63 ∧
    (sb = STRBUF_INIT ∧ l = [] ∨ buf sb = Own l ∧ 0 < alloc sb).
Proof.
  intros [[-> ->]|(j & ?&?&?&?&?)].
  - exists [], []. simpl. split_and!; try done. by left.
  - exists ((Some <$> s) ++ j), j. rewrite length_app, length_fmap.
    split_and!; try done. right. split; [done|lia].
Qed.

(** Growing: there is room, and what was there is kept.  Only a buffer that had
    none of its own comes out without a NUL. *)
Lemma grow_spec k sb s extra :
  begins sb s → 0 <= extra → Z.of_nat (length s) + extra + 1 < 2 ^ 64 → Z.of_nat (length s) + extra <= k →
  safe k (strbuf_grow realloc_ok extra) (λ _ sb', fits sb' s extra ∧
    (holds sb s → sb ≠ STRBUF_INIT → holds sb' s)) sb.
Proof.
  intros Hb He Hw Hk. destruct (begins_bytes _ _ Hb) as (l & junk & Hl & Hlen & Ha & Haw & Hown).
  unfold strbuf_grow. apply wpx_bind, wpx_get. rewrite Hlen.
  rewrite (u64_id (_ + extra)), u64_id by lia.
  destruct (Z.leb_spec (Z.of_nat (length s) + extra + 1) (Z.of_nat (length s))); [lia|].
  set (sb1 := if alloc sb =? 0 then sb <| buf := Null |> else sb).
  assert (alloc sb1 = alloc sb ∧ len sb1 = len sb ∧ (buf sb1 = Own l ∨ buf sb1 = Null ∧ l = []))
    as (Ha1 & Hl1 & Hb1).
  { subst sb1. destruct Hown as [[-> ->]|[Ho ?]]; [by auto|].
    destruct (Z.eqb_spec (alloc sb) 0); [lia|]. auto. }
  apply wpx_bind. apply (wpx_mono _ _ (λ _ s', s' = sb1)).
  { subst sb1. by destruct (alloc sb =? 0). }
  intros _ s' ->. eapply wpx_mono; [apply (ALLOC_GROW_spec k sb1 l); (done || lia || congruence)|].
  intros _ sb' (Hl' & new & Hb' & Ha' & Hn). rewrite Hl1, Hlen in Hl'.
  rewrite Hl, length_app, length_fmap in Ha'. split.
  - exists (junk ++ new). rewrite (assoc_L (++)), <- Hl, length_app. split_and!; (done || lia).
  - intros [[-> ->]|(j & Hbj & _ & _ & _)] Hne; [done|]. right.
    assert (junk = Some NUL :: j) as ->.
    { destruct Hown as [[-> _]|[Ho _]]; [done|]. rewrite Hbj, Hl in Ho. injection Ho as Ho.
      by apply app_inv_head in Ho. }
    exists (j ++ new). rewrite Hb', Hl, <- (assoc_L (++)), length_app. simpl in *.
    split_and!; (done || lia).
Qed.

(** [len] set to the length of a prefix of the bytes: the string is that prefix. *)
Lemma setlen_spec k sb s x junk n :
  buf sb = Own ((Some <$> s) ++ x :: junk) → alloc sb = Z.of_nat (length s + S (length junk)) →
  alloc sb < 2 ^ 63 → n = Z.of_nat (length s) →
  safe k (strbuf_setlen realloc_ok n) (λ _ sb', owned sb' s) sb.
Proof.
  intros Hb Ha Hw ->. unfold strbuf_setlen. apply wpx_bind, wpx_get, wpx_bind.
  destruct (Z.eqb_spec (alloc sb) 0); [lia|]. apply wpx_ret, wpx_bind, wpx_get, wpx_bind.
  destruct (Z.ltb_spec (Z.of_nat (length s)) (alloc sb)); [|lia].
  apply wpx_ret, wpx_bind, wpx_modify.
  eapply (memcpy_wpx _ _ _ [x]); [exact Hb|by rewrite length_fmap|done|].
  exists junk. simpl. split_and!; (done || lia).
Qed.

(** The free bytes after the string, split where [n] more would end. *)
Lemma fits_split sb s n :
  fits sb s n → 0 <= n → ∃ a x b, buf sb = Own ((Some <$> s) ++ a ++ x :: b) ∧ len sb = Z.of_nat (length s) ∧
    Z.of_nat (length a) = n ∧ alloc sb = Z.of_nat (length s + (length a + S (length b))) ∧ alloc sb < 2 ^ 63.
Proof.
  intros (j & Hb & Hl & Ha & Hn & Hw) H0.
  destruct (drop (Z.to_nat n) j) as [|x b] eqn:Hd.
  { apply (f_equal length) in Hd. rewrite length_drop in Hd. simpl in Hd. lia. }
  exists (take (Z.to_nat n) j), x, b. rewrite <- Hd, take_drop.
  apply (f_equal length) in Hd. rewrite length_drop in Hd. simpl in Hd.
  rewrite length_take. split_and!; (done || lia).
Qed.

(** Bytes put after the string and counted. *)
Lemma append_spec k sb s data :
  fits sb s (Z.of_nat (length data)) → Z.of_nat (length s) + Z.of_nat (length data) + 1 < 2 ^ 64 →
  safe k (memcpy (len sb) (Some <$> data);;
          strbuf_setlen realloc_ok (u64 (len sb + Z.of_nat (length data))))
    (λ _ sb', owned sb' (s ++ data)) sb.
Proof.
  intros (a & x & b & Hb & Hl & Hn & Ha & Hw)%fits_split Hlen; [|lia].
  rewrite Hl, u64_id by lia. apply wpx_bind.
  eapply memcpy_wpx; [done|by rewrite length_fmap|rewrite length_fmap; lia|].
  apply (setlen_spec _ _ _ x b); simpl; rewrite ?fmap_app, ?length_app, <- ?(assoc_L (++)); (done || lia).
Qed.

Lemma add_spec k sb s data :
  begins sb s → Z.of_nat (length s) + Z.of_nat (length data) + 1 < 2 ^ 64 →
  Z.of_nat (length s) + Z.of_nat (length data) <= k →
  safe k (strbuf_add realloc_ok data) (λ _ sb', owned sb' (s ++ data)) sb.
Proof.
  intros Hb Hw Hk. unfold strbuf_add. apply wpx_bind.
  eapply wpx_mono; [apply grow_spec; [done|lia..]|]. intros _ sb' [Hf _].
  apply wpx_bind, wpx_get. by apply append_spec.
Qed.

Lemma addch_spec k sb s c :
  begins sb s → Z.of_nat (length s) + 2 < 2 ^ 64 → Z.of_nat (length s) + 1 <= k →
  safe k (strbuf_addch realloc_ok c) (λ _ sb', holds sb' (s ++ [c])) sb.
Proof.
  intros Hb Hw Hk. unfold strbuf_addch. apply wpx_bind.
  eapply wpx_mono; [apply grow_spec; [done|lia..]|].
  intros _ sb' [(a & x & b & Hb' & Hl & Hn & Ha & Haw)%fits_split _]; [|lia].
  apply wpx_bind, wpx_get, wpx_bind.
  eapply memcpy_wpx; [done|by rewrite length_fmap, Hl|simpl; lia|].
  apply wpx_bind, wpx_modify, wpx_bind, wpx_get. simpl. rewrite Hl, u64_id by lia.
  eapply (memcpy_wpx _ _ ((Some <$> s) ++ [Some c]) [x]); simpl.
  - by rewrite <- (assoc_L (++)).
  - rewrite length_app, length_fmap. simpl. lia.
  - done.
  - right. exists b. rewrite fmap_app, length_app. simpl. split_and!; (done || lia).
Qed.

(** [vsnprintf]: as much of [out] as there is room for, and the NUL. *)
Lemma vsnprintf_spec sb s out :
  fits sb s 0 → Z.of_nat (length out) <= INT_MAX →
  ∃ junk, let out' := take (Z.to_nat (alloc sb - len sb - 1)) out in
    vsnprintf (len sb) (u64 (alloc sb - len sb)) out sb =
      Done (Z.of_nat (length out)) (sb <| buf := Own ((Some <$> s ++ out') ++ Some NUL :: junk) |>) ∧
    alloc sb = Z.of_nat (length (s ++ out') + S (length junk)) ∧
    fits (sb <| buf := Own ((Some <$> s ++ out') ++ Some NUL :: junk) |>) s 0.
Proof.
  intros Hf Ho. pose proof Hf as (j & _ & Hl & Ha & Hn & Hw).
  set (out' := take (Z.to_nat (alloc sb - len sb - 1)) out).
  assert (Hf' : fits sb s (Z.of_nat (length out'))).
  { destruct Hf as (j' & ?&?&?&?&?). exists j'. subst out'. rewrite length_take.
    split_and!; (done || lia). }
  apply fits_split in Hf' as (a & x & b & Hb & _ & Hna & Ha' & _); [|lia]. exists b.
  unfold vsnprintf. destruct (Z.ltb_spec INT_MAX (Z.of_nat (length out))); [lia|].
  rewrite u64_id by lia. destruct (Z.leb_spec (alloc sb - len sb) 0); [lia|].
  unfold memcpy, own, mbind, prog_bind, mret, prog_ret. simpl. rewrite Hb. simpl.
  fold out'. rewrite length_app. split_and!; [|lia|].
  2: { exists ((Some <$> out') ++ Some NUL :: b). simpl.
    rewrite fmap_app, <- (assoc_L (++)), length_app, length_fmap. simpl. split_and!; (done || lia). }
  rewrite (cons_middle x), (assoc_L (++) a [x] b).
  erewrite write_at; [|by rewrite length_fmap, Hl|rewrite !length_app, length_fmap; simpl; lia].
  simpl. by rewrite fmap_app, <- !(assoc_L (++)).
Qed.

Lemma avail_fits sb s n : fits sb s n → 0 <= n → strbuf_avail sb = alloc sb - len sb - 1 ∧ n <= strbuf_avail sb.
Proof.
  intros (j & _ & Hl & Ha & Hn & Hw) H0. unfold strbuf_avail.
  destruct (Z.eqb_spec (alloc sb) 0); [lia|]. rewrite u64_id, s64_id by lia. lia.
Qed.

(** The end of [strbuf_addf], from a buffer with room for all of [out]. *)
Lemma addf_end k sb s out :
  fits sb s (Z.of_nat (length out)) → Z.of_nat (length out) <= INT_MAX →
  ∃ sb', vsnprintf (len sb) (u64 (alloc sb - len sb)) out sb = Done (Z.of_nat (length out)) sb' ∧
    strbuf_avail sb' = strbuf_avail sb ∧
    safe k (strbuf_setlen realloc_ok (u64 (len sb' + Z.of_nat (length out)))) (λ _ sb', owned sb' (s ++ out)) sb'.
Proof.
  intros Hf Ho. destruct (avail_fits _ _ _ Hf) as [Hav Hle]; [lia|].
  pose proof Hf as (j & _ & Hl & _ & _ & Hw).
  destruct (vsnprintf_spec sb s out) as (junk & -> & Ha & _); [by eapply fits_mono; [|done]; lia|done|].
  rewrite take_ge in * by lia. eexists. split; [done|]. split; [done|].
  rewrite length_app in Ha. simpl. rewrite Hl, u64_id by lia.
  apply (setlen_spec _ _ _ (Some NUL) junk); simpl; rewrite ?length_app; (done || lia).
Qed.

(** Formatted output: appended whole, whether or not the first attempt was cut short. *)
Lemma addf_spec k sb s out :
  begins sb s → Z.of_nat (length out) <= INT_MAX → Z.of_nat (length s) < 2 ^ 63 →
  Z.of_nat (length s) + Z.max 64 (Z.of_nat (length out)) <= k →
  safe k (strbuf_addf realloc_ok out) (λ _ sb', owned sb' (s ++ out)) sb.
Proof.
  intros Hb Ho Hs Hk. unfold strbuf_addf. apply wpx_bind, wpx_get, wpx_bind.
  apply (wpx_mono _ _ (λ _ sb1, fits sb1 s 0)).
  { destruct (Z.eqb_spec (strbuf_avail sb) 0).
    - eapply wpx_mono; [apply grow_spec; [done|wrap_lia..]|].
      intros _ sb' [Hf _]. by eapply fits_mono; [|done].
    - apply wpx_ret. by destruct Hb as [[-> _]|?]. }
  clear sb Hb. intros _ sb Hf. apply wpx_bind, wpx_get, wpx_bind.
  destruct (avail_fits _ _ _ Hf) as [Hav _]; [lia|].
  destruct (Z.le_gt_cases (Z.of_nat (length out)) (strbuf_avail sb)) as [Hle|Hgt].
  - destruct (addf_end k sb s out) as (sb' & Hr & Ha & Hd); [|done|].
    { destruct Hf as (j & ?&?&?&?&?). exists j. split_and!; (done || lia). }
    unfold wpx at 1. rewrite Hr, <- Ha in *. destruct (Z.ltb_spec (Z.of_nat (length out)) 0); [lia|].
    apply wpx_bind, wpx_get, wpx_bind.
    destruct (Z.ltb_spec (strbuf_avail sb') (Z.of_nat (length out))); [lia|].
    by apply wpx_ret, wpx_bind, wpx_get.
  - destruct (vsnprintf_spec sb s out) as (junk & Hr & _ & Hb1); [done..|].
    set (out' := take _ out) in *. pose proof Hf as (j & _ & Hl & _ & _ & Hw).
    unfold wpx at 1. rewrite Hr. destruct (Z.ltb_spec (Z.of_nat (length out)) 0); [lia|].
    set (sb1 := sb <| buf := _ |>). apply wpx_bind, wpx_get, wpx_bind.
    change (strbuf_avail sb1) with (strbuf_avail sb).
    destruct (Z.ltb_spec (strbuf_avail sb) (Z.of_nat (length out))); [|lia].
    apply wpx_bind. eapply wpx_mono; [apply grow_spec; [by right|wrap_lia..]|].
    intros _ sb2 [Hf2 _]. destruct (avail_fits _ _ _ Hf2) as [_ Hle]; [lia|].
    destruct (addf_end k sb2 s out) as (sb3 & Hr3 & Ha3 & Hd); [done..|].
    apply wpx_bind, wpx_get, wpx_bind. unfold wpx at 1. rewrite Hr3. rewrite <- Ha3 in Hle.
    apply wpx_bind, wpx_get.
    destruct (Z.ltb_spec (strbuf_avail sb3) (Z.of_nat (length out))); [lia|].
    by apply wpx_ret, wpx_bind, wpx_get.
Qed.

(** Removing [b] from between [a] and [c]. *)
Lemma remove_spec k sb a b c :
  holds sb (a ++ b ++ c) → Z.of_nat (length (a ++ b ++ c)) < 2 ^ 63 →
  Z.of_nat (length (a ++ b ++ c)) <= k →
  safe k (strbuf_remove realloc_ok (Z.of_nat (length a)) (Z.of_nat (length b)))
    (λ _ sb', owned sb' (a ++ c)) sb.
Proof.
  intros Hh Hw Hk. unfold strbuf_remove, strbuf_splice. apply wpx_bind, wpx_get.
  assert (len sb = Z.of_nat (length (a ++ b ++ c))) as Hl.
  { by destruct Hh as [[-> ->]|(j & ?&?&?)]. }
  rewrite !length_app in *. rewrite Hl, u64_id by lia.
  do 2 (rewrite (proj2 (Z.ltb_ge _ _)) by lia). rewrite (proj2 (Z.ltb_ge _ _)) by lia.
  apply wpx_bind. apply (wpx_mono _ _ (λ _ sb1, fits sb1 (a ++ b ++ c) 0)).
  { destruct (Z.leb_spec (Z.of_nat (length b)) 0).
    - eapply wpx_mono; [apply grow_spec; [by apply holds_begins|lia|rewrite !length_app; lia|rewrite !length_app; lia]|].
      intros _ sb' [Hf _]. by eapply fits_mono; [|done]; lia.
    - apply wpx_ret. destruct (holds_begins _ _ Hh) as [[_ Hn]|?]; [|done].
      apply (f_equal length) in Hn. rewrite !length_app in Hn. simpl in Hn. lia. }
  clear sb Hh Hl. intros _ sb ([|x j] & Hb & Hl & Ha & Hj & Haw); [simpl in Hj; lia|].
  apply wpx_bind, wpx_get, wpx_bind. rewrite !fmap_app, <- !(assoc_L (++)) in Hb. rewrite !length_app in *.
  eapply (memmove_wpx _ _ _ _ _ (Some <$> c)); [done|..].
  { rewrite (assoc_L (++)), Hl.
    pose proof (read_mid ((Some <$> a) ++ (Some <$> b)) (Some <$> c) (x :: j)) as Hr.
    rewrite length_app, !length_fmap in Hr. rewrite <- Hr. f_equal; lia. }
  set (bc := (Some <$> b) ++ (Some <$> c)).
  assert (length bc = (length b + length c)%nat) as Hbc by (subst bc; by rewrite length_app, !length_fmap).
  eapply (memcpy_wpx _ _ (Some <$> a) (take (length c) bc) (drop (length c) bc ++ x :: j)).
  - rewrite (assoc_L (++) (take _ _)), take_drop. subst bc. by rewrite <- (assoc_L (++)).
  - rewrite length_fmap. lia.
  - rewrite length_fmap, length_take. lia.
  - apply wpx_bind, wpx_ret. rewrite Hl, u64_id by lia.
    destruct (drop (length c) bc ++ x :: j) as [|y r] eqn:Hy; [by destruct (drop _ bc)|].
    apply (f_equal length) in Hy. rewrite length_app, length_drop in Hy. simpl in Hy.
    apply (setlen_spec _ _ _ y r); simpl.
    + by rewrite fmap_app, <- (assoc_L (++)).
    + rewrite length_app. simpl in Ha. lia.
    + done.
    + rewrite length_app. lia.
Qed.

(** A range that does not lie in the string ends the process. *)
Lemma remove_die sb s pos n :
  holds sb s → 0 <= pos < 2 ^ 64 → 0 <= n < 2 ^ 64 → Z.of_nat (length s) < pos + n →
  strbuf_remove realloc_ok pos n sb = Exited 128 sb.
Proof.
  intros Hh Hp Hn Hlt. assert (len sb = Z.of_nat (length s)) as Hl.
  { by destruct Hh as [[-> ->]|(j & ?&?&?)]. }
  unfold strbuf_remove, strbuf_splice, get, mbind, prog_bind. rewrite Hl.
  destruct (Z.ltb_spec (u64 (pos + n)) pos); [done|].
  destruct (Z.ltb_spec (Z.of_nat (length s)) pos); [done|].
  destruct (Z.ltb_spec (Z.of_nat (length s)) (u64 (pos + n))); [done|].
  exfalso. assert (u64 (pos + n) = pos + n ∨ u64 (pos + n) = pos + n - 2 ^ 64) as []; wrap_lia.
Qed.

Lemma release_spec sb s : holds sb s → strbuf_release realloc_ok sb = Done () STRBUF_INIT.
Proof.
  intros [[-> _]|(j & Hb & _ & Ha & _)]; [done|]. unfold strbuf_release, get, mbind, prog_bind.
  destruct (Z.eqb_spec (alloc sb) 0); [lia|]. done.
Qed.

(** What is detached is the string with its NUL; nothing, when the buffer never grew. *)
Lemma detach_spec sb s :
  holds sb s → ∃ res, strbuf_detach realloc_ok sb = Done (res, Z.of_nat (length s)) STRBUF_INIT ∧
    match res with
    | Some b => ∃ junk, b = (Some <$> s) ++ Some NUL :: junk
    | None => sb = STRBUF_INIT ∧ s = []
    end.
Proof.
  intros [[-> ->]|(j & Hb & Hl & Ha & _)]; [by exists None|].
  exists (Some ((Some <$> s) ++ Some NUL :: j)). split; [|by eexists].
  unfold strbuf_detach, own, get, mbind, prog_bind. simpl.
  destruct (Z.eqb_spec (alloc sb) 0); [lia|]. by rewrite Hb, Hl.
Qed.

(** What [strbuf_read] reads: everything up to the end of the file, or an error. *)
Fixpoint fd_bytes (fd : list chunk) : option (list ascii) :=
  match fd with
  | [] => Some []
  | ReadError :: _ => None
  | Chunk [] :: _ => Some []
  | Chunk d :: fd' => (d ++.) <$> fd_bytes fd'
  end.

(** The bytes it hands out before that. *)
Fixpoint fd_data (fd : list chunk) : list ascii :=
  match fd with
  | [] | ReadError :: _ | Chunk [] :: _ => []
  | Chunk d :: fd' => d ++ fd_data fd'
  end.

(** One [read]: at most [n] bytes, at least one unless the file is at its end, and
    the rest is left. *)
Lemma read_fd_spec fd n :
  0 < n →
  match read_fd fd n with
  | (None, _) => fd_bytes fd = None
  | (Some [], _) => fd_bytes fd = Some []
  | (Some d, fd') => Z.of_nat (length d) <= n ∧ fd_bytes fd = (d ++.) <$> fd_bytes fd' ∧
                     (length d + read_fuel fd' <= read_fuel fd)%nat ∧
                     (length d + length (fd_data fd') = length (fd_data fd))%nat
  end.
Proof.
  intros Hn. destruct fd as [|[[|c d]|] fd]; [done| |simpl|done].
  { simpl. by rewrite take_nil. }
  set (k := Z.to_nat n). destruct k as [|k'] eqn:Hk; [lia|]. simpl.
  pose proof (take_drop k' d) as Htd.
  split; [rewrite length_take; lia|].
  assert (length (take k' d) + length (drop k' d) = length d)%nat as Hlen.
  { by rewrite <- length_app, Htd. }
  destruct (drop k' d) as [|c' d'] eqn:Hd; simpl in *.
  - rewrite app_nil_r in Htd. rewrite Htd in *. rewrite length_app. split_and!; [done|lia|lia].
  - split_and!; [|lia|rewrite !length_app; simpl; lia]. destruct (fd_bytes fd) as [r|]; [|done]. simpl. do 2 f_equal.
    change (c' :: d' ++ r) with ((c' :: d') ++ r). by rewrite (assoc_L (++)), Htd.
Qed.

(** The loop ends within [read_fuel] steps: the descriptor gets shorter at each. *)
Lemma read_loop_spec k fuel fd oldalloc s0 s sb :
  (read_fuel fd <= fuel)%nat → fits sb (s0 ++ s) 1 →
  (oldalloc = 0 → s0 = []) → Z.of_nat (length (s0 ++ s) + length (fd_data fd)) + 8192 <= k →
  safe k (read_loop realloc_ok fuel (Z.of_nat (length s0)) oldalloc fd) (λ ok sb',
    match fd_bytes fd with
    | Some d => ok = true ∧ fits sb' (s0 ++ s ++ d) 1
    | None => ok = false ∧ holds sb' s0
    end) sb.
Proof.
  intros Hf Hb H0. revert fd s sb Hf Hb. induction fuel as [|fuel IH]; intros fd s sb Hf Hb Hk.
  { destruct fd as [|[]]; simpl in Hf; lia. }
  simpl. apply wpx_bind, wpx_get. pose proof Hb as (j & Hbj & Hl & Ha & Hj & Haw).
  rewrite u64_id by lia. pose proof (read_fd_spec fd (alloc sb - len sb - 1)) as Hr.
  destruct (read_fd fd _) as [[[|c d]|] fd'].
  - rewrite Hr by lia. apply wpx_ret. by rewrite app_nil_r.
  - destruct Hr as (Hd & Hfd & Hfuel & Hdata); [lia|]. cbv beta iota.
    assert (1 <= length (c :: d))%nat as Hcd by (simpl; lia).
    set (cd := c :: d) in *. clearbody cd.
    destruct (fits_split sb (s0 ++ s) (Z.of_nat (length cd))) as (a & x & b & Hb' & _ & Hn & Ha' & _).
    { exists j. split_and!; (done || lia). }
    { lia. }
    apply wpx_bind. eapply (memcpy_wpx _ _ _ a); [exact Hb'|by rewrite length_fmap|rewrite length_fmap; lia|].
    apply wpx_bind, wpx_modify, wpx_bind. simpl. rewrite Hl, u64_id by lia.
    eapply wpx_mono; [apply (grow_spec k _ ((s0 ++ s) ++ cd))|].
    + right. exists (x :: b). rewrite (fmap_app _ _ cd), <- (assoc_L (++) _ (_ <$> cd)), (length_app _ cd).
      simpl. split_and!; (done || lia).
    + lia.
    + rewrite (length_app _ cd). lia.
    + rewrite (length_app _ cd). lia.
    + intros _ sb' [Hf' _]. apply (fits_mono _ _ _ 1) in Hf'; [|lia].
      rewrite <- (assoc_L (++)) in Hf'.
      eapply wpx_mono; [apply (IH fd' (s ++ cd)); [lia|done|]|].
      { rewrite !length_app in *. lia. }
      intros ok sb'' Hok. rewrite Hfd. destruct (fd_bytes fd') as [r|]; simpl; [|done].
      by rewrite <- (assoc_L (++)) in Hok.
  - rewrite Hr by lia.
    destruct (Z.eqb_spec oldalloc 0) as [->|].
    + rewrite (H0 eq_refl). unfold strbuf_release. do 2 (apply wpx_bind). apply wpx_get. destruct (Z.eqb_spec (alloc sb) 0); [lia|].
      apply wpx_ret. split; [done|by left].
    + rewrite fmap_app, <- (assoc_L (++)) in Hbj. rewrite length_app in Ha.
      destruct ((Some <$> s) ++ j) as [|x r] eqn:Hx.
      { apply (f_equal length) in Hx. rewrite length_app in Hx. simpl in Hx. lia. }
      apply (f_equal length) in Hx. rewrite length_app, length_fmap in Hx. simpl in Hx.
      apply wpx_bind. eapply wpx_mono; [apply (setlen_spec _ _ s0 x r); [done|lia|done..]|].
      intros [] sb' Hs. apply wpx_ret. split; [done|by apply owned_holds].
Qed.

(** C35: [strbuf_read] ends, whatever the descriptor hands out and in whatever pieces: it
    appends everything up to the end of the file and returns how much that is, or, when
    a read fails, it puts the old contents back and returns -1.  The process ends, with
    128, only when [realloc] refuses a request no larger than three halves of the room
    the contents need: the hint's at first, then 8192 bytes beyond what has been read.
    The hint is not negative, and added to the length it is a size_t. *)
Theorem strbuf_read_spec sb s fd hint :
  holds sb s → Z.of_nat (length s) + (if hint =? 0 then 8192 else u64 hint) + 1 < 2 ^ 64 →
  u64 hint = hint →
  safe (Z.of_nat (length s) + Z.max (if hint =? 0 then 8192 else hint) (Z.of_nat (length (fd_data fd)) + 8192))
    (strbuf_read realloc_ok fd hint) (λ r sb',
    match fd_bytes fd with
    | Some d => holds sb' (s ++ d) ∧ r = Z.of_nat (length d)
    | None => holds sb' s ∧ r = -1
    end) sb.
Proof.
  intros Hh Hw Hu. unfold strbuf_read. apply wpx_bind, wpx_get, wpx_bind.
  assert (1 <= (if hint =? 0 then 8192 else u64 hint)) as H1.
  { destruct (Z.eqb_spec hint 0); [done|]. pose proof (u64_range hint). lia. }
  assert (Hz : (alloc sb = 0 → s = []) ∧ len sb = Z.of_nat (length s)).
  { destruct Hh as [[-> ->]|(j & _ & ? & ? & _)]; [done|]. split; [lia|done]. }
  destruct Hz as [Hz Hl]. rewrite Hl.
  eapply wpx_mono; [apply grow_spec; [by apply holds_begins|lia|done|rewrite Hu; lia]|].
  intros _ sb1 [Hf _]. apply (fits_mono _ _ _ 1) in Hf; [|done].
  apply wpx_bind. eapply wpx_mono.
  { apply (read_loop_spec _ _ _ _ s []); [done|by rewrite app_nil_r|done|rewrite app_nil_r; lia]. }
  intros ok sb2. destruct (fd_bytes fd) as [d|]; [|by intros [-> ?]; apply wpx_ret].
  intros [-> ([|x j] & Hb & Hl2 & Ha & Hj & Hw2)]; [simpl in Hj; lia|].
  apply wpx_bind, wpx_get, wpx_bind. simpl in Hb, Hl2, Ha.
  eapply (memcpy_wpx _ _ _ [x]); [exact Hb|by rewrite length_fmap|done|].
  apply wpx_ret. split.
  - right. exists j. simpl. split_and!; (done || lia).
  - rewrite Hl2, length_app in *. rewrite u64_id, s64_id by lia. lia.
Qed.
End specs.

(** ** Sequences of operations, against strings *)

Inductive op :=
  | OpAdd (data : list ascii)
  | OpAddch (c : ascii)
  | OpAddf (out : list ascii)
  | OpRemove (pos n : nat)
  | OpRelease.

Definition op_fits (o : op) : Prop :=
  match o with
  | OpAdd d => Z.of_nat (length d) < 2 ^ 62
  | OpAddf d => Z.of_nat (length d) <= INT_MAX
  | OpRemove pos n => Z.of_nat pos < 2 ^ 64 ∧ Z.of_nat n < 2 ^ 64
  | _ => True
  end.

(** The string after an operation; [None]: the operation must not go on. *)
Definition op_abs (o : op) (s : list ascii) : option (list ascii) :=
  match o with
  | OpAdd d | OpAddf d => Some (s ++ d)
  | OpAddch c => Some (s ++ [c])
  | OpRemove pos n => if bool_decide (pos + n <= length s)%nat then Some (take pos s ++ drop (pos + n) s) else None
  | OpRelease => Some []
  end.
(** The longest string it makes room for. *)
Definition op_room (o : op) (s : list ascii) : Z :=
  match o with
  | OpAdd d => Z.of_nat (length s + length d)
  | OpAddch _ => Z.of_nat (length s) + 1
  | OpAddf d => Z.of_nat (length s) + Z.max 64 (Z.of_nat (length d))
  | OpRemove _ _ | OpRelease => Z.of_nat (length s)
  end.
Fixpoint ops_abs (l : list op) (s : list ascii) : option (list ascii) :=
  match l with [] => Some s | o :: l' => op_abs o s ≫= ops_abs l' end.
Fixpoint ops_room (l : list op) (s : list ascii) : Z :=
  match l with
  | [] => 0
  | o :: l' => Z.max (op_room o s) (match op_abs o s with Some s' => ops_room l' s' | None => 0 end)
  end.

Section ops.
Context (realloc_ok : Z → bool).
Hypothesis realloc_max : ∀ n, realloc_ok n = true → n < 2 ^ 63.

Definition op_run (o : op) : prog strbuf unit :=
  match o with
  | OpAdd d => strbuf_add realloc_ok d
  | OpAddch c => strbuf_addch realloc_ok c
  | OpAddf d => strbuf_addf realloc_ok d
  | OpRemove pos n => strbuf_remove realloc_ok (Z.of_nat pos) (Z.of_nat n)
  | OpRelease => strbuf_release realloc_ok
  end.
Definition ops_run (l : list op) : prog strbuf unit := for_each l op_run.

Lemma holds_length sb s : holds sb s → Z.of_nat (length s) < 2 ^ 63.
Proof. intros [[_ ->]|(j & _ & _ & Ha & Hw)]; simpl; lia. Qed.

(** The process ends for a range that is not in the string, or for want of memory. *)
Definition op_exit (abs : option (list ascii)) (k c : Z) : Prop :=
  c = 128 ∧ (abs = None ∨ ∃ n, 0 < n <= room k ∧ realloc_ok n = false).
Lemma oom_exit abs k k' c : k <= k' → oom realloc_ok k c → op_exit abs k' c.
Proof. intros Hk Hc. destruct (oom_mono _ _ _ _ Hk Hc) as [-> Hn]. split; [done|by right]. Qed.

Lemma op_exit_mono abs k k' c : k <= k' → op_exit abs k c → op_exit abs k' c.
Proof.
  intros Hk [-> [Hn|Hn]]; (split; [done|]); [by left|right].
  by destruct (oom_mono realloc_ok k k' 128 Hk) as [_ ?].
Qed.

Lemma op_refines o sb s :
  holds sb s → op_fits o →
  wpx (op_exit (op_abs o s) (op_room o s)) (op_run o) (λ _ sb', ∃ s', op_abs o s = Some s' ∧ holds sb' s') sb.
Proof.
  intros Hh Ho. pose proof (holds_length _ _ Hh) as Hl. pose proof (holds_begins _ _ Hh) as Hb.
  assert (Hsafe : ∀ (m : prog strbuf unit) s', op_abs o s = Some s' →
    wpx (oom realloc_ok (op_room o s)) m (λ _ sb', holds sb' s') sb →
    wpx (op_exit (op_abs o s) (op_room o s)) m (λ _ sb', ∃ s', op_abs o s = Some s' ∧ holds sb' s') sb).
  { intros m s' Hs'. unfold wpx. destruct (m sb); [by eauto|by apply oom_exit|done]. }
  destruct o as [d|c|d|pos n|]; simpl in Ho.
  - by eapply Hsafe, wpx_owned, add_spec; [| |done|lia|simpl; lia].
  - by eapply Hsafe, addch_spec; [| |done|lia|simpl; lia].
  - by eapply Hsafe, wpx_owned, addf_spec.
  - destruct (decide (pos + n <= length s)%nat) as [Hp|Hp].
    + eapply Hsafe; [simpl; by rewrite bool_decide_true|apply wpx_owned].
      pose proof (remove_spec realloc_ok realloc_max (Z.of_nat (length s)) sb (take pos s) (take n (drop pos s))
        (drop (pos + n) s)) as Hr.
      rewrite <- drop_drop, take_drop, take_drop, !length_take, length_drop in Hr.
      rewrite !Nat.min_l in Hr by lia. rewrite drop_drop in Hr. by apply Hr.
    + simpl. rewrite bool_decide_false by done.
      unfold wpx. rewrite (remove_die realloc_ok sb s) by (done || lia). by split; [|left].
  - simpl. unfold wpx. rewrite (release_spec realloc_ok sb s) by done. eexists; split; [done|by left].
Qed.

(** C23: any sequence of the operations of a string buffer computes what it
    computes on strings, and leaves a NUL-terminated buffer with room for it: no
    sequence runs outside the buffer, and the process ends (with 128) only for a range
    to remove that is not in the string, or when [realloc] refuses a request no larger
    than three halves of the longest string there is room to be made for.  A piece
    that is added is below 2^62 bytes, a formatted one no longer than an int counts. *)
Theorem strbuf_refines l sb s :
  holds sb s → Forall op_fits l →
  match ops_run l sb with
  | Done _ sb' => ∃ s', ops_abs l s = Some s' ∧ holds sb' s'
  | Exited c _ => c = 128 ∧
      (ops_abs l s = None ∨ ∃ n, 0 < n <= room (ops_room l s) ∧ realloc_ok n = false)
  | Fault => False
  end.
Proof.
  change (holds sb s → Forall op_fits l →
    wpx (op_exit (ops_abs l s) (ops_room l s)) (ops_run l) (λ _ sb', ∃ s', ops_abs l s = Some s' ∧ holds sb' s') sb).
  intros Hh Hl. revert sb s Hh. induction Hl as [|o l Ho Hl IH]; intros sb s Hh; cbn [ops_abs ops_room].
  { apply wpx_ret. eauto. }
  pose proof (op_refines o sb s Hh Ho) as Hr. change (wpx (op_exit (op_abs o s ≫= ops_abs l)
    (op_room o s `max` match op_abs o s with Some s' => ops_room l s' | None => 0 end)) (op_run o;; ops_run l)
    (λ _ sb', ∃ s', op_abs o s ≫= ops_abs l = Some s' ∧ holds sb' s') sb).
  apply wpx_bind. unfold wpx in Hr |- * at 1. destruct (op_run o sb) as [[] sb'|c sb'|]; [| |done].
  - destruct Hr as (s' & -> & Hh'). specialize (IH sb' s' Hh'). simpl. unfold wpx in *.
    destruct (ops_run l sb'); [done| |done]. eapply op_exit_mono; [|exact IH]. lia.
  - apply (op_exit_mono _ _ (op_room o s `max` match op_abs o s with Some s' => ops_room l s' | None => 0 end)) in Hr;
      [|lia]. destruct Hr as [-> [Hn|Hn]]; split; [done|rewrite Hn; by left|done|by right].
Qed.

(** ** File names *)

Definition no_nul (s : string) : Prop := chars s (λ c, c ≠ NUL).

Lemma c_string_bytes s junk :
  no_nul s → c_string ((Some <$> String.list_ascii_of_string s) ++ Some NUL :: junk) = Some s.
Proof.
  unfold no_nul, chars. induction s as [|c s IH]; csimpl; [done|]. intros [Hc Hs]%Forall_cons.
  destruct (Ascii.eqb_spec c NUL); [done|]. by rewrite IH.
Qed.

Lemma bytes_app s t :
  String.list_ascii_of_string (s +:+ t) = String.list_ascii_of_string s ++ String.list_ascii_of_string t.
Proof. induction s as [|c s IH]; [done|]. simpl. by rewrite IH. Qed.

Lemma string_bytes_length t : length (String.list_ascii_of_string t) = String.length t.
Proof. induction t; simpl; congruence. Qed.

Lemma addstr_spec k sb s t :
  holds sb s → strlen t < 2 ^ 62 → Z.of_nat (length s) + strlen t <= k →
  wpx (oom realloc_ok k) (strbuf_addstr realloc_ok t) (λ _ sb', owned sb' (s ++ String.list_ascii_of_string t)) sb.
Proof.
  intros Hh Ht Hk. pose proof (holds_length _ _ Hh). unfold strlen in *. rewrite <- string_bytes_length in *.
  apply add_spec; [done|by apply holds_begins|lia|lia].
Qed.

Lemma c_string_some l junk : ∃ s, c_string ((Some <$> l) ++ Some NUL :: junk) = Some s.
Proof.
  induction l as [|c l [s IH]]; [by eexists|]. csimpl.
  destruct (Ascii.eqb c NUL); [by eexists|]. rewrite IH. by eexists.
Qed.

Lemma prefix_filename_bytes p f :
  is_absolute_path f = false → strlen p < 2 ^ 62 → strlen f < 2 ^ 62 →
  wpx (oom realloc_ok (strlen p + strlen f)) (prefix_filename realloc_ok (Some p) f)
    (λ r _, ∃ junk, c_string ((Some <$> String.list_ascii_of_string (p +:+ f)) ++ Some NUL :: junk) = Some r)
    STRBUF_INIT.
Proof.
  intros Ha Hp Hf. unfold prefix_filename. rewrite Ha. apply wpx_bind.
  eapply wpx_mono; [apply (addstr_spec _ _ []); [by left|done|unfold strlen; simpl; lia]|]. intros [] sb1 H1.
  apply wpx_bind. eapply wpx_mono; [apply addstr_spec; [by apply owned_holds|done|]|].
  { unfold strlen. simpl. rewrite string_bytes_length. lia. }
  intros [] sb2 H2.
  destruct (detach_spec realloc_ok _ _ (owned_holds _ _ H2)) as (res & Hr & Hres).
  apply wpx_bind. unfold wpx at 1. rewrite Hr.
  simpl in Hres. rewrite <- bytes_app in Hres. destruct res as [b|].
  - destruct Hres as [junk ->]. destruct (c_string_some (String.list_ascii_of_string (p +:+ f)) junk) as [s Hs].
    eapply wpx_must; [exact Hs|]. by exists junk.
  - destruct Hres as [-> _]. by apply owned_alloc in H2.
Qed.

(** The length of the name to make room for. *)
Definition fix_room (prefix file : option string) : Z :=
  match prefix, file with Some p, Some f => strlen p + strlen f | _, _ => 0 end.

(** Whatever the names hold, the state outside is untouched. *)
Lemma fix_filename_safe {S} (w : S) prefix file :
  (∀ s, prefix = Some s ∨ file = Some s → strlen s < 2 ^ 62) →
  wpx (oom realloc_ok (fix_room prefix file)) (fix_filename realloc_ok prefix file) (λ _ w', w' = w) w.
Proof.
  intros Hs. destruct file as [f|]; [|by destruct prefix]. destruct prefix as [p|]; [|done].
  unfold fix_filename. destruct (is_absolute_path f || _) eqn:Hf; [done|].
  apply orb_false_elim in Hf as [Ha _].
  pose proof (prefix_filename_bytes p f Ha (Hs p (or_introl eq_refl)) (Hs f (or_intror eq_refl))) as Hp.
  apply wpx_bind. unfold wpx at 1. unfold wpx in Hp. unfold with_strbuf.
  by destruct (prefix_filename realloc_ok (Some p) f STRBUF_INIT).
Qed.

(** A file name on the command line: a relative one is prefixed with [prefix],
    without a separator; an absolute one, [-] and no name at all stay as they are. *)
Theorem fix_filename_spec {S} (w : S) prefix file :
  (∀ s, prefix = Some s ∨ file = Some s → no_nul s ∧ strlen s < 2 ^ 62) →
  wpx (oom realloc_ok (fix_room prefix file)) (fix_filename realloc_ok prefix file) (λ r w', w' = w ∧
    r = match prefix, file with
        | Some p, Some f => if is_absolute_path f || strcmp_eq "-" f then Some f else Some (p +:+ f)
        | _, _ => file
        end) w.
Proof.
  intros Hs. destruct file as [f|]; [|by destruct prefix]. destruct prefix as [p|]; [|done].
  destruct (Hs p) as [Hp Hpl]; [auto|]. destruct (Hs f) as [Hf Hfl]; [auto|].
  unfold fix_filename. destruct (is_absolute_path f || _) eqn:Hf'; [done|].
  apply orb_false_elim in Hf' as [Ha _].
  pose proof (prefix_filename_bytes p f Ha Hpl Hfl) as Hpf.
  apply wpx_bind. unfold wpx at 1. unfold wpx in Hpf. unfold with_strbuf.
  destruct (prefix_filename realloc_ok (Some p) f STRBUF_INIT) as [r sb|c sb|]; [|done..].
  destruct Hpf as [junk Hr]. rewrite c_string_bytes in Hr by (apply chars_app; done). by injection Hr as <-.
Qed.
End ops.

(** ** Instances *)

Definition small (n : Z) : bool := n <? 2 ^ 20.
Lemma small_max n : small n = true → n < 2 ^ 63.
Proof. unfold small. intros ?%Z.ltb_lt. lia. Qed.

Definition demo_ops : list op :=
  [OpAdd ["a"; "b"]%char; OpAddf ["c"; "d"]%char; OpRemove 1 2; OpAddch "x"%char].

Example strbuf_demo : ops_abs demo_ops [] = Some ["a"; "d"; "x"]%char ∧
  match ops_run small demo_ops STRBUF_INIT with Done _ sb => len sb = 3 ∧ alloc sb = 24 | _ => False end.
Proof. vm_compute. done. Qed.

Lemma strbuf_refines_witness :
  holds STRBUF_INIT [] ∧ match ops_run small demo_ops STRBUF_INIT with
  | Done _ sb' => ∃ s', ops_abs demo_ops [] = Some s' ∧ holds sb' s'
  | Exited c _ => c = 128 ∧ (ops_abs demo_ops [] = None ∨ ∃ n, 0 < n <= room (ops_room demo_ops []) ∧ small n = false)
  | Fault => False
  end.
Proof.
  split; [by left|]. apply (strbuf_refines small small_max); [by left|].
  repeat constructor; vm_compute; done.
Defined.

Definition demo_fd : list chunk := [Chunk ["a"; "b"]%char; Chunk ["c"]%char].

Lemma strbuf_read_spec_witness :
  wpx (oom small 8195) (strbuf_read small demo_fd 1) (λ r sb', holds sb' ["a"; "b"; "c"]%char ∧ r = 3) STRBUF_INIT.
Proof. apply (strbuf_read_spec small small_max STRBUF_INIT [] demo_fd 1); [by left|done|done]. Defined.

Lemma fix_filename_spec_witness :
  wpx (oom small 10) (fix_filename small (Some "dir/"%string) (Some "a.conf"%string))
    (λ r w', w' = tt ∧ r = Some "dir/a.conf"%string) tt.
Proof.
  apply (fix_filename_spec small small_max tt (Some "dir/"%string) (Some "a.conf"%string)).
  intros s [[= <-]|[= <-]]; (split; [repeat constructor; done|done]).
Defined.
