(* ===== verification/ParseOptions.v ===== *)
(** * util/parse-options.c and util/parse-options.h: the parser of command lines

    The state of a run is the array of arguments ([argv], rewritten in place from
    the front, by way of [out]), the fields of [struct parse_opt_ctx_t], the
    variables the options point at, by name, each holding a value of its C type, and
    what was printed.  A pointer into an argument is the rest of the argument.
    Reading a variable at another type than its own, running off the array or off a
    table without its OPTION_END is a [Fault].  [alloc_ok] says which allocations
    succeed. *)

From S2P Require Import Prelude CString Prog Strbuf.
Local Open Scope string_scope.
Local Open Scope Z_scope.

(** ** Options *)

(* util/parse-options.h:23-42 parse_opt_type *)
Inductive parse_opt_type : Set :=
  | OPTION_END | OPTION_ARGUMENT | OPTION_GROUP
  | OPTION_BIT | OPTION_BOOLEAN | OPTION_INCR | OPTION_SET_UINT | OPTION_SET_PTR
  | OPTION_STRING | OPTION_INTEGER | OPTION_LONG | OPTION_CALLBACK | OPTION_U64
  | OPTION_UINTEGER | OPTION_FILENAME.
#[export] Instance parse_opt_type_eq : EqDecision parse_opt_type.
Proof. solve_decision. Defined.

(* util/parse-options.h:45-45 PARSE_OPT_KEEP_DASHDASH *)
Definition PARSE_OPT_KEEP_DASHDASH : Z := 1.
(* util/parse-options.h:46-46 PARSE_OPT_STOP_AT_NON_OPTION *)
Definition PARSE_OPT_STOP_AT_NON_OPTION : Z := 2.
(* util/parse-options.h:47-47 PARSE_OPT_KEEP_ARGV0 *)
Definition PARSE_OPT_KEEP_ARGV0 : Z := 4.
(* util/parse-options.h:48-48 PARSE_OPT_KEEP_UNKNOWN *)
Definition PARSE_OPT_KEEP_UNKNOWN : Z := 8.
(* util/parse-options.h:49-49 PARSE_OPT_NO_INTERNAL_HELP *)
Definition PARSE_OPT_NO_INTERNAL_HELP : Z := 16.

(* util/parse-options.h:53-53 PARSE_OPT_OPTARG *)
Definition PARSE_OPT_OPTARG : Z := 1.
(* util/parse-options.h:54-54 PARSE_OPT_NOARG *)
Definition PARSE_OPT_NOARG : Z := 2.
(* util/parse-options.h:55-55 PARSE_OPT_NONEG *)
Definition PARSE_OPT_NONEG : Z := 4.
(* util/parse-options.h:56-56 PARSE_OPT_HIDDEN *)
Definition PARSE_OPT_HIDDEN : Z := 8.
(* util/parse-options.h:57-57 PARSE_OPT_LASTARG_DEFAULT *)
Definition PARSE_OPT_LASTARG_DEFAULT : Z := 16.

(* util/parse-options.c:24-24 OPT_SHORT *)
Definition OPT_SHORT : Z := 1.
(* util/parse-options.c:25-25 OPT_UNSET *)
Definition OPT_UNSET : Z := 2.

(** The results of [parse_options_step]. *)
(* util/parse-options.h:175-181 PARSE_OPT_HELP *)
Inductive step_result : Set :=
  | PARSE_OPT_HELP | PARSE_OPT_DONE | PARSE_OPT_LIST_OPTS | PARSE_OPT_LIST_SUBCMDS | PARSE_OPT_UNKNOWN.

Definition has (flags bit : Z) : bool := negb (Z.land flags bit =? 0).

(** An [intptr_t]: an integer, or a pointer to a string. *)
Inductive intptr : Set := IInt (z : Z) | IPtr (s : string).
(** The variables options point at, by their C type. *)
Inductive cval : Set :=
  | VInt (z : Z) | VUint (z : Z) | VBool (b : bool) | VStr (s : option string)
  | VLong (z : Z) | VU64 (z : Z) | VPtr (p : intptr).

Notation variables := (gmap string cval).

(** All of [struct option] but the callback, which gets it. *)
(* util/parse-options.h:63-118 option *)
Record option_data := OptionData {
  o_type : parse_opt_type;
  short_name : Z;                  (* a character, 0 if none *)
  long_name : option string;
  value : string;                  (* the variable's name *)
  argh : option string;
  help : option string;
  o_flags : Z;
  defval : intptr;
  set : option string;             (* the name of a bool *)
}.
(* util/parse-options.h:61-61 parse_opt_cb *)
Definition parse_opt_cb := option_data → option string → bool → prog variables Z.
Record opt := Option { o_data :> option_data; callback : option parse_opt_cb }.

(* util/parse-options.h:122-122 OPT_END *)
Definition OPT_END : opt := Option (OptionData OPTION_END 0 None "" None None 0 (IInt 0) None) None.
(* util/parse-options.h:124-124 OPT_GROUP *)
Definition OPT_GROUP (h : string) : opt :=
  Option (OptionData OPTION_GROUP 0 None "" None (Some h) 0 (IInt 0) None) None.
Definition plain (t : parse_opt_type) (s : ascii) (l v : string) (a : option string) (h : string) : opt :=
  Option (OptionData t (code s) (Some l) v a (Some h) 0 (IInt 0) None) None.
(* util/parse-options.h:126-126 OPT_BOOLEAN *)
Definition OPT_BOOLEAN s l v h := plain OPTION_BOOLEAN s l v None h.
(* util/parse-options.h:134-134 OPT_INTEGER *)
Definition OPT_INTEGER s l v h := plain OPTION_INTEGER s l v None h.
(* util/parse-options.h:135-135 OPT_UINTEGER *)
Definition OPT_UINTEGER s l v h := plain OPTION_UINTEGER s l v None h.
(* util/parse-options.h:137-137 OPT_U64 *)
Definition OPT_U64 s l v h := plain OPTION_U64 s l v None h.
(* util/parse-options.h:138-138 OPT_STRING *)
Definition OPT_STRING s l v a h := plain OPTION_STRING s l v (Some a) h.
(* util/parse-options.h:139-139 OPT_FILENAME *)
Definition OPT_FILENAME s l v a h := plain OPTION_FILENAME s l v (Some a) h.

(** ** The state *)

(* util/parse-options.h:183-195 parse_opt_ctx_t *)
Record pstate := PState {
  p_out : list (option string);    (* the array; [None] is the NULL at its end *)
  p_argv : nat;                    (* the index [argv] points at *)
  p_argc : nat;                    (* at least 0 *)
  p_cpidx : nat;
  p_opt : option string;
  p_flags : Z;
  p_prefix : option string;
  p_vars : variables;
  p_stdout : string;
  p_stderr : string;
  p_errno : option Z;              (* the errno a call left, if one set it *)
}.
#[export] Instance eta_pstate : Eta pstate := λ r,
  PState (p_out r) (p_argv r) (p_argc r) (p_cpidx r) (p_opt r) (p_flags r) (p_prefix r) (p_vars r)
    (p_stdout r) (p_stderr r) (p_errno r).

Notation P := (prog pstate).

Definition set_opt (o : option string) : P unit := modify (λ p, p <| p_opt := o |>).
Definition printf (s : string) : P unit := modify (λ p, p <| p_stdout ::= λ t, t +:+ s |>).
Definition eprintf (s : string) : P unit := modify (λ p, p <| p_stderr ::= λ t, t +:+ s |>).

(** An argument, which must be there. *)
Definition arg_at (i : nat) : P string :=
  p ← get; must (mjoin (p_out p !! i)).
(** [out[i] = x] *)
Definition put_arg (i : nat) (x : option string) : P unit :=
  p ← get;
  if bool_decide (i < length (p_out p))%nat then modify (λ p, p <| p_out ::= <[i := x]> |>) else fault.
(** [out[cpidx++] = x] *)
(* util/parse-options.c:390-390 parse_options_step *)
Definition keep_arg (x : option string) : P unit :=
  p ← get; put_arg (p_cpidx p) x ;; modify (λ p, p <| p_cpidx ::= S |>).

Definition get_var (v : string) : P cval := p ← get; must (p_vars p !! v).
Definition set_var (v : string) (c : cval) : P unit := modify (λ p, p <| p_vars ::= <[v := c]> |>).
(** A variable read or written at a type. *)
Definition int_var (v : string) : P Z := c ← get_var v; match c with VInt z => mret z | _ => fault end.
Definition same_type (c d : cval) : bool :=
  match c, d with
  | VInt _, VInt _ | VUint _, VUint _ | VBool _, VBool _ | VStr _, VStr _
  | VLong _, VLong _ | VU64 _, VU64 _ | VPtr _, VPtr _ => true
  | _, _ => false
  end.
Definition write_var (v : string) (c : cval) : P unit :=
  d ← get_var v; if same_type c d then set_var v c else fault.
Definition as_int (d : intptr) : P Z := match d with IInt z => mret z | IPtr _ => fault end.
Definition as_string (d : intptr) : P (option string) :=
  match d with IPtr s => mret (Some s) | IInt 0 => mret None | IInt _ => fault end.

(** ** Messages: util/usage.c, with its buffer of 1024 bytes *)

(* util/usage.c:21-26 report *)
Definition report (pre msg : string) : P unit :=
  eprintf (" " +:+ pre +:+ String.substring 0 1023 msg +:+ String NL "").
(* util/usage.c:76-84 error *)
Definition error (msg : string) : P Z := report " Error: " msg ;; mret (-1).
(* util/usage.c:34-38 die_builtin *)
Definition die_with {A} (msg : string) : P A := report " Fatal: " msg ;; exit 128.

(** [printf] of a NULL string. *)
Definition str (s : option string) : string := match s with Some s => s | None => "(null)" end.
Definition ch (z : Z) : string := String (chr (z mod 256)) "".
(** A [char] as an [int]; the character a pointer points at. *)
Definition schar (c : ascii) : Z := if code c <? 128 then code c else code c - 256.
Definition first (s : string) : Z := match s with String c _ => schar c | EmptyString => 0 end.

(* util/strbuf.c:23-30 prefixcmp *)
Fixpoint prefixcmp (s prefix : string) : Z :=
  match prefix, s with
  | EmptyString, _ => 0
  | String c _, EmptyString => code c
  | String c prefix', String d s' => if Ascii.eqb d c then prefixcmp s' prefix' else code c - code d
  end.
(* util/util.h:77-81 skip_prefix *)
Definition skip_prefix (s prefix : string) : option string := literal prefix s.

Section parse_options.
Context (alloc_ok : Z → bool).

(** ** One option *)

(* util/parse-options.c:27-34 opterror *)
Definition opterror (o : option_data) (reason : string) (flags : Z) : P Z :=
  if has flags OPT_SHORT then error ("switch `" +:+ ch (short_name o) +:+ "' " +:+ reason)
  else if has flags OPT_UNSET then error ("option `no-" +:+ str (long_name o) +:+ "' " +:+ reason)
  else error ("option `" +:+ str (long_name o) +:+ "' " +:+ reason).

(** The value of an option: what is stuck to it, its default at the end of the line,
    or the next argument, taken; [None] (-1 in C) when there is none. *)
(* util/parse-options.c:36-51 get_arg *)
Definition get_arg (o : option_data) (flags : Z) : P (option (option string)) :=
  p ← get;
  match p_opt p with
  | Some s => set_opt None ;; mret (Some (Some s))
  | None =>
      last ← (if has (o_flags o) PARSE_OPT_LASTARG_DEFAULT then
                if bool_decide (p_argc p = 1%nat) then mret true
                else s ← arg_at (S (p_argv p)); mret (first s =? 45)
              else mret false);
      if (last : bool) then d ← as_string (defval o); mret (Some d)
      else if bool_decide (1 < p_argc p)%nat then
        modify (λ p, p <| p_argc ::= pred |> <| p_argv ::= S |>) ;;
        s ← arg_at (S (p_argv p)); mret (Some (Some s))
      else opterror o "requires a value" flags ;; mret None
  end.

(** Does [p->opt] point at a value where the option takes none? *)
(* util/parse-options.c:66-88 get_value *)
Definition takes_no_value (o : option_data) : bool :=
  match o_type o with
  | OPTION_CALLBACK => has (o_flags o) PARSE_OPT_NOARG
  | OPTION_BOOLEAN | OPTION_INCR | OPTION_BIT | OPTION_SET_UINT | OPTION_SET_PTR => true
  | _ => false
  end.

(** The four integer types: [mk] stores a number in the variable, [conv] parses it. *)
(* util/parse-options.c:150-212 get_value *)
Definition get_number (o : option_data) (flags : Z) (mk : Z → cval) (conv : string → strto) : P Z :=
  p ← get;
  if has flags OPT_UNSET then write_var (value o) (mk 0) ;; mret 0
  else if has (o_flags o) PARSE_OPT_OPTARG && bool_decide (p_opt p = None) then
    d ← as_int (defval o); write_var (value o) (mk d) ;; mret 0
  else
    a ← get_arg o flags;
    match a with
    | None => mret (-1)
    | Some None => fault
    | Some (Some s) =>
        (if st_range (conv s) then modify (λ p, p <| p_errno := Some ERANGE |>) else mret ()) ;;
        write_var (value o) (mk (st_val (conv s))) ;;
        match st_rest (conv s) with
        | EmptyString => mret 0
        | _ => opterror o "expects a numerical value" flags
        end
    end.

(** The two kinds of strings, up to the name of a file being completed. *)
(* util/parse-options.c:117-133 get_value *)
Definition get_string (o : option_data) (flags : Z) : P Z :=
  p ← get;
  if has flags OPT_UNSET then write_var (value o) (VStr None) ;; mret 0
  else if has (o_flags o) PARSE_OPT_OPTARG && bool_decide (p_opt p = None) then
    d ← as_string (defval o); write_var (value o) (VStr d) ;; mret 0
  else
    a ← get_arg o flags;
    match a with None => mret (-1) | Some s => write_var (value o) (VStr s) ;; mret 0 end.

(** Run on the variables alone. *)
Definition run_callback (m : prog variables Z) : P Z := λ p,
  match m (p_vars p) with
  | Done r vs => Done (if r =? 0 then 0 else -1) (p <| p_vars := vs |>)
  | Exited c vs => Exited c (p <| p_vars := vs |>)
  | Fault => Fault
  end.

(* util/parse-options.c:139-148 get_value *)
Definition get_callback (o : opt) (flags : Z) : P Z :=
  cb ← must (callback o);
  p ← get;
  if has flags OPT_UNSET then run_callback (cb (o_data o) None true)
  else if has (o_flags o) PARSE_OPT_NOARG then run_callback (cb (o_data o) None false)
  else if has (o_flags o) PARSE_OPT_OPTARG && bool_decide (p_opt p = None) then
    run_callback (cb (o_data o) None false)
  else
    a ← get_arg o flags;
    match a with None => mret (-1) | Some s => run_callback (cb (o_data o) s false) end.

(* util/parse-options.c:91-219 get_value *)
Definition store_value (o : opt) (flags : Z) : P Z :=
  let unset := has flags OPT_UNSET in
  match o_type o with
  | OPTION_BIT =>
      d ← as_int (defval o); v ← int_var (value o);
      write_var (value o) (VInt (s32 (if unset then Z.land v (Z.lnot d) else Z.lor v d))) ;; mret 0
  | OPTION_BOOLEAN =>
      write_var (value o) (VBool (negb unset)) ;;
      match set o with Some s => write_var s (VBool true) | None => mret () end ;; mret 0
  | OPTION_INCR =>
      if unset then write_var (value o) (VInt 0) ;; mret 0
      else
        v ← int_var (value o);
        if v =? INT_MAX then fault else write_var (value o) (VInt (v + 1)) ;; mret 0
  | OPTION_SET_UINT =>
      d ← (if unset then mret 0 else as_int (defval o));
      write_var (value o) (VUint (u32 d)) ;; mret 0
  | OPTION_SET_PTR => write_var (value o) (VPtr (if unset then IInt 0 else defval o)) ;; mret 0
  | OPTION_STRING => get_string o flags
  | OPTION_FILENAME =>
      err ← get_string o flags;
      if err =? 0 then
        p ← get; c ← get_var (value o);
        match c with
        | VStr file => file ← fix_filename alloc_ok (p_prefix p) file; write_var (value o) (VStr file) ;; mret 0
        | _ => fault
        end
      else mret err
  | OPTION_CALLBACK => get_callback o flags
  | OPTION_INTEGER => get_number o flags (λ z, VInt (s32 z)) (λ s, strtol s 10)
  | OPTION_UINTEGER => get_number o flags (λ z, VUint (u32 z)) (λ s, strtol s 10)
  | OPTION_LONG => get_number o flags (λ z, VLong (s64 z)) (λ s, strtol s 10)
  | OPTION_U64 => get_number o flags (λ z, VU64 (u64 z)) (λ s, strtoull s 10)
  | OPTION_END | OPTION_ARGUMENT | OPTION_GROUP =>
      die_with "should not happen, someone must be hit on the forehead"
  end.

(* util/parse-options.c:53-220 get_value *)
Definition get_value (o : opt) (flags : Z) : P Z :=
  p ← get;
  let unset := has flags OPT_UNSET in
  let stuck := bool_decide (p_opt p ≠ None) in
  if unset && stuck then opterror o "takes no value" flags
  else if unset && has (o_flags o) PARSE_OPT_NONEG then opterror o "isn't available" flags
  else if negb (has flags OPT_SHORT) && stuck && takes_no_value o then opterror o "takes no value" flags
  else store_value o flags.

(** ** Short options *)

(** [p->opt] past the switch it points at. *)
(* util/parse-options.c:226-226 parse_short_opt *)
Definition next_switch (s : string) : option string :=
  match s with String _ (String _ _ as s') => Some s' | _ => None end.

(* util/parse-options.c:222-231 parse_short_opt *)
Fixpoint parse_short_opt (options : list opt) : P Z :=
  match options with
  | [] => fault
  | o :: options' =>
      if bool_decide (o_type o = OPTION_END) then mret (-2)
      else
        p ← get; s ← must (p_opt p);
        if short_name o =? first s then set_opt (next_switch s) ;; get_value o OPT_SHORT
        else parse_short_opt options'
  end.

(** ** Long options *)

(** The part of an argument before its [=], and what follows it. *)
(* util/parse-options.c:236-241 parse_long_opt *)
Definition arg_name (arg : string) : string := (span (λ c, negb (Ascii.eqb c "=")) arg).1.
Definition arg_end (arg : string) : option string :=
  match (span (λ c, negb (Ascii.eqb c "=")) arg).2 with String _ s => Some s | EmptyString => None end.

(** What an argument is to an option with the name [name]: nothing, the option
    itself with the rest of the argument, or an abbreviation; negated or not. *)
Inductive matching : Set :=
  | NoMatch
  | Match (rest : string) (flags : Z)
  | Abbreviated (flags : Z).

(* util/parse-options.c:261-314 parse_long_opt *)
Definition match_name (arg name : string) : matching :=
  match skip_prefix arg name with
  | Some rest => Match rest 0
  | None =>
      let positive := String.substring 3 (String.length name - 3) name in
      let no := prefixcmp name "no-" =? 0 in
      match (if no then skip_prefix arg positive else None) with
      | Some rest => Match rest OPT_UNSET
      | None =>
          if no && (prefixcmp positive arg =? 0) then Abbreviated OPT_UNSET
          else if strncmp_eq name arg (strlen (arg_name arg)) then Abbreviated 0
          else if prefixcmp "no-" arg =? 0 then Abbreviated OPT_UNSET
          else if negb (strncmp_eq arg "no-" 3) then NoMatch
          else
            let arg' := String.substring 3 (String.length arg - 3) arg in
            match skip_prefix arg' name with
            | Some rest => Match rest OPT_UNSET
            | None => if prefixcmp name arg' =? 0 then Abbreviated OPT_UNSET else NoMatch
            end
      end
  end.

(** The loop, with the abbreviated option met last and the one before it. *)
(* util/parse-options.c:243-334 parse_long_opt *)
Fixpoint long_loop (arg : string) (options : list opt) (abbrev ambiguous : option (opt * Z)) : P Z :=
  match options with
  | [] => fault
  | o :: options' =>
      if bool_decide (o_type o = OPTION_END) then
        match ambiguous, abbrev with
        | Some (a, af), Some (b, bf) =>
            let no f := if has f OPT_UNSET then "no-" else "" in
            error ("Ambiguous option: " +:+ arg +:+ " (could be --" +:+ no af +:+ str (long_name a) +:+
                   " or --" +:+ no bf +:+ str (long_name b) +:+ ")")
        | Some _, None => fault
        | None, Some (b, bf) => get_value b bf
        | None, None => mret (-2)
        end
      else
        match long_name o with
        | None => long_loop arg options' abbrev ambiguous
        | Some name =>
            if bool_decide (o_type o = OPTION_ARGUMENT) then
              match skip_prefix arg name with
              | None => long_loop arg options' abbrev ambiguous
              | Some EmptyString => keep_arg (Some ("--" +:+ arg)) ;; mret 0
              | Some (String c _) =>
                  if Ascii.eqb c "=" then opterror o "takes no value" 0
                  else long_loop arg options' abbrev ambiguous
              end
            else
              match match_name arg name with
              | NoMatch => long_loop arg options' abbrev ambiguous
              | Abbreviated flags =>
                  (if has flags OPT_UNSET then mret ()
                   else match arg_end arg with Some s => set_opt (Some s) | None => mret () end) ;;
                  long_loop arg options' (Some (o, flags))
                    (match abbrev with Some a => Some a | None => ambiguous end)
              | Match EmptyString flags => get_value o flags
              | Match (String c rest) flags =>
                  if Ascii.eqb c "=" then set_opt (Some rest) ;; get_value o flags
                  else long_loop arg options' abbrev ambiguous
              end
        end
  end.

(* util/parse-options.c:233-335 parse_long_opt *)
Definition parse_long_opt (arg : string) (options : list opt) : P Z := long_loop arg options None None.

(* util/parse-options.c:347-354 check_typos *)
Fixpoint typo_loop (arg : string) (options : list opt) : P unit :=
  match options with
  | [] => fault
  | o :: options' =>
      if bool_decide (o_type o = OPTION_END) then mret ()
      else if (match long_name o with Some name => prefixcmp name arg =? 0 | None => false end)
      then error ("did you mean `--" +:+ arg +:+ "` (with two dashes ?)") ;; exit 129
      else typo_loop arg options'
  end.

(* util/parse-options.c:337-355 check_typos *)
Definition check_typos (arg : string) (options : list opt) : P unit :=
  if strlen arg <? 3 then mret ()
  else if prefixcmp arg "no-" =? 0 then
    error ("did you mean `--" +:+ arg +:+ "` (with two dashes ?)") ;; exit 129
  else typo_loop arg options.

(** ** Usage *)

(* util/parse-options.c:547-547 USAGE_OPTS_WIDTH *)
Definition USAGE_OPTS_WIDTH : nat := 24.
(* util/parse-options.c:548-548 USAGE_GAP *)
Definition USAGE_GAP : nat := 2.

Definition nl : string := String NL "".
Fixpoint spaces (n : nat) : string := match n with O => "" | S n' => String " " (spaces n') end.

(** What follows the names of an option. *)
(* util/parse-options.c:575-623 print_option_help *)
Definition option_arg (o : option_data) : string :=
  let optarg := has (o_flags o) PARSE_OPT_OPTARG in
  let long := bool_decide (long_name o ≠ None) in
  let wrap a := if optarg then (if long then "[=" +:+ a +:+ "]" else "[" +:+ a +:+ "]") else " " +:+ a in
  let word := wrap (match argh o with Some a => "<" +:+ a +:+ ">" | None => "..." end) in
  match o_type o with
  | OPTION_LONG | OPTION_U64 | OPTION_INTEGER | OPTION_UINTEGER => wrap "<n>"
  | OPTION_CALLBACK => if has (o_flags o) PARSE_OPT_NOARG then "" else word
  | OPTION_FILENAME | OPTION_STRING => word
  | _ => ""
  end.

(** The names of an option and its argument, before the help text. *)
(* util/parse-options.c:564-623 print_option_help *)
Definition option_head (o : option_data) : string :=
  "    " +:+ (if short_name o =? 0 then "    " else "-" +:+ ch (short_name o)) +:+
  match long_name o with
  | Some l => (if short_name o =? 0 then "" else ", ") +:+ "--" +:+ l
  | None => ""
  end +:+ option_arg o.

(* util/parse-options.c:550-632 print_option_help *)
Definition print_option_help (o : option_data) (full : bool) : P unit :=
  match o_type o with
  | OPTION_GROUP =>
      eprintf nl ;;
      h ← must (help o);
      match h with EmptyString => mret () | _ => eprintf (h +:+ nl) end
  | _ =>
      if negb full && has (o_flags o) PARSE_OPT_HIDDEN then mret ()
      else
        let head := option_head o in
        let pos := String.length head in
        eprintf head ;;
        pad ← (if bool_decide (pos <= USAGE_OPTS_WIDTH)%nat then mret (USAGE_OPTS_WIDTH - pos)%nat
               else eprintf nl ;; mret USAGE_OPTS_WIDTH);
        eprintf (spaces (pad + USAGE_GAP) +:+ str (help o) +:+ nl)
  end.

(** The lines of [usagestr] after the first: alternatives up to an empty line. *)
(* util/parse-options.c:641-648 usage_with_options_internal *)
Fixpoint usage_lines (alt : bool) (l : list string) : P unit :=
  match l with
  | [] => mret ()
  | EmptyString :: l' => eprintf nl ;; usage_lines false l'
  | s :: l' => eprintf ((if alt then "    or: " else "    ") +:+ s +:+ nl) ;; usage_lines alt l'
  end.
(** The list ends with a NULL; a first line must be there. *)
(* util/parse-options.c:640-648 usage_with_options_internal *)
Definition usage_head (usagestr : list string) : P unit :=
  match usagestr with
  | [] => fault
  | s :: l => eprintf (nl +:+ " usage: " +:+ s +:+ nl) ;; usage_lines true l
  end.

(* util/parse-options.c:653-654 usage_with_options_internal *)
Fixpoint options_help (options : list opt) (full : bool) : P unit :=
  match options with
  | [] => fault
  | o :: options' =>
      if bool_decide (o_type o = OPTION_END) then mret ()
      else print_option_help o full ;; options_help options' full
  end.

(* util/parse-options.c:634-659 usage_with_options_internal *)
Definition usage_with_options_internal (usagestr : option (list string)) (options : list opt) (full : bool)
    : P step_result :=
  match usagestr with
  | None => mret PARSE_OPT_HELP
  | Some u =>
      usage_head u ;;
      o ← must (head options);
      (if bool_decide (o_type (o_data o) = OPTION_GROUP) then mret () else eprintf nl) ;;
      options_help options full ;;
      eprintf nl ;; mret PARSE_OPT_HELP
  end.

(* util/parse-options.c:661-666 usage_with_options *)
Definition usage_with_options {A} (usagestr : option (list string)) (options : list opt) : P A :=
  usage_with_options_internal usagestr options false ;; exit 129.

(** The option a message is about; [None] at the end of the table. *)
(* util/parse-options.c:687-702 parse_options_usage *)
Fixpoint find_option (optstr : string) (short : bool) (options : list opt) : P (option opt) :=
  match options with
  | [] => fault
  | o :: options' =>
      if bool_decide (o_type o = OPTION_END) then mret None
      else if short then
        if short_name o =? first optstr then mret (Some o) else find_option optstr short options'
      else
        match long_name o with
        | None => find_option optstr short options'
        | Some l =>
            if (prefixcmp optstr l =? 0) || (prefixcmp optstr "no-" =? 0) &&
               (prefixcmp (String.substring 3 (String.length optstr - 3) optstr) l =? 0)
            then mret (Some o) else find_option optstr short options'
        end
  end.

(* util/parse-options.c:668-708 parse_options_usage *)
Definition parse_options_usage (usagestr : option (list string)) (options : list opt) (optstr : string)
    (short : bool) : P step_result :=
  match usagestr with Some u => usage_head u ;; eprintf nl | None => mret () end ;;
  o ← find_option optstr short options;
  match o with Some o => print_option_help (o_data o) false | None => mret () end ;;
  mret PARSE_OPT_HELP.

(** ** Command lines *)

(* util/parse-options.c:357-370 parse_options_start *)
Definition parse_options_start (argv : list string) (prefix : option string) (flags : Z)
    (vars : variables) : outcome pstate unit :=
  match argv with
  | [] => Fault
  | _ =>
      (if has flags PARSE_OPT_KEEP_UNKNOWN && has flags PARSE_OPT_STOP_AT_NON_OPTION
       then die_with "STOP_AT_NON_OPTION and KEEP_UNKNOWN don't go together" else mret ())
      (PState ((Some <$> argv) ++ [None]) 1 (length argv - 1)
        (if has flags PARSE_OPT_KEEP_ARGV0 then 1 else 0) None flags prefix vars "" "" None)
  end.

(** How a turn of the loop over the arguments ends. *)
Inductive turn : Set :=
  | Continue            (* on to the next argument *)
  | Break               (* the loop ends *)
  | Unknown             (* [goto unknown] *)
  | Return (r : step_result).

(** The rest of a bunch of switches: [while (ctx->opt)]. *)
(* util/parse-options.c:408-427 parse_options_step *)
Fixpoint switches (fuel : nat) (usagestr : option (list string)) (options : list opt) (internal_help : bool)
    : P turn :=
  match fuel with
  | O => fault
  | S fuel' =>
      p ← get;
      match p_opt p with
      | None => mret Continue
      | Some arg =>
          if internal_help && (first arg =? 104) then
            r ← usage_with_options_internal usagestr options false; mret (Return r)
          else
            rc ← parse_short_opt options;
            if rc =? -1 then r ← parse_options_usage usagestr options arg true; mret (Return r)
            else if rc =? -2 then
              p ← get; s ← must (p_opt p);
              if alloc_ok (strlen s + 2) then put_arg (p_argv p) (Some ("-" +:+ s)) ;; mret Unknown
              else fault
            else switches fuel' usagestr options internal_help
      end
  end.

(* util/parse-options.c:394-429 parse_options_step *)
Definition short_turn (arg : string) (usagestr : option (list string)) (options : list opt)
    (internal_help : bool) : P turn :=
  set_opt (Some arg) ;;
  if internal_help && (first arg =? 104) then
    r ← usage_with_options_internal usagestr options false; mret (Return r)
  else
    rc ← parse_short_opt options;
    if rc =? -1 then r ← parse_options_usage usagestr options arg true; mret (Return r)
    else if rc =? -2 then mret Unknown
    else
      p ← get;
      (if bool_decide (p_opt p ≠ None) then check_typos arg options else mret ()) ;;
      switches (S (String.length arg)) usagestr options internal_help.

(* util/parse-options.c:439-455 parse_options_step *)
Definition long_turn (arg : string) (usagestr : option (list string)) (options : list opt)
    (internal_help : bool) : P turn :=
  if internal_help && strcmp_eq arg "help-all" then
    r ← usage_with_options_internal usagestr options true; mret (Return r)
  else if internal_help && strcmp_eq arg "help" then
    r ← usage_with_options_internal usagestr options false; mret (Return r)
  else if strcmp_eq arg "list-opts" then mret (Return PARSE_OPT_LIST_OPTS)
  else if strcmp_eq arg "list-cmds" then mret (Return PARSE_OPT_LIST_SUBCMDS)
  else
    rc ← parse_long_opt arg options;
    if rc =? -1 then r ← parse_options_usage usagestr options arg false; mret (Return r)
    else if rc =? -2 then mret Unknown
    else mret Continue.

Definition next_arg : P unit := modify (λ p, p <| p_argc ::= pred |> <| p_argv ::= S |>).

(* util/parse-options.c:385-437 parse_options_step *)
Definition one_turn (usagestr : option (list string)) (options : list opt) (internal_help : bool) : P turn :=
  p ← get;
  arg ← arg_at (p_argv p);
  match arg with
  | String "-" (String c rest as arg1) =>
      if negb (Ascii.eqb c "-") then short_turn arg1 usagestr options internal_help
      else
        match rest with
        | EmptyString =>   (* "--" *)
            (if has (p_flags p) PARSE_OPT_KEEP_DASHDASH then mret () else next_arg) ;; mret Break
        | _ => long_turn rest usagestr options internal_help
        end
  | _ =>
      if has (p_flags p) PARSE_OPT_STOP_AT_NON_OPTION then mret Break
      else keep_arg (Some arg) ;; mret Continue
  end.

(* util/parse-options.c:384-462 parse_options_step *)
Fixpoint step_loop (fuel : nat) (usagestr : option (list string)) (options : list opt) (internal_help : bool)
    : P step_result :=
  match fuel with
  | O => fault
  | S fuel' =>
      p ← get;
      match p_argc p with
      | O => mret PARSE_OPT_DONE
      | _ =>
          t ← one_turn usagestr options internal_help;
          match t with
          | Return r => mret r
          | Break => mret PARSE_OPT_DONE
          | Continue => next_arg ;; step_loop fuel' usagestr options internal_help
          | Unknown =>
              if negb (has (p_flags p) PARSE_OPT_KEEP_UNKNOWN) then mret PARSE_OPT_UNKNOWN
              else
                p ← get; arg ← arg_at (p_argv p);
                keep_arg (Some arg) ;; set_opt None ;;
                next_arg ;; step_loop fuel' usagestr options internal_help
          end
      end
  end.

(* util/parse-options.c:375-463 parse_options_step *)
Definition parse_options_step (usagestr : option (list string)) (options : list opt) : P step_result :=
  p ← get;
  set_opt None ;;
  step_loop (S (p_argc p)) usagestr options (negb (has (p_flags p) PARSE_OPT_NO_INTERNAL_HELP)).

(** The arguments left, moved to the front with a NULL after them, and their number. *)
(* util/parse-options.c:465-470 parse_options_end *)
Definition parse_options_end : P nat :=
  p ← get;
  let rest := take (p_argc p) (drop (p_argv p) (p_out p)) in
  if bool_decide (length rest = p_argc p ∧ p_cpidx p + p_argc p < length (p_out p))%nat then
    modify (λ p, p <| p_out ::= λ out, (take (p_cpidx p) out ++ rest ++ None :: drop (p_cpidx p + p_argc p + 1) out)%list |>) ;;
    mret (p_cpidx p + p_argc p)%nat
  else fault.

(** [printf("--%s ", ...)] for every option of the table. *)
(* util/parse-options.c:502-505 parse_options_subcommand_prefix *)
Fixpoint list_opts (options : list opt) : P unit :=
  match options with
  | [] => fault
  | o :: options' =>
      if bool_decide (o_type o = OPTION_END) then mret ()
      else printf ("--" +:+ str (long_name o) +:+ " ") ;; list_opts options'
  end.

(** The usage line made of the names of subcommands. *)
(* util/parse-options.c:480-493 parse_options_subcommand_prefix *)
Definition build_usage (argv0 : string) (subcommands : list string) : prog strbuf string :=
  strbuf_addf alloc_ok (String.list_ascii_of_string ("accel-config " +:+ argv0 +:+ " [<options>] {")) ;;
  for_each (imap pair subcommands) (λ '(i, s),
    (if bool_decide (i = O) then mret () else strbuf_addstr alloc_ok "|") ;; strbuf_addstr alloc_ok s) ;;
  strbuf_addstr alloc_ok "}" ;;
  b ← own; must (c_string b).

(** Run from the start: the arguments left, in order, and the variables. *)
(* util/parse-options.c:472-522 parse_options_subcommand_prefix *)
Definition finish_parse (usagestr : option (list string)) (options : list opt)
    (subcommands : option (list string)) : P (list string) :=
  r ← parse_options_step usagestr options;
  match r with
  | PARSE_OPT_HELP => exit 0
  | PARSE_OPT_DONE => n ← parse_options_end; p ← get; must (mapM id (take n (p_out p)))
  | PARSE_OPT_LIST_OPTS => list_opts options ;; exit 0
  | PARSE_OPT_LIST_SUBCMDS =>
      match subcommands with Some l => for_each l (λ s, printf (s +:+ " ")) | None => mret () end ;; exit 0
  | PARSE_OPT_UNKNOWN =>
      p ← get; arg ← arg_at (p_argv p);
      match arg with
      | String _ (String c rest) =>
          (if Ascii.eqb c "-" then error ("unknown option `" +:+ rest +:+ "'")
           else s ← must (p_opt p); error ("unknown switch `" +:+ ch (first s) +:+ "'"))
      | _ => fault
      end ;;
      usage_with_options usagestr options
  end.

(* util/parse-options.c:472-522 parse_options_subcommand_prefix *)
Definition parse_options_subcommand_prefix (argv : list string) (prefix : option string)
    (options : list opt) (subcommands : option (list string)) (usagestr : option (list string))
    (flags : Z) (vars : variables) : outcome pstate (list string) :=
  let usage := match subcommands, usagestr, argv with
    | Some l, Some [], argv0 :: _ =>
        match with_strbuf (build_usage argv0 l) tt with Done u _ => Done (Some [u]) tt | Exited c _ => Exited c tt | Fault => Fault end
    | Some _, None, _ | Some _, Some [], [] => Fault
    | _, _, _ => Done usagestr tt
    end in
  match usage with
  | Fault => Fault
  | Exited c _ => Exited c (PState [] 0 0 0 None flags prefix vars "" "" None)
  | Done u _ =>
      match parse_options_start argv prefix flags vars with
      | Done _ p => finish_parse u options subcommands p
      | Exited c p => Exited c p
      | Fault => Fault
      end
  end.

(* util/parse-options.c:524-530 parse_options_subcommand *)
Definition parse_options_subcommand argv options subcommands usagestr flags vars :=
  parse_options_subcommand_prefix argv None options subcommands usagestr flags vars.
(* util/parse-options.c:532-538 parse_options_prefix *)
Definition parse_options_prefix argv prefix options usagestr flags vars :=
  parse_options_subcommand_prefix argv prefix options None usagestr flags vars.
(* util/parse-options.c:540-545 parse_options *)
Definition parse_options argv options usagestr flags vars :=
  parse_options_subcommand_prefix argv None options None usagestr flags vars.
End parse_options.

(* util/parse-options.c:711-732 parse_opt_verbosity_cb *)
Definition parse_opt_verbosity_cb : parse_opt_cb := λ o arg unset vars,
  match vars !! value o with
  | Some (VInt target) =>
      let store z := Done 0 (<[value o := VInt z]> vars) in
      if unset then store 0
      else if short_name o =? 118 then
        if 0 <=? target then (if target =? INT_MAX then Fault else store (target + 1)) else store 1
      else if target <=? 0 then (if target =? - 2 ^ 31 then Fault else store (target - 1)) else store (-1)
  | _ => Fault
  end.
