(* ===== verification/ParseFacts.v ===== *)
(** * Facts about the parser of command lines

    [inv] is the invariant of a run on the arguments [l0] with a table of options
    that fits the variables ([table_ok]): the array still ends with its NULL, what
    is not read yet is untouched, what was kept is a part of what was read, in
    order, and every variable has its type.  From it: parsing always ends, without
    undefined behaviour. *)

From S2P Require Import Prelude CString Prog Strbuf ParseOptions.
Local Open Scope Z_scope.

(** ** Types of variables and tables *)

Inductive ctype : Set := CInt | CUint | CBool | CStr | CLong | CU64 | CPtr.
#[export] Instance ctype_eq : EqDecision ctype.
Proof. solve_decision. Defined.
Definition type_of (c : cval) : ctype :=
  match c with
  | VInt _ => CInt | VUint _ => CUint | VBool _ => CBool | VStr _ => CStr
  | VLong _ => CLong | VU64 _ => CU64 | VPtr _ => CPtr
  end.

Lemma same_type_spec c d : same_type c d = true ↔ type_of c = type_of d.
Proof. by destruct c, d. Qed.

Definition exits (c : Z) : Prop := c = 0 ∨ c = 128 ∨ c = 129.
Definition short (s : string) : Prop := strlen s < 2 ^ 62.

(** A value of a C type: of the right kind, and within its width. *)
Definition fits_in (t : ctype) (c : cval) : Prop :=
  type_of c = t ∧
  match c with
  | VInt z => - 2 ^ 31 <= z < 2 ^ 31
  | VUint z => 0 <= z < 2 ^ 32
  | VLong z => - 2 ^ 63 <= z < 2 ^ 63
  | VU64 z => 0 <= z < 2 ^ 64
  | _ => True
  end.
#[export] Instance fits_in_dec t c : Decision (fits_in t c).
Proof. unfold fits_in. destruct c; apply _. Defined.

Lemma fits_int z : fits_in CInt (VInt (s32 z)).
Proof. split; [done|apply s32_range]. Qed.
Lemma fits_uint z : fits_in CUint (VUint (u32 z)).
Proof. split; [done|apply u32_range]. Qed.
Lemma fits_long z : fits_in CLong (VLong (s64 z)).
Proof. split; [done|apply s64_range]. Qed.
Lemma fits_u64 z : fits_in CU64 (VU64 (u64 z)).
Proof. split; [done|apply u64_range]. Qed.
Lemma fits_bool b : fits_in CBool (VBool b).
Proof. done. Qed.
Lemma fits_str s : fits_in CStr (VStr s).
Proof. done. Qed.
Lemma fits_ptr d : fits_in CPtr (VPtr d).
Proof. done. Qed.
#[export] Hint Resolve fits_int fits_uint fits_long fits_u64 fits_bool fits_str fits_ptr : cint.

(** The variables are those of [Γ], each with a value of its type. *)
Definition typed (Γ : gmap string ctype) (vars : variables) : Prop :=
  map_relation (λ _, fits_in) (λ _ _, False) (λ _ _, False) Γ vars.

Lemma typed_lookup Γ vars v t :
  typed Γ vars → Γ !! v = Some t → ∃ c, vars !! v = Some c ∧ fits_in t c.
Proof. intros H Hv. specialize (H v). rewrite Hv in H. destruct (vars !! v); [by eauto|done]. Qed.
Lemma typed_insert Γ vars v t c :
  typed Γ vars → Γ !! v = Some t → fits_in t c → typed Γ (<[v := c]> vars).
Proof.
  intros H Hv Hc w. destruct (decide (w = v)) as [->|Hw].
  - by rewrite lookup_insert_eq, Hv.
  - rewrite lookup_insert_ne by done. apply H.
Qed.

(** The defaults an option may be given, as strings and as numbers. *)
Definition last_default (o : option_data) : Prop :=
  has (o_flags o) PARSE_OPT_LASTARG_DEFAULT = true →
  match defval o with IPtr s => short s | IInt z => z = 0 end.
Definition string_default (o : option_data) : Prop :=
  has (o_flags o) PARSE_OPT_OPTARG || has (o_flags o) PARSE_OPT_LASTARG_DEFAULT = true →
  match defval o with IPtr s => short s | IInt z => z = 0 end.
Definition number_default (o : option_data) : Prop :=
  (has (o_flags o) PARSE_OPT_OPTARG = true → ∃ z, defval o = IInt z) ∧
  (has (o_flags o) PARSE_OPT_LASTARG_DEFAULT = true → ∃ s, defval o = IPtr s ∧ short s).

Lemma string_last o : string_default o → last_default o.
Proof. intros H Hl. apply H. by rewrite Hl, orb_true_r. Qed.
Lemma number_last o : number_default o → last_default o.
Proof. by intros [_ H] (s & -> & ?)%H. Qed.

Definition opt_ok (Γ : gmap string ctype) (o : opt) : Prop :=
  let var t := Γ !! value o = Some t in
  match o_type o with
  | OPTION_END | OPTION_ARGUMENT => True
  | OPTION_GROUP => help o ≠ None
  | OPTION_BIT => var CInt ∧ ∃ z, defval o = IInt z
  | OPTION_BOOLEAN => var CBool ∧ ∀ s, set o = Some s → Γ !! s = Some CBool
  | OPTION_INCR => False
  | OPTION_SET_UINT => var CUint ∧ ∃ z, defval o = IInt z
  | OPTION_SET_PTR => var CPtr
  | OPTION_STRING | OPTION_FILENAME => var CStr ∧ string_default o
  | OPTION_INTEGER => var CInt ∧ number_default o
  | OPTION_UINTEGER => var CUint ∧ number_default o
  | OPTION_LONG => var CLong ∧ number_default o
  | OPTION_U64 => var CU64 ∧ number_default o
  | OPTION_CALLBACK => string_default o ∧ ∃ cb, callback o = Some cb ∧
      ∀ s unset vars, typed Γ vars → wpx exits (cb (o_data o) s unset) (λ _ vars', typed Γ vars') vars
  end.

Inductive table_ok (Γ : gmap string ctype) : list opt → Prop :=
  | table_end (o : opt) l : o_type o = OPTION_END → table_ok Γ (o :: l)
  | table_cons (o : opt) l : o_type o ≠ OPTION_END → opt_ok Γ o → table_ok Γ l → table_ok Γ (o :: l).

Lemma sublist_take_mono {A} n m (l : list A) : (n <= m)%nat → sublist (take n l) (take m l).
Proof.
  intros Hn. replace (take n l) with (take n (take m l)) by (rewrite take_take; f_equal; lia).
  apply sublist_take.
Qed.

(** ** The invariant *)

Section inv.
Context (l0 : list string) (Γ : gmap string ctype) (flags : Z).

(** The command's own name is kept only if the caller asks for it. *)
Definition base : nat := if has flags PARSE_OPT_KEEP_ARGV0 then 0 else 1.

(** [l]: the arguments now; between [k] and [m] are left. *)
Record inv_at (l : list string) (k m : nat) (p : pstate) : Prop := Inv {
  i_out : p_out p = (Some <$> l) ++ [None];
  i_length : length l = length l0;
  i_rest : drop (p_argv p) l = drop (p_argv p) l0;
  i_argc : (p_argv p + p_argc p = length l0)%nat;
  i_left : (k <= p_argc p <= m)%nat;
  i_cpidx : (p_cpidx p <= p_argv p)%nat;
  i_base : (base <= p_argv p)%nat;
  i_kept : sublist (take (p_cpidx p) l) (drop base (take (p_argv p) l0));
  i_vars : typed Γ (p_vars p);
  i_flags : p_flags p = flags;
  i_opt : from_option short True (p_opt p);
  i_prefix : from_option short True (p_prefix p);
  i_errno : from_option (eq ERANGE) True (p_errno p);
}.
Definition inv k m p : Prop := ∃ l, inv_at l k m p.

Notation safe := (wpx exits).

Lemma inv_mono k m k' m' p : (k' <= k)%nat → (m <= m')%nat → inv k m p → inv k' m' p.
Proof. intros ?? (l & H). exists l. destruct H. constructor; done || lia. Qed.

Lemma inv_opt k m o p : from_option short True o → inv k m p → inv k m (p <| p_opt := o |>).
Proof. intros ? (l & []). exists l. by constructor. Qed.
Lemma inv_stdout k m f p : inv k m p → inv k m (p <| p_stdout ::= f |>).
Proof. intros (l & []). exists l. by constructor. Qed.
Lemma inv_stderr k m f p : inv k m p → inv k m (p <| p_stderr ::= f |>).
Proof. intros (l & []). exists l. by constructor. Qed.
Lemma inv_errno k m p : inv k m p → inv k m (p <| p_errno := Some ERANGE |>).
Proof. intros (l & []). exists l. by constructor. Qed.
Lemma inv_vars k m vars p : typed Γ vars → inv k m p → inv k m (p <| p_vars := vars |>).
Proof. intros ? (l & []). exists l. by constructor. Qed.

(** To the next argument: for the loop, and when an option takes it as its value. *)
Lemma inv_next k m p :
  inv (S k) (S m) p → inv k m (p <| p_argc ::= pred |> <| p_argv ::= S |>).
Proof.
  intros (l & []). exists l. constructor; simpl; try (done || lia).
  - rewrite <- !(Nat.add_1_r (p_argv p)), <- !drop_drop. by f_equal.
  - etrans; [done|].
    replace (p_argv p) with (base + (p_argv p - base))%nat by lia.
    rewrite <- Nat.add_succ_r, <- !take_drop_commute. apply sublist_take_mono. lia.
Qed.

(** The arguments not read yet are the given ones. *)
Lemma inv_arg k m i p :
  inv k m p → (p_argv p <= i < length l0)%nat →
  ∃ s, mjoin (p_out p !! i) = Some s ∧ l0 !! i = Some s.
Proof.
  intros (l & []) Hi. destruct (lookup_lt_is_Some_2 l0 i) as [s Hs]; [lia|]. exists s.
  assert (l !! i = Some s) as Hl.
  { replace i with (p_argv p + (i - p_argv p))%nat in * by lia.
    rewrite <- lookup_drop, <- i_rest0, lookup_drop in Hs. done. }
  rewrite i_out0, lookup_app_l, list_lookup_fmap, Hl; [done|].
  rewrite length_fmap. lia.
Qed.

Lemma arg_at_spec k m i (Q : string → pstate → Prop) p :
  inv k m p → (p_argv p <= i < length l0)%nat →
  (∀ s, l0 !! i = Some s → mjoin (p_out p !! i) = Some s → Q s p) → safe (arg_at i) Q p.
Proof.
  intros Hi Hr HQ. destruct (inv_arg _ _ _ _ Hi Hr) as (s & Hs & Hl).
  apply wpx_bind, wpx_get. eapply wpx_must; [done|]. by apply HQ.
Qed.

(** ** One option *)

Context (alloc_ok : Z → bool).
Hypothesis alloc_all : ∀ n, alloc_ok n = true ↔ n < 2 ^ 63.
Hypothesis l0_short : Forall short l0.

Lemma error_spec k m msg p :
  inv k m p → safe (error msg) (λ r p', r = -1 ∧ inv k m p' ∧ p_opt p' = p_opt p) p.
Proof. intros Hi. split; [done|]. split; [|done]. by apply inv_stderr. Qed.

Lemma opterror_spec k m o reason fl p :
  inv k m p → safe (opterror o reason fl) (λ r p', r = -1 ∧ inv k m p' ∧ p_opt p' = p_opt p) p.
Proof.
  intros Hi. unfold opterror.
  destruct (has fl OPT_SHORT); [by apply error_spec|]. destruct (has fl OPT_UNSET); by apply error_spec.
Qed.

(** What getting the value of an option ends in. *)
Definition value_post (m : nat) (p : pstate) (r : Z) (p' : pstate) : Prop :=
  (r = 0 ∨ r = -1) ∧ inv 1 m p' ∧ (p_opt p' = None ∨ p_opt p' = p_opt p).

Lemma value_error m o reason fl p p0 :
  inv 1 m p → p_opt p = None ∨ p_opt p = p_opt p0 → safe (opterror o reason fl) (value_post m p0) p.
Proof.
  intros Hi Hp. eapply wpx_mono; [by apply opterror_spec|]. intros r p' (-> & Hi' & Ho).
  split; [by right|]. rewrite Ho. done.
Qed.

Lemma get_arg_spec m o fl p :
  inv 1 m p → last_default o →
  safe (get_arg o fl) (λ a p', inv 1 m p' ∧ p_opt p' = None ∧
    ∀ s, a = Some s → from_option short True s ∧
      (s = None → has (o_flags o) PARSE_OPT_LASTARG_DEFAULT = true ∧ defval o = IInt 0)) p.
Proof.
  intros Hi Hd. unfold get_arg. apply wpx_bind, wpx_get. pose proof Hi as (l & Hl).
  destruct (p_opt p) as [s|] eqn:Ho.
  { apply wpx_bind, wpx_modify, wpx_ret. split_and!; [by apply inv_opt|done|].
    intros ? [= <-]. destruct Hl. rewrite Ho in *. done. }
  apply wpx_bind. apply (wpx_mono _ _ (λ last p', p' = p ∧
    (last = true → has (o_flags o) PARSE_OPT_LASTARG_DEFAULT = true))).
  { destruct (has (o_flags o) PARSE_OPT_LASTARG_DEFAULT); [|done].
    case_bool_decide; [done|]. apply wpx_bind. destruct Hl.
    apply (arg_at_spec 1 m); [done|lia|]. intros s _ _. by apply wpx_ret. }
  intros [|] p' [-> Hlast].
  - specialize (Hlast eq_refl). apply wpx_bind.
    specialize (Hd Hlast). destruct (defval o) as [z|s]; simpl.
    + subst z. apply wpx_ret, wpx_ret. split_and!; [done..|]. by intros ? [= <-].
    + apply wpx_ret, wpx_ret. split_and!; [done..|]. by intros ? [= <-].
  - case_bool_decide as Hc.
    + apply wpx_bind, wpx_modify, wpx_bind.
      assert (inv 1 m (p <| p_argc ::= pred |> <| p_argv ::= S |>)) as Hi'.
      { apply (inv_mono 1 m). all: try lia. apply inv_next. exists l. destruct Hl. constructor; done || lia. }
      destruct Hl. apply (arg_at_spec 1 m); [done|simpl; lia|]. intros s Hs _. apply wpx_ret.
      split_and!; [done..|]. intros ? [= <-]. split; [|done]. by eapply Forall_lookup in l0_short.
    + apply wpx_bind. eapply wpx_mono; [by apply opterror_spec|]. intros r p' (_ & Hi' & Ho').
      apply wpx_ret. rewrite Ho'. by split_and!.
Qed.

Lemma write_var_spec k m v c t (Q : unit → pstate → Prop) p :
  inv k m p → Γ !! v = Some t → fits_in t c →
  (∀ p', inv k m p' → p_opt p' = p_opt p → p_vars p' = <[v := c]> (p_vars p) → p_prefix p' = p_prefix p → Q () p') →
  safe (write_var v c) Q p.
Proof.
  intros Hi Hv Hc HQ. pose proof Hi as (l & []).
  destruct (typed_lookup _ _ _ _ i_vars0 Hv) as (d & Hd & Ht).
  unfold write_var. do 2 apply wpx_bind. apply wpx_get. eapply wpx_must; [done|].
  rewrite (proj2 (same_type_spec c d)) by (destruct Hc, Ht; congruence). apply wpx_modify.
  apply HQ; [|done..]. apply inv_vars; [|done]. by eapply typed_insert.
Qed.

Lemma write_value m v c t p0 p :
  inv 1 m p → Γ !! v = Some t → fits_in t c → p_opt p = None ∨ p_opt p = p_opt p0 →
  safe (write_var v c ;; mret 0) (value_post m p0) p.
Proof.
  intros Hi Hv Hc Ho. apply wpx_bind. eapply write_var_spec; [done..|].
  intros p' Hi' Ho' _ _. apply wpx_ret. split; [by left|]. by rewrite Ho'.
Qed.

Lemma get_number_spec m o fl mk conv t p :
  inv 1 m p → Γ !! value o = Some t → (∀ z, fits_in t (mk z)) → number_default o →
  safe (get_number o fl mk conv) (value_post m p) p.
Proof.
  intros Hi Hv Ht Hnd. pose proof Hnd as [Hopt Hlast]. unfold get_number. apply wpx_bind, wpx_get.
  destruct (has fl OPT_UNSET); [by eapply write_value; eauto|].
  destruct (has (o_flags o) PARSE_OPT_OPTARG) eqn:Hoa; simpl; [case_bool_decide|].
  { destruct Hopt as [z ->]; [done|]. apply wpx_bind, wpx_ret. by eapply write_value; eauto. }
  all: apply wpx_bind; eapply wpx_mono; [by apply get_arg_spec, number_last|].
  all: intros [a|] p' (Hi' & Ho' & Ha); [|apply wpx_ret; split; [by right|by auto]].
  all: destruct (Ha _ eq_refl) as [_ Hn]; destruct a as [s|];
    [|destruct (Hn eq_refl) as [Hl Hd]; by destruct (Hlast Hl) as (? & Hs & _); rewrite Hd in Hs].
  all: apply wpx_bind, (wpx_mono _ _ (λ _ p1, inv 1 m p1 ∧ p_opt p1 = None));
    [by destruct (st_range _); [apply wpx_modify|apply wpx_ret]; split; try apply inv_errno|].
  all: clear Hi' Ho'; intros _ p1 [Hi' Ho'].
  all: apply wpx_bind; eapply write_var_spec; [done..|]; intros p'' Hi'' Ho'' _ _.
  all: destruct (st_rest (conv s)); [apply wpx_ret; split; [by left|rewrite Ho'', Ho'; by auto]|].
  all: apply value_error; [done|left; congruence].
Qed.

Lemma get_string_spec m o fl p :
  inv 1 m p → Γ !! value o = Some CStr → string_default o →
  safe (get_string o fl) (λ r p', value_post m p r p' ∧
    (r = 0 → ∃ s, p_vars p' !! value o = Some (VStr s) ∧ from_option short True s)) p.
Proof.
  intros Hi Hv Hd. unfold get_string. apply wpx_bind, wpx_get.
  assert (Hw : ∀ s p1, inv 1 m p1 → p_opt p1 = None ∨ p_opt p1 = p_opt p → from_option short True s →
    safe (write_var (value o) (VStr s) ;; mret 0) (λ r p', value_post m p r p' ∧
    (r = 0 → ∃ s, p_vars p' !! value o = Some (VStr s) ∧ from_option short True s)) p1).
  { intros s p1 Hi1 Ho1 Hs. apply wpx_bind. eapply write_var_spec; [done..|].
    intros p' Hi' Ho' Hv' _. apply wpx_ret. split; [split; [by left|]; by rewrite Ho'|].
    intros _. exists s. rewrite Hv', lookup_insert_eq. done. }
  destruct (has fl OPT_UNSET); [by apply Hw; auto|].
  destruct (has (o_flags o) PARSE_OPT_OPTARG) eqn:Hoa; simpl; [case_bool_decide|].
  { unfold string_default in Hd. rewrite Hoa in Hd. specialize (Hd eq_refl).
    apply wpx_bind. destruct (defval o) as [z|s]; simpl; [subst z|]; apply wpx_ret; by apply Hw; auto. }
  all: apply wpx_bind; eapply wpx_mono; [by apply get_arg_spec, string_last|].
  all: intros [a|] p' (Hi' & Ho' & Ha); [|apply wpx_ret; split; [split; [by right|by auto]|done]].
  all: destruct (Ha _ eq_refl) as [Hs _]; by apply Hw; auto.
Qed.

Lemma oom_exits {S A} k (m : prog S A) Q s : wpx (oom alloc_ok k) m Q s → safe m Q s.
Proof. unfold wpx, exits. destruct (m s); [done| |done]. intros [-> _]. auto. Qed.

Lemma get_callback_spec m (o : opt) fl p :
  inv 1 m p → o_type o = OPTION_CALLBACK → opt_ok Γ o → safe (get_callback o fl) (value_post m p) p.
Proof.
  intros Hi Ho Hok. unfold opt_ok in Hok. rewrite Ho in Hok. destruct Hok as (Hd & cb & Hcb & Hsafe).
  assert (Hrun : ∀ s unset p1, inv 1 m p1 → p_opt p1 = None ∨ p_opt p1 = p_opt p →
    safe (run_callback (cb (o_data o) s unset)) (value_post m p) p1).
  { intros s unset p1 Hi1 Ho1. unfold wpx, run_callback.
    assert (Hv : typed Γ (p_vars p1)) by (by destruct Hi1 as (l & [])).
    specialize (Hsafe s unset _ Hv). unfold wpx in Hsafe. destruct (cb _ _ _ _) as [r vs|c vs|]; [|done..].
    split; [destruct (r =? 0); auto|]. split; [by apply inv_vars|done]. }
  unfold get_callback. rewrite Hcb. apply wpx_bind, wpx_ret, wpx_bind, wpx_get.
  destruct (has fl OPT_UNSET); [by apply Hrun; auto|].
  destruct (has (o_flags o) PARSE_OPT_NOARG); [by apply Hrun; auto|].
  destruct (_ && _); [by apply Hrun; auto|].
  apply wpx_bind. eapply wpx_mono; [by apply get_arg_spec, string_last|].
  intros [s|] p' (Hi' & Ho' & _); [by apply Hrun; auto|]. apply wpx_ret. split; [by right|auto].
Qed.

Lemma filename_spec m (o : opt) fl p :
  inv 1 m p → o_type o = OPTION_FILENAME → opt_ok Γ o → safe (store_value alloc_ok o fl) (value_post m p) p.
Proof.
  intros Hi Ho Hok. unfold opt_ok in Hok. unfold store_value. rewrite Ho in *. destruct Hok as [Hv Hd].
  apply wpx_bind. eapply wpx_mono; [by apply get_string_spec|]. intros r p' [Hp Hr].
  destruct (Z.eqb_spec r 0) as [->|]; [|by apply wpx_ret].
  destruct (Hr eq_refl) as (s & Hs & Hsh). destruct Hp as (_ & Hi' & Ho').
  apply wpx_bind, wpx_get. do 2 apply wpx_bind. apply wpx_get. eapply wpx_must; [done|].
  apply wpx_bind. eapply wpx_mono; [eapply oom_exits, fix_filename_safe; [apply alloc_all|]|].
  - destruct Hi' as (l & []). intros s' [Hs'| ->]; [by rewrite Hs' in *|done].
  - intros file p1 ->. by eapply write_value.
Qed.

(** Any option of the table, however it is given. *)
Lemma get_value_spec m (o : opt) fl p :
  inv 1 m p → opt_ok Γ o → safe (get_value alloc_ok o fl) (value_post m p) p.
Proof.
  intros Hi Hok. unfold get_value. apply wpx_bind, wpx_get.
  destruct (_ && bool_decide _); [by apply value_error; auto|].
  destruct (_ && has _ _); [by apply value_error; auto|].
  destruct (_ && _ && _); [by apply value_error; auto|].
  destruct (o_type o) eqn:Ho.
  all: try (by apply filename_spec).
  all: unfold store_value; rewrite Ho; try (by apply get_callback_spec); unfold opt_ok in Hok; rewrite Ho in Hok; cbv zeta in Hok.
  all: try (by right; left). all: try done.
  all: try (by destruct Hok; eapply get_number_spec; eauto with cint).
  - destruct Hok as (Hv & z & ->). apply wpx_bind, wpx_ret, wpx_bind. pose proof Hi as (l & []).
    destruct (typed_lookup _ _ _ _ i_vars0 Hv) as (d & Hd & Ht).
    do 2 apply wpx_bind. apply wpx_get. eapply wpx_must; [done|]. destruct Ht as [Ht _]; destruct d; try done.
    apply wpx_ret. by eapply write_value; eauto with cint.
  - destruct Hok as (Hv & Hs). apply wpx_bind. eapply write_var_spec; [done..|]. intros p' Hi' Ho' _ _.
    apply wpx_bind. destruct (set o) as [s|] eqn:Hso.
    + eapply write_var_spec; [done|by apply Hs|done|]. intros p'' Hi'' Ho'' _ _.
      apply wpx_ret. split; [by left|]. split; [done|]. right. congruence.
    + apply wpx_ret, wpx_ret. split; [by left|]. auto.
  - destruct Hok as (Hv & z & ->). apply wpx_bind. destruct (has fl OPT_UNSET); apply wpx_ret;
      by eapply write_value; eauto with cint.
  - by eapply write_value; eauto with cint.
  - destruct Hok. eapply wpx_mono; [by apply get_string_spec|]. by intros r p' [].
Qed.

(** ** Tables *)

Lemma next_switch_spec s : from_option short True (Some s) → from_option short True (next_switch s).
Proof.
  destruct s as [|c [|d s]]; simpl; try done. unfold short, strlen. simpl. lia.
Qed.
Lemma next_switch_lt s o : next_switch s = Some o → (String.length o < String.length s)%nat ∧ o ≠ "".
Proof. destruct s as [|c [|d s]]; try done. intros [= <-]. simpl. split; [lia|done]. Qed.

(** A switch: no option (-2) and nothing changed, or its option's value. *)
Lemma parse_short_opt_spec m options s p :
  inv 1 m p → table_ok Γ options → p_opt p = Some s →
  safe (parse_short_opt alloc_ok options) (λ r p', r = -2 ∧ p' = p ∨
    (r = 0 ∨ r = -1) ∧ inv 1 m p' ∧ (p_opt p' = None ∨ p_opt p' = next_switch s)) p.
Proof.
  intros Hi Ht Hs. induction Ht as [o l He|o l He Hok Ht IH]; simpl.
  { rewrite bool_decide_true by done. apply wpx_ret. by left. }
  rewrite bool_decide_false by done. apply wpx_bind, wpx_get, wpx_bind.
  eapply wpx_must; [done|]. destruct (_ =? _); [|done].
  assert (from_option short True (Some s)) as Hsh by (rewrite <- Hs; by destruct Hi as (l' & [])).
  apply wpx_bind, wpx_modify. eapply wpx_mono.
  { apply get_value_spec; [by apply inv_opt, Hi; apply next_switch_spec|done]. }
  intros r p' (Hr & Hi' & Ho'). right. by split_and!.
Qed.

(** The suffixes of an argument are no longer than it. *)
Lemma span_rest_length f s : (String.length (span f s).2 <= String.length s)%nat.
Proof.
  induction s as [|c s IH]; simpl; [done|]. destruct (f c); [|done].
  destruct (span f s). simpl in *. lia.
Qed.
Lemma arg_end_short arg s : short arg → arg_end arg = Some s → short s.
Proof.
  unfold short, strlen, arg_end. intros Ha. pose proof (span_rest_length (λ c, negb (Ascii.eqb c "=")) arg).
  destruct (span _ arg).2; [done|]. intros [= <-]. simpl in *. lia.
Qed.
Lemma substring_le n k s : (String.length (String.substring n k s) <= String.length s)%nat.
Proof.
  revert n k. induction s as [|c s IH]; intros [|n] [|k]; simpl; try lia.
  - specialize (IH O k). lia.
  - specialize (IH n O). lia.
  - specialize (IH n (S k)). lia.
Qed.
Lemma skip_prefix_short arg name rest : short arg → skip_prefix arg name = Some rest → short rest.
Proof.
  unfold short, strlen, skip_prefix, literal. intros Ha. destruct (String.prefix _ _); [|done].
  intros [= <-]. pose proof (substring_le (String.length name) (String.length arg - String.length name) arg). lia.
Qed.
Lemma match_name_short arg name rest fl : short arg → match_name arg name = Match rest fl → short rest.
Proof.
  intros Ha. unfold match_name.
  destruct (skip_prefix arg name) eqn:H1; [by intros [= <- _]; eapply skip_prefix_short|].
  destruct (if prefixcmp name "no-" =? 0 then _ else _) eqn:H2.
  { intros [= <- _]. destruct (_ =? 0); [|done]. by eapply skip_prefix_short. }
  destruct (_ && _); [discriminate|]. destruct (strncmp_eq _ _ _); [discriminate|].
  destruct (prefixcmp "no-" arg =? 0); [discriminate|]. destruct (negb _); [discriminate|]. cbv zeta.
  set (arg' := String.substring 3 (String.length arg - 3) arg).
  destruct (skip_prefix arg' name) eqn:H3; [|destruct (prefixcmp name arg' =? 0); discriminate].
  intros [= <- _]. eapply skip_prefix_short; [|done]. unfold short, strlen in *.
  pose proof (substring_le 3 (String.length arg - 3) arg). subst arg'. lia.
Qed.

(** ** Long options *)

(** To the next argument, as the loop does at the end of a turn. *)
Definition advanced (m : nat) (p : pstate) : Prop :=
  (1 <= p_argc p <= m)%nat ∧ inv 0 (pred m) (p <| p_argc ::= pred |> <| p_argv ::= S |>).

Lemma inv_advanced m p : inv 1 m p → (1 <= m)%nat → advanced m p.
Proof.
  intros Hi Hm. split; [by destruct Hi as (l & [])|]. apply inv_next.
  by replace (S (pred m)) with m by lia.
Qed.

(** The argument being read, kept. *)
Lemma keep_arg_spec m s p :
  inv 1 m p → l0 !! p_argv p = Some s → safe (keep_arg (Some s)) (λ _ p', advanced m p') p.
Proof.
  intros (l & []) Hs. unfold keep_arg, put_arg. apply wpx_bind, wpx_get. do 2 apply wpx_bind. apply wpx_get.
  assert (p_cpidx p < length l)%nat as Hlt by lia.
  rewrite bool_decide_true by (rewrite i_out0, length_app, length_fmap; simpl; lia).
  do 2 apply wpx_modify. split; [done|]. exists (<[p_cpidx p := s]> l).
  constructor; simpl; try (done || lia).
  - rewrite i_out0, insert_app_l by (by rewrite length_fmap). by rewrite list_fmap_insert.
  - by rewrite length_insert.
  - rewrite drop_insert_lt by lia. rewrite <- !(Nat.add_1_r (p_argv p)), <- !drop_drop. by f_equal.
  - rewrite (take_S_r _ _ s) by (by rewrite list_lookup_insert_eq).
    rewrite take_insert_ge by lia. rewrite (take_S_r l0 _ s), drop_app_le by (done || (rewrite length_take; lia)). by apply sublist_app.
Qed.

(** What reading a long option ends in: nothing found and nothing changed; an
    error; or the end of its turn. *)
Definition long_post (m : nat) (p : pstate) (r : Z) (p' : pstate) : Prop :=
  r = -2 ∧ p' = p ∨ r = -1 ∨ r = 0 ∧ advanced m p'.

Lemma value_long m p0 p r p' : (1 <= m)%nat → value_post m p0 r p' → long_post m p r p'.
Proof.
  intros Hm ([->| ->] & Hi & _); [|by right; left]. right; right. split; [done|]. by apply inv_advanced.
Qed.

Lemma long_loop_spec m arg options p0 p abbrev ambiguous :
  inv 1 m p → table_ok Γ options → short arg → (1 <= m)%nat → l0 !! p_argv p = Some ("--" +:+ arg) →
  match abbrev with Some (o, _) => opt_ok Γ o | None => p = p0 ∧ ambiguous = None end →
  safe (long_loop alloc_ok arg options abbrev ambiguous) (long_post m p0) p.
Proof.
  intros Hi Ht Ha Hm Harg Hab. revert p abbrev ambiguous Hi Harg Hab.
  induction Ht as [o l He|o l He Hok Ht IH]; intros p abbrev ambiguous Hi Harg Hab; simpl.
  { rewrite bool_decide_true by done. destruct ambiguous as [[a af]|], abbrev as [[b bf]|].
    - by right; left.
    - by destruct Hab.
    - eapply wpx_mono; [by apply get_value_spec|]. intros r p'. by apply value_long.
    - destruct Hab as [-> _]. by left. }
  rewrite bool_decide_false by done. destruct (long_name o) as [name|]; [|by apply IH].
  case_bool_decide as Hoa.
  - destruct (skip_prefix arg name) as [[|c rest]|]; [|destruct (Ascii.eqb c "=")|]; [|by right; left|by apply IH..].
    apply wpx_bind. eapply wpx_mono; [by apply keep_arg_spec|]. intros [] p' Hp'. right; right. done.
  - destruct (match_name arg name) as [|[|c rest] fl|fl] eqn:Hmn; [by apply IH| | |].
    + eapply wpx_mono; [by apply get_value_spec|]. intros r p'. by apply value_long.
    + destruct (Ascii.eqb c "="); [|by apply IH]. apply wpx_bind, wpx_modify.
      eapply wpx_mono; [apply get_value_spec; [apply inv_opt, Hi|done]|intros r p'; by apply value_long].
      apply match_name_short in Hmn; [|done]. unfold short, strlen in *. simpl in *. lia.
    + apply wpx_bind. destruct (has fl OPT_UNSET); [by apply wpx_ret, IH|].
      destruct (arg_end arg) as [s|] eqn:He'; [|by apply wpx_ret, IH].
      apply wpx_modify, IH; [|done..]. apply inv_opt; [|done]. by eapply arg_end_short.
Qed.

(** ** Usage *)

Context (usagestr : option (list string)) (table : list opt).
Hypothesis usage_some : ∀ u, usagestr = Some u → u ≠ [].
Hypothesis table_typed : table_ok Γ table.

(** Usage texts never end the process themselves. *)
Definition ends {A} (m : P A) : Prop := ∀ p, wp m (λ _ _, True) p.

Lemma ends_bind {A B} (m : P A) (k : A → P B) : ends m → (∀ a, ends (k a)) → ends (m ≫= k).
Proof. intros Hm Hk p. apply wp_bind. eapply wp_mono; [|apply Hm]. intros a p' _. apply Hk. Qed.
Lemma ends_eprintf s : ends (eprintf s).
Proof. by intros p. Qed.
Lemma ends_ret {A} (a : A) : ends (mret a).
Proof. by intros p. Qed.

Lemma usage_lines_ends alt l : ends (usage_lines alt l).
Proof.
  revert alt. induction l as [|[|c s] l IH]; intros alt; simpl; [apply ends_ret|..].
  all: apply ends_bind; [apply ends_eprintf|intros _; apply IH].
Qed.
Lemma usage_head_ends u : u ≠ [] → ends (usage_head u).
Proof.
  destruct u as [|s l]; [done|]. intros _. apply ends_bind; [apply ends_eprintf|intros _; apply usage_lines_ends].
Qed.
Lemma print_option_help_ends (o : opt) full : opt_ok Γ o → ends (print_option_help (o_data o) full).
Proof.
  intros Hok. unfold print_option_help.
  assert (o_type o = OPTION_GROUP → help o ≠ None) as Hg by (intros He; unfold opt_ok in Hok; by rewrite He in Hok).
  destruct (o_type (o_data o)) eqn:Ho.
  3: { apply ends_bind; [apply ends_eprintf|]. intros _. specialize (Hg eq_refl).
       destruct (help (o_data o)) as [[|c h]|]; [|intros p..]; done. }
  all: destruct (_ && _); [apply ends_ret|].
  all: apply ends_bind; [apply ends_eprintf|]; intros _; apply ends_bind;
    [case_bool_decide; [apply ends_ret|by intros p]|]; intros pad; apply ends_eprintf.
Qed.
Lemma options_help_ends l full : table_ok Γ l → ends (options_help l full).
Proof.
  induction 1 as [o l He|o l He Hok Ht IH]; simpl.
  - rewrite bool_decide_true by done. apply ends_ret.
  - rewrite bool_decide_false by done. apply ends_bind; [by apply print_option_help_ends|done].
Qed.

Lemma usage_spec full p :
  wp (usage_with_options_internal usagestr table full) (λ r _, r = PARSE_OPT_HELP) p.
Proof.
  unfold usage_with_options_internal. destruct usagestr as [u|] eqn:Hu; [|done].
  apply wp_bind. eapply wp_mono; [|by apply usage_head_ends, usage_some]. intros _ p1 _.
  pose proof (options_help_ends _ full table_typed) as Hh.
  destruct table as [|o l] eqn:Hl; [by inversion table_typed|]. simpl. apply wp_bind, wp_ret, wp_bind.
  apply (wp_mono _ (λ _ _, True)); [|by case_bool_decide].
  intros _ p2 _. apply wp_bind. by eapply wp_mono; [|apply Hh].
Qed.

Lemma find_option_spec optstr sh l p :
  table_ok Γ l → wp (find_option optstr sh l) (λ o _, match o with Some o => opt_ok Γ o | None => True end) p.
Proof.
  induction 1 as [o l He|o l He Hok Ht IH]; simpl.
  - by rewrite bool_decide_true.
  - rewrite bool_decide_false by done. destruct sh; [by destruct (_ =? _)|].
    destruct (long_name o); [|done]. by destruct (_ || _).
Qed.

Lemma parse_options_usage_spec optstr sh p :
  wp (parse_options_usage usagestr table optstr sh) (λ r _, r = PARSE_OPT_HELP) p.
Proof.
  unfold parse_options_usage. apply wp_bind.
  apply (wp_mono _ (λ _ _, True)); swap 1 2.
  { destruct usagestr as [u|] eqn:Hu; [|done]. apply ends_bind; [by apply usage_head_ends, usage_some|].
    intros _. apply ends_eprintf. }
  intros _ p1 _. apply wp_bind. eapply wp_mono; [|by apply find_option_spec].
  intros [o|] p2 Ho; [|done]. apply wp_bind. by eapply wp_mono; [|by apply print_option_help_ends].
Qed.

(** ** The loop over the arguments *)

(** [-x...]: something to report when no option is meant. *)
Definition reportable (p : pstate) : Prop :=
  ∃ c0 c rest, mjoin (p_out p !! p_argv p) = Some (String c0 (String c rest)) ∧
    (c = "-"%char ∨ p_opt p ≠ None).

Definition turn_post (m : nat) (t : turn) (p : pstate) : Prop :=
  match t with
  | Continue => advanced m p
  | Break => inv 0 m p
  | Unknown => reportable p
  | Return r => r ≠ PARSE_OPT_UNKNOWN ∧ r ≠ PARSE_OPT_DONE
  end.

Lemma usage_turn m p :
  safe (r ← usage_with_options_internal usagestr table false; mret (Return r)) (turn_post m) p.
Proof. apply wpx_bind. eapply wpx_mono; [apply wp_wpx, usage_spec|]. intros r p' ->. done. Qed.
Lemma error_turn m optstr sh p :
  safe (r ← parse_options_usage usagestr table optstr sh; mret (Return r)) (turn_post m) p.
Proof. apply wpx_bind. eapply wpx_mono; [apply wp_wpx, parse_options_usage_spec|]. intros r p' ->. done. Qed.

Lemma short_length s : short s → alloc_ok (strlen s + 2) = true.
Proof. unfold short. intros. apply alloc_all. lia. Qed.

(** The switches of a bunch: each turn takes one off. *)
Lemma switches_spec m help fuel p :
  inv 1 m p → (1 <= m)%nat → (∀ s, p_opt p = Some s → (String.length s < fuel)%nat ∧ s ≠ "") → (1 <= fuel)%nat →
  safe (switches alloc_ok fuel usagestr table help) (turn_post m) p.
Proof.
  intros Hi Hm. revert p Hi. induction fuel as [|fuel IH]; intros p Hi Hf H1; [lia|].
  simpl. apply wpx_bind, wpx_get. destruct (p_opt p) as [arg|] eqn:Ho; [|by apply wpx_ret, inv_advanced].
  destruct (Hf _ eq_refl) as [Hlen Hne]. destruct (help && _); [apply usage_turn|].
  apply wpx_bind. eapply wpx_mono; [by apply parse_short_opt_spec|].
  intros r p' [[-> ->]|([->| ->] & Hi' & Ho')]; simpl; [|..].
  - apply wpx_bind, wpx_get. rewrite Ho. apply wpx_bind, wpx_ret.
    pose proof Hi as (l & []). rewrite short_length by (by rewrite Ho in *).
    unfold put_arg. do 2 apply wpx_bind. apply wpx_get.
    rewrite bool_decide_true by (rewrite i_out0, length_app, length_fmap; simpl; lia).
    apply wpx_modify, wpx_ret. destruct arg as [|c arg]; [done|].
    exists "-"%char, c, arg. simpl. split; [|right; by rewrite Ho].
    rewrite list_lookup_insert_eq; [done|]. rewrite i_out0, length_app, length_fmap. simpl. lia.
  - destruct Ho' as [Ho'|Ho'].
    + destruct fuel as [|fuel]; [by destruct arg; simpl in Hlen; [|lia]|]. apply IH; [done| |lia]. by rewrite Ho'.
    + apply IH; [done| |destruct arg; simpl in *; [done|lia]].
      rewrite Ho'. intros s Hs. apply next_switch_lt in Hs as [? ?]. split; [lia|done].
  - apply error_turn.
Qed.

Lemma check_typos_spec arg p : safe (check_typos arg table) (λ _ p', p' = p) p.
Proof.
  unfold check_typos. destruct (_ <? _); [done|]. destruct (_ =? _); [by right; right|].
  clear usage_some. induction table_typed as [o l He|o l He Hok Ht IH]; simpl.
  - by rewrite bool_decide_true.
  - rewrite bool_decide_false by done. destruct (match long_name o with Some name => _ | None => _ end); [|by apply IH].
    by right; right.
Qed.

Lemma short_turn_spec m help arg p :
  inv 1 m p → (1 <= m)%nat → l0 !! p_argv p = Some ("-" +:+ arg) → arg ≠ "" →
  safe (short_turn alloc_ok arg usagestr table help) (turn_post m) p.
Proof.
  intros Hi Hm Harg Hne. assert (short arg) as Hsh.
  { assert (short ("-" +:+ arg)) as H by (by eapply Forall_lookup in l0_short).
    unfold short in *. rewrite strlen_app in H. change (strlen "-") with 1 in H. lia. }
  unfold short_turn. apply wpx_bind, wpx_modify. destruct (help && _); [apply usage_turn|].
  apply wpx_bind. eapply wpx_mono; [apply (parse_short_opt_spec m _ arg); [by apply inv_opt|done..]|].
  intros r p' [[-> ->]|([->| ->] & Hi' & Ho')]; simpl Z.eqb; cbv iota.
  - apply wpx_ret. destruct arg as [|c arg]; [done|]. exists "-"%char, c, arg. split; [|by right].
    apply (inv_arg _ _ (p_argv p)) in Hi as (s & Hs & Hl).
    + rewrite Hl in Harg. injection Harg as ->. done.
    + apply lookup_lt_Some in Harg. lia.
  - apply wpx_bind, wpx_get, wpx_bind. apply (wpx_mono _ _ (λ _ p2, p2 = p')).
    { case_bool_decide; [apply check_typos_spec|done]. }
    intros _ p2 ->. apply switches_spec; [done|done| |lia].
    intros s Hs. destruct Ho' as [Ho'|Ho']; rewrite Ho' in Hs; [done|].
    apply next_switch_lt in Hs as [? ?]. split; [lia|done].
  - apply error_turn.
Qed.

Lemma long_turn_spec m help arg p :
  inv 1 m p → (1 <= m)%nat → l0 !! p_argv p = Some ("--" +:+ arg) →
  safe (long_turn alloc_ok arg usagestr table help) (turn_post m) p.
Proof.
  intros Hi Hm Harg. assert (short arg) as Hsh.
  { assert (short ("--" +:+ arg)) as H by (by eapply Forall_lookup in l0_short).
    unfold short in *. rewrite strlen_app in H. change (strlen "--") with 2 in H. lia. }
  unfold long_turn.
  destruct (help && _); [apply wpx_bind; eapply wpx_mono; [apply wp_wpx, usage_spec|]; by intros r p' ->|].
  destruct (help && _); [apply usage_turn|]. destruct (strcmp_eq _ _); [done|]. destruct (strcmp_eq _ _); [done|].
  apply wpx_bind. eapply wpx_mono; [by apply (long_loop_spec m arg table p)|].
  intros r p' [[-> ->]|[->|[-> Ha]]]; simpl Z.eqb; cbv iota; [|apply error_turn|by apply wpx_ret].
  apply wpx_ret. destruct (inv_arg 1 m (p_argv p) p Hi) as (s & Hs & Hl).
  { apply lookup_lt_Some in Harg. lia. }
  exists "-"%char, "-"%char, arg. split; [|by left]. rewrite Hs, <- Hl. exact Harg.
Qed.

Lemma one_turn_spec m help p :
  inv 1 m p → (1 <= m)%nat → safe (one_turn alloc_ok usagestr table help) (turn_post m) p.
Proof.
  intros Hi Hm. unfold one_turn. apply wpx_bind, wpx_get, wpx_bind.
  apply (arg_at_spec 1 m); [done|destruct Hi as (l & []); lia|]. intros arg Harg _.
  assert (Hkeep : safe (if has (p_flags p) PARSE_OPT_STOP_AT_NON_OPTION then mret Break
    else keep_arg (Some arg) ;; mret Continue) (turn_post m) p).
  { destruct (has _ _); [by apply wpx_ret, (inv_mono 1 m); [lia..|]|].
    apply wpx_bind. eapply wpx_mono; [by apply keep_arg_spec|]. by intros [] p' Hp'. }
  destruct arg as [|c arg]; [done|].
  destruct (decide (c = "-"%char)) as [->|Hc].
  2: { clear - Hkeep Hc. destruct c as [[] [] [] [] [] [] [] []]; done. }
  destruct arg as [|d rest]; [done|].
  destruct (Ascii.eqb_spec d "-") as [->|Hd]; simpl negb; cbv iota; [|by apply short_turn_spec].
  destruct rest as [|e rest]; [|by apply long_turn_spec].
  apply wpx_bind. destruct (has _ PARSE_OPT_KEEP_DASHDASH); [by apply wpx_ret, wpx_ret, (inv_mono 1 m); [lia..|]|].
  apply wpx_modify, wpx_ret. apply (inv_mono 0 (pred m)); [lia..|]. by apply inv_advanced.
Qed.

Lemma step_loop_spec fuel help p :
  inv 0 (pred fuel) p → (1 <= fuel)%nat → has flags PARSE_OPT_KEEP_UNKNOWN = false →
  safe (step_loop alloc_ok fuel usagestr table help) (λ r p',
    (r = PARSE_OPT_DONE → ∃ m, inv 0 m p') ∧ (r = PARSE_OPT_UNKNOWN → reportable p')) p.
Proof.
  intros Hi H1 Hfl. revert p Hi. induction fuel as [|fuel IH]; [lia|]. intros p Hi. simpl in Hi. simpl.
  apply wpx_bind, wpx_get. destruct (p_argc p) as [|n] eqn:Hn; [apply wpx_ret; split; [by eexists|done]|].
  assert (inv 1 fuel p) as Hi1.
  { destruct Hi as (l & []). exists l. constructor; done || lia. }
  assert (1 <= fuel)%nat by (destruct Hi1 as (l & []); lia).
  apply wpx_bind. eapply wpx_mono; [by apply (one_turn_spec fuel)|].
  intros [| | |r] p' Ht; simpl in Ht.
  - apply wpx_bind, wpx_modify, IH; [lia|]. by destruct Ht.
  - apply wpx_ret. split; [intros _; by eexists|done].
  - assert (p_flags p = flags) as -> by (by destruct Hi1 as (l & [])). rewrite Hfl. apply wpx_ret. done.
  - apply wpx_ret. destruct Ht. done.
Qed.

(** What is left at the end: some of the arguments, in their order. *)
Lemma parse_options_end_spec m p :
  inv 0 m p → safe parse_options_end (λ n p', typed Γ (p_vars p') ∧ from_option (eq ERANGE) True (p_errno p') ∧
    ∃ args, mapM id (take n (p_out p')) = Some args ∧ sublist args (drop base l0)) p.
Proof.
  intros (l & []). unfold parse_options_end. apply wpx_bind, wpx_get.
  assert (Htail : take (p_argc p) (drop (p_argv p) (p_out p)) = Some <$> drop (p_argv p) l).
  { rewrite i_out0, drop_app_le by (rewrite length_fmap; lia).
    rewrite <- fmap_drop, take_app_length' by (rewrite length_fmap, length_drop; lia). done. }
  rewrite Htail. rewrite bool_decide_true.
  2: { rewrite length_fmap, length_drop, i_out0, length_app, length_fmap. simpl. lia. }
  apply wpx_bind, wpx_modify, wpx_ret. simpl. split; [done|]. split; [done|].
  exists (take (p_cpidx p) l ++ drop (p_argv p) l). split.
  - rewrite (assoc_L (++)), i_out0, (take_app_le (Some <$> l)) by (rewrite length_fmap; lia).
    rewrite <- fmap_take, <- fmap_app, take_app_length'.
    2: { rewrite length_fmap, length_app, length_take, length_drop. lia. }
    apply mapM_Some_2, Forall2_fmap_l, Forall_Forall2_diag, Forall_true. done.
  - rewrite <- (take_drop (p_argv p) l0), drop_app_le, <- i_rest0 by (rewrite length_take; lia).
    by apply sublist_app.
Qed.

Lemma list_opts_spec l p : table_ok Γ l → safe (list_opts l) (λ _ _, True) p.
Proof.
  intros Ht. revert p. induction Ht as [o l He|o l He Hok Ht IH]; intros p; simpl.
  - by rewrite bool_decide_true.
  - rewrite bool_decide_false by done. apply wpx_bind, wpx_modify, IH.
Qed.

Lemma finish_parse_spec subcommands p :
  inv 0 (p_argc p) p → has flags PARSE_OPT_KEEP_UNKNOWN = false →
  safe (finish_parse alloc_ok usagestr table subcommands) (λ args p', typed Γ (p_vars p') ∧
    from_option (eq ERANGE) True (p_errno p') ∧ sublist args (drop base l0)) p.
Proof.
  intros Hi Hfl. unfold finish_parse, parse_options_step. do 2 apply wpx_bind. apply wpx_get, wpx_bind, wpx_modify.
  eapply wpx_mono; [apply step_loop_spec; [by apply inv_opt|lia|done]|].
  intros [] p' [Hdone Hunk].
  - by left.
  - destruct (Hdone eq_refl) as [m Hi']. apply wpx_bind. eapply wpx_mono; [by eapply parse_options_end_spec|].
    intros n p1 (Hv & He & args & Ha & Hs). apply wpx_bind, wpx_get. by eapply wpx_must.
  - apply wpx_bind. eapply wpx_mono; [by apply list_opts_spec|]. intros _ p1 _. by left.
  - apply wpx_bind. apply (wpx_mono _ _ (λ _ _, True)); [|intros _ p1 _; by left].
    destruct subcommands as [l|]; [|done]. generalize p'. induction l as [|x l IH]; intros p1; [done|].
    simpl. apply wpx_bind, wpx_modify, IH.
  - destruct (Hunk eq_refl) as (c0 & c & rest & Harg & Hrep).
    apply wpx_bind, wpx_get, wpx_bind. unfold arg_at. apply wpx_bind, wpx_get. eapply wpx_must; [done|].
    apply wpx_bind. apply (wpx_mono _ _ (λ _ _, True)).
    { destruct (Ascii.eqb_spec c "-"); [done|]. destruct Hrep as [|Hrep]; [done|].
      destruct (p_opt p') as [s|] eqn:Ho; [|done]. apply wpx_bind. by eapply wpx_must. }
    intros _ p1 _. unfold usage_with_options. apply wpx_bind. eapply wpx_mono; [apply wp_wpx, usage_spec|].
    intros _ p2 _. by right; right.
Qed.
End inv.

(** ** Whole command lines *)

Section lines.
Context (alloc_ok : Z → bool) (alloc_all : ∀ n, alloc_ok n = true ↔ n < 2 ^ 63).

(** A table that fits its variables, on a command line that exists. *)
Record line_ok (argv : list string) (prefix : option string) (table : list opt)
    (usagestr : option (list string)) (flags : Z) (Γ : gmap string ctype) (vars : variables) : Prop := LineOk {
  l_argv : argv ≠ [];
  l_short : Forall short argv;
  l_prefix : from_option short True prefix;
  l_table : table_ok Γ table;
  l_usage : ∀ u, usagestr = Some u → u ≠ [];
  l_flags : has flags PARSE_OPT_KEEP_UNKNOWN = false;
  l_vars : typed Γ vars;
}.

Lemma start_inv argv prefix flags Γ vars :
  argv ≠ [] → from_option short True prefix → typed Γ vars →
  inv argv Γ flags 0 (length argv - 1) (PState ((Some <$> argv) ++ [None]) 1 (length argv - 1)
    (if has flags PARSE_OPT_KEEP_ARGV0 then 1 else 0) None flags prefix vars "" "" None).
Proof.
  intros Hne Hp Hv. destruct argv as [|a argv]; [done|]. exists (a :: argv).
  constructor; simpl; try (done || lia).
  - destruct (has _ _); lia.
  - unfold base. destruct (has _ _); lia.
  - unfold base. destruct (has _ _); done.
Qed.

Lemma parse_line argv prefix table usagestr flags Γ vars :
  line_ok argv prefix table usagestr flags Γ vars →
  match parse_options_prefix alloc_ok argv prefix table usagestr flags vars with
  | Done args p => typed Γ (p_vars p) ∧ from_option (eq ERANGE) True (p_errno p) ∧ sublist args (drop (base flags) argv)
  | Exited c _ => exits c
  | Fault => False
  end.
Proof.
  intros []. unfold parse_options_prefix, parse_options_subcommand_prefix, parse_options_start.
  destruct argv as [|a l] eqn:Ha; [done|]. rewrite <- Ha in *. rewrite l_flags0. simpl andb.
  refine (finish_parse_spec argv Γ flags alloc_ok alloc_all _ usagestr table _ _ None _ _ _); try done.
  by apply start_inv.
Qed.

(** C9: Reading a command line always comes to an end: with the arguments left, which are some of
    those given, in their order, and every variable a value of its C type; or with the end of the
    process, with status 0, 128 or 129.  It never runs past the arguments, the table or an option's
    string, nor follows a NULL pointer.  This holds for every table of options that fits its variables
    and every command line of strings below 2^62 bytes, under two conditions ([line_ok] and
    [alloc_all]): the caller does not ask to keep unknown options (PARSE_OPT_KEEP_UNKNOWN, which no caller of
    this program does), and the parser's own allocations succeed unless they ask for 2^63 bytes or
    more: the copy that is made of an unknown switch is used without a test for NULL. *)
Theorem parse_options_ends argv prefix table usagestr flags Γ vars :
  line_ok argv prefix table usagestr flags Γ vars →
  match parse_options_prefix alloc_ok argv prefix table usagestr flags vars with
  | Done args p => typed Γ (p_vars p) ∧ sublist args (drop (base flags) argv)
  | Exited c _ => exits c
  | Fault => False
  end.
Proof.
  intros Hl. pose proof (parse_line _ _ _ _ _ _ _ Hl) as Hp.
  destruct (parse_options_prefix _ _ _ _ _ _ _); [|done..]. by destruct Hp as (? & _ & ?).
Qed.

End lines.
