(* ===== verification/Types.v ===== *)
(** * Data of libaccfg and the world it runs in

    The structures of accfg/lib/private.h with the members the code uses, the
    enumerations and parameter blocks of accfg/libaccel_config.h, the heap that
    holds the objects, and the operating system the library calls.

    An object pointer is a [positive] into the map of its type, a pointer that
    may be NULL an [option].  An object not in its map has been freed or never
    existed, and a dereference of it is a [Fault].  An intrusive ccan list is
    the list of its members' pointers. *)

From S2P Require Import Prelude CString Prog.

(** ** Constants (accfg/libaccel_config.h, util/sysfs.h, accfg/idxd.h) *)

Definition MAX_DEV_LEN : Z := 64.
Definition MAX_BUF_LEN : Z := 128.
Definition MAX_PARAM_LEN : Z := 4096.
Definition TRAFFIC_CLASS_LIMIT : Z := 8.
Definition WQ_PRIORITY_LIMIT : Z := 15.
Definition SYSFS_ATTR_SIZE : Z := 1024.
Definition PATH_MAX : Z := 4096.
Definition LOG_ERR : Z := 3.
Definition LOG_NOTICE : Z := 5.
Definition LOG_INFO : Z := 6.
Definition LOG_DEBUG : Z := 7.

(** ** Enumerations: an [enum] is an [int]; its constants are these. *)

(* accfg/libaccel_config.h:36-41 accfg_device_type *)
Definition ACCFG_DEVICE_DSA : Z := 0.
Definition ACCFG_DEVICE_IAX : Z := 1.
Definition ACCFG_DEVICE_MAX : Z := 2.
Definition ACCFG_DEVICE_TYPE_UNKNOWN : Z := -1.

(* accfg/libaccel_config.h:43-47 accfg_device_state *)
Inductive accfg_device_state : Set :=
  | ACCFG_DEVICE_DISABLED
  | ACCFG_DEVICE_ENABLED
  | ACCFG_DEVICE_UNKNOWN.

(* accfg/libaccel_config.h:55-61 accfg_wq_state *)
Inductive accfg_wq_state : Set :=
  | ACCFG_WQ_DISABLED
  | ACCFG_WQ_ENABLED
  | ACCFG_WQ_QUIESCING
  | ACCFG_WQ_LOCKED
  | ACCFG_WQ_UNKNOWN.

Definition ACCFG_WQ_SHARED : Z := 0.
Definition ACCFG_WQ_DEDICATED : Z := 1.
(* accfg/libaccel_config.h:49-53 accfg_wq_mode *)
Definition ACCFG_WQ_MODE_UNKNOWN : Z := 2.

(* accfg/libaccel_config.h:63-67 accfg_wq_type *)
Inductive accfg_wq_type : Set :=
  | ACCFG_WQT_NONE
  | ACCFG_WQT_KERNEL
  | ACCFG_WQT_USER.

(* accfg/libaccel_config.h:69-74 accfg_control_flag *)
Inductive accfg_control_flag : Set :=
  | FLAG_DEVICE_DISABLE
  | FLAG_DEVICE_ENABLE
  | FLAG_WQ_ENABLE
  | FLAG_WQ_DISABLE.

#[export] Instance accfg_device_state_eq : EqDecision accfg_device_state.
Proof. solve_decision. Defined.
#[export] Instance accfg_wq_state_eq : EqDecision accfg_wq_state.
Proof. solve_decision. Defined.
#[export] Instance accfg_wq_type_eq : EqDecision accfg_wq_type.
Proof. solve_decision. Defined.
#[export] Instance accfg_control_flag_eq : EqDecision accfg_control_flag.
Proof. solve_decision. Defined.

(** ** Structures (accfg/lib/private.h)

    Members no code reads or writes (list nodes apart, which the owners' lists
    stand for) are left out: [wq], [engine], [errors] and [opcap] of a device,
    [wqs], [engines], [numa_node] and [group_id] of a group, [type] and
    [numa_node] of an engine, [numa_node] of a wq, [private_data] of a
    context.  The scratch buffers [device_buf], [wq_buf], [group_buf] and
    [engine_buf] are rewritten before every use; only their length is state. *)

(* accfg/lib/private.h:20-58 accfg_device *)
Record accfg_device := Device {
  d_ctx : positive;
  d_id : Z;   (* unsigned int *)
  d_group : option positive;   (* the group added last *)
  d_groups : list positive;
  d_wqs : list positive;
  d_engines : list positive;
  d_group_init : Z;
  d_device_path : string;
  d_bus_type_str : string;
  d_device_type_str : string;
  d_type : Z;   (* enum accfg_device_type *)
  d_buf_len : Z;   (* size_t *)
  d_max_groups : Z;
  d_max_work_queues : Z;
  d_max_engines : Z;
  d_max_work_queues_size : Z;
  d_numa_node : Z;
  d_ims_size : Z;
  d_max_batch_size : Z;
  d_compl_size : Z;
  d_configurable : Z;
  d_max_read_buffers : Z;
  d_read_buffer_limit : Z;   (* unsigned int *)
  d_event_log_size : Z;
  d_cdev_major : Z;   (* unsigned int *)
  d_version : Z;   (* unsigned int *)
  d_max_transfer_size : Z;   (* uint64_t *)
  d_gencap : Z;   (* uint64_t *)
  d_pasid_enabled : Z;
}.
#[export] Instance eta_accfg_device : Eta accfg_device := λ r, Device
   (d_ctx r) (d_id r) (d_group r) (d_groups r) (d_wqs r) (d_engines r) (d_group_init r)
  (d_device_path r) (d_bus_type_str r) (d_device_type_str r) (d_type r) (d_buf_len r)
  (d_max_groups r) (d_max_work_queues r) (d_max_engines r) (d_max_work_queues_size r)
  (d_numa_node r) (d_ims_size r) (d_max_batch_size r) (d_compl_size r) (d_configurable r)
  (d_max_read_buffers r) (d_read_buffer_limit r) (d_event_log_size r) (d_cdev_major r) (d_version
  r) (d_max_transfer_size r) (d_gencap r) (d_pasid_enabled r).

(* accfg/lib/private.h:60-85 accfg_group *)
Record accfg_group := Group {
  g_device : positive;
  g_id : Z;
  g_buf_len : Z;
  g_size : Z;
  g_group_path : string;
  g_group_engines : option string;
  g_group_wqs : option string;
  g_wqs_init : Z;
  g_engines_init : Z;
  g_read_buffers_reserved : Z;   (* unsigned int *)
  g_read_buffers_allowed : Z;   (* unsigned int *)
  g_use_read_buffer_limit : Z;   (* unsigned int *)
  g_traffic_class_a : Z;
  g_traffic_class_b : Z;
  g_desc_progress_limit : Z;   (* unsigned int *)
  g_batch_progress_limit : Z;   (* unsigned int *)
}.
#[export] Instance eta_accfg_group : Eta accfg_group := λ r, Group
   (g_device r) (g_id r) (g_buf_len r) (g_size r) (g_group_path r) (g_group_engines r)
  (g_group_wqs r) (g_wqs_init r) (g_engines_init r) (g_read_buffers_reserved r)
  (g_read_buffers_allowed r) (g_use_read_buffer_limit r) (g_traffic_class_a r) (g_traffic_class_b
  r) (g_desc_progress_limit r) (g_batch_progress_limit r).

(* accfg/lib/private.h:87-98 accfg_engine *)
Record accfg_engine := Engine {
  e_device : positive;
  e_group : option positive;
  e_engine_path : string;
  e_id : Z;
  e_buf_len : Z;
  e_group_id : Z;
}.
#[export] Instance eta_accfg_engine : Eta accfg_engine := λ r, Engine
   (e_device r) (e_group r) (e_engine_path r) (e_id r) (e_buf_len r) (e_group_id r).

(* accfg/lib/private.h:100-126 accfg_wq *)
Record accfg_wq := Wq {
  w_device : positive;
  w_group : option positive;
  w_wq_path : string;
  w_id : Z;
  w_buf_len : Z;
  w_group_id : Z;
  w_size : Z;
  w_priv : Z;
  w_priority : Z;
  w_block_on_fault : Z;
  w_cdev_minor : Z;
  w_threshold : Z;   (* unsigned int *)
  w_mode : option string;
  w_name : option string;
  w_driver_name : option string;
  w_type : accfg_wq_type;
  w_state : option string;
  w_max_batch_size : Z;   (* unsigned int *)
  w_max_transfer_size : Z;   (* uint64_t *)
  w_ats_disable : Z;
  w_prs_disable : Z;
}.
#[export] Instance eta_accfg_wq : Eta accfg_wq := λ r, Wq
   (w_device r) (w_group r) (w_wq_path r) (w_id r) (w_buf_len r) (w_group_id r) (w_size r)
  (w_priv r) (w_priority r) (w_block_on_fault r) (w_cdev_minor r) (w_threshold r) (w_mode r)
  (w_name r) (w_driver_name r) (w_type r) (w_state r) (w_max_batch_size r) (w_max_transfer_size
  r) (w_ats_disable r) (w_prs_disable r).

(* accfg/lib/private.h:130-136 accfg_error_ctx *)
Record accfg_error_ctx := ErrorCtx {
  ec_cmd_status : Z;   (* unsigned int *)
  ec_device : option positive;
  ec_group : option positive;
  ec_wq : option positive;
  ec_engine : option positive;
}.
#[export] Instance eta_accfg_error_ctx : Eta accfg_error_ctx := λ r, ErrorCtx
   (ec_cmd_status r) (ec_device r) (ec_group r) (ec_wq r) (ec_engine r).

(* accfg/lib/private.h:138-157 accfg_ctx *)
Record accfg_ctx := Ctx {
  c_log_fn : option positive;   (* None is log_stderr *)
  c_owner : string;
  c_log_priority : Z;
  c_refcount : Z;
  c_devices_init : Z;
  c_devices : list positive;
  c_timeout : Z;   (* uint64_t *)
  c_compat : bool;
  c_error_ctx : option accfg_error_ctx;   (* NULL until an error is saved *)
}.
#[export] Instance eta_accfg_ctx : Eta accfg_ctx := λ r, Ctx
   (c_log_fn r) (c_owner r) (c_log_priority r) (c_refcount r) (c_devices_init r) (c_devices r)
  (c_timeout r) (c_compat r) (c_error_ctx r).

(** ** The heap *)

Record heap := Heap {
  h_ctxs : gmap positive accfg_ctx;
  h_devices : gmap positive accfg_device;
  h_groups : gmap positive accfg_group;
  h_wqs : gmap positive accfg_wq;
  h_engines : gmap positive accfg_engine;
  h_next : positive;   (* an address never used *)
}.
#[export] Instance eta_heap : Eta heap := λ r,
  Heap (h_ctxs r) (h_devices r) (h_groups r) (h_wqs r) (h_engines r) (h_next r).

Definition empty_heap : heap := Heap ∅ ∅ ∅ ∅ ∅ 1.

(** ** The operating system

    [F] is the state of everything outside the process.  Every call may change
    it, so other processes and the driver are part of it; [KErr e] is a call
    that fails with error number [e].  [k_scandir] lists a directory in the
    order of [alphasort]; [k_alloc] is one allocation of [malloc], [calloc],
    [strdup] or [asprintf], false when it returns NULL. *)

Inductive oflag : Set := O_RDONLY | O_WRONLY | O_RDWR | O_PATH.
#[export] Instance oflag_eq : EqDecision oflag.
Proof. solve_decision. Defined.

Inductive kres (A : Type) := KOk (a : A) | KErr (e : Z).
Arguments KOk {A} a.
Arguments KErr {A} e.

Class Kernel (F : Type) := {
  k_open : oflag → string → F → kres unit * F;
  k_read : string → Z → F → kres string * F;
  k_write : string → string → F → kres Z * F;
  k_access : string → F → kres unit * F;
  k_lstat : string → F → kres unit * F;
  k_realpath : string → F → kres string * F;
  k_scandir : string → F → kres (list string) * F;
  k_alloc : F → bool * F;
  k_getenv : string → F → option string;
  k_fnmatch : string → string → bool;
  k_uninit : Z;  (* what an automatic [int] holds before it is assigned *)
}.

(** What POSIX says of the results, whatever the file system holds. *)
Class KernelLaws (F : Type) `{Kernel F} : Prop := {
  k_read_length path n f data f' :
    k_read path n f = (KOk data, f') → 0 <= n → strlen data <= n;
  k_write_count path data f n f' :
    k_write path data f = (KOk n, f') → 0 <= n <= strlen data;
  k_open_errno fl path f e f' : k_open fl path f = (KErr e, f') → 0 < e < 2 ^ 31;
  k_read_errno path n f e f' : k_read path n f = (KErr e, f') → 0 < e < 2 ^ 31;
  k_write_errno path data f e f' : k_write path data f = (KErr e, f') → 0 < e < 2 ^ 31;
  k_access_errno path f e f' : k_access path f = (KErr e, f') → 0 < e < 2 ^ 31;
  k_realpath_errno path f e f' : k_realpath path f = (KErr e, f') → 0 < e < 2 ^ 31;
}.

(** ** The world

    The process' variables and the operating system.  [trace] lists the writes
    the process made, the last one first, with their results. *)

Record event := EvWrite { ev_path : string; ev_data : string; ev_res : kres Z }.

Record world (F : Type) := World {
  fs : F;
  errno : Z;
  nfds : Z;                   (* file descriptors open *)
  trace : list event;
  hp : heap;
  init_cmd_status : Z;        (* libaccfg.c: static long init_cmd_status *)
  filename_prefix : string;   (* libaccfg.c: static char *filename_prefix *)
}.
Arguments World {F} fs errno nfds trace hp init_cmd_status filename_prefix.
Arguments fs {F} _.
Arguments errno {F} _.
Arguments nfds {F} _.
Arguments trace {F} _.
Arguments hp {F} _.
Arguments init_cmd_status {F} _.
Arguments filename_prefix {F} _.
#[export] Instance eta_world F : Eta (world F) := λ r,
  World (fs r) (errno r) (nfds r) (trace r) (hp r) (init_cmd_status r) (filename_prefix r).
