(* ===== verification/SimKernel.v ===== *)
(** * A file system to run the library on

    An instance of [Kernel] that keeps files and directories in maps, with the
    laws of [KernelLaws].  A rule says what a write to one file does to another
    (a driver's bind file changes a state attribute).  The instances of
    theorems at concrete inputs run on it. *)

From S2P Require Import Prelude CString Prog Types.
Local Open Scope string_scope.
Local Open Scope Z_scope.

Record sim := Sim {
  sim_files : gmap string string;          (* contents *)
  sim_dirs : gmap string (list string);    (* entries, in alphasort order *)
  sim_links : gmap string string;          (* what realpath resolves *)
  sim_env : gmap string string;
  sim_open_err : gmap string Z;            (* files that cannot be opened for writing *)
  sim_write_err : gmap string Z;           (* files that refuse what is written *)
  sim_rules : list (string * string * string);  (* written path, file changed, new contents *)
  sim_mem : Z;                             (* allocations that still succeed *)
}.
#[export] Instance eta_sim : Eta sim := λ r,
  Sim (sim_files r) (sim_dirs r) (sim_links r) (sim_env r) (sim_open_err r) (sim_write_err r)
    (sim_rules r) (sim_mem r).

Definition lookup_default {A} (m : gmap string A) (k : string) (d : A) : A := default d (m !! k).

Definition writable (fl : oflag) : bool :=
  match fl with O_WRONLY | O_RDWR => true | _ => false end.

Definition sim_open (fl : oflag) (path : string) (s : sim) : kres unit * sim :=
  let err := lookup_default (sim_open_err s) path 0 in
  if writable fl && (0 <? err) && (err <? 4096) then (KErr err, s)
  else
    match sim_files s !! path, sim_dirs s !! path with
    | None, None => (KErr ENOENT, s)
    | _, _ => (KOk (), s)
    end.

Definition sim_read (path : string) (n : Z) (s : sim) : kres string * sim :=
  match sim_files s !! path with
  | Some data => (KOk (String.substring 0 (Z.to_nat n) data), s)
  | None => (KErr EIO, s)
  end.

Definition apply_rules (path : string) (rules : list (string * string * string))
    (files : gmap string string) : gmap string string :=
  foldr (λ '(p, f, c) m, if String.eqb p path then <[f := c]> m else m) files rules.

Definition sim_write (path data : string) (s : sim) : kres Z * sim :=
  let err := lookup_default (sim_write_err s) path 0 in
  if (0 <? err) && (err <? 4096) then (KErr err, s)
  else (KOk (strlen data),
        s <| sim_files ::= λ m, apply_rules path (sim_rules s) (<[path := data +:+ String NL ""]> m) |>).

Definition exists_path (path : string) (s : sim) : kres unit * sim :=
  match sim_files s !! path, sim_dirs s !! path with
  | None, None => (KErr ENOENT, s)
  | _, _ => (KOk (), s)
  end.

(** Absolute, and no longer than PATH_MAX and NAME_MAX. *)
Definition path_fits (p : string) : bool :=
  (strlen p <? PATH_MAX) && match after_last slash p with Some name => strlen name <=? 255 | None => false end.
Definition ENAMETOOLONG : Z := 36.
Definition sim_resolve (path : string) (s : sim) : kres string * sim :=
  match sim_links s !! path with
  | Some p => (if path_fits p then KOk p else KErr ENAMETOOLONG, s)
  | None => match (exists_path path s).1 with
            | KOk _ => (if path_fits path then KOk path else KErr ENAMETOOLONG, s)
            | KErr e => (KErr ENOENT, s)
            end
  end.

#[export] Instance sim_kernel : Kernel sim := {|
  k_open := sim_open;
  k_read := sim_read;
  k_write := sim_write;
  k_access := exists_path;
  k_lstat := exists_path;
  k_realpath := sim_resolve;
  k_scandir path s := match sim_dirs s !! path with
                      | Some l => (KOk l, s)
                      | None => (KErr ENOENT, s)
                      end;
  k_alloc s := if 0 <? sim_mem s then (true, s <| sim_mem ::= Z.pred |>) else (false, s);
  k_getenv name s := sim_env s !! name;
  k_fnmatch pattern f := String.prefix (cut_at "*" pattern) f;
  k_uninit := 42;
|}.

Lemma substring_length n s : (String.length (String.substring 0 n s) <= n)%nat.
Proof. revert s. induction n as [|n IH]; intros [|c s]; simpl; [lia..|]. specialize (IH s). lia. Qed.

#[export] Instance sim_laws : KernelLaws sim.
Proof.
  split; simpl.
  - intros path n f data f' Hr Hn. unfold sim_read in Hr.
    destruct (sim_files f !! path) as [d|]; [|done]. injection Hr as <- <-.
    pose proof (substring_length (Z.to_nat n) d). unfold strlen. lia.
  - intros path data f n f' Hw. unfold sim_write in Hw. destruct (_ && _); [done|].
    injection Hw as <- <-. unfold strlen. lia.
  - intros fl path f e f' Ho. unfold sim_open in Ho.
    destruct (writable fl && (0 <? lookup_default (sim_open_err f) path 0) &&
      (lookup_default (sim_open_err f) path 0 <? 4096)) eqn:Hb.
    + injection Ho as <- <-. lia.
    + destruct (sim_files f !! path), (sim_dirs f !! path); [done..|].
      injection Ho as <- <-. unfold ENOENT. lia.
  - intros path n f e f' Hr. unfold sim_read in Hr.
    destruct (sim_files f !! path); [done|]. injection Hr as <- <-. unfold EIO. lia.
  - intros path data f e f' Hw. unfold sim_write in Hw.
    destruct ((0 <? lookup_default (sim_write_err f) path 0) && _) eqn:Hb; [|done].
    injection Hw as <- <-. lia.
  - intros path f e f' Ha. unfold exists_path in Ha.
    destruct (sim_files f !! path), (sim_dirs f !! path); [done..|].
    injection Ha as <- <-. unfold ENOENT. lia.
  - intros path f e f' Hp. unfold sim_resolve, ENAMETOOLONG, ENOENT in Hp.
    destruct (sim_links f !! path) as [p|]; [destruct (path_fits p)|destruct (exists_path path f).1; [destruct (path_fits path)|]];
      first [discriminate Hp|injection Hp as <- <-; lia].
Qed.

Definition empty_sim : sim := Sim ∅ ∅ ∅ ∅ ∅ ∅ [] 1000000.
Definition sim_world (s : sim) : world sim := World s 0 0 [] empty_heap 0 "".

(** What a call answers, from one look-up: for instances at large states. *)
Lemma sim_realpath path p s : sim_links s !! path = Some p → path_fits p = true → k_realpath path s = (KOk p, s).
Proof. intros Hp Hf. simpl. unfold sim_resolve. by rewrite Hp, Hf. Qed.

Lemma sim_open_file path data s :
  sim_files s !! path = Some data → k_open O_RDONLY path s = (KOk (), s).
Proof. intros Hp. simpl. unfold sim_open. simpl. by rewrite Hp. Qed.

Lemma sim_read_file path n data s :
  sim_files s !! path = Some data → strlen data <= n → k_read path n s = (KOk data, s).
Proof.
  intros Hp Hn. simpl. unfold sim_read. rewrite Hp. do 2 f_equal.
  unfold strlen in Hn. assert (String.length data <= Z.to_nat n)%nat as Hlen by lia.
  clear Hn Hp. revert Hlen. generalize (Z.to_nat n). induction data as [|c data IH]; intros [|k] Hk;
    simpl in *; [done..|lia|]. f_equal. apply IH. lia.
Qed.

Lemma sim_open_dir path l s : sim_dirs s !! path = Some l → k_open O_PATH path s = (KOk (), s).
Proof. intros Hp. simpl. unfold sim_open. simpl. rewrite Hp. by destruct (sim_files s !! path). Qed.

Lemma sim_alloc s : (0 <? sim_mem s) = true → k_alloc s = (true, s <| sim_mem ::= Z.pred |>).
Proof. intros Hm. simpl. by rewrite Hm. Qed.

Lemma sim_scandir path l s : sim_dirs s !! path = Some l → k_scandir path s = (KOk l, s).
Proof. intros Hp. simpl. by rewrite Hp. Qed.
