(* ===== verification/Sysfs.v ===== *)
(** * util/sysfs.c: attribute files, and the system calls under it

    The system calls keep [errno] and the count of open descriptors the way libc
    does: a failing call sets [errno], a successful one leaves it alone, so a
    [return -errno] after a call that did not fail returns whatever was left in
    it.  Log messages have no effect here: [do_log] restores [errno]. *)

From S2P Require Import Prelude CString Prog Types.
Local Open Scope string_scope.
Local Open Scope Z_scope.

Section sysfs.
Context {F : Type} `{Kernel F}.
Notation M := (prog (world F)).

(** ** System and library calls *)

Definition call {A} (k : F → kres A * F) : M (option A) := λ w,
  match k (fs w) with
  | (KOk a, f) => Done (Some a) (w <| fs := f |>)
  | (KErr e, f) => Done None (w <| fs := f |> <| errno := e |>)
  end.

(** A descriptor is the path it was opened at; [None] is -1. *)
Definition sys_open (fl : oflag) (path : string) : M (option string) :=
  r ← call (k_open fl path);
  match r with
  | Some _ => modify (λ w, w <| nfds ::= Z.succ |>);; mret (Some path)
  | None => mret None
  end.

Definition sys_openat (fl : oflag) (dfd name : string) : M (option string) :=
  sys_open fl (dfd +:+ "/" +:+ name).

Definition sys_close (fd : string) : M unit := modify (λ w, w <| nfds ::= Z.pred |>).

(** [read] into a buffer of [n] bytes; [None] is -1. *)
Definition sys_read (fd : string) (n : Z) : M (option string) := call (k_read fd n).

Definition sys_write (fd data : string) : M (option Z) := λ w,
  let (r, f) := k_write fd data (fs w) in
  let w' := w <| fs := f |> <| trace ::= cons (EvWrite fd data r) |> in
  match r with
  | KOk n => Done (Some n) w'
  | KErr e => Done None (w' <| errno := e |>)
  end.

(** [access(path, F_OK)]: true is 0. *)
Definition sys_access (path : string) : M bool :=
  r ← call (k_access path); mret (match r with Some _ => true | None => false end).

Definition sys_lstat (path : string) : M bool :=
  r ← call (k_lstat path); mret (match r with Some _ => true | None => false end).

Definition sys_realpath (path : string) : M (option string) := call (k_realpath path).
Definition sys_scandir (path : string) : M (option (list string)) := call (k_scandir path).

(** One allocation: false is NULL, with [errno] ENOMEM. *)
Definition alloc : M bool := λ w,
  match k_alloc (fs w) with
  | (true, f) => Done true (w <| fs := f |>)
  | (false, f) => Done false (w <| fs := f |> <| errno := ENOMEM |>)
  end.

Definition strdup (s : string) : M (option string) :=
  ok ← alloc; mret (if ok : bool then Some s else None).

(** [sprintf] into a buffer of [cap] bytes: the length printed. *)
Definition sprintf_buf (cap : Z) (s : string) : M Z :=
  if strlen s <? cap then mret (strlen s) else fault.

Definition get_errno : M Z := gets errno.
Definition set_errno (e : Z) : M unit := modify (λ w, w <| errno := e |>).
Definition neg_errno : M Z := e ← get_errno; mret (- e).

(** ** util/sysfs.h *)

(* util/sysfs.h:31-34 devpath_to_devname *)
Definition devpath_to_devname (devpath : string) : M string := must (after_last slash devpath).

(** ** Attributes *)

(** The result and the string left in [buf]; a failing open leaves [buf] as it
    was, which no caller reads. *)
(* util/sysfs.c:21-41 __sysfs_read_attr *)
Definition __sysfs_read_attr (path : string) : M (Z * string) :=
  fd ← sys_open O_RDONLY path;
  match fd with
  | None => e ← neg_errno; mret (e, "")
  | Some fd =>
      n ← sys_read fd SYSFS_ATTR_SIZE;
      sys_close fd;;
      match n with
      | Some data =>
          if SYSFS_ATTR_SIZE <=? strlen data then e ← neg_errno; mret (e, "")
          else mret (0, cstr (strip_nl data))
      | None => e ← neg_errno; mret (e, "")
      end
  end.
(* util/sysfs.c:43-64 write_attr *)
Definition write_attr (path buf : string) : M Z :=
  fd ← sys_open O_WRONLY path;
  match fd with
  | None => neg_errno
  | Some fd =>
      n ← sys_write fd buf;
      rc ← neg_errno;
      sys_close fd;;
      mret (if default (-1) n <? strlen buf then rc else 0)
  end.

(* util/sysfs.c:66-70 __sysfs_write_attr *)
Definition __sysfs_write_attr (path buf : string) : M Z := write_attr path buf.

(* util/sysfs.c:72-76 __sysfs_write_attr_quiet *)
Definition __sysfs_write_attr_quiet (path buf : string) : M Z := write_attr path buf.

(** ** Enumerating devices *)

(** The body of the loop over the directory entries: the new count of errors,
    or [None] for the early [return -EINVAL]. *)
(* util/sysfs.c:91-117 __sysfs_device_parse *)
Definition device_parse_entry (base_path dev_prefix bus_type : string)
    (add_dev : Z → string → string → string → M (option positive))
    (d_name : string) (add_errors : Z) : M (option Z) :=
  let (rc, id) := sscanf_name_id d_name in
  if rc <? 0 then mret None
  else if strchr_in d_name "!" then mret (Some add_errors)
  else
    ok ← alloc;
    if ok : bool then
      dev ← add_dev (default k_uninit id) (base_path +:+ "/" +:+ d_name) dev_prefix bus_type;
      mret (Some (match dev with Some _ => add_errors | None => add_errors + 1 end))
    else mret (Some add_errors).

Fixpoint device_parse_loop (base_path dev_prefix bus_type : string)
    (add_dev : Z → string → string → string → M (option positive))
    (d : list string) (add_errors : Z) : M Z :=
  match d with
  | [] => mret add_errors
  | d_name :: d' =>
      r ← device_parse_entry base_path dev_prefix bus_type add_dev d_name add_errors;
      match r with
      | Some n => device_parse_loop base_path dev_prefix bus_type add_dev d' n
      | None => mret (- EINVAL)
      end
  end.

(* util/sysfs.c:78-123 __sysfs_device_parse *)
Definition __sysfs_device_parse (base_path dev_prefix bus_type : string)
    (flt : string → bool) (add_dev : Z → string → string → string → M (option positive)) : M Z :=
  d ← sys_scandir base_path;
  match d with
  | None => mret (- ENODEV)
  | Some names =>
      device_parse_loop base_path dev_prefix bus_type add_dev (base.filter (λ n, flt n = true) names) 0
  end.
End sysfs.
