(* ===== verification/Param.v ===== *)
(** * libaccfg.c: reading and writing one parameter, status strings, heap access

    The static helpers every operation of the library is built from. *)

From S2P Require Import Prelude CString Prog Types Sysfs.
Local Open Scope string_scope.
Local Open Scope Z_scope.

(** ** Tables *)

(* accfg/lib/libaccfg.c:132-142 attr_dict *)
Definition attr_dict : list (string * string) :=
  [("read_buffers_allowed", "tokens_allowed");
   ("read_buffers_reserved", "tokens_reserved");
   ("use_read_buffer_limit", "use_token_limit");
   ("max_read_buffers", "max_tokens");
   ("read_buffer_limit", "token_limit")].

Fixpoint dict_lookup (attr : string) (d : list (string * string)) : option string :=
  match d with
  | [] => None
  | (key, val) :: d' => if strcmp_eq attr key then Some val else dict_lookup attr d'
  end.

(* accfg/lib/libaccfg.c:144-153 deprecated_attr *)
Definition deprecated_attr (attr : string) : option string := dict_lookup attr attr_dict.

(** printf's %s of a pointer that may be NULL (glibc). *)
Definition print_s (s : option string) : string := default "(null)" s.

(** ** Command status (accfg/idxd.h, libaccfg.c) *)

(* accfg/idxd.h:15-15 IDXD_SCMD_DEV_DMA_ERR *)
Definition IDXD_SCMD_DEV_DMA_ERR : Z := 0x80020000.
(* accfg/idxd.h:16-16 IDXD_SCMD_WQ_NO_GRP *)
Definition IDXD_SCMD_WQ_NO_GRP : Z := 0x80030000.
(* accfg/idxd.h:17-17 IDXD_SCMD_WQ_NO_NAME *)
Definition IDXD_SCMD_WQ_NO_NAME : Z := 0x80040000.
(* accfg/idxd.h:18-18 IDXD_SCMD_WQ_NO_SVM *)
Definition IDXD_SCMD_WQ_NO_SVM : Z := 0x80050000.
(* accfg/idxd.h:19-19 IDXD_SCMD_WQ_NO_THRESH *)
Definition IDXD_SCMD_WQ_NO_THRESH : Z := 0x80060000.
(* accfg/idxd.h:20-20 IDXD_SCMD_WQ_PORTAL_ERR *)
Definition IDXD_SCMD_WQ_PORTAL_ERR : Z := 0x80070000.
(* accfg/idxd.h:21-21 IDXD_SCMD_WQ_RES_ALLOC_ERR *)
Definition IDXD_SCMD_WQ_RES_ALLOC_ERR : Z := 0x80080000.
(* accfg/idxd.h:22-22 IDXD_SCMD_PERCPU_ERR *)
Definition IDXD_SCMD_PERCPU_ERR : Z := 0x80090000.
(* accfg/idxd.h:23-23 IDXD_SCMD_DMA_CHAN_ERR *)
Definition IDXD_SCMD_DMA_CHAN_ERR : Z := 0x800a0000.
(* accfg/idxd.h:24-24 IDXD_SCMD_CDEV_ERR *)
Definition IDXD_SCMD_CDEV_ERR : Z := 0x800b0000.
(* accfg/idxd.h:25-25 IDXD_SCMD_WQ_NO_SWQ_SUPPORT *)
Definition IDXD_SCMD_WQ_NO_SWQ_SUPPORT : Z := 0x800c0000.
(* accfg/idxd.h:26-26 IDXD_SCMD_WQ_NONE_CONFIGURED *)
Definition IDXD_SCMD_WQ_NONE_CONFIGURED : Z := 0x800d0000.
(* accfg/idxd.h:27-27 IDXD_SCMD_WQ_NO_SIZE *)
Definition IDXD_SCMD_WQ_NO_SIZE : Z := 0x800e0000.
(* accfg/idxd.h:28-28 IDXD_SCMD_WQ_NO_PRIV *)
Definition IDXD_SCMD_WQ_NO_PRIV : Z := 0x800f0000.
(* accfg/idxd.h:29-29 IDXD_SCMD_WQ_IRQ_ERR *)
Definition IDXD_SCMD_WQ_IRQ_ERR : Z := 0x80100000.
(* accfg/idxd.h:30-30 IDXD_SCMD_WQ_NO_DRV_NAME *)
Definition IDXD_SCMD_WQ_NO_DRV_NAME : Z := 0x80200000.
(* accfg/idxd.h:31-31 IDXD_SCMD_DEV_EVL_ERR *)
Definition IDXD_SCMD_DEV_EVL_ERR : Z := 0x80300000.
(* accfg/idxd.h:33-33 IDXD_SCMD_SOFTERR_MASK *)
Definition IDXD_SCMD_SOFTERR_MASK : Z := 0x80000000.
(* accfg/idxd.h:34-34 IDXD_SCMD_SOFTERR_SHIFT *)
Definition IDXD_SCMD_SOFTERR_SHIFT : Z := 16.
Definition ACCFG_CMD_STATUS_MAX : Z := 0x45.
Definition ACCFG_CMD_STATUS_ERROR : Z := 0x80010000.

(* accfg/lib/libaccfg.c:74-75 SCMD_STAT *)
Definition SCMD_STAT (x : Z) : Z :=
  Z.shiftr (Z.ldiff x IDXD_SCMD_SOFTERR_MASK) IDXD_SCMD_SOFTERR_SHIFT.

(** An array given by designated initialisers, as its (index, value) pairs. *)
Definition designated : Type := list (Z * string).
Definition array_size (a : designated) : Z := foldr (λ e n, Z.max (e.1 + 1) n) 0 a.
(** [a[i]]: [None] out of bounds, [Some None] the NULL of an index not listed. *)
Definition array_get (a : designated) (i : Z) : option (option string) :=
  if (0 <=? i) && (i <? array_size a)
  then Some (snd <$> List.find (λ e, e.1 =? i) a)
  else None.

(* accfg/lib/libaccfg.c:77-111 accfg_device_cmd_status *)
Definition accfg_device_cmd_status : designated :=
  [(0x0, "Successful completion");
   (0x1, "Invalid command code");
   (0x2, "Invalid WQ index");
   (0x3, "Internal or platform hardware error");
   (0x4, "Non-zero reserved field in command");
   (0x10, "Device not disabled");
   (0x11, "Unspecified error in config for device enable");
   (0x12, "Bus master enable is 0");
   (0x13, "PRSREQALLOC value unsupported");
   (0x14, "Sum of WQCFG size fields out of range");
   (0x15, "Invalid group config: lack of wq or engines");
   (0x16, "Invalid group config: wq misconfigured");
   (0x17, "Invalid group config: engine misconfigured");
   (0x18, "Invalid group config: invalid read buffers config");
   (0x20, "Device not enabled");
   (0x21, "WQ is not disabled");
   (0x22, "WQ size is 0");
   (0x23, "WQ priority is 0");
   (0x24, "Invalid WQ mode");
   (0x25, "Invalid block on fault setting");
   (0x26, "Invalid value for WQ pasid enable");
   (0x27, "Invalid WQ max batch size");
   (0x28, "Invalid WQ max transfer size");
   (0x2a, "PCIe pasid cap Priv mode enable = 0");
   (0x2b, "Invalid WQ Occupancy Interrupt table or handle");
   (0x2c, "WQ ATS config mismatched");
   (0x31, "Device is not enabled");
   (0x32, "WQ(s) not enabled");
   (0x41, "Invalid interrupt table index");
   (0x42, "No interrupt handle available");
   (0x43, "No interrupt handles associated with the index");
   (0x44, "No revoked handles associated with the index");
   (ACCFG_CMD_STATUS_MAX, "Unknown error")].

(* accfg/lib/libaccfg.c:113-130 accfg_sw_cmd_status *)
Definition accfg_sw_cmd_status : designated :=
  [(0x01, "Error reading cmd_status (library error)");
   (SCMD_STAT IDXD_SCMD_DEV_DMA_ERR, "DMA device registration error (driver error)");
   (SCMD_STAT IDXD_SCMD_WQ_NO_GRP, "wq error - group not set");
   (SCMD_STAT IDXD_SCMD_WQ_NO_NAME, "wq error - name not set");
   (SCMD_STAT IDXD_SCMD_WQ_NO_SVM, "wq error - no SVM support and needed (platform configuration error)");
   (SCMD_STAT IDXD_SCMD_WQ_NO_THRESH, "wq error - threshold not set");
   (SCMD_STAT IDXD_SCMD_WQ_PORTAL_ERR, "wq portal mapping error (driver error)");
   (SCMD_STAT IDXD_SCMD_WQ_RES_ALLOC_ERR, "wq resource allocation error (driver error)");
   (SCMD_STAT IDXD_SCMD_PERCPU_ERR, "wq percpu counter allocation error (driver error)");
   (SCMD_STAT IDXD_SCMD_DMA_CHAN_ERR, "wq DMA channel registration error (driver error)");
   (SCMD_STAT IDXD_SCMD_CDEV_ERR, "wq char dev registration error (driver error)");
   (SCMD_STAT IDXD_SCMD_WQ_NO_SWQ_SUPPORT, "wq error - no shared wq support (platform configuration error)");
   (SCMD_STAT IDXD_SCMD_WQ_NONE_CONFIGURED, "wq error - no wqs configured");
   (SCMD_STAT IDXD_SCMD_WQ_NO_SIZE, "wq error - size not set")].

(** The string, NULL ([Some None]), or [None]: an access out of bounds. *)
(* accfg/lib/libaccfg.c:1446-1468 get_cmd_status_str *)
Definition get_cmd_status_str (status : Z) : option (option string) :=
  let clamp s := if ACCFG_CMD_STATUS_MAX <? s then ACCFG_CMD_STATUS_MAX else s in
  if negb (Z.land status IDXD_SCMD_SOFTERR_MASK =? 0) then
    let sw_status := SCMD_STAT status in
    if negb (sw_status =? 0) then
      if array_size accfg_sw_cmd_status <=? sw_status
      then array_get accfg_device_cmd_status ACCFG_CMD_STATUS_MAX
      else array_get accfg_sw_cmd_status sw_status
    else array_get accfg_device_cmd_status (clamp (Z.ldiff status IDXD_SCMD_SOFTERR_MASK))
  else array_get accfg_device_cmd_status (clamp status).

Section param.
Context {F : Type} `{Kernel F}.
Notation M := (prog (world F)).

(** [strtol] and [strtoull], which set [errno] on overflow. *)
Definition strtox (f : string → Z → strto) (s : string) (base : Z) : M strto :=
  let r := f s base in
  (if st_range r then set_errno ERANGE else mret ());; mret r.

(** ** Parameters *)

(* accfg/lib/libaccfg.c:172-187 accfg_set_param *)
Definition accfg_set_param (dfd name buf : string) (len : Z) : M Z :=
  fd ← sys_openat O_RDWR dfd name;
  match fd with
  | None => neg_errno
  | Some fd =>
      n ← sys_write fd (String.substring 0 (Z.to_nat len) buf);
      sys_close fd;;
      if default (-1) n =? len then mret 0 else neg_errno
  end.

(* accfg/lib/libaccfg.c:189-215 accfg_get_param_long *)
Definition accfg_get_param_long (dfd name : string) : M Z :=
  fd0 ← sys_openat O_RDONLY dfd name;
  e ← get_errno;
  fd1 ← match fd0 with
        | None =>
            if e =? ENOENT then
              match deprecated_attr name with
              | None => mret (inl (- e))
              | Some p => fd ← sys_openat O_RDONLY dfd p; mret (inr fd)
              end
            else mret (inr None)
        | Some fd => mret (inr (Some fd))
        end;
  match fd1 with
  | inl rc => mret rc
  | inr None => neg_errno
  | inr (Some fd) =>
      n ← sys_read fd (MAX_PARAM_LEN - 1);
      sys_close fd;;
      match n with
      | None | Some "" => mret (- ENXIO)
      | Some data => r ← strtox strtol (cstr (strip_nl data)) 0; mret (st_val r)
      end
  end.

(* accfg/lib/libaccfg.c:217-237 accfg_get_param_unsigned_llong *)
Definition accfg_get_param_unsigned_llong (dfd name : string) : M Z :=
  fd ← sys_openat O_RDONLY dfd name;
  match fd with
  | None => e ← get_errno; mret (u64 (- e))
  | Some fd =>
      n ← sys_read fd (MAX_PARAM_LEN - 1);
      sys_close fd;;
      match n with
      | None | Some "" => mret (u64 (- ENXIO))
      | Some data => r ← strtox strtoull (cstr (strip_nl data)) 0; mret (st_val r)
      end
  end.

(* accfg/lib/libaccfg.c:239-257 accfg_get_param_str *)
Definition accfg_get_param_str (dfd name : string) : M (option string) :=
  fd ← sys_openat O_RDONLY dfd name;
  match fd with
  | None => mret None
  | Some fd =>
      n ← sys_read fd (MAX_PARAM_LEN - 1);
      sys_close fd;;
      match n with
      | None | Some "" => mret None
      | Some data => strdup (cut_at NL (cstr data))
      end
  end.
(** ** Objects *)

Definition deref {A} (m : heap → gmap positive A) (p : positive) : M A :=
  o ← gets (λ w, m (hp w) !! p); must o.

Definition get_ctx : positive → M accfg_ctx := deref h_ctxs.
Definition get_device : positive → M accfg_device := deref h_devices.
Definition get_group : positive → M accfg_group := deref h_groups.
Definition get_wq : positive → M accfg_wq := deref h_wqs.
Definition get_engine : positive → M accfg_engine := deref h_engines.

Definition on_heap (f : heap → heap) : M unit := modify (λ w, w <| hp ::= f |>).
Definition upd_ctx (p : positive) (f : accfg_ctx → accfg_ctx) : M unit :=
  get_ctx p ;; on_heap (λ h, h <| h_ctxs ::= alter f p |>).
Definition upd_device (p : positive) (f : accfg_device → accfg_device) : M unit :=
  get_device p ;; on_heap (λ h, h <| h_devices ::= alter f p |>).
Definition upd_group (p : positive) (f : accfg_group → accfg_group) : M unit :=
  get_group p ;; on_heap (λ h, h <| h_groups ::= alter f p |>).
Definition upd_wq (p : positive) (f : accfg_wq → accfg_wq) : M unit :=
  get_wq p ;; on_heap (λ h, h <| h_wqs ::= alter f p |>).
Definition upd_engine (p : positive) (f : accfg_engine → accfg_engine) : M unit :=
  get_engine p ;; on_heap (λ h, h <| h_engines ::= alter f p |>).

(** [calloc] of an object: its address, none when memory is exhausted. *)
Definition fresh : M (option positive) :=
  ok ← alloc;
  if ok : bool then
    p ← gets (λ w, h_next (hp w));
    on_heap (λ h, h <| h_next ::= Pos.succ |>);;
    mret (Some p)
  else mret None.

(** ** Errors *)

(* accfg/lib/libaccfg.c:1408-1444 accfg_device_get_cmd_status *)
Definition accfg_device_get_cmd_status (device : option positive) : M Z :=
  match device with
  | None => mret ACCFG_CMD_STATUS_ERROR
  | Some p =>
      d ← get_device p;
      let path := d_device_path d +:+ "/cmd_status" in
      if s32 (d_buf_len d) <=? strlen path then mret ACCFG_CMD_STATUS_ERROR
      else
        '(rc, buf) ← __sysfs_read_attr path;
        if negb (rc =? 0) then mret ACCFG_CMD_STATUS_ERROR
        else
          r ← strtox strtol buf 0;
          e ← get_errno;
          if (e =? ERANGE) || negb (st_conv r) then mret ACCFG_CMD_STATUS_ERROR
          else
            init ← gets init_cmd_status;
            if negb (init =? 0) && (init =? st_val r) then mret ACCFG_CMD_STATUS_ERROR
            else mret (u32 (st_val r))
  end.

(* accfg/lib/libaccfg.c:1470-1473 accfg_device_get_cmd_status_str *)
Definition accfg_device_get_cmd_status_str (device : option positive) : M (option string) :=
  s ← accfg_device_get_cmd_status device; must (get_cmd_status_str s).

(* accfg/lib/libaccfg.c:155-170 save_last_error *)
Definition save_last_error (device : positive) (wq group engine : option positive) : M unit :=
  d ← get_device device;
  c ← get_ctx (d_ctx d);
  (match c_error_ctx c with
   | Some _ => mret ()
   | None =>
       ok ← alloc;
       if ok : bool then
         upd_ctx (d_ctx d) (λ c, c <| c_error_ctx := Some (ErrorCtx 0 None None None None) |>)
       else mret ()
   end);;
  c' ← get_ctx (d_ctx d);
  match c_error_ctx c' with
  | None => mret ()
  | Some _ =>
      status ← accfg_device_get_cmd_status (Some device);
      upd_ctx (d_ctx d)
        (λ c, c <| c_error_ctx := Some (ErrorCtx status (Some device) group wq engine) |>)
  end.

(* accfg/lib/libaccfg.c:1475-1481 accfg_ctx_get_last_error *)
Definition accfg_ctx_get_last_error (ctx : positive) : M Z :=
  c ← get_ctx ctx;
  mret (match c_error_ctx c with Some ec => ec_cmd_status ec | None => 0 end).

(* accfg/lib/libaccfg.c:1483-1486 accfg_ctx_get_last_error_str *)
Definition accfg_ctx_get_last_error_str (ctx : positive) : M (option string) :=
  s ← accfg_ctx_get_last_error ctx; must (get_cmd_status_str s).

Definition last_error_member {A} (f : accfg_error_ctx → option A) (ctx : positive) : M (option A) :=
  c ← get_ctx ctx; mret (c_error_ctx c ≫= f).

(* accfg/lib/libaccfg.c:1488-1495 accfg_ctx_get_last_error_device *)
Definition accfg_ctx_get_last_error_device := last_error_member ec_device.
(* accfg/lib/libaccfg.c:1497-1503 accfg_ctx_get_last_error_wq *)
Definition accfg_ctx_get_last_error_wq := last_error_member ec_wq.
(* accfg/lib/libaccfg.c:1505-1512 accfg_ctx_get_last_error_group *)
Definition accfg_ctx_get_last_error_group := last_error_member ec_group.
(* accfg/lib/libaccfg.c:1514-1521 accfg_ctx_get_last_error_engine *)
Definition accfg_ctx_get_last_error_engine := last_error_member ec_engine.
End param.
