(* ===== verification/Tree.v ===== *)
(** * libaccfg.c: the context and the tree of devices, groups, work queues, engines

    Contexts are created, reference counted and freed here, and the objects are
    built from sysfs the first time they are asked for.  The [parent] a
    callback receives from [__sysfs_device_parse] is an argument of the
    [add_*] function.  An object under construction is local until it is linked:
    no other pointer to it exists before [list_add_tail], [device->group]
    apart, which is assigned where the code assigns it. *)

From S2P Require Import Prelude CString Prog Types Sysfs Param.
Local Open Scope string_scope.
Local Open Scope Z_scope.

(** ** Lists (ccan/list) and strtok *)

Definition list_top (l : list positive) : option positive := head l.
Fixpoint list_next (l : list positive) (p : positive) : option positive :=
  match l with
  | [] => None
  | q :: l' => if decide (q = p) then head l' else list_next l' p
  end.
Definition list_add_tail (p : positive) (l : list positive) : list positive := l ++ [p].
Definition list_del (p : positive) (l : list positive) : list positive :=
  base.filter (λ q, q ≠ p) l.

(** [strtok(s, ":")]: the first token, [None] for NULL. *)
Definition strtok_colon (s : string) : option string :=
  match (span (λ c, Ascii.eqb c ":") s).2 with
  | "" => None
  | t => Some (cut_at ":" t)
  end.

(** ** Tables *)

(* accfg/lib/libaccfg.c:44-48 accfg_bus_types *)
Definition accfg_bus_types : list string := ["dsa"; "iax"].
(* accfg/lib/libaccfg.c:58-62 accfg_basenames *)
Definition accfg_basenames : list string := ["dsa"; "iax"].
(* accfg/lib/libaccfg.c:64-67 accfg_device_compl_size *)
Definition accfg_device_compl_size : list Z := [32; 64].
Definition IDXD_DRIVER_BIND_PATH : string := "/sys/bus/dsa/drivers/idxd".

(** [for (x = first; x != NULL; x = next(x)) body]; [Some r] leaves the loop.
    The caller gives the fuel, one step per element and one to see the end. *)
Fixpoint foreach {St A} (fuel : nat) (x : option positive) (next : positive → prog St (option positive))
    (body : positive → prog St (option A)) : prog St (option A) :=
  match fuel, x with
  | _, None => mret None
  | O, Some _ => fault
  | S fuel', Some p =>
      r ← body p;
      match r with
      | Some a => mret (Some a)
      | None => y ← next p; foreach fuel' y next body
      end
  end.

Section tree.
Context {F : Type} `{Kernel F}.
Notation M := (prog (world F)).

(** ** util/log.c *)

(* util/log.c:30-47 log_priority *)
Definition log_priority (priority : string) : M Z :=
  r ← strtox strtol priority 10;
  let prio := s32 (st_val r) in
  mret (match st_rest r with
        | "" => prio
        | String c _ =>
            if isspace c then prio
            else if strncmp_eq priority "err" 3 then LOG_ERR
            else if strncmp_eq priority "info" 4 then LOG_INFO
            else if strncmp_eq priority "debug" 5 then LOG_DEBUG
            else if strncmp_eq priority "notice" 6 then LOG_NOTICE
            else 0
        end).

(** The members of the [log_ctx]: log function, owner, priority. *)
(* util/log.c:49-61 log_init *)
Definition log_init (owner log_env : string) : M (option positive * string * Z) :=
  env ← gets (λ w, k_getenv log_env (fs w));
  match env with
  | Some e => prio ← log_priority e; mret (None, owner, prio)
  | None => mret (None, owner, LOG_ERR)
  end.

(** ** Release *)

(* accfg/lib/libaccfg.c:259-267 free_engine *)
Definition free_engine (engine : positive) : M unit :=
  e ← get_engine engine;
  upd_device (e_device e) (λ d, d <| d_engines ::= list_del engine |>);;
  on_heap (λ h, h <| h_engines ::= delete engine |>).

(* accfg/lib/libaccfg.c:269-281 free_wq *)
Definition free_wq (wq : positive) : M unit :=
  w ← get_wq wq;
  upd_device (w_device w) (λ d, d <| d_wqs ::= list_del wq |>);;
  on_heap (λ h, h <| h_wqs ::= delete wq |>).

(* accfg/lib/libaccfg.c:283-293 free_group *)
Definition free_group (group : positive) : M unit :=
  g ← get_group group;
  upd_device (g_device g) (λ d, d <| d_groups ::= list_del group |>);;
  on_heap (λ h, h <| h_groups ::= delete group |>).

(** [head] is the list of the context [ctx], or NULL. *)
(* accfg/lib/libaccfg.c:295-313 free_device *)
Definition free_device (device : positive) (ctx : option positive) : M unit :=
  d ← get_device device; for_each (d_groups d) free_group;;
  d ← get_device device; for_each (d_wqs d) free_wq;;
  d ← get_device device; for_each (d_engines d) free_engine;;
  (match ctx with
   | Some c => upd_ctx c (λ x, x <| c_devices ::= list_del device |>)
   | None => mret ()
   end);;
  on_heap (λ h, h <| h_devices ::= delete device |>).

(* accfg/lib/libaccfg.c:315-323 free_context *)
Definition free_context (ctx : positive) : M unit :=
  c ← get_ctx ctx;
  for_each (c_devices c) (λ device, free_device device (Some ctx));;
  on_heap (λ h, h <| h_ctxs ::= delete ctx |>).

(** ** Contexts *)

(** [strtoul] never stores NULL in the end pointer. *)
Definition endptr_is_null : bool := false.

(* accfg/lib/libaccfg.c:398-431 accfg_new *)
Definition accfg_new : M (Z * option positive) :=
  c ← fresh;
  match c with
  | None => mret (- ENOMEM, None)
  | Some ctx =>
      '(fn, owner, prio) ← log_init "libaccfg" "ACCFG_LOG";
      present ← sys_access IDXD_DRIVER_BIND_PATH;
      on_heap (λ h, h <| h_ctxs ::= insert ctx (Ctx fn owner prio 1 0 [] 5000 (negb present) None) |>);;
      env ← gets (λ w, k_getenv "ACCFG_TIMEOUT" (fs w));
      (match env with
       | Some e =>
           r ← strtox strtoull e 0;
           if (st_val r <? ULLONG_MAX) && endptr_is_null
           then upd_ctx ctx (λ x, x <| c_timeout := st_val r |>)
           else mret ()
       | None => mret ()
       end);;
      mret (0, Some ctx)
  end.

(* accfg/lib/libaccfg.c:437-443 accfg_ref *)
Definition accfg_ref (ctx : option positive) : M (option positive) :=
  match ctx with
  | None => mret None
  | Some p => upd_ctx p (λ c, c <| c_refcount ::= λ n, n + 1 |>);; mret (Some p)
  end.

(* accfg/lib/libaccfg.c:452-462 accfg_unref *)
Definition accfg_unref (ctx : option positive) : M (option positive) :=
  match ctx with
  | None => mret None
  | Some p =>
      upd_ctx p (λ c, c <| c_refcount ::= λ n, n - 1 |>);;
      c ← get_ctx p;
      if 0 <? c_refcount c then mret None
      else free_context p;; mret None
  end.

(* accfg/lib/libaccfg.c:473-482 accfg_set_log_fn *)
Definition accfg_set_log_fn (ctx : positive) (log_fn : positive) : M unit :=
  upd_ctx ctx (λ c, c <| c_log_fn := Some log_fn |>).

(* accfg/lib/libaccfg.c:488-491 accfg_get_log_priority *)
Definition accfg_get_log_priority (ctx : positive) : M Z := c ← get_ctx ctx; mret (c_log_priority c).

(* accfg/lib/libaccfg.c:499-503 accfg_set_log_priority *)
Definition accfg_set_log_priority (ctx : positive) (priority : Z) : M unit :=
  upd_ctx ctx (λ c, c <| c_log_priority := priority |>).
(** ** Building the tree *)

(* accfg/lib/libaccfg.c:505-512 device_parse *)
Definition device_parse (base_path dev_prefix bus_type : string) (flt : string → bool)
    (add_dev : Z → string → string → string → M (option positive)) : M Z :=
  __sysfs_device_parse base_path dev_prefix bus_type flt add_dev.

(** The type and completion record size of a type name; [None] is -ENODEV. *)
Fixpoint parse_type_from (b : list string) (sizes : list Z) (i : Z) (s : string) : option (Z * Z) :=
  match b, sizes with
  | name :: b', size :: sizes' =>
      if strcmp_eq s name then Some (i, size) else parse_type_from b' sizes' (i + 1) s
  | _, _ => None
  end.

(* accfg/lib/libaccfg.c:514-528 device_parse_type *)
Definition device_parse_type (d : accfg_device) : Z * accfg_device :=
  match parse_type_from accfg_basenames accfg_device_compl_size 0 (d_device_type_str d) with
  | Some (type, size) => (0, d <| d_type := type |> <| d_compl_size := size |>)
  | None => (- ENODEV, d)
  end.

Definition get_int (dfd name : string) : M Z := v ← accfg_get_param_long dfd name; mret (s32 v).
Definition get_uint (dfd name : string) : M Z := v ← accfg_get_param_long dfd name; mret (u32 v).

(* accfg/lib/libaccfg.c:530-619 add_device *)
Definition add_device (parent : positive) (id : Z) (ctl_base dev_prefix bus_type : string) :
    M (option positive) :=
  dfd ← sys_open O_PATH ctl_base;
  match dfd with
  | None => mret None
  | Some dfd =>
      accfg_set_param dfd "cmd_status" "1" 1;;
      init ← accfg_get_param_long dfd "cmd_status";
      modify (λ w, w <| init_cmd_status := init |>);;
      device ← fresh;
      match device with
      | None => sys_close dfd;; mret None
      | Some device =>
          max_groups ← get_int dfd "max_groups";
          max_work_queues ← get_int dfd "max_work_queues";
          max_engines ← get_int dfd "max_engines";
          max_work_queues_size ← get_int dfd "max_work_queues_size";
          numa_node ← get_int dfd "numa_node";
          ims_size ← get_int dfd "ims_size";
          max_batch_size ← get_int dfd "max_batch_size";
          max_transfer_size ← accfg_get_param_unsigned_llong dfd "max_transfer_size";
          gencap ← accfg_get_param_unsigned_llong dfd "gen_cap";
          configurable ← accfg_get_param_unsigned_llong dfd "configurable";
          pasid_enabled ← get_int dfd "pasid_enabled";
          max_read_buffers ← get_int dfd "max_read_buffers";
          read_buffer_limit ← get_uint dfd "read_buffer_limit";
          event_log_size ← get_int dfd "event_log_size";
          cdev_major ← get_uint dfd "cdev_major";
          version ← accfg_get_param_unsigned_llong dfd "version";
          device_path ← sys_realpath ctl_base;
          sys_close dfd;;
          match device_path with
          | None => mret None
          | Some device_path =>
              ok ← alloc;
              if negb ok then mret None
              else
                let d := Device parent (u32 id) None [] [] [] 0 device_path bus_type dev_prefix 0
                  (strlen device_path + MAX_BUF_LEN) max_groups max_work_queues max_engines
                  max_work_queues_size numa_node ims_size max_batch_size 0 (s32 configurable)
                  max_read_buffers read_buffer_limit event_log_size cdev_major (u32 version)
                  max_transfer_size gencap pasid_enabled in
                let '(rc, d) := device_parse_type d in
                if rc <? 0 then mret None
                else
                  on_heap (λ h, h <| h_devices ::= insert device d |>);;
                  upd_ctx parent (λ c, c <| c_devices ::= list_add_tail device |>);;
                  mret (Some device)
          end
      end
  end.
(** [inl rc] is a negative result, [inr t] stores [t] in the type and returns 0. *)
(* accfg/lib/libaccfg.c:621-647 wq_parse_type *)
Definition wq_parse_type (wq_type : option string) : M (Z + accfg_wq_type) :=
  s ← must wq_type;
  type ← strdup s;
  match type with
  | None => mret (inl (- ENOMEM))
  | Some type =>
      match strtok_colon type with
      | None => mret (inl (- EINVAL))
      | Some ptype =>
          mret (inr (if strcmp_eq ptype "kernel" then ACCFG_WQT_KERNEL
                     else if strcmp_eq ptype "user" then ACCFG_WQT_USER
                     else ACCFG_WQT_NONE))
      end
  end.

(* accfg/lib/libaccfg.c:649-742 add_wq *)
Definition add_wq (parent : option positive) (id : Z) (wq_base dev_prefix bus_type : string) :
    M (option positive) :=
  match parent with
  | None => mret None
  | Some device =>
      d ← get_device device;
      let group := d_group d in
      dfd ← sys_open O_PATH wq_base;
      match dfd with
      | None => mret None
      | Some dfd =>
          wq ← fresh;
          match wq with
          | None => sys_close dfd;; mret None
          | Some wq =>
              wq_base_string ← strdup wq_base;
              match wq_base_string with
              | None => sys_close dfd;; mret None
              | Some wq_base_string =>
                  match sscanf_pair "wq" (basename wq_base_string) with
                  | None => sys_close dfd;; mret None
                  | Some (device_id, wq_id) =>
                      group_id ← get_int dfd "group_id";
                      size ← get_int dfd "size";
                      priority ← get_int dfd "priority";
                      block_on_fault ← get_int dfd "block_on_fault";
                      mode ← accfg_get_param_str dfd "mode";
                      state ← accfg_get_param_str dfd "state";
                      cdev_minor ← get_int dfd "cdev_minor";
                      wq_type ← accfg_get_param_str dfd "type";
                      name ← accfg_get_param_str dfd "name";
                      driver_name ← accfg_get_param_str dfd "driver_name";
                      threshold ← get_uint dfd "threshold";
                      max_batch_size ← get_uint dfd "max_batch_size";
                      max_transfer_size ← accfg_get_param_long dfd "max_transfer_size";
                      ats_disable ← get_int dfd "ats_disable";
                      prs_disable ← get_int dfd "prs_disable";
                      t ← wq_parse_type wq_type;
                      let type := match t with inr ty => ty | inl _ => ACCFG_WQT_NONE end in
                      sys_close dfd;;
                      wq_path ← strdup wq_base;
                      match wq_path with
                      | None => mret None
                      | Some wq_path =>
                          ok ← alloc;
                          if negb ok then mret None
                          else
                            on_heap (λ h, h <| h_wqs ::= insert wq
                              (Wq device group wq_path (s32 wq_id) (strlen wq_base + MAX_BUF_LEN)
                                 group_id size 0 priority block_on_fault cdev_minor threshold
                                 mode name driver_name type state max_batch_size
                                 (u64 max_transfer_size) ats_disable prs_disable) |>);;
                            upd_device device (λ d, d <| d_wqs ::= list_add_tail wq |>);;
                            mret (Some wq)
                      end
                  end
              end
          end
      end
  end.

(* accfg/lib/libaccfg.c:744-828 add_group *)
Definition add_group (parent : option positive) (id : Z) (group_base dev_prefix bus_type : string) :
    M (option positive) :=
  match parent with
  | None => mret None
  | Some device =>
      get_device device;;
      dfd ← sys_open O_PATH group_base;
      match dfd with
      | None => mret None
      | Some dfd =>
          group ← fresh;
          match group with
          | None => sys_close dfd;; mret None
          | Some group =>
              group_base_string ← strdup group_base;
              match group_base_string with
              | None => sys_close dfd;; mret None
              | Some group_base_string =>
                  match sscanf_pair "group" (basename group_base_string) with
                  | None => sys_close dfd;; mret None
                  | Some (device_id, group_id) =>
                      upd_device device (λ d, d <| d_group := Some group |>);;
                      group_engines ← accfg_get_param_str dfd "engines";
                      group_wqs ← accfg_get_param_str dfd "work_queues";
                      read_buffers_reserved ← get_uint dfd "read_buffers_reserved";
                      read_buffers_allowed ← get_uint dfd "read_buffers_allowed";
                      use_read_buffer_limit ← get_uint dfd "use_read_buffer_limit";
                      traffic_class_a ← get_int dfd "traffic_class_a";
                      traffic_class_b ← get_int dfd "traffic_class_b";
                      desc_progress_limit ← get_uint dfd "desc_progress_limit";
                      batch_progress_limit ← get_uint dfd "batch_progress_limit";
                      sys_close dfd;;
                      ok ← alloc;
                      if negb ok then mret None
                      else
                        group_path ← strdup group_base;
                        match group_path with
                        | None => mret None
                        | Some group_path =>
                            on_heap (λ h, h <| h_groups ::= insert group
                              (Group device (s32 group_id) (strlen group_base + MAX_BUF_LEN) 0
                                 group_path group_engines group_wqs 0 0 read_buffers_reserved
                                 read_buffers_allowed use_read_buffer_limit traffic_class_a
                                 traffic_class_b desc_progress_limit batch_progress_limit) |>);;
                            upd_device device (λ d, d <| d_groups ::= list_add_tail group |>);;
                            mret (Some group)
                        end
                  end
              end
          end
      end
  end.

(* accfg/lib/libaccfg.c:830-898 add_engine *)
Definition add_engine (parent : option positive) (id : Z) (engine_base dev_prefix bus_type : string) :
    M (option positive) :=
  match parent with
  | None => mret None
  | Some device =>
      d ← get_device device;
      let group := d_group d in
      dfd ← sys_open O_PATH engine_base;
      match dfd with
      | None => mret None
      | Some dfd =>
          engine ← fresh;
          match engine with
          | None => sys_close dfd;; mret None
          | Some engine =>
              engine_base_string ← strdup engine_base;
              match engine_base_string with
              | None => sys_close dfd;; mret None
              | Some engine_base_string =>
                  match sscanf_pair "engine" (basename engine_base_string) with
                  | None => sys_close dfd;; mret None
                  | Some (device_id, engine_id) =>
                      group_id ← get_int dfd "group_id";
                      sys_close dfd;;
                      engine_path ← strdup engine_base;
                      match engine_path with
                      | None => mret None
                      | Some engine_path =>
                          ok ← alloc;
                          if negb ok then mret None
                          else
                            on_heap (λ h, h <| h_engines ::= insert engine
                              (Engine device group engine_path (s32 engine_id)
                                 (strlen engine_base + MAX_BUF_LEN) group_id) |>);;
                            upd_device device (λ d, d <| d_engines ::= list_add_tail engine |>);;
                            mret (Some engine)
                      end
                  end
              end
          end
      end
  end.
(** ** Initialisation on first use *)

(* accfg/lib/libaccfg.c:900-904 set_filename_prefix *)
Definition set_filename_prefix (pfx : string) : M unit := modify (λ w, w <| filename_prefix := pfx |>).

(* accfg/lib/libaccfg.c:906-909 filter_file_name_prefix *)
Definition filter_file_name_prefix (prefix d_name : string) : bool :=
  strncmp_eq prefix d_name (strlen prefix).

(* accfg/lib/libaccfg.c:911-924 groups_init *)
Definition groups_init (device : positive) : M unit :=
  d ← get_device device;
  if negb (d_group_init d =? 0) then mret ()
  else
    upd_device device (λ d, d <| d_group_init := 1 |>);;
    set_filename_prefix "group";;
    pfx ← gets filename_prefix;
    device_parse (d_device_path d) "group" (d_bus_type_str d) (filter_file_name_prefix pfx)
      (add_group (Some device));;
    mret ().

(* accfg/lib/libaccfg.c:1000-1006 accfg_device_get_next *)
Definition accfg_device_get_next (device : positive) : M (option positive) :=
  d ← get_device device;
  c ← get_ctx (d_ctx d);
  mret (list_next (c_devices c) device).

(* accfg/lib/libaccfg.c:926-953 devices_init *)
Definition devices_init (ctx : positive) : M unit :=
  c ← get_ctx ctx;
  if negb (c_devices_init c =? 0) then mret ()
  else
    upd_ctx ctx (λ c, c <| c_devices_init := 1 |>);;
    for_each accfg_bus_types (λ bus_type,
      sprintf_buf PATH_MAX ("/sys/bus/" +:+ bus_type +:+ "/devices");;
      for_each accfg_basenames (λ accel_name,
        set_filename_prefix accel_name;;
        pfx ← gets filename_prefix;
        device_parse ("/sys/bus/" +:+ bus_type +:+ "/devices") accel_name bus_type
          (filter_file_name_prefix pfx) (add_device ctx);;
        mret ()));;
    c ← get_ctx ctx;
    foreach (S (length (c_devices c))) (list_top (c_devices c)) accfg_device_get_next
      (λ device, groups_init device;; mret (@None unit));;
    mret ().

(* accfg/lib/libaccfg.c:955-971 engines_init *)
Definition engines_init (device : positive) : M unit :=
  d ← get_device device;
  init ← match d_group d with
         | Some group =>
             g ← get_group group;
             if negb (g_engines_init g =? 0) then mret true
             else upd_group group (λ g, g <| g_engines_init := 1 |>);; mret false
         | None => mret false
         end;
  if init : bool then mret ()
  else
    set_filename_prefix "engine";;
    pfx ← gets filename_prefix;
    device_parse (d_device_path d) "engine" (d_bus_type_str d) (filter_file_name_prefix pfx)
      (add_engine (Some device));;
    mret ().

(* accfg/lib/libaccfg.c:1782-1797 wqs_init *)
Definition wqs_init (device : positive) : M unit :=
  d ← get_device device;
  init ← match d_group d with
         | Some group =>
             g ← get_group group;
             if negb (g_wqs_init g =? 0) then mret true
             else upd_group group (λ g, g <| g_wqs_init := 1 |>);; mret false
         | None => mret false
         end;
  if init : bool then mret ()
  else
    set_filename_prefix "wq";;
    pfx ← gets filename_prefix;
    device_parse (d_device_path d) "wq" (d_bus_type_str d) (filter_file_name_prefix pfx)
      (add_wq (Some device));;
    mret ().

(** ** Navigation *)

(* accfg/lib/libaccfg.c:981-986 accfg_device_get_first *)
Definition accfg_device_get_first (ctx : positive) : M (option positive) :=
  devices_init ctx;; c ← get_ctx ctx; mret (list_top (c_devices c)).

(* accfg/lib/libaccfg.c:1650-1656 accfg_group_get_first *)
Definition accfg_group_get_first (device : positive) : M (option positive) :=
  groups_init device;; d ← get_device device; mret (list_top (d_groups d)).

(* accfg/lib/libaccfg.c:1658-1664 accfg_group_get_next *)
Definition accfg_group_get_next (group : positive) : M (option positive) :=
  g ← get_group group; d ← get_device (g_device g); mret (list_next (d_groups d) group).

(* accfg/lib/libaccfg.c:1799-1805 accfg_wq_get_first *)
Definition accfg_wq_get_first (device : positive) : M (option positive) :=
  wqs_init device;; d ← get_device device; mret (list_top (d_wqs d)).

(* accfg/lib/libaccfg.c:1807-1812 accfg_wq_get_next *)
Definition accfg_wq_get_next (wq : positive) : M (option positive) :=
  w ← get_wq wq; d ← get_device (w_device w); mret (list_next (d_wqs d) wq).

(* accfg/lib/libaccfg.c:2455-2461 accfg_engine_get_first *)
Definition accfg_engine_get_first (device : positive) : M (option positive) :=
  engines_init device;; d ← get_device device; mret (list_top (d_engines d)).

(* accfg/lib/libaccfg.c:2463-2469 accfg_engine_get_next *)
Definition accfg_engine_get_next (engine : positive) : M (option positive) :=
  e ← get_engine engine; d ← get_device (e_device e); mret (list_next (d_engines d) engine).

(** The [accfg_*_foreach] macros: the length of the list, read after the first
    call has built it, bounds the steps. *)
(* accfg/libaccel_config.h:166-169 accfg_device_foreach *)
Definition accfg_device_foreach {A} (ctx : positive) (body : positive → M (option A)) : M (option A) :=
  x ← accfg_device_get_first ctx; c ← get_ctx ctx;
  foreach (S (length (c_devices c))) x accfg_device_get_next body.

(* accfg/libaccel_config.h:226-229 accfg_group_foreach *)
Definition accfg_group_foreach {A} (device : positive) (body : positive → M (option A)) : M (option A) :=
  x ← accfg_group_get_first device; d ← get_device device;
  foreach (S (length (d_groups d))) x accfg_group_get_next body.

(* accfg/libaccel_config.h:272-275 accfg_wq_foreach *)
Definition accfg_wq_foreach {A} (device : positive) (body : positive → M (option A)) : M (option A) :=
  x ← accfg_wq_get_first device; d ← get_device device;
  foreach (S (length (d_wqs d))) x accfg_wq_get_next body.

(* accfg/libaccel_config.h:333-336 accfg_engine_foreach *)
Definition accfg_engine_foreach {A} (device : positive) (body : positive → M (option A)) : M (option A) :=
  x ← accfg_engine_get_first device; d ← get_device device;
  foreach (S (length (d_engines d))) x accfg_engine_get_next body.

(* accfg/lib/libaccfg.c:988-991 accfg_device_get_ctx *)
Definition accfg_device_get_ctx (device : positive) : M positive := d ← get_device device; mret (d_ctx d).
(* accfg/lib/libaccfg.c:1008-1011 accfg_device_get_devname *)
Definition accfg_device_get_devname (device : positive) : M string :=
  d ← get_device device; devpath_to_devname (d_device_path d).
(* accfg/lib/libaccfg.c:1013-1016 accfg_device_get_id *)
Definition accfg_device_get_id (device : positive) : M Z := d ← get_device device; mret (s32 (d_id d)).

(** The body of the look-ups: leave the loop with the object when it is the one. *)
Definition found (b : bool) (p : positive) : option positive := if b then Some p else None.

(* accfg/lib/libaccfg.c:1018-1027 accfg_ctx_device_get_by_id *)
Definition accfg_ctx_device_get_by_id (ctx : positive) (id : Z) : M (option positive) :=
  accfg_device_foreach ctx (λ dev, i ← accfg_device_get_id dev; mret (found (i =? id) dev)).

(* accfg/lib/libaccfg.c:1830-1839 accfg_ctx_device_get_by_name *)
Definition accfg_ctx_device_get_by_name (ctx : positive) (dev_name : string) : M (option positive) :=
  accfg_device_foreach ctx (λ dev,
    n ← accfg_device_get_devname dev; mret (found (strcmp_eq n dev_name) dev)).

(* accfg/lib/libaccfg.c:1666-1669 accfg_group_get_id *)
Definition accfg_group_get_id (group : positive) : M Z := g ← get_group group; mret (g_id g).
(* accfg/lib/libaccfg.c:1671-1680 accfg_device_group_get_by_id *)
Definition accfg_device_group_get_by_id (dev : positive) (id : Z) : M (option positive) :=
  accfg_group_foreach dev (λ group, i ← accfg_group_get_id group; mret (found (i =? id) group)).

(* accfg/lib/libaccfg.c:1814-1817 accfg_wq_get_id *)
Definition accfg_wq_get_id (wq : positive) : M Z := w ← get_wq wq; mret (w_id w).
(* accfg/lib/libaccfg.c:1819-1828 accfg_device_wq_get_by_id *)
Definition accfg_device_wq_get_by_id (dev : positive) (id : Z) : M (option positive) :=
  accfg_wq_foreach dev (λ wq, i ← accfg_wq_get_id wq; mret (found (i =? id) wq)).

(* accfg/lib/libaccfg.c:2471-2475 accfg_engine_get_id *)
Definition accfg_engine_get_id (engine : positive) : M Z := e ← get_engine engine; mret (e_id e).
(* accfg/lib/libaccfg.c:2477-2486 accfg_device_engine_get_by_id *)
Definition accfg_device_engine_get_by_id (dev : positive) (id : Z) : M (option positive) :=
  accfg_engine_foreach dev (λ engine,
    i ← accfg_engine_get_id engine; mret (found (i =? id) engine)).
End tree.
