(* ===== verification/Demo.v ===== *)
(** * A machine with one device

    A [sim] file system with device dsa0 (one group, two work queues, one
    engine), and the world after the library has enumerated it; the instances of
    the theorems use both. *)

From S2P Require Import Prelude CString Prog Types SimKernel Sysfs Param Tree.
Local Open Scope string_scope.
Local Open Scope Z_scope.

Definition nl (s : string) : string := s +:+ String NL "".
Definition attrs (dir : string) (l : list (string * string)) : gmap string string :=
  list_to_map ((λ '(k, v), (dir +:+ "/" +:+ k, nl v)) <$> l).

Definition DSA : string := "/sys/devices/dsa0".

Definition device_attrs : list (string * string) :=
  [("cmd_status", "0x0"); ("max_groups", "4"); ("max_work_queues", "8"); ("max_engines", "4");
   ("max_work_queues_size", "128"); ("numa_node", "0"); ("ims_size", "2048");
   ("max_batch_size", "1024"); ("max_transfer_size", "2147483648"); ("gen_cap", "0x40915f010f");
   ("configurable", "1"); ("pasid_enabled", "1"); ("max_tokens", "96"); ("token_limit", "0");
   ("event_log_size", "0"); ("cdev_major", "237"); ("version", "0x100"); ("state", "disabled");
   ("clients", "0"); ("errors", "0,0,0,0,0,0,0,0");
   ("op_cap", "1,0,0,0,0,0,0,1f03ff")].

Definition wq_attrs (size type state : string) : list (string * string) :=
  [("group_id", "0"); ("size", size); ("priority", "10"); ("block_on_fault", "0");
   ("mode", "shared"); ("state", state); ("cdev_minor", "0"); ("type", type);
   ("name", "app"); ("driver_name", "user"); ("threshold", "8"); ("max_batch_size", "32");
   ("max_transfer_size", "2097152"); ("ats_disable", "0"); ("prs_disable", "0");
   ("clients", "2"); ("occupancy", "3"); ("op_config", "0,0,0,0,0,0,0,0")].

Definition group_attrs : list (string * string) :=
  [("engines", "engine0.0"); ("work_queues", "wq0.0 wq0.1"); ("tokens_reserved", "0");
   ("tokens_allowed", "96"); ("use_token_limit", "0"); ("traffic_class_a", "1");
   ("traffic_class_b", "1"); ("desc_progress_limit", "0"); ("batch_progress_limit", "0")].

Definition demo_files : gmap string string :=
  attrs "/sys/bus/dsa/devices/dsa0" device_attrs ∪ attrs DSA device_attrs ∪
  attrs (DSA +:+ "/wq0.0") (wq_attrs "16" "user" "disabled") ∪
  attrs (DSA +:+ "/wq0.1") (wq_attrs "32" "kernel" "enabled") ∪
  attrs (DSA +:+ "/group0.0") group_attrs ∪
  attrs (DSA +:+ "/engine0.0") [("group_id", "0")] ∪
  list_to_map [("/sys/bus/dsa/drivers/idxd/bind", ""); ("/sys/bus/dsa/drivers/user/bind", "");
               ("/sys/bus/dsa/drivers/idxd/unbind", "")].

Definition demo_sim : sim :=
  empty_sim
    <| sim_files := demo_files |>
    <| sim_dirs := list_to_map
         [("/sys/bus/dsa/devices", ["dsa0"; "engine0.0"; "group0.0"; "wq0.0"; "wq0.1"]);
          ("/sys/bus/dsa/devices/dsa0", []); ("/sys/bus/dsa/drivers/idxd", []);
          (DSA, ["engine0.0"; "group0.0"; "wq0.0"; "wq0.1"]);
          (DSA +:+ "/engine0.0", []); (DSA +:+ "/group0.0", []);
          (DSA +:+ "/wq0.0", []); (DSA +:+ "/wq0.1", []);
          ("/dev/dsa", ["wq0.0"; "wq0.1"])] |>
    <| sim_links := list_to_map
         [("/sys/bus/dsa/devices/dsa0", DSA);
          ("/sys/bus/dsa/devices/dsa0/driver/unbind", "/sys/bus/dsa/drivers/idxd/unbind");
          ("/sys/bus/dsa/devices/wq0.0/driver/unbind", "/sys/bus/dsa/drivers/idxd/unbind");
          ("/sys/bus/dsa/devices/wq0.1/driver/unbind", "/sys/bus/dsa/drivers/idxd/unbind")] |>
    <| sim_rules :=
         [("/sys/bus/dsa/drivers/idxd/bind", DSA +:+ "/state", nl "enabled");
          ("/sys/bus/dsa/drivers/user/bind", DSA +:+ "/wq0.0/state", nl "enabled")] |>.

(** Find the first device, its groups, work queues and engines. *)
Definition demo_setup : prog (world sim) (option positive) :=
  '(_, c) ← accfg_new;
  ctx ← must c;
  d ← accfg_device_get_first ctx;
  device ← must d;
  accfg_wq_get_first device;;
  accfg_engine_get_first device;;
  mret (Some device).

Definition demo_world : world sim :=
  match demo_setup (sim_world demo_sim) with Done _ w => w | _ => sim_world demo_sim end.

(** A run checked by evaluation: it is [Done] with this result. *)
Definition runs_to {S A} `{EqDecision A} (m : prog S A) (s : S) (a : A) : bool :=
  match m s with Done b _ => bool_decide (b = a) | _ => false end.

Lemma runs_to_Done {S A} `{EqDecision A} (m : prog S A) s a :
  runs_to m s a = true → ∃ s', m s = Done a s'.
Proof.
  unfold runs_to. destruct (m s) as [b s'| |]; [|done..].
  intros ->%bool_decide_eq_true. by eexists.
Qed.

(** The state a run ends in. *)
Definition after {S A} (m : prog S A) (s : S) : S := match m s with Done _ s' => s' | _ => s end.

Lemma runs_after {S A} `{EqDecision A} (m : prog S A) s a :
  runs_to m s a = true → m s = Done a (after m s).
Proof.
  unfold runs_to, after. destruct (m s) as [b s'| |]; [|done..].
  by intros ->%bool_decide_eq_true.
Qed.

(** Only evaluation unfolds the world: unification must not run the set-up. *)
#[global] Opaque demo_world.
