(* ===== verification/Device.v ===== *)
(** * libaccfg.c: devices and groups

    Attributes, state, enabling and disabling of devices; attributes of groups.
    A device argument the code tests against NULL is an [option].  The setters
    a macro defines once per field are one function of the field. *)

From S2P Require Import Prelude CString Prog Types Sysfs Param Tree.
Local Open Scope string_scope.
Local Open Scope Z_scope.

(** ** Fields of a group the macros define accessors for *)

Inductive group_field : Set :=
  | G_read_buffers_reserved
  | G_read_buffers_allowed
  | G_use_read_buffer_limit
  | G_traffic_class_a
  | G_traffic_class_b
  | G_desc_progress_limit
  | G_batch_progress_limit.
#[export] Instance group_field_eq : EqDecision group_field.
Proof. solve_decision. Defined.

(** [#field] *)
Definition group_field_name (f : group_field) : string :=
  match f with
  | G_read_buffers_reserved => "read_buffers_reserved"
  | G_read_buffers_allowed => "read_buffers_allowed"
  | G_use_read_buffer_limit => "use_read_buffer_limit"
  | G_traffic_class_a => "traffic_class_a"
  | G_traffic_class_b => "traffic_class_b"
  | G_desc_progress_limit => "desc_progress_limit"
  | G_batch_progress_limit => "batch_progress_limit"
  end.

(** [group->field] *)
Definition group_field_get (f : group_field) (g : accfg_group) : Z :=
  match f with
  | G_read_buffers_reserved => g_read_buffers_reserved g
  | G_read_buffers_allowed => g_read_buffers_allowed g
  | G_use_read_buffer_limit => g_use_read_buffer_limit g
  | G_traffic_class_a => g_traffic_class_a g
  | G_traffic_class_b => g_traffic_class_b g
  | G_desc_progress_limit => g_desc_progress_limit g
  | G_batch_progress_limit => g_batch_progress_limit g
  end.

(** [group->field = val], converted to the member's type *)
Definition group_field_set (f : group_field) (val : Z) (g : accfg_group) : accfg_group :=
  match f with
  | G_read_buffers_reserved => g <| g_read_buffers_reserved := u32 val |>
  | G_read_buffers_allowed => g <| g_read_buffers_allowed := u32 val |>
  | G_use_read_buffer_limit => g <| g_use_read_buffer_limit := u32 val |>
  | G_traffic_class_a => g <| g_traffic_class_a := val |>
  | G_traffic_class_b => g <| g_traffic_class_b := val |>
  | G_desc_progress_limit => g <| g_desc_progress_limit := u32 val |>
  | G_batch_progress_limit => g <| g_batch_progress_limit := u32 val |>
  end.

Section device.
Context {F : Type} `{Kernel F}.
Notation M := (prog (world F)).

(** ** Attributes read when the device was found *)

(* accfg/lib/libaccfg.c:1029-1033 accfg_device_get_max_groups *)
Definition accfg_device_get_max_groups (device : positive) : M Z :=
  d ← get_device device; mret (u32 (d_max_groups d)).
(* accfg/lib/libaccfg.c:1035-1039 accfg_device_get_max_work_queues *)
Definition accfg_device_get_max_work_queues (device : positive) : M Z :=
  d ← get_device device; mret (u32 (d_max_work_queues d)).
(* accfg/lib/libaccfg.c:1041-1045 accfg_device_get_max_engines *)
Definition accfg_device_get_max_engines (device : positive) : M Z :=
  d ← get_device device; mret (u32 (d_max_engines d)).
(* accfg/lib/libaccfg.c:1047-1051 accfg_device_get_max_work_queues_size *)
Definition accfg_device_get_max_work_queues_size (device : positive) : M Z :=
  d ← get_device device; mret (u32 (d_max_work_queues_size d)).
(* accfg/lib/libaccfg.c:1053-1056 accfg_device_get_numa_node *)
Definition accfg_device_get_numa_node (device : positive) : M Z :=
  d ← get_device device; mret (d_numa_node d).
(* accfg/lib/libaccfg.c:1058-1062 accfg_device_get_ims_size *)
Definition accfg_device_get_ims_size (device : positive) : M Z :=
  d ← get_device device; mret (u32 (d_ims_size d)).
(* accfg/lib/libaccfg.c:1064-1068 accfg_device_get_max_batch_size *)
Definition accfg_device_get_max_batch_size (device : positive) : M Z :=
  d ← get_device device; mret (u32 (d_max_batch_size d)).
(* accfg/lib/libaccfg.c:1070-1074 accfg_device_get_max_transfer_size *)
Definition accfg_device_get_max_transfer_size (device : positive) : M Z :=
  d ← get_device device; mret (d_max_transfer_size d).
(* accfg/lib/libaccfg.c:1077-1080 accfg_device_get_compl_size *)
Definition accfg_device_get_compl_size (device : positive) : M Z :=
  d ← get_device device; mret (u32 (d_compl_size d)).
(* accfg/lib/libaccfg.c:1116-1119 accfg_device_get_gen_cap *)
Definition accfg_device_get_gen_cap (device : positive) : M Z :=
  d ← get_device device; mret (d_gencap d).
(* accfg/lib/libaccfg.c:1150-1154 accfg_device_get_configurable *)
Definition accfg_device_get_configurable (device : positive) : M Z :=
  d ← get_device device; mret (u32 (d_configurable d)).
(* accfg/lib/libaccfg.c:1156-1160 accfg_device_get_pasid_enabled *)
Definition accfg_device_get_pasid_enabled (device : positive) : M bool :=
  d ← get_device device; mret (negb (d_pasid_enabled d =? 0)).
(* accfg/lib/libaccfg.c:1230-1234 accfg_device_get_max_read_buffers *)
Definition accfg_device_get_max_read_buffers (device : positive) : M Z :=
  d ← get_device device; mret (u32 (d_max_read_buffers d)).
(* accfg/lib/libaccfg.c:1236-1240 accfg_device_get_read_buffer_limit *)
Definition accfg_device_get_read_buffer_limit (device : positive) : M Z :=
  d ← get_device device; mret (d_read_buffer_limit d).
(* accfg/lib/libaccfg.c:1242-1245 accfg_device_get_event_log_size *)
Definition accfg_device_get_event_log_size (device : positive) : M Z :=
  d ← get_device device; mret (d_event_log_size d).
(* accfg/lib/libaccfg.c:1247-1251 accfg_device_get_cdev_major *)
Definition accfg_device_get_cdev_major (device : positive) : M Z :=
  d ← get_device device; mret (d_cdev_major d).
(* accfg/lib/libaccfg.c:1253-1257 accfg_device_get_version *)
Definition accfg_device_get_version (device : positive) : M Z :=
  d ← get_device device; mret (d_version d).
(* accfg/lib/libaccfg.c:1545-1548 accfg_device_get_type *)
Definition accfg_device_get_type (device : positive) : M Z := d ← get_device device; mret (d_type d).
(* accfg/lib/libaccfg.c:1551-1554 accfg_device_get_type_str *)
Definition accfg_device_get_type_str (device : positive) : M string :=
  d ← get_device device; mret (d_device_type_str d).

(* accfg/lib/libaccfg.c:1525-1542 accfg_device_type_validate *)
Definition accfg_device_type_validate (dev_name : string) : Z :=
  if existsb (strstr_in dev_name) accfg_basenames then 1 else 0.

(** ** Attributes read on demand *)

(** The result and the words assigned, the first ones of the structure. *)
(* accfg/lib/libaccfg.c:1082-1114 accfg_device_get_op_cap *)
Definition accfg_device_get_op_cap (device : option positive) : M (Z * list Z) :=
  match device with
  | None => mret (- EINVAL, [])
  | Some device =>
      d ← get_device device;
      dfd ← sys_open O_PATH (d_device_path d);
      match dfd with
      | None => e ← neg_errno; mret (e, [])
      | Some dfd =>
          oc ← accfg_get_param_str dfd "op_cap";
          sys_close dfd;;
          match oc with
          | None => mret (- EIO, [])
          | Some oc =>
              let '(rc, bits) := sscanf_hex 8 0 oc in
              e ← get_errno;
              mret (if rc =? 8 then 0 else if negb (e =? 0) then - e else - EIO, bits)
          end
      end
  end.

(* accfg/lib/libaccfg.c:1121-1148 accfg_device_get_iaa_cap *)
Definition accfg_device_get_iaa_cap (device : option positive) : M (Z * option Z) :=
  match device with
  | None => mret (- EINVAL, None)
  | Some device =>
      d ← get_device device;
      fd ← sys_open O_PATH (d_device_path d);
      match fd with
      | None => e ← neg_errno; mret (e, None)
      | Some fd =>
          buf ← accfg_get_param_str fd "iaa_cap";
          sys_close fd;;
          match buf with
          | None => mret (- EIO, None)
          | Some buf =>
              set_errno 0;;
              r ← strtox strtoull buf 0;
              rc ← neg_errno;
              mret (rc, Some (st_val r))
          end
      end
  end.

(* accfg/lib/libaccfg.c:1162-1192 accfg_device_get_errors *)
Definition accfg_device_get_errors (device : option positive) : M (Z * list Z) :=
  match device with
  | None => mret (- EINVAL, [])
  | Some device =>
      d ← get_device device;
      dfd ← sys_open O_PATH (d_device_path d);
      match dfd with
      | None => e ← neg_errno; mret (e, [])
      | Some dfd =>
          s ← accfg_get_param_str dfd "errors";
          sys_close dfd;;
          read_error ← must s;
          let '(rc, val) := sscanf_hex 8 0 read_error in
          e ← get_errno;
          mret (if rc =? 8 then 0 else if negb (e =? 0) then - e else - EIO, val)
      end
  end.

(* accfg/lib/libaccfg.c:1194-1228 accfg_device_get_state *)
Definition accfg_device_get_state (device : option positive) : M accfg_device_state :=
  match device with
  | None => mret ACCFG_DEVICE_UNKNOWN
  | Some device =>
      d ← get_device device;
      let path := d_device_path d +:+ "/state" in
      if s32 (d_buf_len d) <=? strlen path then mret ACCFG_DEVICE_UNKNOWN
      else
        '(rc, read_state) ← __sysfs_read_attr path;
        if rc <? 0 then
          save_last_error device None None None;; mret ACCFG_DEVICE_UNKNOWN
        else
          mret (if strcmp_eq read_state "disabled" then ACCFG_DEVICE_DISABLED
                else if strcmp_eq read_state "enabled" then ACCFG_DEVICE_ENABLED
                else ACCFG_DEVICE_UNKNOWN)
  end.

(* accfg/lib/libaccfg.c:1259-1288 accfg_device_get_clients *)
Definition accfg_device_get_clients (device : option positive) : M Z :=
  match device with
  | None => mret (- EINVAL)
  | Some device =>
      d ← get_device device;
      let path := d_device_path d +:+ "/clients" in
      if s32 (d_buf_len d) <=? strlen path then neg_errno
      else
        '(rc, buf) ← __sysfs_read_attr path;
        if rc <? 0 then save_last_error device None None None;; neg_errno
        else mret (atoi buf)
  end.

(* accfg/lib/libaccfg.c:1377-1406 accfg_device_is_active *)
Definition accfg_device_is_active (device : option positive) : M Z :=
  match device with
  | None => mret (- EINVAL)
  | Some device =>
      d ← get_device device;
      let path := d_device_path d +:+ "/state" in
      if s32 (d_buf_len d) <=? strlen path then mret 0
      else
        '(rc, buf) ← __sysfs_read_attr path;
        if rc <? 0 then save_last_error device None None None;; mret 0
        else mret (if strcmp_eq buf "enabled" then 1 else 0)
  end.

(* accfg/lib/libaccfg.c:353-368 is_enabled *)
Definition is_enabled (device : option positive) (drvpath : string) : M Z :=
  match device with
  | None => mret (- EINVAL)
  | Some device =>
      get_device device;;
      ok ← sys_lstat drvpath;
      mret (if ok : bool then 1 else 0)
  end.
(** ** Setters of a device *)

(** The end every setter has: write the attribute; a failure is saved and
    answered with what [errno] holds then, a success commits the new value. *)
Definition store_attr (path buf : string) (save commit : M unit) : M Z :=
  rc ← __sysfs_write_attr path buf;
  if rc <? 0 then save;; neg_errno else commit;; mret 0.

(* accfg/lib/libaccfg.c:1290-1335 accfg_device_set_read_buffer_limit *)
Definition accfg_device_set_read_buffer_limit (dev : option positive) (val : Z) : M Z :=
  match dev with
  | None => mret (- EINVAL)
  | Some dev =>
      d ← get_device dev;
      let path0 := d_device_path d +:+ "/read_buffer_limit" in
      n ← sprintf_buf (d_buf_len d) path0;
      if s32 (d_buf_len d) <=? n then neg_errno
      else
        present ← sys_access path0;
        path ← (if present : bool then mret (Some path0)
                else
                  let p := d_device_path d +:+ "/" +:+ print_s (deprecated_attr "read_buffer_limit") in
                  n ← sprintf_buf (d_buf_len d) p;
                  mret (if s32 (d_buf_len d) <=? n then None else Some p));
        match path with
        | None => neg_errno
        | Some path =>
            sprintf_buf SYSFS_ATTR_SIZE (print_d val);;
            store_attr path (print_d val) (save_last_error dev None None None)
              (upd_device dev (λ d, d <| d_read_buffer_limit := u32 val |>))
        end
  end.

(* accfg/lib/libaccfg.c:1337-1375 accfg_device_set_event_log_size *)
Definition accfg_device_set_event_log_size (dev : option positive) (val : Z) : M Z :=
  match dev with
  | None => mret (- EINVAL)
  | Some dev =>
      d ← get_device dev;
      let path := d_device_path d +:+ "/event_log_size" in
      n ← sprintf_buf (d_buf_len d) path;
      if s32 (d_buf_len d) <=? n then neg_errno
      else
        present ← sys_access path;
        if negb present then mret 0
        else
          sprintf_buf SYSFS_ATTR_SIZE (print_d val);;
          store_attr path (print_d val) (save_last_error dev None None None)
            (upd_device dev (λ d, d <| d_event_log_size := val |>))
  end.

(** ** Binding to and unbinding from the driver *)

(* accfg/lib/libaccfg.c:1556-1568 get_driver_bind_path *)
Definition get_driver_bind_path (bus_name : string) (drv_name : option string) : M (Z + string) :=
  let p := "/sys/bus/" +:+ bus_name +:+ "/drivers/" +:+ print_s drv_name +:+ "/bind" in
  sprintf_buf PATH_MAX p;;
  path ← strdup p;
  match path with
  | None => e ← neg_errno; mret (inl e)
  | Some path => mret (inr path)
  end.

(* accfg/lib/libaccfg.c:1570-1582 get_driver_unbind_path *)
Definition get_driver_unbind_path (bus_name dev_name : string) : M (Z + string) :=
  let p := "/sys/bus/" +:+ bus_name +:+ "/devices/" +:+ dev_name +:+ "/driver/unbind" in
  sprintf_buf PATH_MAX p;;
  path ← sys_realpath p;
  match path with
  | None => e ← neg_errno; mret (inl e)
  | Some path => mret (inr path)
  end.

(** [IDXD_DRIVER(d)] *)
(* accfg/lib/libaccfg.c:33-34 IDXD_DRIVER *)
Definition IDXD_DRIVER (d : accfg_device) : M string :=
  c ← get_ctx (d_ctx d); mret (if c_compat c then d_bus_type_str d else "idxd").

(** The path to write the name to, if the flag is a device's: [inl] is an early return. *)
(* accfg/lib/libaccfg.c:1594-1619 accfg_device_control *)
Definition device_control_path (device : positive) (flag : accfg_control_flag) (force : bool) :
    M (Z + option string) :=
  d ← get_device device;
  match flag with
  | FLAG_DEVICE_ENABLE =>
      drv ← IDXD_DRIVER d;
      r ← get_driver_bind_path (d_bus_type_str d) (Some drv);
      match r with
      | inl rc => if rc <? 0 then mret (inl rc) else mret (inr None)
      | inr path => mret (inr (Some path))
      end
  | FLAG_DEVICE_DISABLE =>
      name ← accfg_device_get_devname device;
      r ← get_driver_unbind_path (d_bus_type_str d) name;
      match r with
      | inl rc =>
          if rc <? 0 then mret (inl rc)
          else
            clients ← accfg_device_get_clients (Some device);
            mret (if (0 <? clients) && negb force then inl (- EPERM) else inr None)
      | inr path =>
          clients ← accfg_device_get_clients (Some device);
          mret (if (0 <? clients) && negb force then inl (- EPERM) else inr (Some path))
      end
  | _ => mret (inr None)
  end.

(* accfg/lib/libaccfg.c:1585-1632 accfg_device_control *)
Definition accfg_device_control (device : option positive) (flag : accfg_control_flag)
    (force : bool) : M Z :=
  match device with
  | None => mret (- EINVAL)
  | Some device =>
      r ← device_control_path device flag force;
      match r with
      | inl rc => mret rc
      | inr None => mret 0
      | inr (Some path) =>
          name ← accfg_device_get_devname device;
          rc ← __sysfs_write_attr path name;
          if rc <? 0 then save_last_error device None None None;; mret rc
          else mret 0
      end
  end.

(* accfg/lib/libaccfg.c:1634-1637 accfg_device_enable *)
Definition accfg_device_enable (device : option positive) : M Z :=
  accfg_device_control device FLAG_DEVICE_ENABLE false.

(* accfg/lib/libaccfg.c:1639-1642 accfg_device_disable *)
Definition accfg_device_disable (device : option positive) (force : bool) : M Z :=
  accfg_device_control device FLAG_DEVICE_DISABLE force.

(** ** Groups *)

(* accfg/lib/libaccfg.c:370-374 accfg_group_get_ctx *)
Definition accfg_group_get_ctx (group : positive) : M positive :=
  g ← get_group group; d ← get_device (g_device g); mret (d_ctx d).
(* accfg/lib/libaccfg.c:1644-1648 accfg_group_get_device *)
Definition accfg_group_get_device (group : positive) : M positive :=
  g ← get_group group; mret (g_device g).
(* accfg/lib/libaccfg.c:1682-1689 accfg_group_get_device_id *)
Definition accfg_group_get_device_id (group : positive) : M Z :=
  g ← get_group group; d ← get_device (g_device g); mret (s32 (d_id d)).
(* accfg/lib/libaccfg.c:1691-1694 accfg_group_get_devname *)
Definition accfg_group_get_devname (group : positive) : M string :=
  g ← get_group group; devpath_to_devname (g_group_path g).
(* accfg/lib/libaccfg.c:1696-1699 accfg_group_get_size *)
Definition accfg_group_get_size (group : positive) : M Z :=
  g ← get_group group; mret (u64 (g_size g)).

(* accfg/lib/libaccfg.c:1701-1722 accfg_group_get_available_size *)
Definition accfg_group_get_available_size (group : positive) : M Z :=
  g ← get_group group;
  let path := g_group_path g +:+ "/available_size" in
  if g_buf_len g <=? strlen path then mret ULLONG_MAX
  else
    '(rc, buf) ← __sysfs_read_attr path;
    if rc <? 0 then save_last_error (g_device g) None (Some group) None;; mret ULLONG_MAX
    else r ← strtox strtoull buf 0; mret (st_val r).

(* accfg/lib/libaccfg.c:1724-1757 accfg_group_set_field *)
Definition accfg_group_set_field (f : group_field) (group : positive) (val : Z) : M Z :=
  g ← get_group group;
  accfg_group_get_ctx group;;
  let path0 := g_group_path g +:+ "/" +:+ group_field_name f in
  sprintf_buf (g_buf_len g) path0;;
  present ← sys_access path0;
  path ← (if present : bool then mret path0
          else
            let p := g_group_path g +:+ "/" +:+ print_s (deprecated_attr (group_field_name f)) in
            sprintf_buf (g_buf_len g) p;; mret p);
  sprintf_buf SYSFS_ATTR_SIZE (print_d val);;
  store_attr path (print_d val) (save_last_error (g_device g) None (Some group) None)
    (upd_group group (group_field_set f val)).

(* accfg/lib/libaccfg.c:1759-1759 accfg_group_set_read_buffers_reserved *)
Definition accfg_group_set_read_buffers_reserved := accfg_group_set_field G_read_buffers_reserved.
(* accfg/lib/libaccfg.c:1760-1760 accfg_group_set_read_buffers_allowed *)
Definition accfg_group_set_read_buffers_allowed := accfg_group_set_field G_read_buffers_allowed.
(* accfg/lib/libaccfg.c:1761-1761 accfg_group_set_use_read_buffer_limit *)
Definition accfg_group_set_use_read_buffer_limit := accfg_group_set_field G_use_read_buffer_limit.
(* accfg/lib/libaccfg.c:1762-1762 accfg_group_set_traffic_class_a *)
Definition accfg_group_set_traffic_class_a := accfg_group_set_field G_traffic_class_a.
(* accfg/lib/libaccfg.c:1763-1763 accfg_group_set_traffic_class_b *)
Definition accfg_group_set_traffic_class_b := accfg_group_set_field G_traffic_class_b.
(* accfg/lib/libaccfg.c:1764-1764 accfg_group_set_desc_progress_limit *)
Definition accfg_group_set_desc_progress_limit := accfg_group_set_field G_desc_progress_limit.
(* accfg/lib/libaccfg.c:1765-1765 accfg_group_set_batch_progress_limit *)
Definition accfg_group_set_batch_progress_limit := accfg_group_set_field G_batch_progress_limit.

(* accfg/lib/libaccfg.c:1767-1772 accfg_group_get_field *)
Definition accfg_group_get_field (f : group_field) (group : positive) : M Z :=
  g ← get_group group; mret (s32 (group_field_get f g)).

(* accfg/lib/libaccfg.c:1774-1774 accfg_group_get_read_buffers_reserved *)
Definition accfg_group_get_read_buffers_reserved := accfg_group_get_field G_read_buffers_reserved.
(* accfg/lib/libaccfg.c:1775-1775 accfg_group_get_read_buffers_allowed *)
Definition accfg_group_get_read_buffers_allowed := accfg_group_get_field G_read_buffers_allowed.
(* accfg/lib/libaccfg.c:1776-1776 accfg_group_get_use_read_buffer_limit *)
Definition accfg_group_get_use_read_buffer_limit := accfg_group_get_field G_use_read_buffer_limit.
(* accfg/lib/libaccfg.c:1777-1777 accfg_group_get_traffic_class_a *)
Definition accfg_group_get_traffic_class_a := accfg_group_get_field G_traffic_class_a.
(* accfg/lib/libaccfg.c:1778-1778 accfg_group_get_traffic_class_b *)
Definition accfg_group_get_traffic_class_b := accfg_group_get_field G_traffic_class_b.
(* accfg/lib/libaccfg.c:1779-1779 accfg_group_get_desc_progress_limit *)
Definition accfg_group_get_desc_progress_limit := accfg_group_get_field G_desc_progress_limit.
(* accfg/lib/libaccfg.c:1780-1780 accfg_group_get_batch_progress_limit *)
Definition accfg_group_get_batch_progress_limit := accfg_group_get_field G_batch_progress_limit.
End device.
