(* ===== verification/Wq.v ===== *)
(** * libaccfg.c: work queues and engines

    Attributes, mode, state, operation configuration, enabling and disabling of
    work queues, their size and priority limits and character device; engines.
    As for groups, the setters a macro defines are one function of the field. *)

From S2P Require Import Prelude CString Prog Types Sysfs Param Tree Device.
Local Open Scope string_scope.
Local Open Scope Z_scope.

(** ** Fields of a work queue the macros define accessors for *)

Inductive wq_field : Set :=
  | W_size
  | W_priority
  | W_group_id
  | W_block_on_fault
  | W_threshold
  | W_max_batch_size
  | W_ats_disable
  | W_prs_disable.
#[export] Instance wq_field_eq : EqDecision wq_field.
Proof. solve_decision. Defined.

(** [#field] *)
Definition wq_field_name (f : wq_field) : string :=
  match f with
  | W_size => "size"
  | W_priority => "priority"
  | W_group_id => "group_id"
  | W_block_on_fault => "block_on_fault"
  | W_threshold => "threshold"
  | W_max_batch_size => "max_batch_size"
  | W_ats_disable => "ats_disable"
  | W_prs_disable => "prs_disable"
  end.

Definition wq_field_get (f : wq_field) (w : accfg_wq) : Z :=
  match f with
  | W_size => w_size w
  | W_priority => w_priority w
  | W_group_id => w_group_id w
  | W_block_on_fault => w_block_on_fault w
  | W_threshold => w_threshold w
  | W_max_batch_size => w_max_batch_size w
  | W_ats_disable => w_ats_disable w
  | W_prs_disable => w_prs_disable w
  end.

(** [wq->field = val], converted to the member's type *)
Definition wq_field_set (f : wq_field) (val : Z) (w : accfg_wq) : accfg_wq :=
  match f with
  | W_size => w <| w_size := val |>
  | W_priority => w <| w_priority := val |>
  | W_group_id => w <| w_group_id := val |>
  | W_block_on_fault => w <| w_block_on_fault := val |>
  | W_threshold => w <| w_threshold := u32 val |>
  | W_max_batch_size => w <| w_max_batch_size := u32 val |>
  | W_ats_disable => w <| w_ats_disable := val |>
  | W_prs_disable => w <| w_prs_disable := val |>
  end.

Inductive wq_str_field : Set := WS_mode | WS_name | WS_driver_name.
#[export] Instance wq_str_field_eq : EqDecision wq_str_field.
Proof. solve_decision. Defined.

Definition wq_str_field_name (f : wq_str_field) : string :=
  match f with WS_mode => "mode" | WS_name => "name" | WS_driver_name => "driver_name" end.

Definition wq_str_field_get (f : wq_str_field) (w : accfg_wq) : option string :=
  match f with WS_mode => w_mode w | WS_name => w_name w | WS_driver_name => w_driver_name w end.

Definition wq_str_field_set (f : wq_str_field) (val : option string) (w : accfg_wq) : accfg_wq :=
  match f with
  | WS_mode => w <| w_mode := val |>
  | WS_name => w <| w_name := val |>
  | WS_driver_name => w <| w_driver_name := val |>
  end.

(* accfg/lib/libaccfg.c:50-53 accfg_wq_mode_str *)
Definition accfg_wq_mode_str (mode : Z) : option string :=
  if mode =? ACCFG_WQ_SHARED then Some "shared"
  else if mode =? ACCFG_WQ_DEDICATED then Some "dedicated" else None.

(** NULL for a type without an entry. *)
(* accfg/lib/libaccfg.c:38-42 accfg_wq_device_portals *)
Definition accfg_wq_device_portals (type : accfg_wq_type) : option string :=
  match type with
  | ACCFG_WQT_KERNEL => Some "dmaengine"
  | ACCFG_WQT_USER => Some "user"
  | ACCFG_WQT_NONE => None
  end.

Section wq.
Context {F : Type} `{Kernel F}.
Notation M := (prog (world F)).

(** ** Attributes held in memory *)

(* accfg/lib/libaccfg.c:1841-1844 accfg_wq_get_priv *)
Definition accfg_wq_get_priv (wq : positive) : M Z := w ← get_wq wq; mret (u32 (w_priv w)).
(* accfg/lib/libaccfg.c:1846-1850 accfg_wq_get_group *)
Definition accfg_wq_get_group (wq : positive) : M (option positive) := w ← get_wq wq; mret (w_group w).
(* accfg/lib/libaccfg.c:1852-1856 accfg_wq_get_device *)
Definition accfg_wq_get_device (wq : positive) : M positive := w ← get_wq wq; mret (w_device w).
(* accfg/lib/libaccfg.c:1858-1861 accfg_wq_get_ctx *)
Definition accfg_wq_get_ctx (wq : positive) : M positive :=
  w ← get_wq wq; d ← get_device (w_device w); mret (d_ctx d).
(* accfg/lib/libaccfg.c:1863-1866 accfg_wq_get_devname *)
Definition accfg_wq_get_devname (wq : positive) : M string :=
  w ← get_wq wq; devpath_to_devname (w_wq_path w).
(* accfg/lib/libaccfg.c:1868-1871 accfg_wq_get_cdev_minor *)
Definition accfg_wq_get_cdev_minor (wq : positive) : M Z := w ← get_wq wq; mret (w_cdev_minor w).
(* accfg/lib/libaccfg.c:1873-1876 accfg_wq_get_type *)
Definition accfg_wq_get_type (wq : positive) : M accfg_wq_type := w ← get_wq wq; mret (w_type w).
(* accfg/lib/libaccfg.c:1878-1881 accfg_wq_get_type_name *)
Definition accfg_wq_get_type_name (wq : positive) : M (option string) := w ← get_wq wq; mret (w_name w).
(* accfg/lib/libaccfg.c:1883-1886 accfg_wq_get_driver_name *)
Definition accfg_wq_get_driver_name (wq : positive) : M (option string) := w ← get_wq wq; mret (w_driver_name w).
(* accfg/lib/libaccfg.c:1888-1903 accfg_wq_driver_name_validate *)
Definition accfg_wq_driver_name_validate (wq : positive) (drv_name : string) : M bool :=
  device ← accfg_wq_get_device wq;
  d ← get_device device;
  r ← get_driver_bind_path (d_bus_type_str d) (Some drv_name);
  match r with
  | inl _ => mret false
  | inr path => sys_access path
  end.

(* accfg/lib/libaccfg.c:1905-1908 accfg_wq_get_size *)
Definition accfg_wq_get_size (wq : positive) : M Z := w ← get_wq wq; mret (u64 (w_size w)).
(* accfg/lib/libaccfg.c:1910-1913 accfg_wq_get_max_batch_size *)
Definition accfg_wq_get_max_batch_size (wq : positive) : M Z := w ← get_wq wq; mret (w_max_batch_size w).
(* accfg/lib/libaccfg.c:1915-1918 accfg_wq_get_max_transfer_size *)
Definition accfg_wq_get_max_transfer_size (wq : positive) : M Z := w ← get_wq wq; mret (w_max_transfer_size w).

(** ** Attributes read on demand *)

(** An [enum]: a negative value when the queue cannot be opened. *)
(* accfg/lib/libaccfg.c:325-345 accfg_wq_get_mode *)
Definition accfg_wq_get_mode (wq : positive) : M Z :=
  w ← get_wq wq;
  get_device (w_device w);;
  dfd ← sys_open O_PATH (w_wq_path w);
  match dfd with
  | None => neg_errno
  | Some dfd =>
      m ← accfg_get_param_str dfd "mode";
      read_mode ← must m;
      sys_close dfd;;
      mret (if strcmp_eq read_mode "shared" then ACCFG_WQ_SHARED else ACCFG_WQ_DEDICATED)
  end.

(* accfg/lib/libaccfg.c:376-388 accfg_wq_is_enabled *)
Definition accfg_wq_is_enabled (wq : positive) : M Z :=
  w ← get_wq wq;
  get_device (w_device w);;
  let path := w_wq_path w +:+ "/mode" in
  if w_buf_len w <=? strlen path then mret (- ENOMEM)
  else is_enabled (Some (w_device w)) path.

(** The descriptor is never closed. *)
(* accfg/lib/libaccfg.c:1920-1930 accfg_wq_get_occupancy *)
Definition accfg_wq_get_occupancy (wq : positive) : M Z :=
  w ← get_wq wq;
  get_device (w_device w);;
  dfd ← sys_open O_PATH (w_wq_path w);
  match dfd with
  | None => mret (- ENXIO)
  | Some dfd => v ← accfg_get_param_long dfd "occupancy"; mret (s32 v)
  end.

(* accfg/lib/libaccfg.c:1932-1954 accfg_wq_get_clients *)
Definition accfg_wq_get_clients (wq : positive) : M Z :=
  w ← get_wq wq;
  get_device (w_device w);;
  let path := w_wq_path w +:+ "/clients" in
  if w_buf_len w <=? strlen path then neg_errno
  else
    '(rc, buf) ← __sysfs_read_attr path;
    if rc <? 0 then save_last_error (w_device w) (Some wq) None None;; neg_errno
    else mret (atoi buf).

(* accfg/lib/libaccfg.c:1956-1965 accfg_wq_priority_boundary *)
Definition accfg_wq_priority_boundary (wq : positive) : M Z :=
  w ← get_wq wq;
  get_device (w_device w);;
  mret (if WQ_PRIORITY_LIMIT <? w_priority w then - ERANGE else 0).

(* accfg/lib/libaccfg.c:2153-2182 accfg_wq_get_state *)
Definition accfg_wq_get_state (wq : positive) : M accfg_wq_state :=
  w ← get_wq wq;
  get_device (w_device w);;
  let path := w_wq_path w +:+ "/state" in
  if w_buf_len w <=? strlen path then mret ACCFG_WQ_UNKNOWN
  else
    '(rc, read_state) ← __sysfs_read_attr path;
    if rc <? 0 then
      save_last_error (w_device w) (Some wq) None None;; mret ACCFG_WQ_UNKNOWN
    else
      mret (if strcmp_eq read_state "disabled" then ACCFG_WQ_DISABLED
            else if strcmp_eq read_state "enabled" then ACCFG_WQ_ENABLED
            else if strcmp_eq read_state "quiescing" then ACCFG_WQ_QUIESCING
            else if strcmp_eq read_state "locked" then ACCFG_WQ_LOCKED
            else ACCFG_WQ_UNKNOWN).
(* accfg/lib/libaccfg.c:1967-1999 accfg_wq_get_op_config *)
Definition accfg_wq_get_op_config (wq : option positive) : M (Z * list Z) :=
  match wq with
  | None => mret (- EINVAL, [])
  | Some wq =>
      w ← get_wq wq;
      get_device (w_device w);;
      dfd ← sys_open O_PATH (w_wq_path w);
      match dfd with
      | None => e ← neg_errno; mret (e, [])
      | Some dfd =>
          oc ← accfg_get_param_str dfd "op_config";
          sys_close dfd;;
          match oc with
          | None => mret (- EIO, [])
          | Some oc =>
              let '(rc, bits) := sscanf_hex 8 0 oc in
              mret (if rc =? 8 then 0 else - EIO, bits)
          end
      end
  end.

(* accfg/lib/libaccfg.c:2020-2043 accfg_wq_set_op_config_str *)
Definition accfg_wq_set_op_config_str (wq : option positive) (op_config : option string) : M Z :=
  match wq, op_config with
  | Some wq, Some op_config =>
      w ← get_wq wq;
      get_device (w_device w);;
      dfd ← sys_open O_PATH (w_wq_path w);
      match dfd with
      | None => neg_errno
      | Some dfd =>
          rc ← accfg_set_param dfd "op_config" op_config (strlen op_config);
          sys_close dfd;;
          mret (if rc =? 0 then 0 else - EIO)
      end
  | _, _ => mret (- EINVAL)
  end.

(** The structure is its eight words. *)
(* accfg/lib/libaccfg.c:2001-2018 accfg_wq_set_op_config *)
Definition accfg_wq_set_op_config (wq : option positive) (op_config : option (list Z)) : M Z :=
  match wq, op_config with
  | Some wq, Some bits =>
      let oc := String.substring 0 (Z.to_nat (MAX_PARAM_LEN - 1)) (print_hex_list bits) in
      accfg_wq_set_op_config_str (Some wq) (Some oc)
  | _, _ => mret (- EINVAL)
  end.

(** ** Enabling and disabling *)

(* accfg/lib/libaccfg.c:2045-2059 accfg_wq_retrieve_cdev_minor *)
Definition accfg_wq_retrieve_cdev_minor (wq : positive) : M Z :=
  w ← get_wq wq;
  get_device (w_device w);;
  dfd ← sys_open O_PATH (w_wq_path w);
  match dfd with
  | None => mret (- ENXIO)
  | Some dfd =>
      v ← accfg_get_param_long dfd "cdev_minor";
      upd_wq wq (λ w, w <| w_cdev_minor := s32 v |>);;
      sys_close dfd;;
      mret 0
  end.

Definition expected_state (flag : accfg_control_flag) : option accfg_wq_state :=
  match flag with
  | FLAG_WQ_DISABLE => Some ACCFG_WQ_DISABLED
  | FLAG_WQ_ENABLE => Some ACCFG_WQ_ENABLED
  | _ => None
  end.

(* accfg/lib/libaccfg.c:2061-2077 accfg_wq_state_expected *)
Definition accfg_wq_state_expected (wq : positive) (flag : accfg_control_flag) : M bool :=
  match expected_state flag with
  | None => mret false
  | Some expected =>
      state ← accfg_wq_get_state wq;
      mret (bool_decide (state = expected))
  end.

(** [IDXD_WQ_DEVICE_PORTAL(d, w)] *)
(* accfg/lib/libaccfg.c:35-36 IDXD_WQ_DEVICE_PORTAL *)
Definition IDXD_WQ_DEVICE_PORTAL (d : accfg_device) (w : accfg_wq) : M (option string) :=
  c ← get_ctx (d_ctx d);
  mret (if c_compat c then Some (d_bus_type_str d) else accfg_wq_device_portals (w_type w)).

(** The path to write the name to: [inl] is an early return. *)
(* accfg/lib/libaccfg.c:2089-2118 accfg_wq_control *)
Definition wq_control_path (wq : positive) (flag : accfg_control_flag) (force : bool)
    (wq_name : string) : M (Z + option string) :=
  w ← get_wq wq;
  d ← get_device (w_device w);
  match flag with
  | FLAG_WQ_ENABLE =>
      drv ← match w_driver_name w with
            | Some (String _ _ as n) => mret (Some n)
            | _ => IDXD_WQ_DEVICE_PORTAL d w
            end;
      r ← get_driver_bind_path (d_bus_type_str d) drv;
      match r with
      | inl rc => if rc <? 0 then mret (inl rc) else mret (inr None)
      | inr path =>
          match w_driver_name w with
          | Some _ =>
              present ← sys_access path;
              mret (if present : bool then inr (Some path) else inl (- ENOENT))
          | None => mret (inr (Some path))
          end
      end
  | FLAG_WQ_DISABLE =>
      r ← get_driver_unbind_path (d_bus_type_str d) wq_name;
      match r with
      | inl rc =>
          if rc <? 0 then mret (inl rc)
          else
            clients ← accfg_wq_get_clients wq;
            mret (if (0 <? clients) && negb force then inl (- EPERM) else inr None)
      | inr path =>
          clients ← accfg_wq_get_clients wq;
          mret (if (0 <? clients) && negb force then inl (- EPERM) else inr (Some path))
      end
  | _ => mret (inr None)
  end.

(** From the write on: the name is written, if there is a path, the state is
    verified and the device's minor number read again. *)
(* accfg/lib/libaccfg.c:2120-2140 accfg_wq_control *)
Definition wq_control_finish (wq : positive) (flag : accfg_control_flag) (wq_name : string)
    (path : option string) : M Z :=
  rc ← (match path with
        | Some path =>
            rc ← __sysfs_write_attr path wq_name;
            if rc <? 0 then
              w ← get_wq wq;
              save_last_error (w_device w) (Some wq) None None;;
              mret rc
            else mret 0
        | None => mret 0
        end);
  if rc <? 0 then mret rc
  else
    ok ← accfg_wq_state_expected wq flag;
    if negb ok then mret (- ENXIO)
    else
      r ← accfg_wq_retrieve_cdev_minor wq;
      mret (if r =? 0 then 0 else - ENXIO).

(* accfg/lib/libaccfg.c:2080-2141 accfg_wq_control *)
Definition accfg_wq_control (wq : positive) (flag : accfg_control_flag) (force : bool) : M Z :=
  accfg_wq_get_ctx wq;;
  wq_name ← accfg_wq_get_devname wq;
  r ← wq_control_path wq flag force wq_name;
  match r with
  | inl rc => mret rc
  | inr path => wq_control_finish wq flag wq_name path
  end.

(* accfg/lib/libaccfg.c:2143-2146 accfg_wq_enable *)
Definition accfg_wq_enable (wq : positive) : M Z := accfg_wq_control wq FLAG_WQ_ENABLE false.

(* accfg/lib/libaccfg.c:2148-2151 accfg_wq_disable *)
Definition accfg_wq_disable (wq : positive) (force : bool) : M Z :=
  accfg_wq_control wq FLAG_WQ_DISABLE force.

(** ** Limits and device node *)

(** The accumulation: [None] is the overflow of an [int], undefined behaviour. *)
(* accfg/lib/libaccfg.c:2201-2208 accfg_wq_size_boundary *)
Fixpoint total_wq_size (limit total : Z) (sizes : list Z) : option Z :=
  match sizes with
  | [] => Some 0
  | s :: sizes' =>
      let total := total + s in
      if (total <? - 2 ^ 31) || (INT_MAX <? total) then None
      else if limit <? total then Some (- ERANGE)
      else total_wq_size limit total sizes'
  end.

Fixpoint get_wqs (l : list positive) : M (list accfg_wq) :=
  match l with
  | [] => mret []
  | p :: l' => w ← get_wq p; ws ← get_wqs l'; mret (w :: ws)
  end.

(* accfg/lib/libaccfg.c:2184-2211 accfg_wq_size_boundary *)
Definition accfg_wq_size_boundary (device : option positive) (wq_num : Z) : M Z :=
  match device with
  | None => mret (- EINVAL)
  | Some device =>
      d ← get_device device;
      max ← accfg_device_get_max_work_queues device;
      let max_wqs := s32 max in
      if max_wqs <? wq_num then mret (- ERANGE)
      else
        ws ← get_wqs (d_wqs d);
        must (total_wq_size (d_max_work_queues_size d) 0 (w_size <$> ws))
  end.

(** The last entry, in [alphasort] order, that matches: the search goes backwards. *)
(* accfg/lib/libaccfg.c:2234-2239 accfg_wq_get_user_dev_path *)
Definition find_node (pattern name : string) (d : list string) : option string :=
  List.find (λ f, k_fnmatch pattern f || strcmp_eq name f) (reverse d).

(** The result and what is copied to [buf]. *)
(* accfg/lib/libaccfg.c:2213-2265 accfg_wq_get_user_dev_path *)
Definition accfg_wq_get_user_dev_path (wq : positive) (size : Z) : M (Z * option string) :=
  w ← get_wq wq;
  d ← get_device (w_device w);
  sprintf_buf PATH_MAX ("/dev/" +:+ d_device_type_str d);;
  names ← sys_scandir ("/dev/" +:+ d_device_type_str d);
  match names with
  | None => mret (- ENOENT, None)
  | Some names =>
      name ← accfg_wq_get_devname wq;
      sprintf_buf PATH_MAX (name +:+ "-*");;
      match find_node (name +:+ "-*") name names with
      | None => mret (- ENOENT, None)
      | Some f =>
          let p := "/dev/" +:+ d_device_type_str d +:+ "/" +:+ f in
          n ← sprintf_buf PATH_MAX p;
          if size <=? n then mret (- ERANGE, None) else mret (0, Some p)
      end
  end.
(** ** Setters *)

(** The guard of the macro: only the threshold needs a configurable device. *)
(* accfg/lib/libaccfg.c:2267-2300 accfg_wq_set_field *)
Definition accfg_wq_set_field (f : wq_field) (wq : positive) (val : Z) : M Z :=
  accfg_wq_get_ctx wq;;
  w ← get_wq wq;
  let path := w_wq_path w +:+ "/" +:+ wq_field_name f in
  sprintf_buf (w_buf_len w) path;;
  sprintf_buf SYSFS_ATTR_SIZE (print_d val);;
  configurable ← accfg_device_get_configurable (w_device w);
  if (configurable =? 0) && strcmp_eq (wq_field_name f) "threshold" then neg_errno
  else
    store_attr path (print_d val) (save_last_error (w_device w) (Some wq) None None)
      (upd_wq wq (wq_field_set f val)).

(* accfg/lib/libaccfg.c:2302-2302 accfg_wq_set_size *)
Definition accfg_wq_set_size := accfg_wq_set_field W_size.
(* accfg/lib/libaccfg.c:2303-2303 accfg_wq_set_priority *)
Definition accfg_wq_set_priority := accfg_wq_set_field W_priority.
(* accfg/lib/libaccfg.c:2304-2304 accfg_wq_set_group_id *)
Definition accfg_wq_set_group_id := accfg_wq_set_field W_group_id.
(* accfg/lib/libaccfg.c:2305-2305 accfg_wq_set_block_on_fault *)
Definition accfg_wq_set_block_on_fault := accfg_wq_set_field W_block_on_fault.
(* accfg/lib/libaccfg.c:2306-2306 accfg_wq_set_threshold *)
Definition accfg_wq_set_threshold := accfg_wq_set_field W_threshold.
(* accfg/lib/libaccfg.c:2307-2307 accfg_wq_set_max_batch_size *)
Definition accfg_wq_set_max_batch_size := accfg_wq_set_field W_max_batch_size.
(* accfg/lib/libaccfg.c:2308-2308 accfg_wq_set_ats_disable *)
Definition accfg_wq_set_ats_disable := accfg_wq_set_field W_ats_disable.
(* accfg/lib/libaccfg.c:2309-2309 accfg_wq_set_prs_disable *)
Definition accfg_wq_set_prs_disable := accfg_wq_set_field W_prs_disable.

(* accfg/lib/libaccfg.c:2311-2341 accfg_wq_set_long_field *)
Definition accfg_wq_set_max_transfer_size (wq : positive) (val : Z) : M Z :=
  accfg_wq_get_ctx wq;;
  w ← get_wq wq;
  let path := w_wq_path w +:+ "/max_transfer_size" in
  sprintf_buf (w_buf_len w) path;;
  sprintf_buf SYSFS_ATTR_SIZE (print_u val);;
  configurable ← accfg_device_get_configurable (w_device w);
  if configurable =? 0 then neg_errno
  else
    store_attr path (print_u val) (save_last_error (w_device w) (Some wq) None None)
      (upd_wq wq (λ w, w <| w_max_transfer_size := val |>)).

(* accfg/lib/libaccfg.c:2345-2386 accfg_wq_set_str_field *)
Definition accfg_wq_set_str_field (f : wq_str_field) (wq : positive) (val : string) : M Z :=
  accfg_wq_get_ctx wq;;
  w ← get_wq wq;
  let path := w_wq_path w +:+ "/" +:+ wq_str_field_name f in
  sprintf_buf (w_buf_len w) path;;
  sprintf_buf SYSFS_ATTR_SIZE val;;
  configurable ← accfg_device_get_configurable (w_device w);
  if (configurable =? 0) && negb (strcmp_eq (wq_str_field_name f) "name") &&
     negb (strcmp_eq (wq_str_field_name f) "driver_name")
  then neg_errno
  else
    rc ← __sysfs_write_attr path val;
    if rc <? 0 then
      if (rc =? - ENOENT) && strcmp_eq (wq_str_field_name f) "driver_name" then mret 0
      else
        save_last_error (w_device w) (Some wq) None None;;
        neg_errno
    else
      copy ← strdup val;
      upd_wq wq (wq_str_field_set f copy);;
      mret (match copy with Some _ => 0 | None => - ENOMEM end).

(* accfg/lib/libaccfg.c:2388-2388 accfg_wq_set_str_mode *)
Definition accfg_wq_set_str_mode := accfg_wq_set_str_field WS_mode.
(* accfg/lib/libaccfg.c:2389-2389 accfg_wq_set_str_name *)
Definition accfg_wq_set_str_name := accfg_wq_set_str_field WS_name.
(* accfg/lib/libaccfg.c:2390-2390 accfg_wq_set_str_driver_name *)
Definition accfg_wq_set_str_driver_name := accfg_wq_set_str_field WS_driver_name.

(* accfg/lib/libaccfg.c:2394-2431 accfg_wq_set_str_type *)
Definition accfg_wq_set_str_type (wq : positive) (val : string) : M Z :=
  accfg_wq_get_ctx wq;;
  w ← get_wq wq;
  let path := w_wq_path w +:+ "/type" in
  sprintf_buf (w_buf_len w) path;;
  sprintf_buf SYSFS_ATTR_SIZE val;;
  rc ← __sysfs_write_attr path val;
  if rc <? 0 then
    save_last_error (w_device w) (Some wq) None None;;
    neg_errno
  else
    tmp ← strdup val;
    match tmp with
    | None => mret (- ENOMEM)
    | Some tmp =>
        t ← wq_parse_type (Some tmp);
        match t with
        | inl rc => mret (if rc <? 0 then rc else 0)
        | inr ty => upd_wq wq (λ w, w <| w_type := ty |>);; mret 0
        end
    end.

(* accfg/lib/libaccfg.c:2433-2438 accfg_wq_get_field *)
Definition accfg_wq_get_field (f : wq_field) (wq : positive) : M Z :=
  w ← get_wq wq; mret (s32 (wq_field_get f w)).

(* accfg/lib/libaccfg.c:2440-2440 accfg_wq_get_priority *)
Definition accfg_wq_get_priority := accfg_wq_get_field W_priority.
(* accfg/lib/libaccfg.c:2441-2441 accfg_wq_get_threshold *)
Definition accfg_wq_get_threshold := accfg_wq_get_field W_threshold.
(* accfg/lib/libaccfg.c:2442-2442 accfg_wq_get_group_id *)
Definition accfg_wq_get_group_id := accfg_wq_get_field W_group_id.
(* accfg/lib/libaccfg.c:2443-2443 accfg_wq_get_block_on_fault *)
Definition accfg_wq_get_block_on_fault := accfg_wq_get_field W_block_on_fault.
(* accfg/lib/libaccfg.c:2444-2444 accfg_wq_get_ats_disable *)
Definition accfg_wq_get_ats_disable := accfg_wq_get_field W_ats_disable.
(* accfg/lib/libaccfg.c:2445-2445 accfg_wq_get_prs_disable *)
Definition accfg_wq_get_prs_disable := accfg_wq_get_field W_prs_disable.

(** A mode below the unknown one: [enum accfg_wq_mode] is unsigned, its
    constants being non-negative. *)
(* accfg/lib/libaccfg.c:2447-2453 accfg_wq_set_mode *)
Definition accfg_wq_set_mode (wq : positive) (wq_mode : Z) : M Z :=
  if ACCFG_WQ_MODE_UNKNOWN <=? u32 wq_mode then mret (- EINVAL)
  else s ← must (accfg_wq_mode_str (u32 wq_mode)); accfg_wq_set_str_mode wq s.

(** ** Engines *)

(* accfg/lib/libaccfg.c:2488-2492 accfg_engine_get_group *)
Definition accfg_engine_get_group (engine : positive) : M (option positive) :=
  e ← get_engine engine; mret (e_group e).

(* accfg/lib/libaccfg.c:2494-2498 accfg_engine_get_device *)
Definition accfg_engine_get_device (engine : positive) : M positive :=
  e ← get_engine engine; group ← must (e_group e); g ← get_group group; mret (g_device g).

(* accfg/lib/libaccfg.c:2500-2504 accfg_engine_get_ctx *)
Definition accfg_engine_get_ctx (engine : positive) : M positive :=
  e ← get_engine engine; d ← get_device (e_device e); mret (d_ctx d).

(* accfg/lib/libaccfg.c:347-351 accfg_engine_get_devname *)
Definition accfg_engine_get_devname (engine : positive) : M string :=
  e ← get_engine engine; devpath_to_devname (e_engine_path e).

(* accfg/lib/libaccfg.c:2506-2534 accfg_engine_set_field *)
Definition accfg_engine_set_group_id (engine : positive) (val : Z) : M Z :=
  accfg_engine_get_ctx engine;;
  e ← get_engine engine;
  let path := e_engine_path e +:+ "/group_id" in
  sprintf_buf (e_buf_len e) path;;
  sprintf_buf SYSFS_ATTR_SIZE (print_d val);;
  store_attr path (print_d val) (save_last_error (e_device e) None None (Some engine))
    (upd_engine engine (λ e, e <| e_group_id := val |>)).

(* accfg/lib/libaccfg.c:2538-2543 accfg_engine_get_field *)
Definition accfg_engine_get_group_id (engine : positive) : M Z :=
  e ← get_engine engine; mret (e_group_id e).
End wq.
