(* ===== verification/Filter.v ===== *)
(** * util/filter.c: names of the command line, and the walk over the tree

    The [scan_*] functions read names with [sscanf] conversions that have no
    width, into buffers of MAX_DEV_LEN bytes: a longer field is undefined
    behaviour.  Messages on stderr have no effect here, the calls made to
    compose them do. *)

From S2P Require Import Prelude CString Prog Types Sysfs Param Tree Device Wq.
Local Open Scope string_scope.
Local Open Scope Z_scope.

Definition not_slash (c : ascii) : bool := negb (Ascii.eqb c slash).
Definition not_space (c : ascii) : bool := negb (isspace c).

(** [for (x = first; x; x = next(x))] with a local variable; [inl] leaves the loop. *)
Fixpoint foreach_acc {St S} (fuel : nat) (x : option positive) (next : positive → prog St (option positive))
    (body : S → positive → prog St (S + S)) (s : S) : prog St S :=
  match fuel, x with
  | _, None => mret s
  | O, Some _ => fault
  | Datatypes.S fuel', Some p =>
      r ← body s p;
      match r with
      | inl s' => mret s'
      | inr s' => y ← next p; foreach_acc fuel' y next body s'
      end
  end.

Section filter.
Context {F : Type} `{Kernel F}.
Notation M := (prog (world F)).

(* util/filter.c:16-19 match_device *)
Definition match_device (dev : positive) (device_name : string) : M bool :=
  n ← accfg_device_get_devname dev; mret (strcmp_eq n device_name).

(** A string conversion without a width: [s] and its NUL into [cap] bytes. *)
Definition scan_into (cap : Z) (s : string) : M unit := if strlen s <? cap then mret () else fault.

(** ["%[a-z]%u"]: the type and number, or -EINVAL. *)
(* util/filter.c:21-37 scan_device_type_id *)
Definition scan_device_type_id (name : string) : M (Z + string * Z) :=
  match span islower name with
  | ("", _) => mret (inl (- EINVAL))
  | (type, rest) =>
      scan_into MAX_DEV_LEN type;;
      mret (match scan_conv strtoull 10 rest with
            | ConvOk id _ => inr (type, u32 id)
            | _ => inl (- EINVAL)
            end)
  end.

(** ["%[^/]/%s"]: the parent's and the child's name, or -EINVAL. *)
(* util/filter.c:39-54 scan_parent_child_names *)
Definition scan_parent_child_names (name : string) : M (Z + string * string) :=
  match span not_slash name with
  | ("", _) => mret (inl (- EINVAL))
  | (p_name, rest) =>
      scan_into MAX_DEV_LEN p_name;;
      match rest with
      | EmptyString => mret (inl (- EINVAL))
      | String _ rest =>
          match span not_space (span isspace rest).2 with
          | ("", _) => mret (inl (- EINVAL))
          | (c_name, _) => scan_into MAX_DEV_LEN c_name;; mret (inr (p_name, c_name))
          end
      end
  end.

(** ["%*[a-z]%u.%u"]: the two numbers, or -EINVAL. *)
(* util/filter.c:56-71 scan_parent_child_ids *)
Definition scan_parent_child_ids (name : string) : Z + Z * Z :=
  match span islower name with
  | ("", _) => inl (- EINVAL)
  | (_, rest) => match sscanf_pair "" rest with
                 | Some (p_id, c_id) => inr (u32 p_id, u32 c_id)
                 | None => inl (- EINVAL)
                 end
  end.

(** [accfg_x_foreach ... if (!strcmp(...)) break;]: the object, or NULL. *)
Definition named (name : string) (get_name : positive → M string) (p : positive) : M (option positive) :=
  n ← get_name p; mret (found (strcmp_eq name n) p).

(* util/filter.c:73-97 parse_device_name *)
Definition parse_device_name (ctx : positive) (name : string) : M (Z + positive) :=
  r ← scan_device_type_id name;
  match r with
  | inl _ => mret (inl (- EINVAL))
  | inr (dev_type, _) =>
      if accfg_device_type_validate dev_type =? 0 then mret (inl (- EINVAL))
      else
        dev ← accfg_device_foreach ctx (named name accfg_device_get_devname);
        mret (match dev with Some dev => inr dev | None => inl (- EINVAL) end)
  end.

(** What the functions for work queues, groups and engines share. *)
Definition parse_child_name (ctx : positive) (name : string)
    (foreach : positive → (positive → M (option positive)) → M (option positive))
    (get_devname : positive → M string) : M (Z + positive * positive) :=
  r ← scan_parent_child_names name;
  match r with
  | inl rc => mret (inl rc)
  | inr (dev_name, child_name) =>
      d ← parse_device_name ctx dev_name;
      match d with
      | inl rc => mret (inl rc)
      | inr dev =>
          q ← foreach dev (named child_name get_devname);
          mret (match q with Some q => inr (dev, q) | None => inl (- EINVAL) end)
      end
  end.

(* util/filter.c:99-131 parse_wq_name *)
Definition parse_wq_name (ctx : positive) (name : string) : M (Z + positive * positive) :=
  parse_child_name ctx name accfg_wq_foreach accfg_wq_get_devname.
(* util/filter.c:133-165 parse_group_name *)
Definition parse_group_name (ctx : positive) (name : string) : M (Z + positive * positive) :=
  parse_child_name ctx name accfg_group_foreach accfg_group_get_devname.
(* util/filter.c:167-199 parse_engine_name *)
Definition parse_engine_name (ctx : positive) (name : string) : M (Z + positive * positive) :=
  parse_child_name ctx name accfg_engine_foreach accfg_engine_get_devname.

(** ** The walk *)

(* util/filter.h:81-86 util_filter_params *)
Record util_filter_params := FilterParams {
  p_device : option string;
  p_group : option string;
  p_wq : option string;
  p_engine : option string;
}.

(** The object asked for: its device and itself, in the place of its kind. *)
Definition filter_target (ctx : positive) (param : util_filter_params) :
    M (Z + option positive * option positive * option positive * option positive * bool) :=
  match param with
  | FilterParams (Some name) _ _ _ =>
      r ← parse_device_name ctx name;
      mret (match r with inl rc => inl rc | inr dev => inr (Some dev, None, None, None, false) end)
  | FilterParams None (Some name) _ _ =>
      r ← parse_group_name ctx name;
      mret (match r with inl rc => inl rc | inr (dev, g) => inr (Some dev, Some g, None, None, false) end)
  | FilterParams None None (Some name) _ =>
      r ← parse_wq_name ctx name;
      mret (match r with inl rc => inl rc | inr (dev, q) => inr (Some dev, None, Some q, None, false) end)
  | FilterParams None None None (Some name) =>
      r ← parse_engine_name ctx name;
      mret (match r with inl rc => inl rc | inr (dev, e) => inr (Some dev, None, None, Some e, false) end)
  | FilterParams None None None None => mret (inr (None, None, None, None, true))
  end.
End filter.

(** The callbacks of a walk run on the state of the command, which the library's
    world is a part of: [lib] runs a call of the library there. *)
(* util/filter.h:68-79 util_filter_ctx *)
Record util_filter_ctx (T : Type) := FilterCtx {
  filter_device : positive → prog T bool;
  filter_group : positive → prog T bool;
  filter_wq : positive → prog T bool;
  filter_engine : positive → prog T bool;
}.
Arguments FilterCtx {T} filter_device filter_group filter_wq filter_engine.
Arguments filter_device {T} _ _.
Arguments filter_group {T} _ _.
Arguments filter_wq {T} _ _.
Arguments filter_engine {T} _ _.

Section walk.
Context {F : Type} `{Kernel F} {T : Type} (lib : ∀ A, prog (world F) A → prog T A).
Arguments lib {A} _.
Notation M := (prog (world F)).

(** The [accfg_*_foreach] loop over one kind of children: [only] is the one asked
    for, if any. *)
Definition walk_children (first : positive → M (option positive)) (children : accfg_device → list positive)
    (next : positive → M (option positive)) (filter : positive → prog T bool)
    (device : positive) (only : option positive) (found : bool) : prog T bool :=
  x ← lib (first device); d ← lib (get_device device);
  r ← foreach (S (length (children d))) x (λ p, lib (next p)) (λ p,
    match only with
    | Some q => if decide (q = p) then b ← filter p; mret (Some b) else mret None
    | None => filter p;; mret None
    end);
  mret (default found r).

(* util/filter.c:201-275 util_filter_walk *)
Definition util_filter_walk (ctx : positive) (fctx : util_filter_ctx T) (param : util_filter_params) : prog T Z :=
  r ← lib (filter_target ctx param);
  match r with
  | inl rc => mret rc
  | inr (dev, g, q, e, found) =>
      x ← lib (accfg_device_get_first ctx);
      c ← lib (get_ctx ctx);
      found ← foreach_acc (S (length (c_devices c))) x (λ p, lib (accfg_device_get_next p)) (λ found device,
        if match dev with Some d => negb (bool_decide (d = device)) | None => false end
        then mret (inr found)
        else
          ok ← filter_device fctx device;
          if negb ok then mret (inr found)
          else
            let found := match p_device param with Some _ => true | None => found end in
            found ← walk_children accfg_group_get_first d_groups accfg_group_get_next
                      (filter_group fctx) device g found;
            found ← walk_children accfg_wq_get_first d_wqs accfg_wq_get_next
                      (filter_wq fctx) device q found;
            found ← walk_children accfg_engine_get_first d_engines accfg_engine_get_next
                      (filter_engine fctx) device e found;
            mret (match dev with Some _ => inl found | None => inr found end)) found;
      mret (if found : bool then 0 else - EINVAL)
  end.
End walk.
