(* ===== verification/Enable.v ===== *)
(** * accfg/enable.c: the enable and disable commands

    What the four commands do after [parse_options], with the arguments left and
    the [force] flag as its results; Commands has the options.  Messages have no effect here; the names
    composed for them are dereferenced. *)

From S2P Require Import Prelude CString Prog Types Sysfs Param Tree Device Wq Filter.
Local Open Scope string_scope.
Local Open Scope Z_scope.

Definition EXIT_FAILURE : Z := 1.

(* accfg/enable.c:23-26 dev_action *)
Inductive dev_action : Set := DEV_ACTION_ENABLE | DEV_ACTION_DISABLE.
(* accfg/enable.c:28-31 wq_action *)
Inductive wq_action_t : Set := WQ_ACTION_ENABLE | WQ_ACTION_DISABLE.

Section enable.
Context {F : Type} `{Kernel F}.
Notation M := (prog (world F)).
Context (force : bool).   (* param.force *)

(* accfg/enable.c:49-58 action_disable_device *)
Definition action_disable_device (device : positive) : M Z :=
  active ← accfg_device_is_active (Some device);
  if active =? 0 then accfg_device_get_devname device;; mret (- EBUSY)
  else accfg_device_disable (Some device) force.

(* accfg/enable.c:60-69 action_enable_device *)
Definition action_enable_device (device : positive) : M Z :=
  active ← accfg_device_is_active (Some device);
  if negb (active =? 0) then accfg_device_get_devname device;; mret (- EBUSY)
  else accfg_device_enable (Some device).

(* accfg/enable.c:71-82 dev_action_switch *)
Definition dev_action_switch (device : positive) (action : dev_action) : M Z :=
  match action with
  | DEV_ACTION_ENABLE => action_enable_device device
  | DEV_ACTION_DISABLE => action_disable_device device
  end.

(** The arguments after the search for "all". *)
(* accfg/enable.c:100-106 device_action *)
Definition all_args (argv : list string) : list string :=
  if existsb (λ a, strcmp_eq a "all") argv then ["all"] else argv.

Definition state_wanted (action : dev_action) : accfg_device_state :=
  match action with DEV_ACTION_ENABLE => ACCFG_DEVICE_ENABLED | DEV_ACTION_DISABLE => ACCFG_DEVICE_DISABLED end.

(** One argument: [None] when there is no such device, or the result for it. *)
(* accfg/enable.c:109-134 device_action *)
Definition device_action_one (ctx : positive) (action : dev_action) (arg : string) : M (option Z) :=
  r ← parse_device_name ctx arg;
  match r with
  | inl _ => mret None
  | inr device =>
      rc ← dev_action_switch device action;
      if rc =? 0 then
        state ← accfg_device_get_state (Some device);
        mret (Some (if bool_decide (state = state_wanted action) then 0 else ENXIO))
      else mret (Some rc)
  end.

(** The loop over the arguments: the last result, and the count of successes. *)
Fixpoint action_loop (one : string → M (option Z)) (argv : list string) (rc success : Z) : M (Z * Z) :=
  match argv with
  | [] => mret (rc, success)
  | arg :: argv' =>
      r ← one arg;
      match r with
      | None => action_loop one argv' rc success
      | Some rc => action_loop one argv' rc (if rc =? 0 then success + 1 else success)
      end
  end.

(* accfg/enable.c:84-145 device_action *)
Definition device_action (argv : list string) (action : dev_action) (ctx : positive) : M Z :=
  match argv with
  | [] => exit 129
  | _ =>
      '(rc, success) ← action_loop (device_action_one ctx action) (all_args argv) (- EINVAL) 0;
      mret (if negb (success =? 0) then 0 else rc)
  end.

(* accfg/enable.c:147-163 action_disable_wq *)
Definition action_disable_wq (wq : positive) : M Z :=
  wq_state ← accfg_wq_get_state wq;
  match wq_state with
  | ACCFG_WQ_DISABLED => mret (- ENXIO)
  | ACCFG_WQ_QUIESCING => mret (- EBUSY)
  | _ => accfg_wq_disable wq force
  end.

(* accfg/enable.c:165-181 action_enable_wq *)
Definition action_enable_wq (wq : positive) : M Z :=
  wq_state ← accfg_wq_get_state wq;
  match wq_state with
  | ACCFG_WQ_ENABLED | ACCFG_WQ_LOCKED => mret (- ENXIO)
  | ACCFG_WQ_QUIESCING => mret (- EBUSY)
  | _ => accfg_wq_enable wq
  end.

(* accfg/enable.c:183-194 wq_action_switch *)
Definition wq_action_switch (wq : positive) (action : wq_action_t) : M Z :=
  match action with
  | WQ_ACTION_ENABLE => action_enable_wq wq
  | WQ_ACTION_DISABLE => action_disable_wq wq
  end.

(* accfg/enable.c:219-234 wq_action *)
Definition wq_action_one (ctx : positive) (action : wq_action_t) (arg : string) : M (option Z) :=
  r ← parse_wq_name ctx arg;
  match r with
  | inl _ => mret None
  | inr (_, wq) => rc ← wq_action_switch wq action; mret (Some rc)
  end.

(* accfg/enable.c:196-244 wq_action *)
Definition wq_action (argv : list string) (action : wq_action_t) (ctx : positive) : M Z :=
  match argv with
  | [] => exit 129
  | _ =>
      '(rc, success) ← action_loop (wq_action_one ctx action) (all_args argv) (- EINVAL) 0;
      mret (if negb (success =? 0) then 0 else rc)
  end.

Definition exit_status (count : Z) : Z := if 0 <=? count then 0 else EXIT_FAILURE.

(* accfg/enable.c:246-253 cmd_disable_device *)
Definition cmd_disable_device (argv : list string) (ctx : positive) : M Z :=
  count ← device_action argv DEV_ACTION_DISABLE ctx; mret (exit_status count).
(* accfg/enable.c:255-262 cmd_enable_device *)
Definition cmd_enable_device (argv : list string) (ctx : positive) : M Z :=
  count ← device_action argv DEV_ACTION_ENABLE ctx; mret (exit_status count).
(* accfg/enable.c:264-271 cmd_disable_wq *)
Definition cmd_disable_wq (argv : list string) (ctx : positive) : M Z :=
  count ← wq_action argv WQ_ACTION_DISABLE ctx; mret (exit_status count).
(* accfg/enable.c:273-281 cmd_enable_wq *)
Definition cmd_enable_wq (argv : list string) (ctx : positive) : M Z :=
  count ← wq_action argv WQ_ACTION_ENABLE ctx; mret (exit_status count).
End enable.
