(* ===== verification/ConfigAttr.v ===== *)
(** * accfg/config_attr.c: the config-device, config-group, config-wq, config-engine commands

    What the commands do after [parse_options]: the ranges they check, then the
    attributes they set, in the order of the code, an option not given being the
    largest value of its type; Commands has the options.  Messages on stderr have no effect here. *)

From S2P Require Import Prelude CString Prog Types Sysfs Param Tree Device Wq Filter Enable.
Local Open Scope string_scope.
Local Open Scope Z_scope.

Definition UCHAR_MAX : Z := 255.
(* accfg/libaccel_config.h:32-32 ACCFG_DEVICE_VERSION_2 *)
Definition ACCFG_DEVICE_VERSION_2 : Z := 0x200.
(* accfg/config_attr.c:22-22 DEV_EVL_SIZE_MIN *)
Definition DEV_EVL_SIZE_MIN : Z := 0x0040.
(* accfg/config_attr.c:23-23 DEV_EVL_SIZE_MAX *)
Definition DEV_EVL_SIZE_MAX : Z := 0xffff.

(** ** Parameters *)

(* accfg/libaccel_config.h:90-94 dev_parameters *)
Record dev_parameters := DevParams {
  dp_read_buffer_limit : Z;   (* unsigned int *)
  dp_event_log_size : Z;   (* int *)
}.
#[export] Instance eta_dev_parameters : Eta dev_parameters := λ r,
  DevParams (dp_read_buffer_limit r) (dp_event_log_size r).

(* accfg/libaccel_config.h:98-109 group_parameters *)
Record group_parameters := GroupParams {
  gp_read_buffers_reserved : Z;   (* unsigned int *)
  gp_read_buffers_allowed : Z;   (* unsigned int *)
  gp_use_read_buffer_limit : Z;   (* unsigned int *)
  gp_traffic_class_a : Z;   (* int *)
  gp_traffic_class_b : Z;
  gp_desc_progress_limit : Z;
  gp_batch_progress_limit : Z;
}.
#[export] Instance eta_group_parameters : Eta group_parameters := λ r,
  GroupParams (gp_read_buffers_reserved r) (gp_read_buffers_allowed r) (gp_use_read_buffer_limit r)
    (gp_traffic_class_a r) (gp_traffic_class_b r) (gp_desc_progress_limit r) (gp_batch_progress_limit r).

(* accfg/libaccel_config.h:111-126 wq_parameters *)
Record wq_parameters := WqParams {
  wp_group_id : Z;   (* int *)
  wp_wq_size : Z;   (* unsigned int *)
  wp_threshold : Z;   (* unsigned int *)
  wp_priority : Z;   (* unsigned int *)
  wp_block_on_fault : Z;   (* int *)
  wp_max_batch_size : Z;   (* unsigned int *)
  wp_max_transfer_size : Z;   (* uint64_t *)
  wp_ats_disable : Z;   (* int *)
  wp_prs_disable : Z;   (* int *)
  wp_mode : option string;
  wp_type : option string;
  wp_name : option string;
  wp_driver_name : option string;
  wp_op_config : option string;
}.
#[export] Instance eta_wq_parameters : Eta wq_parameters := λ r,
  WqParams (wp_group_id r) (wp_wq_size r) (wp_threshold r) (wp_priority r) (wp_block_on_fault r)
    (wp_max_batch_size r) (wp_max_transfer_size r) (wp_ats_disable r) (wp_prs_disable r) (wp_mode r)
    (wp_type r) (wp_name r) (wp_driver_name r) (wp_op_config r).

(* accfg/libaccel_config.h:128-130 engine_parameters *)
Record engine_parameters := EngineParams { ep_group_id : Z (* int *) }.

(** Before the options are parsed; the engine's is a zero static. *)
(* accfg/config_attr.c:25-28 dev_param *)
Definition dev_param : dev_parameters := DevParams UINT_MAX INT_MAX.
(* accfg/config_attr.c:30-38 group_param *)
Definition group_param : group_parameters :=
  GroupParams UINT_MAX UINT_MAX UINT_MAX INT_MAX INT_MAX INT_MAX INT_MAX.
(* accfg/config_attr.c:40-50 wq_param *)
Definition wq_param : wq_parameters :=
  WqParams INT_MAX INT_MAX INT_MAX INT_MAX INT_MAX INT_MAX INT_MAX INT_MAX INT_MAX None None None None None.
(* accfg/config_attr.c:52-52 engine_param *)
Definition engine_param : engine_parameters := EngineParams 0.

Section config_attr.
Context {F : Type} `{Kernel F}.
Notation M := (prog (world F)).

(** [if (given) { rc = set; if (rc < 0) return rc; } rest] *)
Definition set_if (given : bool) (set rest : M Z) : M Z :=
  if given then rc ← set; if rc <? 0 then mret rc else rest else rest.
Definition set_str {A} (o : option A) (set : A → M Z) (rest : M Z) : M Z :=
  match o with Some a => rc ← set a; if rc <? 0 then mret rc else rest | None => rest end.

(** ** Devices *)

(* accfg/config_attr.c:54-83 accel_config_parse_device_attribs *)
Definition accel_config_parse_device_attribs (dev : positive) (p : dev_parameters) : M Z :=
  if negb (dp_event_log_size p =? INT_MAX) &&
     ((dp_event_log_size p <? DEV_EVL_SIZE_MIN) || (DEV_EVL_SIZE_MAX <? dp_event_log_size p))
  then mret (- EINVAL)
  else
    set_if (negb (dp_read_buffer_limit p =? UINT_MAX))
      (accfg_device_set_read_buffer_limit (Some dev) (s32 (dp_read_buffer_limit p)))
    (set_if (negb (dp_event_log_size p =? INT_MAX))
      (accfg_device_set_event_log_size (Some dev) (dp_event_log_size p))
    (mret 0)).

(** ** Groups *)

(** The checks before the first attribute is set. *)
(* accfg/config_attr.c:92-154 accel_config_parse_group_attribs *)
Definition group_params_bad (version : Z) (p : group_parameters) : bool :=
  (version <? ACCFG_DEVICE_VERSION_2) &&
    (negb (gp_traffic_class_a p =? INT_MAX) || negb (gp_traffic_class_b p =? INT_MAX)) ||
  negb (gp_read_buffers_reserved p =? UINT_MAX) && (UCHAR_MAX <=? gp_read_buffers_reserved p) ||
  negb (gp_desc_progress_limit p =? INT_MAX) &&
    ((gp_desc_progress_limit p <? 0) || (3 <? gp_desc_progress_limit p)) ||
  negb (gp_batch_progress_limit p =? INT_MAX) &&
    ((gp_batch_progress_limit p <? 0) || (3 <? gp_batch_progress_limit p)) ||
  negb (gp_read_buffers_allowed p =? UINT_MAX) && (UCHAR_MAX <=? gp_read_buffers_allowed p) ||
  (1 <? gp_use_read_buffer_limit p) && negb (gp_use_read_buffer_limit p =? UINT_MAX) ||
  ((gp_traffic_class_a p <? 0) ||
    (7 <? gp_traffic_class_a p) && negb (gp_traffic_class_a p =? INT_MAX)) ||
  ((gp_traffic_class_b p <? 0) ||
    (7 <? gp_traffic_class_b p) && negb (gp_traffic_class_b p =? INT_MAX)).

(* accfg/config_attr.c:85-200 accel_config_parse_group_attribs *)
Definition accel_config_parse_group_attribs (group : positive) (p : group_parameters) : M Z :=
  device ← accfg_group_get_device group;
  version ← accfg_device_get_version device;
  if group_params_bad version p then mret (- EINVAL)
  else
    set_if (negb (gp_use_read_buffer_limit p =? UINT_MAX))
      (accfg_group_set_use_read_buffer_limit group (s32 (gp_use_read_buffer_limit p)))
    (set_if (negb (gp_read_buffers_reserved p =? UINT_MAX))
      (accfg_group_set_read_buffers_reserved group (s32 (gp_read_buffers_reserved p)))
    (set_if (negb (gp_read_buffers_allowed p =? UINT_MAX))
      (accfg_group_set_read_buffers_allowed group (s32 (gp_read_buffers_allowed p)))
    (set_if (negb (gp_traffic_class_a p =? INT_MAX))
      (accfg_group_set_traffic_class_a group (gp_traffic_class_a p))
    (set_if (negb (gp_traffic_class_b p =? INT_MAX))
      (accfg_group_set_traffic_class_b group (gp_traffic_class_b p))
    (set_if (negb (gp_desc_progress_limit p =? INT_MAX))
      (accfg_group_set_desc_progress_limit group (gp_desc_progress_limit p))
    (set_if (negb (gp_batch_progress_limit p =? INT_MAX))
      (accfg_group_set_batch_progress_limit group (gp_batch_progress_limit p))
    (mret 0))))))).

(** ** Work queues *)

(** The checks; the limits of the device are [max_groups] (int), [max_wq_size]
    and [max_batch_size] (unsigned int), [max_transfer_size] (uint64_t). *)
(* accfg/config_attr.c:210-281 accel_config_parse_wq_attribs *)
Definition wq_params_bad (max_groups max_wq_size max_batch_size max_transfer_size : Z)
    (p : wq_parameters) : bool :=
  (max_wq_size <? wp_wq_size p) && negb (wp_wq_size p =? INT_MAX) ||
  (max_groups <=? wp_group_id p) && negb (wp_group_id p =? INT_MAX) ||
  (1 <? wp_block_on_fault p) && negb (wp_block_on_fault p =? INT_MAX) ||
  (1 <? wp_prs_disable p) && negb (wp_prs_disable p =? INT_MAX) ||
  ((wp_max_batch_size p <? 1) || (max_batch_size <? wp_max_batch_size p)) &&
    negb (wp_max_batch_size p =? INT_MAX) ||
  ((wp_max_transfer_size p <? 1) || (max_transfer_size <? wp_max_transfer_size p)) &&
    negb (wp_max_transfer_size p =? INT_MAX) ||
  (1 <? wp_ats_disable p) && negb (wp_ats_disable p =? INT_MAX).

Definition mode_bad (mode : option string) : bool :=
  match mode with
  | Some m => negb (strcmp_eq m "shared") && negb (strcmp_eq m "dedicated")
  | None => false
  end.

(* accfg/config_attr.c:283-372 accel_config_parse_wq_attribs *)
Definition set_wq_attribs (wq : positive) (p : wq_parameters) : M Z :=
  set_str (wp_mode p) (accfg_wq_set_str_mode wq)
  (set_str (wp_type p) (accfg_wq_set_str_type wq)
  (set_str (wp_name p) (accfg_wq_set_str_name wq)
  (set_str (wp_driver_name p) (λ driver_name,
    ok ← accfg_wq_driver_name_validate wq driver_name;
    if negb ok then mret (- ENOENT) else accfg_wq_set_str_driver_name wq driver_name)
  (set_str (wp_op_config p) (λ op_config, accfg_wq_set_op_config_str (Some wq) (Some op_config))
  (set_if (negb (wp_wq_size p =? INT_MAX)) (accfg_wq_set_size wq (s32 (wp_wq_size p)))
  (set_if (negb (wp_group_id p =? INT_MAX)) (accfg_wq_set_group_id wq (wp_group_id p))
  (set_if (negb (wp_priority p =? INT_MAX)) (accfg_wq_set_priority wq (s32 (wp_priority p)))
  (set_if (negb (wp_block_on_fault p =? INT_MAX)) (accfg_wq_set_block_on_fault wq (wp_block_on_fault p))
  (set_if (negb (wp_prs_disable p =? INT_MAX)) (accfg_wq_set_prs_disable wq (wp_prs_disable p))
  (set_if (negb (wp_threshold p =? INT_MAX)) (accfg_wq_set_threshold wq (s32 (wp_threshold p)))
  (set_if (negb (wp_max_batch_size p =? INT_MAX))
    (accfg_wq_set_max_batch_size wq (s32 (wp_max_batch_size p)))
  (set_if (negb (wp_max_transfer_size p =? INT_MAX))
    (accfg_wq_set_max_transfer_size wq (wp_max_transfer_size p))
  (set_if (negb (wp_ats_disable p =? INT_MAX)) (accfg_wq_set_ats_disable wq (wp_ats_disable p))
  (mret 0)))))))))))))).

(* accfg/config_attr.c:202-372 accel_config_parse_wq_attribs *)
Definition accel_config_parse_wq_attribs (device wq : positive) (p : wq_parameters) : M Z :=
  if mode_bad (wp_mode p) then mret (- EINVAL)
  else
    max_groups ← accfg_device_get_max_groups device;
    max_wq_size ← accfg_device_get_max_work_queues_size device;
    max_batch_size ← accfg_device_get_max_batch_size device;
    max_transfer_size ← accfg_device_get_max_transfer_size device;
    if wq_params_bad (s32 max_groups) (u32 max_wq_size) (u32 max_batch_size) max_transfer_size p
    then mret (- EINVAL)
    else set_wq_attribs wq p.

(** ** Engines *)

(* accfg/config_attr.c:374-396 accel_config_parse_engine_attribs *)
Definition accel_config_parse_engine_attribs (device engine : positive) (p : engine_parameters) : M Z :=
  max_groups ← accfg_device_get_max_groups device;
  if s32 max_groups <=? ep_group_id p then mret (- EINVAL)
  else
    set_if (negb (ep_group_id p =? INT_MAX)) (accfg_engine_set_group_id engine (ep_group_id p)) (mret 0).

(** ** Commands *)

(** The loop the four share: an argument that names nothing is skipped, and
    [stop] says which results end the command. *)
Fixpoint config_loop {A} (parse : string → M (Z + A)) (set : A → M Z) (stop : Z → bool)
    (argv : list string) : M Z :=
  match argv with
  | [] => mret 0
  | arg :: argv' =>
      r ← parse arg;
      match r with
      | inl _ => config_loop parse set stop argv'
      | inr a => rc ← set a; if stop rc then mret rc else config_loop parse set stop argv'
      end
  end.

(* accfg/config_attr.c:398-446 cmd_config_device *)
Definition cmd_config_device (argv : list string) (p : dev_parameters) (ctx : positive) : M Z :=
  config_loop (parse_device_name ctx) (λ device, accel_config_parse_device_attribs device p)
    (λ rc, negb (rc =? 0)) (all_args argv).
(* accfg/config_attr.c:448-511 cmd_config_group *)
Definition cmd_config_group (argv : list string) (p : group_parameters) (ctx : positive) : M Z :=
  config_loop (parse_group_name ctx) (λ '(_, group), accel_config_parse_group_attribs group p)
    (λ rc, rc <? 0) (all_args argv).
(* accfg/config_attr.c:513-584 cmd_config_wq *)
Definition cmd_config_wq (argv : list string) (p : wq_parameters) (ctx : positive) : M Z :=
  config_loop (parse_wq_name ctx) (λ '(device, wq), accel_config_parse_wq_attribs device wq p)
    (λ rc, rc <? 0) (all_args argv).
(* accfg/config_attr.c:586-635 cmd_config_engine *)
Definition cmd_config_engine (argv : list string) (p : engine_parameters) (ctx : positive) : M Z :=
  config_loop (parse_engine_name ctx)
    (λ '(device, engine), accel_config_parse_engine_attribs device engine p)
    (λ rc, negb (rc =? 0)) (all_args argv).
End config_attr.
