(* ===== verification/Json.v ===== *)
(** * What accfg/config.c uses of json-c to read a document

    json-c is not part of the program: it is the class [JsonC] over a type of
    documents, with what its documentation says as [JsonLaws].  A document that
    was parsed is not changed by the code that reads it, so a [json_object *] is
    a value, [None] being NULL.  [jtext] is a concrete instance with a parser of
    its own, for the instances of theorems.

    [json_object_object_foreachC] takes the table of its argument without a
    test, and [json_object_array_length] asserts that it has an array:
    [json_members] and [json_elements] are [None] for other types, and the code
    that takes them there is a [Fault]. *)

From S2P Require Import Prelude CString.
Local Open Scope Z_scope.

Inductive json_type : Set :=
  | json_type_null
  | json_type_boolean
  | json_type_double
  | json_type_int
  | json_type_object
  | json_type_array
  | json_type_string.
#[export] Instance json_type_eq : EqDecision json_type.
Proof. solve_decision. Defined.

(** What [json_tokener_parse] does with a buffer of which only the first bytes
    are initialised: it ends in them, with a document or NULL, or goes past. *)
Inductive tokened (J : Type) :=
  | TokEnd (j : option J)
  | TokPast.
Arguments TokEnd {J} j.
Arguments TokPast {J}.

Class JsonC (J : Type) := {
  json_type_of : J → json_type;
  (** The value and, when the conversion sets it, [errno]. *)
  json_object_get_int : J → Z * option Z;
  json_object_get_int64 : J → Z * option Z;
  json_object_get_string : J → option string;
  json_members : J → option (list (string * option J));
  json_elements : J → option (list (option J));
  json_tokener_parse : string → tokened J;
  (** How many values a document holds, itself included. *)
  json_size : J → nat;
}.

Definition sizes {J} `{JsonC J} (l : list (option J)) : nat :=
  sum_list_with (λ o, match o with Some j => json_size j | None => O end) l.

Class JsonLaws (J : Type) `{JsonC J} : Prop := {
  json_members_object j l : json_members j = Some l → json_type_of j = json_type_object;
  json_object_members j : json_type_of j = json_type_object → is_Some (json_members j);
  json_elements_array j l : json_elements j = Some l → json_type_of j = json_type_array;
  json_array_elements j : json_type_of j = json_type_array → is_Some (json_elements j);
  json_size_members j l : json_members j = Some l → (sizes (l.*2) < json_size j)%nat;
  json_size_elements j l : json_elements j = Some l → (sizes l < json_size j)%nat;
  json_get_int_range j v e : json_object_get_int j = (v, e) →
    - 2 ^ 31 <= v < 2 ^ 31 ∧ match e with Some e => 0 < e | None => True end;
}.

Section json.
Context {J : Type} `{JsonC J}.

(** NULL has the type of null. *)
Definition json_object_get_type (o : option J) : json_type :=
  match o with Some j => json_type_of j | None => json_type_null end.

(** The member of an object; [None] when there is none, or it is not an object. *)
Definition json_object_object_get_ex (o : option J) (key : string) : option (option J) :=
  match o ≫= json_members with
  | Some l => snd <$> List.find (λ m, String.eqb m.1 key) l
  | None => None
  end.

Lemma sizes_elem (o : option J) j (l : list (option J)) : o = Some j → o ∈ l → (json_size j <= sizes l)%nat.
Proof.
  intros ->. induction l as [|a l IH]; intros Hin; [by apply elem_of_nil in Hin|].
  apply elem_of_cons in Hin as [<-|Hin]; cbn; [lia|]. specialize (IH Hin). unfold sizes in IH. lia.
Qed.

Lemma get_ex_size `{!JsonLaws J} (o : option J) key (v j : J) :
  json_object_object_get_ex o key = Some (Some v) → o = Some j → (json_size v < json_size j)%nat.
Proof.
  unfold json_object_object_get_ex. intros Hget ->. cbn in Hget.
  destruct (json_members j) as [l|] eqn:Hm; [|done].
  destruct (List.find _ l) as [[k o]|] eqn:Hf; [|done]. injection Hget as ->.
  apply find_some in Hf as [Hin _].
  eapply Nat.le_lt_trans; [eapply sizes_elem; [done|]|by eapply json_size_members].
  apply list_elem_of_fmap. exists (k, Some v). split; [done|]. by apply list_elem_of_In.
Qed.
End json.

(** ** A concrete document *)

#[local] Set Warnings "-register-all".
Inductive jtext :=
  | JBool (b : bool)
  | JInt (z : Z)
  | JDouble (trunc : Z) (text : string)
  | JString (s : string)
  | JArray (l : list (option jtext))
  | JObject (l : list (string * option jtext)).

Definition clamp (lo hi z : Z) : Z := Z.max lo (Z.min hi z).

Definition jtext_int (lo hi : Z) (j : jtext) : Z * option Z :=
  match j with
  | JBool b => (if b then 1 else 0, None)
  | JInt z | JDouble z _ => (clamp lo hi z, None)
  | JString s => let r := strtol s 10 in
      if st_conv r then (clamp lo hi (st_val r), None) else (0, Some EINVAL)
  | JArray _ | JObject _ => (0, Some EINVAL)
  end.

Definition jtext_string (j : jtext) : option string :=
  match j with
  | JBool b => Some (if b then "true"%string else "false"%string)
  | JInt z => Some (print_d z)
  | JDouble _ t | JString t => Some t
  | JArray _ => Some "[ ]"%string
  | JObject _ => Some "{ }"%string
  end.

Definition jtext_type (j : jtext) : json_type :=
  match j with
  | JBool _ => json_type_boolean
  | JInt _ => json_type_int
  | JDouble _ _ => json_type_double
  | JString _ => json_type_string
  | JArray _ => json_type_array
  | JObject _ => json_type_object
  end.

Fixpoint jtext_size (j : jtext) : nat :=
  match j with
  | JArray l => S (sum_list_with (λ o, match o with Some j => jtext_size j | None => O end) l)
  | JObject l => S (sum_list_with (λ m, match m with (_, Some j) => jtext_size j | _ => O end) l)
  | _ => 1
  end.

(** A parser of documents without escapes: [PPast] is the end of the input. *)
Inductive presult (A : Type) := POk (a : A) (rest : string) | PBad | PPast.
Arguments POk {A} a rest.
Arguments PBad {A}.
Arguments PPast {A}.

Definition skip_space (s : string) : string := (span isspace s).2.
Definition number_char (c : ascii) : bool := is_digit 10 c || Ascii.eqb c "-"%char.

Definition quote : ascii := "034".

Definition parse_text (s : string) : presult string :=
  match span (λ c, negb (Ascii.eqb c quote)) s with
  | (t, String _ rest) => POk t rest
  | (_, EmptyString) => PPast
  end.

Definition keywords : list (string * option jtext) :=
  [("null", None); ("true", Some (JBool true)); ("false", Some (JBool false))]%string.

Fixpoint parse_keyword (l : list (string * option jtext)) (s : string) : presult (option jtext) :=
  match l with
  | [] => PBad
  | (k, v) :: l' => match literal k s with Some rest => POk v rest | None => parse_keyword l' s end
  end.

Fixpoint parse_value (fuel : nat) (s : string) : presult (option jtext) :=
  match fuel with
  | O => PPast
  | S n =>
      match skip_space s with
      | EmptyString => PPast
      | String c rest =>
          if Ascii.eqb c quote then
            match parse_text rest with POk t r => POk (Some (JString t)) r | PBad => PBad | PPast => PPast end
          else if Ascii.eqb c "["%char then parse_array n rest []
          else if Ascii.eqb c "{"%char then parse_object n rest []
          else if number_char c then
            let '(d, r) := span number_char (String c rest) in
            match r with EmptyString => PPast | _ => POk (Some (JInt (st_val (strtol d 10)))) r end
          else parse_keyword keywords (String c rest)
      end
  end
with parse_array (fuel : nat) (s : string) (acc : list (option jtext)) : presult (option jtext) :=
  match fuel with
  | O => PPast
  | S n =>
      match skip_space s with
      | EmptyString => PPast
      | String c rest =>
          if Ascii.eqb c "]"%char then POk (Some (JArray (rev acc))) rest
          else if Ascii.eqb c ","%char then parse_array n rest acc
          else match parse_value n (String c rest) with
               | POk v r => parse_array n r (v :: acc)
               | PBad => PBad
               | PPast => PPast
               end
      end
  end
with parse_object (fuel : nat) (s : string) (acc : list (string * option jtext)) : presult (option jtext) :=
  match fuel with
  | O => PPast
  | S n =>
      match skip_space s with
      | EmptyString => PPast
      | String c rest =>
          if Ascii.eqb c "}"%char then POk (Some (JObject (rev acc))) rest
          else if Ascii.eqb c ","%char then parse_object n rest acc
          else if Ascii.eqb c quote then
            match parse_text rest with
            | POk k r =>
                match skip_space r with
                | String ":" r' =>
                    match parse_value n r' with
                    | POk v r'' => parse_object n r'' ((k, v) :: acc)
                    | PBad => PBad
                    | PPast => PPast
                    end
                | EmptyString => PPast
                | _ => PBad
                end
            | PBad => PBad
            | PPast => PPast
            end
          else PBad
      end
  end.

(** A NUL in the buffer ends the text: an unfinished document is then NULL. *)
Definition parse_buffer (buf : string) : tokened jtext :=
  match parse_value (2 * String.length buf + 2) (cstr buf) with
  | POk v _ => TokEnd v
  | PBad => TokEnd None
  | PPast => if strlen (cstr buf) <? strlen buf then TokEnd None else TokPast
  end.

#[export] Instance jtext_json : JsonC jtext := {|
  json_type_of := jtext_type;
  json_object_get_int := jtext_int (- 2 ^ 31) INT_MAX;
  json_object_get_int64 := jtext_int LONG_MIN LONG_MAX;
  json_object_get_string := jtext_string;
  json_members j := match j with JObject l => Some l | _ => None end;
  json_elements j := match j with JArray l => Some l | _ => None end;
  json_tokener_parse := parse_buffer;
  json_size := jtext_size;
|}.

#[export] Instance jtext_laws : JsonLaws jtext.
Proof.
  split.
  - by intros [].
  - intros []; cbn; by eauto.
  - by intros [].
  - intros []; cbn; by eauto.
  - intros j l Hl. destruct j as [| | | | |l0]; [done..|]. injection Hl as ->. cbn. unfold sizes.
    apply Nat.lt_succ_r, Nat.eq_le_incl. induction l as [|[k []] l IH]; cbn in *; [done|by f_equal|exact IH].
  - intros j l Hl. destruct j as [| | | |l0|]; [done..| |done]. injection Hl as ->. apply Nat.lt_succ_diag_r.
  - intros j v e Hv. unfold json_object_get_int in Hv. cbn beta iota delta [jtext_json] in Hv.
    unfold jtext_int, clamp, INT_MAX, EINVAL in Hv. zpow.
    destruct j as [[]| | |s| |]; [| | | |destruct (st_conv (strtol s 10))| |];
      injection Hv as <- <-; (split; [lia|done]).
Qed.
