(* ===== verification/JsonStore.v ===== *)
(** * What util/json.c and the commands use of json-c to build documents

    json-c keeps its objects in the process' memory and counts references to them:
    an object is born with one, [json_object_object_add] and
    [json_object_array_add] take over the caller's, and [json_object_put] gives
    one up.  [JsonOut] is that memory as an abstract type with its operations,
    [JsonOutLaws] what json-c's documentation says of them, through [js_node], the
    object a pointer leads to.  A call with a pointer json-c has freed, or one of
    the wrong type (an assertion), is [None], and the code that makes it faults.
    Adding a member or an element may find no memory for the entry: json-c then
    returns -1, which no caller in util/json.c or accfg/list.c looks at, and leaves
    the objects as they were.  [JsonRoom] is a json-c to which that does not happen.

    [jstore] is a concrete memory with counts, for the instances of theorems: a
    second [json_object_put] of the last reference is such a call. *)

From S2P Require Import Prelude CString Prog.
Local Open Scope Z_scope.

(** An object: its members in order, its elements (some NULL), a number or a string. *)
Inductive node : Set :=
  | NObject (l : list (string * positive))
  | NArray (l : list (option positive))
  | NInt (z : Z)
  | NString (s : string).
#[export] Instance node_eq : EqDecision node.
Proof. solve_decision. Defined.

(** What a serializer appends for an object with this number. *)
Definition serializer : Type := Z → string.

Class JsonOut (S : Type) := {
  js_empty : S;   (* no object was made yet *)
  js_node : S → positive → option node;
  (** [json_object_new_*]: NULL when there is no memory. *)
  js_new : node → S → option positive * S;
  js_object_add : positive → string → positive → S → option S;
  js_array_add : positive → option positive → S → option S;
  js_put : positive → S → option S;
  js_set_serializer : positive → serializer → S → option S;
  (** [json_object_to_json_string_ext(jobj, JSON_C_TO_STRING_PRETTY)] *)
  js_to_string : positive → S → option string;
}.

(** [s'] differs from [s] at [o] only. *)
Definition js_only {S} `{JsonOut S} (o : positive) (s s' : S) : Prop := ∀ r, r ≠ o → js_node s' r = js_node s r.

Class JsonOutLaws (S : Type) `{JsonOut S} : Prop := {
  js_new_spec n s r s' : js_new n s = (Some r, s') →
    js_node s r = None ∧ js_node s' r = Some n ∧ js_only r s s';
  js_new_null n s s' : js_new n s = (None, s') → ∀ r, js_node s' r = js_node s r;
  js_object_add_result o k v l s : js_node s o = Some (NObject l) → is_Some (js_node s v) →
    k ∉ l.*1 → ∃ s', js_object_add o k v s = Some s' ∧ js_only o s s' ∧
    (js_node s' o = Some (NObject (l ++ [(k, v)])) ∨ js_node s' o = Some (NObject l));
  js_array_add_result o v l s : js_node s o = Some (NArray l) →
    match v with Some v => is_Some (js_node s v) | None => True end →
    ∃ s', js_array_add o v s = Some s' ∧ js_only o s s' ∧
    (js_node s' o = Some (NArray (l ++ [v])) ∨ js_node s' o = Some (NArray l));
  js_put_spec o s : js_node s o = Some (NObject []) → is_Some (js_put o s);
  js_set_serializer_spec o f s : is_Some (js_node s o) →
    ∃ s', js_set_serializer o f s = Some s' ∧ ∀ r, js_node s' r = js_node s r;
}.

(** There is always memory for an entry. *)
Class JsonRoom (S : Type) `{JsonOut S} : Prop := {
  js_object_add_spec o k v l s : js_node s o = Some (NObject l) → is_Some (js_node s v) →
    k ∉ l.*1 → ∃ s', js_object_add o k v s = Some s' ∧
    js_node s' o = Some (NObject (l ++ [(k, v)])) ∧ js_only o s s';
  js_array_add_spec o v l s : js_node s o = Some (NArray l) →
    match v with Some v => is_Some (js_node s v) | None => True end →
    ∃ s', js_array_add o v s = Some s' ∧ js_node s' o = Some (NArray (l ++ [v])) ∧ js_only o s s';
}.

(** The memories that calls make of one. *)
Inductive js_step {S} `{JsonOut S} : S → S → Prop :=
  | step_new n s : js_step s (js_new n s).2
  | step_object_add o k v s s' : js_object_add o k v s = Some s' → js_step s s'
  | step_array_add o v s s' : js_array_add o v s = Some s' → js_step s s'
  | step_put o s s' : js_put o s = Some s' → js_step s s'
  | step_serializer o f s s' : js_set_serializer o f s = Some s' → js_step s s'.

(** Some call finds no memory for an object. *)
Definition js_full {S} `{JsonOut S} (s0 : S) : Prop :=
  ∃ n s s', rtc js_step s0 s ∧ js_new n s = (None, s').

(** The same, or a new member finds no memory for its entry. *)
Definition js_short {S} `{JsonOut S} (s0 : S) : Prop :=
  js_full s0 ∨ ∃ o k v l s s', rtc js_step s0 s ∧ js_node s o = Some (NObject l) ∧ k ∉ l.*1 ∧
    js_object_add o k v s = Some s' ∧ js_node s' o = Some (NObject l).

(** ** A concrete memory

    [st_room] is how many more objects there is memory for.  What is printed has no
    white space; a quotation mark in a string is not escaped. *)

Record cell := Cell { cl_node : node; cl_refs : Z; cl_print : option serializer }.
#[export] Instance eta_cell : Eta cell := λ r, Cell (cl_node r) (cl_refs r) (cl_print r).

Record jstore := Store { st_cells : gmap positive cell; st_next : positive; st_room : Z }.
#[export] Instance eta_jstore : Eta jstore := λ r, Store (st_cells r) (st_next r) (st_room r).

Definition mark : string := String "034" "".
Definition join (l : list string) : string := String.concat "," l.

Fixpoint store_text (fuel : nat) (s : jstore) (r : positive) : option string :=
  match fuel with
  | O => None
  | Datatypes.S fuel' =>
      c ← st_cells s !! r;
      match cl_node c with
      | NInt z => Some (match cl_print c with Some f => f z | None => print_d z end)
      | NString t => Some (mark +:+ t +:+ mark)
      | NArray l =>
          ts ← mapM (λ o, match o with Some r => store_text fuel' s r | None => Some "null"%string end) l;
          Some ("[" +:+ join ts +:+ "]")%string
      | NObject l =>
          ts ← mapM (λ m, t ← store_text fuel' s m.2; Some (mark +:+ m.1 +:+ mark +:+ ":" +:+ t)%string) l;
          Some ("{" +:+ join ts +:+ "}")%string
      end
  end.

(** Give up one reference to each pointer of a list, and those of what dies of it. *)
Fixpoint store_put (fuel : nat) (l : list positive) (s : jstore) : option jstore :=
  match fuel, l with
  | _, [] => Some s
  | O, _ => None
  | Datatypes.S fuel', r :: l' =>
      c ← st_cells s !! r;
      if 1 <? cl_refs c then
        store_put fuel' l' (s <| st_cells ::= <[r := c <| cl_refs ::= Z.pred |>]> |>)
      else
        let children := match cl_node c with NObject m => m.*2 | NArray m => omap id m | _ => [] end in
        store_put fuel' (children ++ l') (s <| st_cells ::= delete r |>)
  end.
Definition put_fuel (s : jstore) : nat :=
  Datatypes.S (map_fold (λ _ c n, Z.to_nat (cl_refs c) + Datatypes.S n)%nat O (st_cells s) * 2).

Definition set_member (k : string) (v : positive) (l : list (string * positive)) : list (string * positive) :=
  if existsb (λ m, String.eqb m.1 k) l then map (λ m, if String.eqb m.1 k then (k, v) else m) l
  else l ++ [(k, v)].

Definition set_node (o : positive) (c : cell) (n : node) (s : jstore) : jstore :=
  s <| st_cells ::= <[o := c <| cl_node := n |>]> |>.

Definition store_new (n : node) (s : jstore) : option positive * jstore :=
  match st_cells s !! st_next s with
  | Some _ => (None, s)
  | None =>
      if st_room s <=? 0 then (None, s)
      else (Some (st_next s),
            s <| st_cells ::= <[st_next s := Cell n 1 None]> |> <| st_next ::= Pos.succ |> <| st_room ::= Z.pred |>)
  end.

(** A member that is replaced is given up. *)
Definition store_object_add (o : positive) (k : string) (v : positive) (s : jstore) : option jstore :=
  c ← st_cells s !! o; st_cells s !! v;;
  match cl_node c with
  | NObject l =>
      let s' := set_node o c (NObject (set_member k v l)) s in
      match List.find (λ m, String.eqb m.1 k) l with
      | Some (_, old) => store_put (put_fuel s) [old] s'
      | None => Some s'
      end
  | _ => None
  end.

Definition store_array_add (o : positive) (v : option positive) (s : jstore) : option jstore :=
  c ← st_cells s !! o;
  match v with Some v => st_cells s !! v;; Some () | None => Some () end;;
  match cl_node c with NArray l => Some (set_node o c (NArray (l ++ [v])) s) | _ => None end.

Definition store_set_serializer (o : positive) (f : serializer) (s : jstore) : option jstore :=
  c ← st_cells s !! o; Some (s <| st_cells ::= <[o := c <| cl_print := Some f |>]> |>).

#[export] Instance jstore_out : JsonOut jstore := {|
  js_empty := Store ∅ 1 1000;
  js_node s r := cl_node <$> st_cells s !! r;
  js_new := store_new;
  js_object_add := store_object_add;
  js_array_add := store_array_add;
  js_put r s := store_put (put_fuel s) [r] s;
  js_set_serializer := store_set_serializer;
  js_to_string r s := store_text (Datatypes.S (Pos.to_nat (st_next s))) s r;
|}.

Lemma set_member_new k v l : k ∉ l.*1 → set_member k v l = l ++ [(k, v)] ∧ List.find (λ m, String.eqb m.1 k) l = None.
Proof.
  unfold set_member. induction l as [|[k' v'] l IH]; intros Hk; [done|].
  apply not_elem_of_cons in Hk as [Hne Hk]. simpl in *.
  rewrite (proj2 (String.eqb_neq k' k)) by congruence. simpl.
  destruct (IH Hk) as [Heq Hf]. split; [|done].
  destruct (existsb _ l); [|done]. by rewrite Heq.
Qed.

Lemma set_node_node o c n s r :
  js_node (set_node o c n s) r = if decide (r = o) then Some n else js_node s r.
Proof.
  cbn. destruct (decide (r = o)) as [->|Hne].
  - by rewrite lookup_insert_eq.
  - by rewrite lookup_insert_ne by done.
Qed.

Lemma store_put_empty o s : cl_node <$> st_cells s !! o = Some (NObject []) → is_Some (store_put (put_fuel s) [o] s).
Proof.
  unfold put_fuel. generalize (map_fold (λ _ c n, Z.to_nat (cl_refs c) + Datatypes.S n)%nat O (st_cells s) * 2)%nat.
  intros n. simpl. destruct (st_cells s !! o) as [c|]; [|done]. intros [= Hc]. simpl.
  destruct (1 <? cl_refs c); [|rewrite Hc; simpl]; by destruct n.
Qed.

#[export] Instance jstore_room : JsonRoom jstore.
Proof.
  split.
  - intros o k v l s Ho [n Hv] Hk. cbn in *. destruct (st_cells s !! o) as [c|] eqn:Hc; [|done].
    injection Ho as Ho. destruct (st_cells s !! v) as [cv|] eqn:Hcv; [|done].
    destruct (set_member_new k v l Hk) as [Hset Hf].
    exists (set_node o c (NObject (l ++ [(k, v)])) s). split_and!.
    + unfold store_object_add. rewrite Hc, Hcv. cbn. by rewrite Ho, Hf, Hset.
    + pose proof (set_node_node o c (NObject (l ++ [(k, v)])) s o) as Hs. cbn in Hs. by rewrite decide_True in Hs.
    + intros r Hr. by rewrite set_node_node, decide_False.
  - intros o v l s Ho Hv. cbn in *. destruct (st_cells s !! o) as [c|] eqn:Hc; [|done].
    injection Ho as Ho.
    assert (match v with Some v => st_cells s !! v;; Some () | None => Some () end = Some ()) as Hv'.
    { destruct v as [v|]; [|done]. destruct Hv as [n Hv]. by destruct (st_cells s !! v). }
    exists (set_node o c (NArray (l ++ [v])) s). split_and!.
    + unfold store_array_add. rewrite Hc. cbn. rewrite Hv'. cbn. by rewrite Ho.
    + pose proof (set_node_node o c (NArray (l ++ [v])) s o) as Hs. cbn in Hs. by rewrite decide_True in Hs.
    + intros r Hr. by rewrite set_node_node, decide_False.
Qed.

#[export] Instance jstore_out_laws : JsonOutLaws jstore.
Proof.
  split.
  - intros n s r s' Hn. cbn in Hn. unfold store_new in Hn.
    destruct (st_cells s !! st_next s) eqn:Hc; [done|]. destruct (st_room s <=? 0); [done|].
    injection Hn as <- <-. cbn. rewrite Hc, lookup_insert_eq. split_and!; [done..|].
    intros r Hr. cbn. by rewrite lookup_insert_ne by done.
  - intros n s s' Hn r. cbn in Hn. unfold store_new in Hn.
    destruct (st_cells s !! st_next s); [by injection Hn as <-|]. destruct (st_room s <=? 0); [|done].
    by injection Hn as <-.
  - intros o k v l s Ho Hv Hk. destruct (js_object_add_spec o k v l s Ho Hv Hk) as (s' & ? & ? & ?).
    exists s'. by split_and!; [..|left].
  - intros o v l s Ho Hv. destruct (js_array_add_spec o v l s Ho Hv) as (s' & ? & ? & ?).
    exists s'. by split_and!; [..|left].
  - intros o s Ho. by apply store_put_empty.
  - intros o f s [n Ho]. cbn in *. destruct (st_cells s !! o) as [c|] eqn:Hc; [|done].
    eexists. split; [unfold store_set_serializer; by rewrite Hc|].
    intros r. cbn. destruct (decide (r = o)) as [->|Hne].
    + by rewrite lookup_insert_eq, Hc.
    + by rewrite lookup_insert_ne by done.
Qed.
