(* ===== verification/JsonUtil.v ===== *)
(** * util/json.c: devices, work queues and engines as JSON

    The state of a listing is the library's world, json-c's memory and what was
    printed; [lib] runs a call of the library on the first.  A [goto err] is the
    end of a list of steps at the first one that answers false ([steps]).  Printing
    to stderr has no effect here. *)

From S2P Require Import Prelude CString Prog Types Sysfs Param Tree Device Wq JsonStore.
Local Open Scope string_scope.
Local Open Scope Z_scope.

(** ** Flags (util/json.h) *)

Definition UTIL_JSON_IDLE : Z := 1.
Definition UTIL_JSON_HUMAN : Z := 2.
Definition UTIL_JSON_VERBOSE : Z := 4.
(* util/json.h:10-15 util_json_flags *)
Definition UTIL_JSON_SAVE : Z := 8.

Definition has_flag (flags f : Z) : bool := negb (Z.land flags f =? 0).

(** ** Serializers *)

(** [%ld.%02ld] of hundredths. *)
Definition print_cent (c : Z) : string :=
  let r := Z.rem c 100 in
  print_d (Z.quot c 100) +:+ "." +:+ (if (0 <=? r) && (r <? 10) then "0" else "") +:+ print_d r.

Definition quoted_text (s : string) : string := String "034" (s +:+ String "034" "").

Definition MiB : Z := Z.shiftl 1 20.
Definition GiB : Z := Z.shiftl 1 30.
Definition HUMAN_LIMIT : Z := 2 * 1024 * 1024 * 1024.

(** Hundredths of a unit of [2 ^ n] bytes; the product is of [uint64_t]. *)
(* util/json.c:50-55 display_size *)
Definition iec_cent (bytes unit : Z) : Z := s64 ((u64 (u64 (bytes * 200) / unit + 1)) / 2).
(** Hundredths of a decimal unit. *)
(* util/json.c:63-68 display_size *)
Definition jedec_cent (bytes unit : Z) : Z := s64 ((u64 (bytes / (unit / 200) + 1)) / 2).

(* util/json.c:27-76 display_size *)
Definition display_size (jobj : Z) : string :=
  let bytes := u64 jobj in
  if bytes <? 5000 * 1024 then print_u bytes
  else if bytes <? HUMAN_LIMIT then
    quoted_text (print_cent (iec_cent bytes MiB) +:+ " MiB (" +:+ print_cent (jedec_cent bytes 1000000) +:+ " MB)")
  else
    quoted_text (print_cent (iec_cent bytes GiB) +:+ " GiB (" +:+ print_cent (jedec_cent bytes 1000000000) +:+ " GB)").

(** [%#x] of zero has no prefix. *)
(* util/json.c:78-86 display_hex *)
Definition display_hex (jobj : Z) : string :=
  let val := u64 jobj in
  quoted_text (if val =? 0 then "0" else "0x" +:+ print_x val).

(** [%08x] *)
Definition print_08x (v : Z) : string :=
  let s := print_x v in String.string_of_list_ascii (replicate (8 - String.length s) "0"%char) +:+ s.

(** ** The state *)

Record jstate (F S : Type) := JState { j_world : world F; j_store : S; j_out : string }.
Arguments JState {F S} j_world j_store j_out.
Arguments j_world {F S} _.
Arguments j_store {F S} _.
Arguments j_out {F S} _.
#[export] Instance eta_jstate F S : Eta (jstate F S) := λ r, JState (j_world r) (j_store r) (j_out r).

(** Files written through stdio; [fprintf] may fail, which no caller looks at. *)
Class FileOut (F : Type) := {
  k_create : string → F → kres unit * F;
  k_append : string → string → F → F;
}.
Inductive stream : Set := stdout | file (path : string).

Section json.
Context {F : Type} `{Kernel F} {S : Type} `{JsonOut S}.
Notation M := (prog (world F)).
Notation J := (prog (jstate F S)).

Definition lib {A} (m : M A) : J A := zoom j_world (λ w j, j <| j_world := w |>) m.

(** ** json-c's functions on the state *)

Definition json_new (n : node) : J (option positive) := λ j,
  let '(r, s) := js_new n (j_store j) in Done r (j <| j_store := s |>).
(** An operation that is not always defined. *)
Definition json_do (f : S → option S) : J unit := λ j,
  match f (j_store j) with Some s => Done () (j <| j_store := s |>) | None => Fault end.

Definition json_object_new_object : J (option positive) := json_new (NObject []).
Definition json_object_new_array : J (option positive) := json_new (NArray []).
Definition json_object_new_int (i : Z) : J (option positive) := json_new (NInt (s32 i)).
Definition json_object_new_int64 (i : Z) : J (option positive) := json_new (NInt (s64 i)).
(** The length of NULL is taken. *)
Definition json_object_new_string (s : option string) : J (option positive) :=
  s ← must s; json_new (NString s).
Definition json_object_object_add (o : positive) (k : string) (v : positive) : J unit :=
  json_do (js_object_add o k v).
Definition json_object_array_add (o : positive) (v : option positive) : J unit := json_do (js_array_add o v).
Definition json_object_put (o : positive) : J unit := json_do (js_put o).
Definition json_object_set_serializer (o : positive) (f : serializer) : J unit :=
  json_do (js_set_serializer o f).
Definition json_object_to_json_string_ext (o : positive) : J string :=
  j ← get; must (js_to_string o (j_store j)).
Definition elements_of (o : positive) : J (list (option positive)) :=
  j ← get; must (match js_node (j_store j) o with Some (NArray l) => Some l | _ => None end).
Definition json_object_array_length (o : positive) : J Z := l ← elements_of o; mret (Z.of_nat (length l)).
Definition json_object_array_get_idx (o : positive) (i : nat) : J (option positive) :=
  l ← elements_of o; mret (default None (l !! i)).

(** ** Numbers with a format *)

(** [jobj = new; if (jobj) json_object_set_serializer(jobj, f); return jobj;] *)
Definition new_serialized (i : Z) (f : option serializer) : J (option positive) :=
  jobj ← json_object_new_int64 i;
  match jobj, f with
  | Some o, Some f => json_object_set_serializer o f;; mret jobj
  | _, _ => mret jobj
  end.
(* util/json.c:88-96 util_json_object_size *)
Definition util_json_object_size (size flags : Z) : J (option positive) :=
  new_serialized size (if has_flag flags UTIL_JSON_HUMAN then Some display_size else None).
(* util/json.c:98-106 util_json_object_hex *)
Definition util_json_object_hex (val flags : Z) : J (option positive) := new_serialized val (Some display_hex).

(** ** Printing *)

Definition fprintf `{FileOut F} (f_out : stream) (text : string) : J unit :=
  match f_out with
  | stdout => modify (λ j, j <| j_out ::= λ out, out +:+ text |>)
  | file path => modify (λ j, j <| j_world ::= λ w, w <| fs ::= k_append path text |> |>)
  end.
Definition newline (s : string) : string := s +:+ String NL "".

(** An array that is NULL fails json-c's assertion. *)
(* util/json.c:108-125 util_display_json_array *)
Definition util_display_json_array `{FileOut F} (f_out : stream) (jarray : option positive) (flags : Z) : J unit :=
  jarray ← must jarray;
  len ← json_object_array_length jarray;
  (if (1 <? len) || negb (has_flag flags UTIL_JSON_HUMAN) then
     text ← json_object_to_json_string_ext jarray; fprintf f_out (newline text)
   else if negb (len =? 0) then
     jobj ← json_object_array_get_idx jarray 0;
     text ← match jobj with Some jobj => json_object_to_json_string_ext jobj | None => mret "null" end;
     fprintf f_out (newline text)
   else mret ());;
  json_object_put jarray.

(** Eight words, which fit [MAX_PARAM_LEN] bytes. *)
(* util/json.c:128-141 util_bitmask_to_string *)
Definition util_bitmask_to_string (bit_array : list Z) : J (option positive) :=
  json_object_new_string (Some (String.concat "," (map print_08x bit_array))).

(** ** Members *)

(** [if (!jobj) goto err; json_object_object_add(parent, key, jobj);] *)
Definition member (parent : positive) (key : string) (new : J (option positive)) : J bool :=
  jobj ← new;
  match jobj with
  | Some jobj => json_object_object_add parent key jobj;; mret true
  | None => mret false
  end.
(** [if (jobj) json_object_object_add(parent, key, jobj);] *)
Definition try_member (parent : positive) (key : string) (new : J (option positive)) : J bool :=
  member parent key new;; mret true.
Definition when (b : bool) (m : J bool) : J bool := if b then m else mret true.

Fixpoint steps (l : list (J bool)) : J bool :=
  match l with
  | [] => mret true
  | m :: l' => ok ← m; if ok : bool then steps l' else mret false
  end.

Definition new_int (v : M Z) : J (option positive) := v ← lib v; json_object_new_int v.
(** [v = get; if (v >= 0) { jobj = json_object_new_int(v); ... }], [v] being an [int]. *)
Definition member_ge0 (parent : positive) (key : string) (v : M Z) : J bool :=
  v ← lib v; when (0 <=? s32 v) (member parent key (json_object_new_int (s32 v))).
Definition try_member_ge0 (parent : positive) (key : string) (v : M Z) : J bool :=
  v ← lib v; when (0 <=? s32 v) (try_member parent key (json_object_new_int (s32 v))).
(** A bit array that could be read. *)
Definition member_bits (parent : positive) (key : string) (v : M (Z * list Z)) (ok : list Z → bool) : J bool :=
  '(rc, bits) ← lib v;
  when ((rc =? 0) && ok bits) (member parent key (util_bitmask_to_string bits)).

(** [err:] *)
Definition or_put (parent : positive) (m : J bool) : J (option positive) :=
  ok ← m; if ok : bool then mret (Some parent) else json_object_put parent;; mret None.
End json.

(** ** Devices *)

(** An unknown state is printed as enabled. *)
(* util/json.c:272-283 util_device_to_json *)
Definition device_state_text (dev_state : accfg_device_state) : string :=
  match dev_state with
  | ACCFG_DEVICE_DISABLED => "disabled"
  | ACCFG_DEVICE_ENABLED => "enabled"
  | ACCFG_DEVICE_UNKNOWN => "enabled"
  end.

(* util/json.c:469-486 util_wq_to_json *)
Definition wq_state_text (wq_state : accfg_wq_state) : string :=
  match wq_state with
  | ACCFG_WQ_DISABLED => "disabled"
  | ACCFG_WQ_ENABLED => "enabled"
  | ACCFG_WQ_QUIESCING => "quiescing"
  | ACCFG_WQ_LOCKED => "locked"
  | ACCFG_WQ_UNKNOWN => "unknown"
  end.

(* util/json.c:20-24 wq_type_str *)
Definition wq_type_str (t : accfg_wq_type) : string :=
  match t with ACCFG_WQT_NONE => "none" | ACCFG_WQT_KERNEL => "kernel" | ACCFG_WQT_USER => "user" end.

Section objects.
Context {F : Type} `{Kernel F} {S : Type} `{JsonOut S}.
Notation M := (prog (world F)).
Notation J := (prog (jstate F S)).

(** An attribute an IAX device does not have: the object is made, and added only for
    the others. *)
Definition member_not_iax (device jdevice : positive) (key : string) (v : M Z) : J bool :=
  jobj ← new_int v;
  match jobj with
  | None => mret false
  | Some jobj =>
      type ← lib (accfg_device_get_type device);
      (if negb (type =? ACCFG_DEVICE_IAX) then json_object_object_add jdevice key jobj else mret ());;
      mret true
  end.

(** What [save-config] writes too. *)
(* util/json.c:174-191 util_device_to_json *)
Definition device_saved (device jdevice : positive) : list (J bool) :=
  [member jdevice "dev" (n ← lib (accfg_device_get_devname device); json_object_new_string (Some n));
   member_not_iax device jdevice "read_buffer_limit" (accfg_device_get_read_buffer_limit device);
   member_ge0 jdevice "event_log_size" (accfg_device_get_event_log_size device)].

Definition hex_member (jdevice : positive) (key : string) (v : M Z) (flags : Z) : J bool :=
  member jdevice key (v ← lib v; util_json_object_hex v flags).

(* util/json.c:198-348 util_device_to_json *)
Definition device_listed (device jdevice : positive) (flags : Z) : list (J bool) :=
  [member_ge0 jdevice "max_groups" (accfg_device_get_max_groups device);
   member_ge0 jdevice "max_work_queues" (accfg_device_get_max_work_queues device);
   member_ge0 jdevice "max_engines" (accfg_device_get_max_engines device);
   member_ge0 jdevice "work_queue_size" (accfg_device_get_max_work_queues_size device);
   member jdevice "numa_node" (new_int (accfg_device_get_numa_node device));
   member_bits jdevice "errors" (accfg_device_get_errors (Some device)) (existsb (λ v, negb (v =? 0)));
   member_bits jdevice "op_cap" (accfg_device_get_op_cap (Some device)) (λ _, true);
   '(rc, iaa_cap) ← lib (accfg_device_get_iaa_cap (Some device));
     when (rc =? 0) (iaa_cap ← must iaa_cap; member jdevice "iaa_cap" (util_json_object_hex iaa_cap flags));
   hex_member jdevice "gen_cap" (accfg_device_get_gen_cap device) flags;
   hex_member jdevice "version" (accfg_device_get_version device) flags;
   dev_state ← lib (accfg_device_get_state (Some device));
     member jdevice "state" (json_object_new_string (Some (device_state_text dev_state)));
   member_not_iax device jdevice "max_read_buffers" (accfg_device_get_max_read_buffers device);
   ulong_val ← lib (accfg_device_get_max_batch_size device);
     when (0 <? ulong_val) (member jdevice "max_batch_size" (json_object_new_int ulong_val));
   member_ge0 jdevice "ims_size" (accfg_device_get_ims_size device);
   member_ge0 jdevice "max_batch_size" (accfg_device_get_max_batch_size device);
   ullong_val ← lib (accfg_device_get_max_transfer_size device);
     when (0 <? ullong_val) (member jdevice "max_transfer_size" (json_object_new_int64 ullong_val));
   member_ge0 jdevice "configurable" (accfg_device_get_configurable device);
   new_bool ← lib (accfg_device_get_pasid_enabled device);
     member jdevice "pasid_enabled" (json_object_new_int (if new_bool : bool then 1 else 0));
   member jdevice "cdev_major" (new_int (accfg_device_get_cdev_major device));
   member jdevice "clients" (new_int (accfg_device_get_clients (Some device)))].

(* util/json.c:143-356 util_device_to_json *)
Definition util_device_to_json (device : positive) (flags : Z) : J (option positive) :=
  jdevice ← json_object_new_object;
  match jdevice with
  | None => mret None
  | Some jdevice =>
      dev_state ← lib (accfg_device_get_state (Some device));
      if negb (bool_decide (dev_state = ACCFG_DEVICE_ENABLED)) && negb (has_flag flags UTIL_JSON_IDLE) then
        json_object_put jdevice;; mret None
      else
        error ← lib alloc;
        if negb error then json_object_put jdevice;; mret None
        else
          or_put jdevice (steps (device_saved device jdevice ++
            if has_flag flags UTIL_JSON_SAVE then [] else device_listed device jdevice flags))
  end.

(** ** Work queues *)

(** The object of the mode; in another mode it is still the one of the name, which
    then is a member twice. *)
(* util/json.c:379-391 util_wq_to_json *)
Definition wq_named (wq jaccfg : positive) : J bool :=
  n ← lib (accfg_wq_get_devname wq);
  jobj ← json_object_new_string (Some n);
  match jobj with
  | None => mret false
  | Some o =>
      json_object_object_add jaccfg "dev" o;;
      wq_mode ← lib (accfg_wq_get_mode wq);
      jobj ← if wq_mode =? 0 then json_object_new_string (Some "shared") else mret jobj;
      jobj ← if wq_mode =? 1 then json_object_new_string (Some "dedicated") else mret jobj;
      match jobj with
      | None => mret false
      | Some o => json_object_object_add jaccfg "mode" o;; mret true
      end
  end.

(* util/json.c:393-465 util_wq_to_json *)
Definition wq_members (wq jaccfg : positive) (flags : Z) : list (J bool) :=
  [size ← lib (accfg_wq_get_size wq);
     when (size <? ULLONG_MAX) (try_member jaccfg "size" (util_json_object_size size flags));
   try_member_ge0 jaccfg "group_id" (accfg_wq_get_group_id wq);
   try_member_ge0 jaccfg "priority" (accfg_wq_get_priority wq);
   try_member jaccfg "block_on_fault" (new_int (accfg_wq_get_block_on_fault wq));
   try_member jaccfg "max_batch_size" (new_int (accfg_wq_get_max_batch_size wq));
   try_member jaccfg "max_transfer_size"
     (v ← lib (accfg_wq_get_max_transfer_size wq); json_object_new_int64 v);
   if has_flag flags UTIL_JSON_SAVE then mret true
     else try_member_ge0 jaccfg "cdev_minor" (accfg_wq_get_cdev_minor wq);
   try_member jaccfg "type" (t ← lib (accfg_wq_get_type wq); json_object_new_string (Some (wq_type_str t)));
   try_member jaccfg "name" (n ← lib (accfg_wq_get_type_name wq); json_object_new_string n);
   n ← lib (accfg_wq_get_driver_name wq);
     match n with
     | Some _ => try_member jaccfg "driver_name" (json_object_new_string n)
     | None => mret true
     end;
   try_member jaccfg "threshold" (new_int (accfg_wq_get_threshold wq));
   try_member_ge0 jaccfg "prs_disable" (accfg_wq_get_prs_disable wq);
   try_member jaccfg "ats_disable" (new_int (accfg_wq_get_ats_disable wq));
   member_bits jaccfg "op_config" (accfg_wq_get_op_config (Some wq)) (λ _, true)].

(* util/json.c:467-493 util_wq_to_json *)
Definition wq_listed (wq jaccfg : positive) (wq_state : accfg_wq_state) : list (J bool) :=
  [try_member jaccfg "state" (json_object_new_string (Some (wq_state_text wq_state)));
   try_member jaccfg "clients" (new_int (accfg_wq_get_clients wq))].

(* util/json.c:358-499 util_wq_to_json *)
Definition util_wq_to_json (wq : positive) (flags : Z) : J (option positive) :=
  jaccfg ← json_object_new_object;
  match jaccfg with
  | None => mret None
  | Some jaccfg =>
      wq_state ← lib (accfg_wq_get_state wq);
      if negb (bool_decide (wq_state = ACCFG_WQ_ENABLED)) && negb (bool_decide (wq_state = ACCFG_WQ_LOCKED)) &&
         negb (has_flag flags UTIL_JSON_IDLE)
      then json_object_put jaccfg;; mret None
      else
        or_put jaccfg (steps (wq_named wq jaccfg :: wq_members wq jaccfg flags ++
          if has_flag flags UTIL_JSON_SAVE then [] else wq_listed wq jaccfg wq_state))
  end.

(** ** Engines *)

(* util/json.c:501-525 util_engine_to_json *)
Definition util_engine_to_json (engine : positive) (flags : Z) : J (option positive) :=
  jaccfg ← json_object_new_object;
  match jaccfg with
  | None => mret None
  | Some jaccfg =>
      or_put jaccfg (steps
        [member jaccfg "dev" (n ← lib (accfg_engine_get_devname engine); json_object_new_string (Some n));
         member_ge0 jaccfg "group_id" (accfg_engine_get_group_id engine)])
  end.
End objects.
