(* ===== verification/Listing.v ===== *)
(** * The listing that a walk builds

    The containers of util/filter.h, and the callbacks of the walk in accfg/list.c
    ([list_filter_*]) and accfg/config.c ([config_filter_*]).  A device has a
    container, with a slot per group: the group's id, its object, and the arrays of
    its queues and engines. *)

From S2P Require Import Prelude CString Prog Types Sysfs Param Tree Device Wq Filter JsonStore JsonUtil.
Local Open Scope string_scope.
Local Open Scope Z_scope.

(** [jgroup] is written and never read: it is left out. *)
(* util/filter.h:16-39 accfg_json_container *)
Record accfg_json_container := Container {
  jc_jgroups : option positive;
  jc_jgroup_assigned : list (option positive);
  jc_jwq_group : list (option positive);
  jc_jwq_ungroup : option positive;
  jc_jengine_group : list (option positive);
  jc_jengine_ungroup : option positive;
  jc_jgroup_id : list Z;
  jc_device_id : Z;
  jc_device_name : string;
}.
#[export] Instance eta_accfg_json_container : Eta accfg_json_container := λ r,
  Container (jc_jgroups r) (jc_jgroup_assigned r) (jc_jwq_group r) (jc_jwq_ungroup r) (jc_jengine_group r)
    (jc_jengine_ungroup r) (jc_jgroup_id r) (jc_device_id r) (jc_device_name r).

(* util/filter.h:42-59 list_filter_arg *)
Record list_filter_arg := ListArg {
  lf_jdevices : option positive;
  lf_jdevice : option positive;
  lf_jdev_list : list accfg_json_container;
  lf_flags : Z;   (* uint64_t *)
  lf_dev_num : Z;
  lf_group_num : Z;
}.
#[export] Instance eta_list_filter_arg : Eta list_filter_arg := λ r,
  ListArg (lf_jdevices r) (lf_jdevice r) (lf_jdev_list r) (lf_flags r) (lf_dev_num r) (lf_group_num r).
Definition zero_list_arg : list_filter_arg := ListArg None None [] 0 0 0.

(** [did_fail] is list.c's. *)
Record lstate (F S : Type) := LState { l_json : jstate F S; l_arg : list_filter_arg; did_fail : bool }.
Arguments LState {F S} l_json l_arg did_fail.
Arguments l_json {F S} _.
Arguments l_arg {F S} _.
Arguments did_fail {F S} _.
#[export] Instance eta_lstate F S : Eta (lstate F S) := λ r, LState (l_json r) (l_arg r) (did_fail r).

(** The arrays of a container that a queue, or an engine, is put into. *)
Record slots := Slots {
  sl_arrays : accfg_json_container → list (option positive);
  sl_set : nat → option positive → accfg_json_container → accfg_json_container;
  sl_key : string;
}.
Definition wq_slots : slots := Slots jc_jwq_group
  (λ i a jc, jc <| jc_jwq_group ::= <[i := a]> |>) "grouped_workqueues".
Definition engine_slots : slots := Slots jc_jengine_group
  (λ i a jc, jc <| jc_jengine_group ::= <[i := a]> |>) "grouped_engines".

Section listing.
Context {F : Type} `{Kernel F} {S : Type} `{JsonOut S}.
Notation M := (prog (world F)).
Notation J := (prog (jstate F S)).
Notation L := (prog (lstate F S)).

Definition json {A} (m : J A) : L A := zoom l_json (λ j l, l <| l_json := j |>) m.
Definition in_world {A} (m : M A) : L A := json (lib m).
Definition arg {A} (f : list_filter_arg → A) : L A := gets (λ l, f (l_arg l)).
Definition upd_arg (f : list_filter_arg → list_filter_arg) : L unit := modify (λ l, l <| l_arg ::= f |>).

(** ** Containers *)

Definition get_container (i : nat) : L accfg_json_container := l ← arg lf_jdev_list; must (l !! i).
Definition upd_container (i : nat) (f : accfg_json_container → accfg_json_container) : L unit :=
  upd_arg (λ a, a <| lf_jdev_list ::= alter f i |>).

(** [list_for_each(...) if (match_device(dev, iter)) jc = iter;]: the last one. *)
Fixpoint last_match (dev : positive) (i : nat) (l : list accfg_json_container) (jc : option nat) : L (option nat) :=
  match l with
  | [] => mret jc
  | iter :: l' =>
      b ← in_world (match_device dev (jc_device_name iter));
      last_match dev (Datatypes.S i) l' (if b : bool then Some i else jc)
  end.
Definition find_container (dev : positive) : L (option nat) :=
  l ← arg lf_jdev_list; last_match dev 0 l None.

(** Zeroed memory for [n] members: no more than fits a [size_t]. *)
Definition calloc (n size : Z) : L bool :=
  if 2 ^ 64 <=? u64 n * size then in_world (set_errno ENOMEM);; mret false else in_world alloc.
Fixpoint callocs (n : Z) (sizes : list Z) : L bool :=
  match sizes with
  | [] => mret true
  | size :: sizes' => ok ← calloc n size; if ok : bool then callocs n sizes' else mret false
  end.

(** The four arrays of a new container, [n] members each. *)
Definition new_container (n : Z) (device : positive) : L (option accfg_json_container) :=
  ok ← in_world alloc;
  if negb ok then mret None
  else
    ok ← callocs n [8; 8; 8; 4];
    if negb ok then mret None
    else
      id ← in_world (accfg_device_get_id device);
      name ← in_world (accfg_device_get_devname device);
      let none := replicate (Z.to_nat (u64 n)) (None : option positive) in
      mret (Some (Container None none none None none None (replicate (Z.to_nat (u64 n)) 0) id name)).

(** An array that is made when the first object is put into it; [into] makes it a
    member of what it belongs to.  False when there is no memory for it. *)
Definition ensure_array (a : option positive) (store : positive → L unit) (into : positive → L unit) :
    L (option positive) :=
  match a with
  | Some a => mret (Some a)
  | None =>
      a ← json json_object_new_array;
      match a with
      | None => mret None
      | Some p => store p;; into p;; mret (Some p)
      end
  end.

(** One group: when it is the object's, the object joins its array.  [into] adds a
    new array to the group's object, which may be NULL.  The result: no memory, or
    whether it is in the group. *)
(* accfg/list.c:145-163 filter_wq *)
Definition put_in_slot (sl : slots) (into : option positive → positive → L unit) (jc i : nat) (group_id : Z)
    (obj : positive) : L (option bool) :=
  c ← get_container jc;
  id ← must (jc_jgroup_id c !! i);
  if negb (group_id =? id) then mret (Some false)
  else
    container ← must (jc_jgroup_assigned c !! i);
    a ← must (sl_arrays sl c !! i);
    a ← ensure_array a (λ p, upd_container jc (sl_set sl i (Some p))) (into container);
    match a with
    | None => mret None
    | Some a => json (json_object_array_add a (Some obj));; mret (Some true)
    end.

(** [for (i = 0; i < max_groups; i++)] *)
(* accfg/list.c:140-164 filter_wq *)
Fixpoint put_in_slots (sl : slots) (into : option positive → positive → L unit) (jc : nat) (get_group_id : M Z)
    (obj : positive) (slots_left : list nat) (in_group : bool) : L (option bool) :=
  match slots_left with
  | [] => mret (Some in_group)
  | i :: slots' =>
      group_id ← in_world get_group_id;
      r ← put_in_slot sl into jc i group_id obj;
      match r with
      | None => mret None
      | Some b => put_in_slots sl into jc get_group_id obj slots' (in_group || b)
      end
  end.
Definition slot_range (max_groups : Z) : list nat := seq 0 (Z.to_nat max_groups).

(** [if (container) json_object_object_add(container, key, array)], and without the test. *)
Definition add_if (key : string) (container : option positive) (a : positive) : L unit :=
  match container with Some o => json (json_object_object_add o key a) | None => mret () end.
Definition add_to (key : string) (container : option positive) (a : positive) : L unit :=
  o ← must container; json (json_object_object_add o key a).

(** The object of a group joins the groups of its device, and its slot. *)
Definition add_group_object (jc : nat) (container : option positive) (group_to_json : L (option positive))
    (group : positive) (slot_of : Z → L nat) : L bool :=
  c ← get_container jc;
  a ← ensure_array (jc_jgroups c) (λ p, upd_container jc (λ c, c <| jc_jgroups := Some p |>))
        (add_if "groups" container);
  match a with
  | None => mret false
  | Some jgroups =>
      jgroup ← group_to_json;
      match jgroup with
      | None => mret false
      | Some jgroup =>
          group_id ← in_world (accfg_group_get_id group);
          group_num ← arg lf_group_num;
          i ← slot_of group_num;
          c ← get_container jc;
          must (jc_jgroup_id c !! i);;
          upd_container jc (λ c, c <| jc_jgroup_id ::= <[i := s32 group_id]> |>
                                   <| jc_jgroup_assigned ::= <[i := Some jgroup]> |>);;
          upd_arg (λ a, a <| lf_group_num ::= Z.succ |>);;
          json (json_object_array_add jgroups (Some jgroup));;
          mret true
      end
  end.

(** Members of a group's object, in both files. *)
Definition group_dev (group jgroup : positive) : J bool :=
  member jgroup "dev" (n ← lib (accfg_group_get_devname group); json_object_new_string (Some n)).
Definition group_buffers (group jgroup : positive) : list (J bool) :=
  [member jgroup "read_buffers_reserved" (new_int (accfg_group_get_read_buffers_reserved group));
   member jgroup "use_read_buffer_limit" (new_int (accfg_group_get_use_read_buffer_limit group));
   member jgroup "read_buffers_allowed" (new_int (accfg_group_get_read_buffers_allowed group))].
Definition group_limits (group jgroup : positive) : list (J bool) :=
  [member_ge0 jgroup "desc_progress_limit" (accfg_group_get_desc_progress_limit group);
   member_ge0 jgroup "batch_progress_limit" (accfg_group_get_batch_progress_limit group)].

(** ** accfg/list.c *)

Definition fail : L unit := modify (λ l, l <| did_fail := true |>).

(* accfg/list.c:65-105 group_to_json *)
Definition group_members (group dev jgroup : positive) : list (J bool) :=
  [group_dev group jgroup;
   type ← lib (accfg_device_get_type dev);
     if negb (type =? ACCFG_DEVICE_IAX) then steps (group_buffers group jgroup) else mret true;
   steps (group_limits group jgroup)].

(* accfg/list.c:52-113 group_to_json *)
Definition group_to_json (group : positive) : L (option positive) :=
  jgroup ← json json_object_new_object;
  dev ← in_world (accfg_group_get_device group);
  match jgroup with
  | None => mret None
  | Some jgroup =>
      ok ← json (steps (group_members group dev jgroup));
      if ok : bool then mret (Some jgroup)
      else fail;; json (json_object_put jgroup);; mret None
  end.

(** An object of no group joins an array of the device. *)
Definition put_ungrouped (key : string) (a : option positive) (store : positive → L unit) (obj : positive) : L bool :=
  a ← ensure_array a store (λ p, container ← arg lf_jdevice; add_to key container p);
  match a with
  | None => mret false
  | Some a => json (json_object_array_add a (Some obj));; mret true
  end.

(** [!list.idle && !accfg_wq_is_enabled(wq)] *)
Definition not_shown (idle : bool) (wq : positive) : L bool :=
  if idle then mret false else e ← in_world (accfg_wq_is_enabled wq); mret (e =? 0).

(* accfg/list.c:115-182 filter_wq *)
Definition list_filter_wq (idle : bool) (wq : positive) : L bool :=
  dev ← in_world (accfg_wq_get_device wq);
  max_groups ← in_world (accfg_device_get_max_groups dev);
  jc ← find_container dev;
  match jc with
  | None => mret false
  | Some jc =>
      skip ← not_shown idle wq;
      if skip : bool then mret true
      else
        flags ← arg lf_flags;
        jwq ← json (util_wq_to_json wq flags);
        match jwq with
        | None => mret false
        | Some jwq =>
            r ← put_in_slots wq_slots (add_if "grouped_workqueues") jc (accfg_wq_get_group_id wq) jwq
                  (slot_range max_groups) false;
            match r with
            | None => mret false
            | Some in_group =>
                if negb in_group && has_flag flags UTIL_JSON_IDLE then
                  c ← get_container jc;
                  put_ungrouped "ungrouped workqueues" (jc_jwq_ungroup c)
                    (λ p, upd_container jc (λ c, c <| jc_jwq_ungroup := Some p |>)) jwq
                else mret true
            end
        end
  end.

(* accfg/list.c:184-256 filter_engine *)
Definition list_filter_engine (engine : positive) : L bool :=
  dev ← in_world (accfg_engine_get_device engine);
  max_groups ← in_world (accfg_device_get_max_groups dev);
  dev_state ← in_world (accfg_device_get_state (Some dev));
  flags ← arg lf_flags;
  if negb (bool_decide (dev_state = ACCFG_DEVICE_ENABLED)) && negb (has_flag flags UTIL_JSON_IDLE) then mret false
  else
    jc ← find_container dev;
    match jc with
    | None => mret false
    | Some jc =>
        jengine ← json (util_engine_to_json engine flags);
        match jengine with
        | None => mret false
        | Some jengine =>
            r ← put_in_slots engine_slots (add_if "grouped_engines") jc (accfg_engine_get_group_id engine)
                  jengine (slot_range max_groups) false;
            match r with
            | None => mret false
            | Some true => mret true
            | Some false =>
                c ← get_container jc;
                put_ungrouped "ungrouped_engines" (jc_jengine_ungroup c)
                  (λ p, upd_container jc (λ c, c <| jc_jengine_ungroup := Some p |>)) jengine
            end
        end
    end.

(** [group_num % max_groups], of [unsigned int]. *)
Definition umod (m : Z) (n : Z) : L nat := if m =? 0 then fault else mret (Z.to_nat (u32 n mod m)).

(* accfg/list.c:258-301 filter_group *)
Definition list_filter_group (group : positive) : L bool :=
  container ← arg lf_jdevice;
  dev ← in_world (accfg_group_get_device group);
  max_groups ← in_world (accfg_device_get_max_groups dev);
  jc ← find_container dev;
  match jc with
  | None => mret false
  | Some jc =>
      add_group_object jc container
        (g ← group_to_json group; match g with None => fail;; mret g | Some _ => mret g end)
        group (umod max_groups)
  end.

(* accfg/list.c:303-352 filter_device *)
Definition list_filter_device (device : positive) : L bool :=
  max_groups ← in_world (accfg_device_get_max_groups device);
  flags ← arg lf_flags;
  jdevice ← json (util_device_to_json device flags);
  upd_arg (λ a, a <| lf_jdevice := jdevice |>);;
  match jdevice with
  | None => mret false
  | Some _ =>
      jc ← new_container max_groups device;
      match jc with
      | None => mret false
      | Some jc =>
          upd_arg (λ a, a <| lf_jdev_list ::= cons jc |>);;
          jdevices ← arg lf_jdevices;
          jdevices ← must jdevices;
          json (json_object_array_add jdevices jdevice);;
          upd_arg (λ a, a <| lf_dev_num ::= Z.succ |>);;
          mret true
      end
  end.

(* accfg/list.c:354-371 free_containers *)
Definition free_containers : L unit := upd_arg (λ a, a <| lf_jdev_list := [] |>).

Definition list_callbacks (idle : bool) : util_filter_ctx (lstate F S) :=
  FilterCtx list_filter_device list_filter_group (list_filter_wq idle) list_filter_engine.

(** [lfa.jdevices = json_object_new_array(); ... util_filter_walk(ctx, &fctx, param)] *)
Definition walk_listing (fctx : util_filter_ctx (lstate F S)) (flags : Z) (ctx : positive)
    (param : util_filter_params) : L Z :=
  jdevices ← json json_object_new_array;
  upd_arg (λ a, a <| lf_jdevices := jdevices |>);;
  match jdevices with
  | None => mret (- ENOMEM)
  | Some _ =>
      upd_arg (λ a, a <| lf_flags := flags |>);;
      util_filter_walk (@in_world) ctx fctx param
  end.

(** ** accfg/config.c *)

(* accfg/config.c:876-942 config_group_to_json *)
Definition config_group_to_json (group : positive) : J (option positive) :=
  jgroup ← json_object_new_object;
  match jgroup with
  | None => mret None
  | Some jgroup =>
      or_put jgroup (steps (group_dev group jgroup :: group_buffers group jgroup ++
        [member jgroup "traffic_class_a" (new_int (accfg_group_get_traffic_class_a group));
         member jgroup "traffic_class_b" (new_int (accfg_group_get_traffic_class_b group))] ++
        group_limits group jgroup))
  end.

(** The object of a device that is not shown is NULL, and an element all the same. *)
(* accfg/config.c:1095-1145 filter_device *)
Definition config_filter_device (device : positive) : L bool :=
  max_groups ← in_world (accfg_device_get_max_groups device);
  flags ← arg lf_flags;
  jdevice ← json (util_device_to_json device flags);
  upd_arg (λ a, a <| lf_jdevice := jdevice |>);;
  jdevices ← arg lf_jdevices;
  match jdevices with
  | None => mret false
  | Some jdevices =>
      jc ← new_container (s32 max_groups) device;
      match jc with
      | None => mret false
      | Some jc =>
          upd_arg (λ a, a <| lf_jdev_list ::= cons jc |>);;
          json (json_object_array_add jdevices jdevice);;
          mret true
      end
  end.

(** [group_num % max_groups], of [int]; a negative index is out of the arrays. *)
Definition imod (m : Z) (n : Z) : L nat :=
  if m =? 0 then fault else let i := Z.rem n m in if i <? 0 then fault else mret (Z.to_nat i).

(* accfg/config.c:1147-1191 filter_group *)
Definition config_filter_group (group : positive) : L bool :=
  container ← arg lf_jdevice;
  dev ← in_world (accfg_group_get_device group);
  max_groups ← in_world (accfg_device_get_max_groups dev);
  jc ← find_container dev;
  match jc with
  | None => mret false
  | Some jc =>
      add_group_object jc container (json (config_group_to_json group)) group (imod (s32 max_groups))
  end.

(* accfg/config.c:1193-1241 filter_wq *)
Definition config_filter_wq (wq : positive) : L bool :=
  dev ← in_world (accfg_wq_get_device wq);
  max_groups ← in_world (accfg_device_get_max_groups dev);
  jc ← find_container dev;
  match jc with
  | None => mret false
  | Some jc =>
      skip ← not_shown false wq;
      if skip : bool then mret true
      else
        flags ← arg lf_flags;
        jwq ← json (util_wq_to_json wq flags);
        match jwq with
        | None => mret false
        | Some jwq =>
            r ← put_in_slots wq_slots (add_to "grouped_workqueues") jc (accfg_wq_get_group_id wq) jwq
                  (slot_range (s32 max_groups)) false;
            mret (match r with Some _ => true | None => false end)
        end
  end.

(* accfg/config.c:1243-1289 filter_engine *)
Definition config_filter_engine (engine : positive) : L bool :=
  dev ← in_world (accfg_engine_get_device engine);
  max_groups ← in_world (accfg_device_get_max_groups dev);
  jc ← find_container dev;
  match jc with
  | None => mret false
  | Some jc =>
      flags ← arg lf_flags;
      jengine ← json (util_engine_to_json engine flags);
      match jengine with
      | None => mret false
      | Some jengine =>
          r ← put_in_slots engine_slots (add_to "grouped_engines") jc (accfg_engine_get_group_id engine)
                jengine (slot_range (s32 max_groups)) false;
          mret (match r with Some _ => true | None => false end)
      end
  end.

Definition config_callbacks : util_filter_ctx (lstate F S) :=
  FilterCtx config_filter_device config_filter_group config_filter_wq config_filter_engine.
End listing.

(** The walk of a command that shows nothing: the objects it built are left behind. *)
Definition silent_walk {F} `{Kernel F} (S : Type) `{JsonOut S} (flags : Z) (ctx : positive) (param : util_filter_params) :
    prog (world F) Z := λ w,
  match walk_listing (S := S) config_callbacks flags ctx param (LState (JState w js_empty "") zero_list_arg false) with
  | Done rc l => Done rc (j_world (l_json l))
  | Exited e l => Exited e (j_world (l_json l))
  | Fault => Fault
  end.
