(* ===== verification/Commands.v ===== *)
(** * The commands with their options: accfg/enable.c, accfg/config_attr.c

    A command is called with its whole command line.  It reads the options into its
    static variables, by the table it gives to [parse_options], and goes on with
    the arguments left.  A variable is named as in C, and starts as its
    initialiser says. *)

From S2P Require Import Prelude CString Prog Strbuf ParseOptions Types Sysfs Param Tree Device Wq Filter Enable ConfigAttr.
Local Open Scope string_scope.
Local Open Scope Z_scope.

(** ** Variables *)

Definition int_of (vars : variables) (v : string) : Z :=
  match vars !! v with Some (VInt z) | Some (VUint z) | Some (VU64 z) => z | _ => 0 end.
Definition bool_of (vars : variables) (v : string) : bool :=
  match vars !! v with Some (VBool b) => b | _ => false end.
Definition string_of (vars : variables) (v : string) : option string :=
  match vars !! v with Some (VStr s) => s | _ => None end.

(** ** The tables and the variables they fill *)

(* accfg/enable.c:33-36 param *)
Definition param_vars : variables :=
  {["param.verbose" := VBool false; "param.force" := VBool false]}.

(* accfg/enable.c:38-41 device_options *)
Definition device_options : list opt :=
  [OPT_BOOLEAN "v" "verbose" "param.verbose" "turn on debug"; OPT_END].

(* accfg/enable.c:43-47 device_disable_options *)
Definition device_disable_options : list opt :=
  [OPT_BOOLEAN "v" "verbose" "param.verbose" "turn on debug";
   OPT_BOOLEAN "f" "force" "param.force" "force action"; OPT_END].

Definition dev_param_vars : variables :=
  {["dev_param.read_buffer_limit" := VUint (dp_read_buffer_limit dev_param);
    "dev_param.event_log_size" := VInt (dp_event_log_size dev_param)]}.
(* accfg/config_attr.c:403-409 cmd_config_device *)
Definition config_device_options : list opt :=
  [OPT_UINTEGER "l" "read-buffer-limit" "dev_param.read_buffer_limit" "specify read buffer limit by device";
   OPT_INTEGER "e" "event-log-size" "dev_param.event_log_size" "specify event log size for device";
   OPT_END].
Definition dev_param_of (vars : variables) : dev_parameters :=
  DevParams (int_of vars "dev_param.read_buffer_limit") (int_of vars "dev_param.event_log_size").

Definition group_param_vars : variables :=
  {["group_param.read_buffers_reserved" := VUint (gp_read_buffers_reserved group_param);
    "group_param.read_buffers_allowed" := VUint (gp_read_buffers_allowed group_param);
    "group_param.use_read_buffer_limit" := VUint (gp_use_read_buffer_limit group_param);
    "group_param.traffic_class_a" := VInt (gp_traffic_class_a group_param);
    "group_param.traffic_class_b" := VInt (gp_traffic_class_b group_param);
    "group_param.desc_progress_limit" := VInt (gp_desc_progress_limit group_param);
    "group_param.batch_progress_limit" := VInt (gp_batch_progress_limit group_param)]}.
(* accfg/config_attr.c:452-475 cmd_config_group *)
Definition config_group_options : list opt :=
  [OPT_UINTEGER "r" "read-buffers-reserved" "group_param.read_buffers_reserved"
     "specify read buffers reserved by group";
   OPT_UINTEGER "t" "read-buffers-allowed" "group_param.read_buffers_allowed"
     "specify read buffers allowed by group";
   OPT_UINTEGER "l" "use-read-buffer-limit" "group_param.use_read_buffer_limit"
     "specify read buffer limit by group";
   OPT_INTEGER "a" "traffic-class-a" "group_param.traffic_class_a" "specify traffic-class-a by group";
   OPT_INTEGER "b" "traffic-class-b" "group_param.traffic_class_b" "specify traffic-class-b by group";
   OPT_INTEGER "d" "desc-progress-limit" "group_param.desc_progress_limit"
     "specify desc progress limit for group";
   OPT_INTEGER "p" "batch-progress-limit" "group_param.batch_progress_limit"
     "specify batch progress limit for group";
   OPT_END].
Definition group_param_of (vars : variables) : group_parameters :=
  GroupParams (int_of vars "group_param.read_buffers_reserved") (int_of vars "group_param.read_buffers_allowed")
    (int_of vars "group_param.use_read_buffer_limit") (int_of vars "group_param.traffic_class_a")
    (int_of vars "group_param.traffic_class_b") (int_of vars "group_param.desc_progress_limit")
    (int_of vars "group_param.batch_progress_limit").

Definition wq_param_vars : variables :=
  {["wq_param.group_id" := VInt (wp_group_id wq_param);
    "wq_param.wq_size" := VUint (wp_wq_size wq_param);
    "wq_param.threshold" := VUint (wp_threshold wq_param);
    "wq_param.priority" := VUint (wp_priority wq_param);
    "wq_param.block_on_fault" := VInt (wp_block_on_fault wq_param);
    "wq_param.max_batch_size" := VUint (wp_max_batch_size wq_param);
    "wq_param.max_transfer_size" := VU64 (wp_max_transfer_size wq_param);
    "wq_param.ats_disable" := VInt (wp_ats_disable wq_param);
    "wq_param.prs_disable" := VInt (wp_prs_disable wq_param);
    "wq_param.mode" := VStr (wp_mode wq_param);
    "wq_param.type" := VStr (wp_type wq_param);
    "wq_param.name" := VStr (wp_name wq_param);
    "wq_param.driver_name" := VStr (wp_driver_name wq_param)]} ∪
  {["wq_param.op_config" := VStr (wp_op_config wq_param)]}.
(* accfg/config_attr.c:517-547 cmd_config_wq *)
Definition config_wq_options : list opt :=
  [OPT_INTEGER "g" "group-id" "wq_param.group_id" "specify group-id used by wq";
   OPT_UINTEGER "s" "wq-size" "wq_param.wq_size" "specify wq-size used by wq";
   OPT_UINTEGER "p" "priority" "wq_param.priority" "specify priority used by wq";
   OPT_INTEGER "b" "block-on-fault" "wq_param.block_on_fault" "specify block-on-fault by wq";
   OPT_INTEGER "r" "prs-disable" "wq_param.prs_disable" "specify prs-disable for wq";
   OPT_UINTEGER "t" "threshold" "wq_param.threshold" "specify threshold by wq";
   OPT_STRING "y" "type" "wq_param.type" "type" "specify type by wq";
   OPT_STRING "n" "name" "wq_param.name" "name" "specify name by wq";
   OPT_STRING "d" "driver-name" "wq_param.driver_name" "driver name" "specify wq driver name";
   OPT_STRING "o" "op-config" "wq_param.op_config" "op config" "specify wq op config";
   OPT_STRING "m" "mode" "wq_param.mode" "mode" "specify mode by wq";
   OPT_UINTEGER "c" "max-batch-size" "wq_param.max_batch_size" "specify max-batch-size used by wq";
   OPT_U64 "x" "max-transfer-size" "wq_param.max_transfer_size" "specify max-transfer-size used by wq";
   OPT_INTEGER "a" "ats-disable" "wq_param.ats_disable" "specify per wq ats-disable";
   OPT_END].
Definition wq_param_of (vars : variables) : wq_parameters :=
  WqParams (int_of vars "wq_param.group_id") (int_of vars "wq_param.wq_size")
    (int_of vars "wq_param.threshold") (int_of vars "wq_param.priority")
    (int_of vars "wq_param.block_on_fault") (int_of vars "wq_param.max_batch_size")
    (int_of vars "wq_param.max_transfer_size") (int_of vars "wq_param.ats_disable")
    (int_of vars "wq_param.prs_disable") (string_of vars "wq_param.mode") (string_of vars "wq_param.type")
    (string_of vars "wq_param.name") (string_of vars "wq_param.driver_name")
    (string_of vars "wq_param.op_config").

Definition engine_param_vars : variables :=
  {["engine_param.group_id" := VInt (ep_group_id engine_param)]}.
(* accfg/config_attr.c:590-594 cmd_config_engine *)
Definition config_engine_options : list opt :=
  [OPT_INTEGER "g" "group-id" "engine_param.group_id" "specify group-id used by engine"; OPT_END].
Definition engine_param_of (vars : variables) : engine_parameters :=
  EngineParams (int_of vars "engine_param.group_id").

(** ** Options, then the command *)

(** The process has one [errno]: the parser's is the library's. *)
Definition parser_errno {F} (p : pstate) (w : world F) : world F :=
  match p_errno p with Some e => w <| errno := e |> | None => w end.

Section options.
Context (alloc_ok : Z → bool) {T : Type}.

(** Options first, then the command on what they leave. *)
Definition after_options {F A} (argv : list string) (table : list opt) (usage : string) (vars : variables)
    (k : list string → variables → prog (world F) A) : prog (world F) A := λ w,
  match parse_options alloc_ok argv table (Some [usage]) 0 vars with
  | Done args p => k args (p_vars p) (parser_errno p w)
  | Exited c _ => Exited c w
  | Fault => Fault
  end.

(** A command that takes options only, which may name files relative to [prefix]:
    arguments left over are reported and end the process.  The tables of these commands
    have no number, the only options that set [errno]. *)
Definition options_only (prefix : option string) (argv : list string) (options : list opt) (u : string)
    (vars : variables) : prog T variables := λ c,
  match parse_options_prefix alloc_ok argv prefix options (Some [u]) 0 vars with
  | Done args p =>
      match args with
      | [] => Done (p_vars p) c
      | _ =>
          match (for_each args (λ a, error ("unknown parameter " +:+ String "034" (a +:+ String "034" (String NL "")));; mret ());;
                 usage_with_options (A := unit) (Some [u]) options) p with
          | Done _ p => Done (p_vars p) c
          | Exited e _ => Exited e c
          | Fault => Fault
          end
      end
  | Exited e _ => Exited e c
  | Fault => Fault
  end.
End options.

(** ** The commands *)

Section commands.
Context {F : Type} `{Kernel F} (alloc_ok : Z → bool).
Notation M := (prog (world F)).
Definition command : Type := list string → positive → M Z.

(* accfg/enable.c:246-253 cmd_disable_device *)
Definition main_disable_device : command := λ argv ctx,
  after_options alloc_ok argv device_disable_options
    "accel-config disable-device <accel_basename0> [<accel_basename1>..<accel_basenameN>] [<options>]"
    param_vars (λ args vars, cmd_disable_device (bool_of vars "param.force") args ctx).
(* accfg/enable.c:255-262 cmd_enable_device *)
Definition main_enable_device : command := λ argv ctx,
  after_options alloc_ok argv device_options
    "accel-config enable-device <accel_basename0> [<accel_basename1>..<accel_basenameN>] [<options>]"
    param_vars (λ args vars, cmd_enable_device (bool_of vars "param.force") args ctx).
(* accfg/enable.c:264-271 cmd_disable_wq *)
Definition main_disable_wq : command := λ argv ctx,
  after_options alloc_ok argv device_disable_options
    "accel-config disable-wq <accel_basenameX>/<wqX.0> [<wqX.1>..<wqX.N>] [<options>] X is the device number where wq belongs to"
    param_vars (λ args vars, cmd_disable_wq (bool_of vars "param.force") args ctx).
(* accfg/enable.c:273-281 cmd_enable_wq *)
Definition main_enable_wq : command := λ argv ctx,
  after_options alloc_ok argv device_options
    "accel-config enable-wq <accel_basenameX>/<wqX.0> [<wqX.1>..<wqX.N>] [<options>] X is the device number where wq belongs to"
    param_vars (λ args vars, cmd_enable_wq (bool_of vars "param.force") args ctx).

(* accfg/config_attr.c:398-446 cmd_config_device *)
Definition main_config_device : command := λ argv ctx,
  after_options alloc_ok argv config_device_options "accel-config config-device <device name> [<options>]"
    dev_param_vars (λ args vars, cmd_config_device args (dev_param_of vars) ctx).
(* accfg/config_attr.c:448-511 cmd_config_group *)
Definition main_config_group : command := λ argv ctx,
  after_options alloc_ok argv config_group_options "accel-config config-group <device name>/<group name> [<options>]"
    group_param_vars (λ args vars, cmd_config_group args (group_param_of vars) ctx).
(* accfg/config_attr.c:513-584 cmd_config_wq *)
Definition main_config_wq : command := λ argv ctx,
  after_options alloc_ok argv config_wq_options "accel-config config-wq <device name>/<wq name> [<options>]"
    wq_param_vars (λ args vars, cmd_config_wq args (wq_param_of vars) ctx).
(* accfg/config_attr.c:586-635 cmd_config_engine *)
Definition main_config_engine : command := λ argv ctx,
  after_options alloc_ok argv config_engine_options "accel-config config-engine <device name>/<engine name> [<options>]"
    engine_param_vars (λ args vars, cmd_config_engine args (engine_param_of vars) ctx).
End commands.
