(* ===== verification/Config.v ===== *)
(** * accfg/config.c: the load-config and config-default commands

    The file's static variables are the record [statics], next to the world of
    the library: a function of this file is a [C], a call of the library in it is
    a [in_lib].  Documents are values of a [JsonC] (Json).  Messages have no
    effect; names that are composed for a message are computed.

    A member of an activation list is the pointer in it: the nodes are freed
    while the list is walked, and nothing reads the lists again. *)

From S2P Require Import Prelude CString Prog ParseOptions Types Sysfs Param Tree Device Wq Filter ConfigAttr Json JsonStore JsonUtil Listing Commands.
Local Open Scope string_scope.
Local Open Scope Z_scope.

(** ** The tables of attributes *)

(** Which of the function pointers of an entry is set. *)
Inductive set_func (S : Type) : Type :=
  | set_int_func (f : positive → Z → prog S Z)
  | set_long_func (f : positive → Z → prog S Z)
  | set_str_func (f : positive → string → prog S Z).
Arguments set_int_func {S} f.
Arguments set_long_func {S} f.
Arguments set_str_func {S} f.

(** The [device_set_table], [group_set_table], [wq_set_table] and [engine_set_table]
    of the code in one: only a queue's has a function for a long, and only those
    of groups and queues have [is_writable]; the loops over the others skip an entry
    with that function only. *)
(* accfg/config.c:52-77 wq_set_table *)
Record set_table_entry (S : Type) := SetEntry {
  te_name : string;
  te_set : set_func S;
  te_is_writable : option (positive → Z → prog S bool);
}.
Arguments SetEntry {S} te_name te_set te_is_writable.
Arguments te_name {S} _.
Arguments te_set {S} _.
Arguments te_is_writable {S} _.

(** The entry that the loop over a table stops at, and whether there is one. *)
Definition find_entry {S} (key : string) (table : list (set_table_entry S)) : option (set_table_entry S) :=
  List.find (λ e, strcmp_eq key (te_name e)) table.
Definition attribute_filter {S} (table : list (set_table_entry S)) (key : string) : bool :=
  existsb (λ e, strcmp_eq key (te_name e)) table.

Section tables.
Context {F : Type} `{Kernel F}.
Notation M := (prog (world F)).
Notation entry := (set_table_entry (world F)).

(* accfg/config.c:238-250 is_group_read_buffer_limit_writable *)
Definition is_group_read_buffer_limit_writable (group : positive) (val : Z) : M bool :=
  dev ← accfg_group_get_device group;
  read_buffer_limit ← accfg_device_get_read_buffer_limit dev;
  mret (negb (read_buffer_limit =? 0)).

(* accfg/config.c:253-260 is_group_read_buffer_attribs_writable *)
Definition is_group_read_buffer_attribs_writable (group : positive) (val : Z) : M bool :=
  mret (negb (val =? -1)).

(* accfg/config.c:262-272 is_group_desc_progress_limit_writable *)
Definition is_group_desc_progress_limit_writable (group : positive) (val : Z) : M bool :=
  if (val <? 0) || (3 <? val) then mret false
  else l ← accfg_group_get_desc_progress_limit group; mret (negb (l <? 0)).

(* accfg/config.c:274-284 is_group_batch_progress_limit_writable *)
Definition is_group_batch_progress_limit_writable (group : positive) (val : Z) : M bool :=
  if (val <? 0) || (3 <? val) then mret false
  else l ← accfg_group_get_batch_progress_limit group; mret (negb (l <? 0)).

(* accfg/config.c:286-299 is_group_traffic_class_writable *)
Definition is_group_traffic_class_writable (group : positive) (val : Z) : M bool :=
  device ← accfg_group_get_device group;
  version ← accfg_device_get_version device;
  mret (negb (version <? ACCFG_DEVICE_VERSION_2) && negb (val =? -1)).

(* accfg/config.c:301-307 is_wq_threshold_writable *)
Definition is_wq_threshold_writable (wq : positive) (val : Z) : M bool :=
  mode ← accfg_wq_get_mode wq; mret (negb (mode =? ACCFG_WQ_DEDICATED)).

(* accfg/config.c:309-318 is_wq_prs_disable_writable *)
Definition is_wq_prs_disable_writable (wq : positive) (val : Z) : M bool :=
  if (val <? 0) || (1 <? val) then mret false
  else v ← accfg_wq_get_prs_disable wq; mret (negb (v <? 0)).

(* accfg/config.c:320-329 is_wq_ats_disable_writable *)
Definition is_wq_ats_disable_writable (wq : positive) (val : Z) : M bool :=
  if (val <? 0) || (1 <? val) then mret false
  else v ← accfg_wq_get_ats_disable wq; mret (negb (v <? 0)).

(* accfg/config.c:79-83 device_table *)
Definition device_table : list entry :=
  [SetEntry "token_limit" (set_int_func (λ d, accfg_device_set_read_buffer_limit (Some d))) None;
   SetEntry "read_buffer_limit" (set_int_func (λ d, accfg_device_set_read_buffer_limit (Some d))) None;
   SetEntry "event_log_size" (set_int_func (λ d, accfg_device_set_event_log_size (Some d))) None].

(* accfg/config.c:96-117 group_table *)
Definition group_table : list entry :=
  [SetEntry "tokens_reserved" (set_int_func accfg_group_set_read_buffers_reserved)
     (Some is_group_read_buffer_attribs_writable);
   SetEntry "read_buffers_reserved" (set_int_func accfg_group_set_read_buffers_reserved)
     (Some is_group_read_buffer_attribs_writable);
   SetEntry "use_token_limit" (set_int_func accfg_group_set_use_read_buffer_limit)
     (Some is_group_read_buffer_limit_writable);
   SetEntry "use_read_buffer_limit" (set_int_func accfg_group_set_use_read_buffer_limit)
     (Some is_group_read_buffer_limit_writable);
   SetEntry "tokens_allowed" (set_int_func accfg_group_set_read_buffers_allowed)
     (Some is_group_read_buffer_attribs_writable);
   SetEntry "read_buffers_allowed" (set_int_func accfg_group_set_read_buffers_allowed)
     (Some is_group_read_buffer_attribs_writable);
   SetEntry "traffic_class_a" (set_int_func accfg_group_set_traffic_class_a)
     (Some is_group_traffic_class_writable);
   SetEntry "traffic_class_b" (set_int_func accfg_group_set_traffic_class_b)
     (Some is_group_traffic_class_writable);
   SetEntry "desc_progress_limit" (set_int_func accfg_group_set_desc_progress_limit)
     (Some is_group_desc_progress_limit_writable);
   SetEntry "batch_progress_limit" (set_int_func accfg_group_set_batch_progress_limit)
     (Some is_group_batch_progress_limit_writable)].

(* accfg/config.c:206-224 wq_table *)
Definition wq_table : list entry :=
  [SetEntry "size" (set_int_func accfg_wq_set_size) None;
   SetEntry "priority" (set_int_func accfg_wq_set_priority) None;
   SetEntry "group_id" (set_int_func accfg_wq_set_group_id) None;
   SetEntry "block_on_fault" (set_int_func accfg_wq_set_block_on_fault) None;
   SetEntry "type" (set_str_func accfg_wq_set_str_type) None;
   SetEntry "name" (set_str_func accfg_wq_set_str_name) None;
   SetEntry "driver_name" (set_str_func accfg_wq_set_str_driver_name) None;
   SetEntry "op_config" (set_str_func (λ q s, accfg_wq_set_op_config_str (Some q) (Some s))) None;
   SetEntry "mode" (set_str_func accfg_wq_set_str_mode) None;
   SetEntry "max_batch_size" (set_int_func accfg_wq_set_max_batch_size) None;
   SetEntry "max_transfer_size" (set_long_func accfg_wq_set_max_transfer_size) None;
   SetEntry "threshold" (set_int_func accfg_wq_set_threshold) (Some is_wq_threshold_writable);
   SetEntry "ats_disable" (set_int_func accfg_wq_set_ats_disable) (Some is_wq_ats_disable_writable);
   SetEntry "prs_disable" (set_int_func accfg_wq_set_prs_disable) (Some is_wq_prs_disable_writable)].

(* accfg/config.c:226-228 engine_table *)
Definition engine_table : list entry :=
  [SetEntry "group_id" (set_int_func accfg_engine_set_group_id) None].

(** ** One attribute *)

Section set_val.
Context {J : Type} `{JsonC J}.

(** [errno = 0; val = json_object_get_int(jobj);] *)
Definition read_number (conv : J → Z * option Z) (jobj : J) : M Z :=
  set_errno 0;;
  let '(val, e) := conv jobj in
  match e with Some e => set_errno e | None => mret () end;;
  mret val.

(** [val == 0 && errno == EINVAL] *)
Definition not_a_number (val : Z) : M bool := e ← get_errno; mret ((val =? 0) && (e =? EINVAL)).

(** [rc = set(p, val); if (rc != 0) return rc; return 0;] *)
Definition set_with {A} (set : positive → A → M Z) (p : positive) (val : A) : M Z :=
  rc ← set p val; if negb (rc =? 0) then mret rc else mret 0.

(** [is_writable && !is_writable(p, val)] *)
Definition refused (e : entry) (p : positive) (val : Z) : M bool :=
  match te_is_writable e with
  | Some w => ok ← w p (s32 val); mret (negb ok)
  | None => mret false
  end.

Definition set_string (set : positive → string → M Z) (p : positive) (jobj : J) : M Z :=
  match json_object_get_string jobj with
  | None => mret (- EINVAL)
  | Some val => set_with set p val
  end.

(* accfg/config.c:331-339 device_attribute_filter *)
Definition device_attribute_filter : string → bool := attribute_filter device_table.
(* accfg/config.c:341-349 group_attribute_filter *)
Definition group_attribute_filter : string → bool := attribute_filter group_table.
(* accfg/config.c:352-360 wq_attribute_filter *)
Definition wq_attribute_filter : string → bool := attribute_filter wq_table.
(* accfg/config.c:362-370 engine_attribute_filter *)
Definition engine_attribute_filter : string → bool := attribute_filter engine_table.

(* accfg/config.c:372-416 device_json_set_val *)
Definition device_json_set_val (dev : option positive) (jobj : option J) (key : option string) : M Z :=
  match dev, jobj, key with
  | Some dev, Some jobj, Some key =>
      if negb (device_attribute_filter key) then mret 0
      else
        match find_entry key device_table with
        | None => mret (- ENOENT)
        | Some e =>
            match te_set e with
            | set_long_func _ => mret (- ENOENT)
            | set_int_func set =>
                val ← read_number json_object_get_int jobj;
                bad ← not_a_number val;
                if bad : bool then mret (- EINVAL) else set_with set dev val
            | set_str_func set => set_string set dev jobj
            end
        end
  | _, _, _ => mret (- EINVAL)
  end.

(* accfg/config.c:418-483 wq_json_set_val *)
Definition wq_json_set_val (wq : option positive) (jobj : option J) (key : option string) : M Z :=
  match wq, jobj, key with
  | Some wq, Some jobj, Some key =>
      if negb (wq_attribute_filter key) then mret 0
      else
        match find_entry key wq_table with
        | None => mret (- ENOENT)
        | Some e =>
            let number (conv : J → Z * option Z) (to : Z → Z) set :=
              val ← read_number conv jobj;
              bad ← not_a_number val;
              if bad : bool then neg_errno
              else
                no ← refused e wq (to val);
                if no : bool then mret 0 else set_with set wq (to val) in
            match te_set e with
            | set_int_func set => number json_object_get_int (λ z, z) set
            | set_long_func set => number json_object_get_int64 u64 set
            | set_str_func set => set_string set wq jobj
            end
        end
  | _, _, _ => mret (- EINVAL)
  end.

(** The attributes an IAX device does not have. *)
Definition iax_ignored : list string :=
  ["tokens_reserved"; "use_token_limit"; "tokens_allowed"; "read_buffers_reserved";
   "use_read_buffer_limit"; "read_buffers_allowed"].

(* accfg/config.c:485-552 group_json_set_val *)
Definition group_json_set_val (group : option positive) (jobj : option J) (key : option string) : M Z :=
  dev ← match group with Some g => d ← accfg_group_get_device g; mret (Some d) | None => mret None end;
  match group, jobj, key with
  | Some group, Some jobj, Some key =>
      if negb (group_attribute_filter key) then mret 0
      else
        match find_entry key group_table with
        | None => mret (- ENOENT)
        | Some e =>
            match te_set e with
            | set_long_func _ => mret (- ENOENT)
            | set_int_func set =>
                val ← read_number json_object_get_int jobj;
                bad ← not_a_number val;
                if bad || (val <? 0) then mret (- EINVAL)
                else
                  d ← must dev;
                  type ← accfg_device_get_type d;
                  if (type =? ACCFG_DEVICE_IAX) && existsb (strcmp_eq (te_name e)) iax_ignored then mret 0
                  else
                    no ← refused e group val;
                    if no : bool then mret 0 else set_with set group val
            | set_str_func set => set_string set group jobj
            end
        end
  | _, _, _ => mret (- EINVAL)
  end.

(* accfg/config.c:554-605 engine_json_set_val *)
Definition engine_json_set_val (engine : option positive) (jobj : option J) (key : option string) : M Z :=
  match engine, jobj, key with
  | Some engine, Some jobj, Some key =>
      if negb (engine_attribute_filter key) then mret 0
      else
        match find_entry key engine_table with
        | None => mret (- ENOENT)
        | Some e =>
            match te_set e with
            | set_long_func _ => mret (- ENOENT)
            | set_int_func set =>
                val ← read_number json_object_get_int jobj;
                bad ← not_a_number val;
                if bad : bool then mret (- EINVAL) else set_with set engine val
            | set_str_func set => set_string set engine jobj
            end
        end
  | _, _, _ => mret (- EINVAL)
  end.
End set_val.
End tables.

(** ** The static variables *)

(* accfg/config.c:157-160 conf_def_wq_param *)
Record conf_def_wq_param := ConfDef { cd_param : wq_parameters; cd_configured : bool }.
#[export] Instance eta_conf_def_wq_param : Eta conf_def_wq_param := λ r,
  ConfDef (cd_param r) (cd_configured r).

(** [struct config] has four more members, which no code uses.  Of the buffer,
    the bytes that were read: the rest of it is not initialised. *)
(* accfg/config.c:36-44 config *)
Record config := MkConfig {
  cf_config_file : option string;
  cf_user_default_wq_name : option string;
  cf_buf : option string;
}.
#[export] Instance eta_config : Eta config := λ r,
  MkConfig (cf_config_file r) (cf_user_default_wq_name r) (cf_buf r).

(** The file's variables, then those of [configure_json_value]. *)
(* accfg/config.c:23-30 activate_dev_list *)
Record statics := Statics {
  st_verbose : bool;
  st_enable : bool;
  st_forced : bool;
  st_warn_once : bool;
  activate_dev_list : list positive;
  activate_wq_list : list positive;
  st_config : config;
  conf_def_wq_params : list conf_def_wq_param;   (* indexed by the type of device *)
  config_default_file : bool;
  st_dev : option positive;
  st_parent : option positive;
  st_wq : option positive;
  st_engine : option positive;
  st_group : option positive;
}.
#[export] Instance eta_statics : Eta statics := λ r,
  Statics (st_verbose r) (st_enable r) (st_forced r) (st_warn_once r) (activate_dev_list r)
    (activate_wq_list r) (st_config r) (conf_def_wq_params r) (config_default_file r) (st_dev r)
    (st_parent r) (st_wq r) (st_engine r) (st_group r).

Definition zero_wq_parameters : wq_parameters :=
  WqParams 0 0 0 0 0 0 0 0 0 None None None None None.
Definition initial_statics : statics :=
  Statics false false false true [] [] (MkConfig None None None)
    (replicate (Z.to_nat ACCFG_DEVICE_MAX) (ConfDef zero_wq_parameters false)) false None None None None None.

(* accfg/config.c:46-50 config_opts_to_flags *)
Definition config_opts_to_flags : Z := 0.

(* accfg/config.c:26-26 util_param *)
Definition util_param : util_filter_params := FilterParams None None None None.

Record cstate (F : Type) := CState { c_world : world F; c_statics : statics }.
Arguments CState {F} c_world c_statics.
Arguments c_world {F} _.
Arguments c_statics {F} _.
#[export] Instance eta_cstate F : Eta (cstate F) := λ r, CState (c_world r) (c_statics r).

(** ** Files read through stdio

    [k_fstat] is the size of a file; [k_fread] reads at most so many bytes, fewer
    at the end of the file or after an error. *)
Class Stdio (F : Type) := {
  k_fopen : string → F → kres unit * F;
  k_fstat : string → F → kres Z * F;
  k_fread : string → Z → F → string * F;
}.

(** [accfg_basenames[0]] is tried twice: the loop indexes the array from 0 after
    the first turn too.  The array ends with NULL. *)
Definition accel_types : list string :=
  match accfg_basenames with [] => [] | b :: _ => b :: accfg_basenames end.

(** [&s[n]], for an offset in the string. *)
Definition from (n : Z) (s : string) : string := String.substring (Z.to_nat n) (String.length s) s.

(** [sscanf(s, "%d.%d", &a, &b)] when it answers 2. *)
Definition sscanf_d_d (s : string) : option (Z * Z) :=
  match scan_conv strtol 10 s with
  | ConvOk a rest =>
      match literal "." rest with
      | Some s2 => match scan_conv strtol 10 s2 with
                   | ConvOk b _ => Some (s32 a, s32 b)
                   | _ => None
                   end
      | None => None
      end
  | _ => None
  end.

Section config.
Context {F : Type} `{Kernel F} {J : Type} `{JsonC J}.
Notation M := (prog (world F)).
Notation C := (prog (cstate F)).

(** A call of the library. *)
Definition in_lib {A} (m : M A) : C A := λ c,
  match m (c_world c) with
  | Done a w => Done a (c <| c_world := w |>)
  | Exited e w => Exited e (c <| c_world := w |>)
  | Fault => Fault
  end.

Definition static {A} (f : statics → A) : C A := gets (λ c, f (c_statics c)).
Definition set_static (f : statics → statics) : C unit := modify (λ c, c <| c_statics ::= f |>).

(** [if (rc) return rc;] *)
Definition if_ok (rc : Z) (k : C Z) : C Z := if negb (rc =? 0) then mret rc else k.

(** ** Activation *)

(* accfg/config.c:610-623 add_to_activation_list *)
Definition add_to_activation_list (add : positive → statics → statics) (dev : positive) : C Z :=
  ok ← in_lib alloc;
  if negb ok then mret (- ENOMEM)
  else set_static (add dev);; mret 0.

(** [list_add] puts a node first. *)
Definition add_dev (dev : positive) (st : statics) : statics := st <| activate_dev_list ::= cons dev |>.
Definition add_wq (wq : positive) (st : statics) : statics := st <| activate_wq_list ::= cons wq |>.

(** One list: the first failure ends it. *)
Fixpoint activate_all (get_devname : positive → M string) (enable : positive → M Z) (l : list positive)
    (k : M Z) : M Z :=
  match l with
  | [] => k
  | dev :: l' =>
      get_devname dev;;
      rc ← enable dev;
      if negb (rc =? 0) then mret rc else activate_all get_devname enable l' k
  end.

(* accfg/config.c:628-656 activate_devices *)
Definition activate_devices : C Z :=
  devs ← static activate_dev_list;
  wqs ← static activate_wq_list;
  in_lib (activate_all accfg_device_get_devname (λ d, accfg_device_enable (Some d)) devs
    (activate_all accfg_wq_get_devname accfg_wq_enable wqs (mret 0))).

(** ** The parameters of default queues *)

(** The index of the parameters in [conf_def_wq_param]; [None] is NULL. *)
(* accfg/config.c:165-173 get_conf_def_wq_param *)
Definition get_conf_def_wq_param (type : Z) : option nat :=
  if type =? ACCFG_DEVICE_DSA then Some (Z.to_nat ACCFG_DEVICE_DSA)
  else if type =? ACCFG_DEVICE_IAX then Some (Z.to_nat ACCFG_DEVICE_IAX)
  else None.

Definition get_conf (i : nat) : C conf_def_wq_param :=
  l ← static conf_def_wq_params; must (l !! i).
Definition upd_conf (i : nat) (f : conf_def_wq_param → conf_def_wq_param) : C unit :=
  set_static (λ st, st <| conf_def_wq_params ::= alter f i |>).
Definition upd_param (i : nat) (f : wq_parameters → wq_parameters) : C unit :=
  upd_conf i (λ c, c <| cd_param ::= f |>).

(* accfg/config.c:176-184 conf_def_dev_configured *)
Definition conf_def_dev_configured (dev : positive) : C bool :=
  type ← in_lib (accfg_device_get_type dev);
  match get_conf_def_wq_param type with
  | Some i => c ← get_conf i; mret (cd_configured c)
  | None => mret false
  end.

(** A division by zero, and the one that overflows, are undefined. *)
(* accfg/config.c:123-131 get_wq_size *)
Definition get_wq_size (dev : positive) : M Z :=
  max_wq_size ← accfg_device_get_max_work_queues_size dev;
  max_wqs ← accfg_device_get_max_work_queues dev;
  if (s32 max_wqs =? 0) || (s32 max_wq_size =? - 2 ^ 31) && (s32 max_wqs =? -1) then fault
  else mret (Z.quot (s32 max_wq_size) (s32 max_wqs)).

(* accfg/config.c:187-204 config_default_wq_set_on_dev *)
Definition config_default_wq_set_on_dev (dev : positive) : C Z :=
  dev_type ← in_lib (accfg_device_get_type dev);
  match get_conf_def_wq_param dev_type with
  | None => mret (- EINVAL)
  | Some p =>
      size ← in_lib (get_wq_size dev);
      upd_param p (λ w, w <| wp_wq_size := u32 size |>);;
      c ← get_conf p;
      if wp_wq_size (cd_param c) <=? 0 then mret (- ENOSPC)
      else upd_param p (λ w, w <| wp_threshold := wp_wq_size (cd_param c) |>);; mret 0
  end.

(* accfg/config.c:658-689 config_default_json *)
Definition config_default_json (wq : positive) (jobj : J) (key : string) : C unit :=
  dev ← in_lib (accfg_wq_get_device wq);
  dev_type ← in_lib (accfg_device_get_type dev);
  in_lib (accfg_device_get_type_str dev);;
  match get_conf_def_wq_param dev_type with
  | None => mret ()
  | Some p =>
      let number (f : Z → wq_parameters → wq_parameters) :=
        let '(v, e) := json_object_get_int jobj in
        match e with Some e => in_lib (set_errno e) | None => mret () end;;
        upd_param p (f v) in
      if strcmp_eq key "name" then
        s ← must (json_object_get_string jobj);
        name ← in_lib (strdup s);
        upd_param p (λ w, w <| wp_name := name |>)
      else if strcmp_eq key "priority" then number (λ v w, w <| wp_priority := u32 v |>)
      else if strcmp_eq key "group_id" then number (λ v w, w <| wp_group_id := v |>)
      else if strcmp_eq key "block_on_fault" then number (λ v w, w <| wp_block_on_fault := v |>)
      else if strcmp_eq key "ats_disable" then number (λ v w, w <| wp_ats_disable := v |>)
      else if strcmp_eq key "prs_disable" then number (λ v w, w <| wp_prs_disable := v |>)
      else mret ()
  end.

(** ** One member of an object *)

(** The name is a device's: it becomes [dev] and [parent], unless it is active
    and is skipped.  [None] goes on after the loop. *)
Definition configure_dev (ctx : positive) (parsed_string : string) : C (option Z) :=
  set_static (λ st, st <| st_parent := None |>);;
  dev ← in_lib (accfg_ctx_device_get_by_name ctx parsed_string);
  set_static (λ st, st <| st_dev := dev |>);;
  match dev with
  | None => mret (Some (- ENOENT))
  | Some d =>
      dev_state ← in_lib (accfg_device_get_state dev);
      forced ← static st_forced;
      let go_on : C (option Z) :=
        enable ← static st_enable;
        rc ← if enable : bool then add_to_activation_list add_dev d else mret 0;
        if negb (rc =? 0) then mret (Some rc)
        else set_static (λ st, st <| st_parent := dev |>);; mret None in
      if decide (dev_state = ACCFG_DEVICE_ENABLED) then
        if forced : bool then
          rc ← in_lib (accfg_device_disable dev true);
          if negb (rc =? 0) then mret (Some rc) else go_on
        else set_static (λ st, st <| st_dev := None |>);; mret (Some 0)
      else go_on
  end.

(* accfg/config.c:719-769 configure_json_value *)
Fixpoint configure_accel (types : list string) (ctx : positive) (parsed_string : string) : C (option Z) :=
  match types with
  | [] => mret None
  | accel_type :: types' =>
      if strstr_in parsed_string accel_type then
        if MAX_DEV_LEN <? strlen accel_type then mret (Some (- EINVAL))
        else
          in_lib (sprintf_buf MAX_DEV_LEN accel_type);;
          match scan_conv strtol 10 (from (strlen accel_type) parsed_string) with
          | ConvOk _ _ => configure_dev ctx parsed_string
          | _ => mret (Some (- EINVAL))
          end
      else configure_accel types' ctx parsed_string
  end.

(** [if (strstr(parsed_string, kind))]: the identifier after it, and the child
    of [parent] that has it. *)
Definition configure_child (parent : positive) (kind parsed_string : string) (get_by_id : positive → Z → M (option positive))
    (set : option positive → statics → statics) (found : positive → C (option Z)) (k : C Z) : C Z :=
  if strstr_in parsed_string kind then
    match sscanf_d_d (from (strlen kind) parsed_string) with
    | None => mret (- EINVAL)
    | Some (_, id) =>
        child ← in_lib (get_by_id parent id);
        set_static (set child);;
        match child with
        | None => mret (- ENOENT)
        | Some child => r ← found child; match r with Some rc => mret rc | None => k end
        end
    end
  else k.

(** A queue that is found: an active one is skipped. *)
Definition configure_wq (wq : positive) : C (option Z) :=
  wq_state ← in_lib (accfg_wq_get_state wq);
  if decide (wq_state = ACCFG_WQ_ENABLED ∨ wq_state = ACCFG_WQ_LOCKED) then
    set_static (λ st, st <| st_wq := None |>);; mret (Some 0)
  else
    enable ← static st_enable;
    rc ← if enable : bool then add_to_activation_list add_wq wq else mret 0;
    mret (if negb (rc =? 0) then Some rc else None).

(** The key is [dev]: choose the object the members after it belong to. *)
(* accfg/config.c:711-822 configure_json_value *)
Definition choose_object (ctx : positive) (jobj : J) : C Z :=
  match json_object_get_string jobj with
  | None => mret (- EINVAL)
  | Some parsed_string =>
      set_static (λ st, st <| st_dev := None |> <| st_group := None |> <| st_wq := None |>
                           <| st_engine := None |>);;
      r ← configure_accel accel_types ctx parsed_string;
      match r with
      | Some rc => mret rc
      | None =>
          parent ← static st_parent;
          match parent with
          | None => mret 0
          | Some parent =>
              configure_child parent "wq" parsed_string accfg_device_wq_get_by_id
                (λ o st, st <| st_wq := o |>) configure_wq
              (configure_child parent "engine" parsed_string accfg_device_engine_get_by_id
                (λ o st, st <| st_engine := o |>) (λ _, mret None)
              (configure_child parent "group" parsed_string accfg_device_group_get_by_id
                (λ o st, st <| st_group := o |>) (λ _, mret None)
              (mret 0)))
          end
      end
  end.

(** [rc = ...; if (rc < 0) return rc; ... return 0;] *)
Definition negative_only (m : M Z) : C Z := rc ← in_lib m; mret (if rc <? 0 then rc else 0).

(** Another key: an attribute of the object chosen.  The states that were read
    when it was chosen are local variables of that call: here they are the ones
    of a disabled object. *)
(* accfg/config.c:824-873 configure_json_value *)
Definition set_attribute (jobj : J) (key : string) : C Z :=
  parent ← static st_parent;
  match parent with
  | None => mret 0
  | Some _ =>
      warn ← static st_warn_once;
      (if warn && strstr_in key "token" then set_static (λ st, st <| st_warn_once := false |>) else mret ());;
      st ← static id;
      match st_wq st, config_default_file st with
      | Some wq, true => config_default_json wq jobj key;; mret 0
      | _, _ =>
          match st_dev st, st_group st, st_wq st, st_engine st with
          | Some dev, _, _, _ => negative_only (device_json_set_val (Some dev) (Some jobj) (Some key))
          | None, Some group, _, _ => negative_only (group_json_set_val (Some group) (Some jobj) (Some key))
          | None, None, Some wq, _ => negative_only (wq_json_set_val (Some wq) (Some jobj) (Some key))
          | None, None, None, Some engine =>
              negative_only (engine_json_set_val (Some engine) (Some jobj) (Some key))
          | None, None, None, None => mret (- EINVAL)
          end
      end
  end.

(* accfg/config.c:694-874 configure_json_value *)
Definition configure_json_value (ctx : option positive) (jobj : option J) (key : option string) : C Z :=
  match ctx, jobj, key with
  | Some ctx, Some jobj, Some key =>
      if strcmp_eq key "dev" then choose_object ctx jobj else set_attribute jobj key
  | _, _, _ => mret (- EINVAL)
  end.

(** ** A document *)

(** The members of an object, in order, with the variable [jobj]: a member that is an
    object replaces it, and the members after are looked up in that one. *)
(* accfg/config.c:945-980 json_parse *)
Fixpoint parse_members (parse : option J → C Z) (parse_array : option J → option string → C Z)
    (ctx : option positive) (iter : list (string * option J)) (jobj : option J) : C Z :=
  match iter with
  | [] => mret 0
  | (key, val) :: iter' =>
      match json_object_get_type val with
      | json_type_boolean | json_type_double | json_type_int | json_type_string =>
          rc ← configure_json_value ctx val (Some key);
          if negb (rc =? 0) then mret (-1) else parse_members parse parse_array ctx iter' jobj
      | json_type_object =>
          match json_object_object_get_ex jobj key with
          | None => mret (-1)
          | Some jobj' => parse jobj';; parse_members parse parse_array ctx iter' jobj'
          end
      | json_type_array =>
          rc ← parse_array jobj (Some key);
          if negb (rc =? 0) then mret (-1) else parse_members parse parse_array ctx iter' jobj
      | json_type_null => parse_members parse parse_array ctx iter' jobj
      end
  end.

(* accfg/config.c:982-1021 json_parse_array *)
Fixpoint parse_elements (parse : option J → C Z) (parse_array : option J → option string → C Z)
    (ctx : option positive) (l : list (option J)) : C Z :=
  match l with
  | [] => mret 0
  | None :: _ => mret (-1)
  | Some jvalue :: l' =>
      rc ← match json_type_of jvalue with
           | json_type_null => mret (-1)
           | json_type_array => parse_array (Some jvalue) None
           | json_type_object => parse (Some jvalue)
           | _ => configure_json_value ctx (Some jvalue) None
           end;
      if negb (rc =? 0) then mret (-1) else parse_elements parse parse_array ctx l'
  end.

(** The fuel is the depth of calls, and [out] what a call does when there is none left: with
    the size of the document as fuel it is never asked. *)
(* accfg/config.c:945-980 json_parse *)
Fixpoint json_parse_from (out : C Z) (fuel : nat) (ctx : option positive) (jobj : option J) : C Z :=
  match fuel with
  | O => out
  | S n =>
      iter ← must (jobj ≫= json_members);
      parse_members (json_parse_from out n ctx) (json_parse_array_from out n ctx) ctx iter jobj
  end
with json_parse_array_from (out : C Z) (fuel : nat) (ctx : option positive) (jobj : option J)
    (key : option string) : C Z :=
  match fuel with
  | O => out
  | S n =>
      match match key with Some key => json_object_object_get_ex jobj key | None => Some jobj end with
      | None => mret (-1)
      | Some jarray =>
          l ← must (jarray ≫= json_elements);
          match l with
          | [] => mret (-1)
          | _ => parse_elements (json_parse_from out n ctx) (json_parse_array_from out n ctx) ctx l
          end
      end
  end.
Notation json_parse := (json_parse_from fault).
Notation json_parse_array := (json_parse_array_from fault).

(* accfg/config.c:1023-1040 parse_config *)
Definition parse_config (ctx : option positive) : C Z :=
  conf ← static st_config;
  match cf_buf conf with
  | None => mret (- EINVAL)
  | Some buf =>
      match json_tokener_parse buf with
      | TokPast => fault
      | TokEnd None => mret (- ENOMEM)
      | TokEnd (Some jobj) =>
          rc ← json_parse_array (S (json_size jobj)) ctx (Some jobj) None;
          mret (if rc <? 0 then rc else 0)
      end
  end.

Section files.
Context `{Stdio F} (ACCFG_CONF_FILE : string) (Js : Type) `{JsonOut Js}.

(** [fopen] for reading, [fclose]; a stream is the path it was opened at. *)
Definition fopen (path : string) : M (option string) :=
  r ← call (k_fopen path);
  match r with
  | Some _ => modify (λ w, w <| nfds ::= Z.succ |>);; mret (Some path)
  | None => mret None
  end.
Definition fread (f : string) (n : Z) : M string := λ w,
  let '(data, f) := k_fread f n (fs w) in Done data (w <| fs := f |>).

Definition set_buf (buf : option string) (st : statics) : statics :=
  st <| st_config ::= λ c, c <| cf_buf := buf |> |>.

(** [malloc] of a negative length, taken as [size_t], fails.  The buffer stays
    where it is when it could not be filled, and the result is then 0. *)
(* accfg/config.c:1042-1093 read_config_file *)
Definition read_config_file : C Z :=
  conf ← static st_config;
  config_file ← in_lib (strdup (default ACCFG_CONF_FILE (cf_config_file conf)));
  match config_file with
  | None => mret (- ENOMEM)
  | Some config_file =>
      f ← in_lib (fopen config_file);
      match f with
      | None => in_lib neg_errno
      | Some f =>
          st_size ← in_lib (call (k_fstat f));
          match st_size with
          | None => rc ← in_lib neg_errno; in_lib (sys_close f);; mret rc
          | Some size =>
              let buf_length := s32 size in
              ok ← (if buf_length <? 0 then mret false else in_lib alloc);
              if negb ok then set_static (set_buf None);; in_lib (sys_close f);; mret (- ENOMEM)
              else
                data ← in_lib (fread f buf_length);
                set_static (set_buf (Some data));;
                in_lib (sys_close f);;
                mret 0
          end
      end
  end.

(** ** load-config *)

(** What the options write, and back. *)
Definition config_vars (st : statics) : variables :=
  {["config.config_file" := VStr (cf_config_file (st_config st)); "verbose" := VBool (st_verbose st);
    "enable" := VBool (st_enable st); "forced" := VBool (st_forced st)]}.
Definition config_of (vars : variables) (st : statics) : statics :=
  st <| st_config ::= λ c, c <| cf_config_file := string_of vars "config.config_file" |> |>
     <| st_verbose := bool_of vars "verbose" |> <| st_enable := bool_of vars "enable" |>
     <| st_forced := bool_of vars "forced" |>.

(** The walk builds a listing that nothing shows. *)
(* accfg/config.c:1339-1358 cmd_config *)
Definition walk_all (ctx : positive) : C Z := in_lib (silent_walk Js config_opts_to_flags ctx util_param).

(** After the options.  The result is the one of [parse_config], or of the
    activation. *)
(* accfg/config.c:1344-1373 cmd_config *)
Definition load_config (ctx : positive) : C Z :=
  rc ← walk_all ctx;
  if_ok rc
    (read_config_file;;
     rc ← parse_config (Some ctx);
     enable ← static st_enable;
     if enable && (rc =? 0) then activate_devices else mret rc).

(* accfg/config.c:1313-1325 cmd_config *)
Definition cmd_config_options : list opt :=
  [OPT_FILENAME "c" "config-file" "config.config_file" "config-file" "override the default config";
   OPT_BOOLEAN "v" "verbose" "verbose" "emit extra debug messages to stderr";
   OPT_BOOLEAN "e" "enable" "enable" "enable configured devices and wqs";
   OPT_BOOLEAN "f" "forced" "forced" "enabled devices will be disabled before configuring";
   OPT_END].

(* accfg/config.c:1310-1374 cmd_config *)
Definition cmd_config (alloc_ok : Z → bool) (argv : list string) (ctx : positive) : C Z :=
  st ← static id;
  vars ← options_only alloc_ok (Some "./") argv cmd_config_options "accfg load-config [<options>]" (config_vars st);
  set_static (config_of vars);;
  load_config ctx.

(** ** config-default *)

(* accfg/config.c:133-139 config_default_wq_set_prs_disable *)
Definition config_default_wq_set_prs_disable (wq : positive) (val : Z) : M Z :=
  ok ← is_wq_prs_disable_writable wq val;
  if negb ok then mret (- EPERM) else accfg_wq_set_prs_disable wq val.

(* accfg/config.c:141-147 config_default_wq_set_ats_disable *)
Definition config_default_wq_set_ats_disable (wq : positive) (val : Z) : M Z :=
  ok ← is_wq_ats_disable_writable wq val;
  if negb ok then mret (- EPERM) else accfg_wq_set_ats_disable wq val.

(* accfg/config.c:149-155 config_default_wq_set_threshold *)
Definition config_default_wq_set_threshold (wq : positive) (val : Z) : M Z :=
  ok ← is_wq_threshold_writable wq val;
  if negb ok then mret (- EPERM) else accfg_wq_set_threshold wq val.

(** The twelve settings, whose results nothing looks at.  A string that is NULL, or
    freed, is printed by the setter. *)
Definition default_wq_settings (wq : positive) (p : wq_parameters) : M unit :=
  accfg_wq_set_priority wq (s32 (wp_priority p));;
  accfg_wq_set_group_id wq (wp_group_id p);;
  accfg_wq_set_block_on_fault wq (wp_block_on_fault p);;
  mode ← must (wp_mode p); accfg_wq_set_str_mode wq mode;;
  type ← must (wp_type p); accfg_wq_set_str_type wq type;;
  name ← must (wp_name p); accfg_wq_set_str_name wq name;;
  driver_name ← must (wp_driver_name p); accfg_wq_set_str_driver_name wq driver_name;;
  accfg_wq_set_size wq (s32 (wp_wq_size p));;
  config_default_wq_set_threshold wq (s32 (wp_threshold p));;
  config_default_wq_set_prs_disable wq (wp_prs_disable p);;
  config_default_wq_set_ats_disable wq (wp_ats_disable p);;
  mret ().

(* accfg/config.c:1376-1404 config_default_wq *)
Definition config_default_wq (wq : positive) : C Z :=
  dev ← in_lib (accfg_wq_get_device wq);
  configured ← conf_def_dev_configured dev;
  if negb configured then mret 0
  else
    dev_type ← in_lib (accfg_device_get_type dev);
    match get_conf_def_wq_param dev_type with
    | None => mret (- EINVAL)
    | Some p => c ← get_conf p; in_lib (default_wq_settings wq (cd_param c));; mret 0
    end.

(* accfg/config.c:1406-1419 config_default_engine *)
Definition config_default_engine (engine dev : positive) : C Z :=
  dev_type ← in_lib (accfg_device_get_type dev);
  match get_conf_def_wq_param dev_type with
  | None => mret (- EINVAL)
  | Some p => c ← get_conf p; in_lib (accfg_engine_set_group_id engine (wp_group_id (cd_param c)))
  end.

(** The [accfg_*_foreach] loops of this file, with a local variable. *)
Definition each_device {S} (ctx : positive) (s : S) (body : S → positive → C S) : C S :=
  x ← in_lib (accfg_device_get_first ctx); c ← in_lib (get_ctx ctx);
  foreach_acc (Datatypes.S (length (c_devices c))) x (λ d, in_lib (accfg_device_get_next d))
    (λ s d, s ← body s d; mret (inr s)) s.
Definition each_wq {S} (dev : positive) (s : S) (body : S → positive → C S) : C S :=
  x ← in_lib (accfg_wq_get_first dev); d ← in_lib (get_device dev);
  foreach_acc (Datatypes.S (length (d_wqs d))) x (λ q, in_lib (accfg_wq_get_next q))
    (λ s q, s ← body s q; mret (inr s)) s.
Definition each_engine {S} (dev : positive) (s : S) (body : S → positive → C S) : C S :=
  x ← in_lib (accfg_engine_get_first dev); d ← in_lib (get_device dev);
  foreach_acc (Datatypes.S (length (d_engines d))) x (λ e, in_lib (accfg_engine_get_next e))
    (λ s e, s ← body s e; mret (inr s)) s.

(** [if (verbose) printf(..., name)] *)
Definition when_verbose (m : M string) : C unit :=
  v ← static st_verbose; if v : bool then in_lib m;; mret () else mret ().

(** One device: its queues and engines are set, then it is enabled, then its
    queues are. *)
Definition default_activate_device (dev : positive) : C unit :=
  configured ← conf_def_dev_configured dev;
  if negb configured then mret ()
  else
    dev_state ← in_lib (accfg_device_get_state (Some dev));
    if decide (dev_state = ACCFG_DEVICE_ENABLED) then mret ()
    else
      config_default_wq_set_on_dev dev;;
      each_wq dev () (λ _ wq, when_verbose (accfg_wq_get_devname wq);; config_default_wq wq;; mret ());;
      each_engine dev () (λ _ engine, config_default_engine engine dev;; mret ());;
      in_lib (accfg_device_get_devname dev);;
      rc ← in_lib (accfg_device_enable (Some dev));
      if negb (rc =? 0) then mret ()
      else each_wq dev () (λ _ wq, in_lib (accfg_wq_get_devname wq);; in_lib (accfg_wq_enable wq);; mret ()).

(* accfg/config.c:1421-1478 config_default_activate_devices *)
Definition config_default_activate_devices (ctx : positive) : C unit :=
  each_device ctx () (λ _ dev, default_activate_device dev).

(* accfg/config.c:1480-1488 CONFIG_DEFAULT_WQ_PRIORITY *)
Definition CONFIG_DEFAULT_WQ (mode type name driver_name : option string) (p : wq_parameters) : wq_parameters :=
  p <| wp_priority := 10 |> <| wp_group_id := 0 |> <| wp_block_on_fault := 1 |>
    <| wp_mode := mode |> <| wp_type := type |> <| wp_name := name |> <| wp_driver_name := driver_name |>
    <| wp_prs_disable := 1 |> <| wp_ats_disable := 0 |>.
Definition CONFIG_DEFAULT_WQ_NAME : string := "user_default_wq".
Definition CONFIG_DEFAULT_WQ_TYPE : string := "user".
Definition CONFIG_DEFAULT_WQ_MODE : string := "shared".
Definition CONFIG_DEFAULT_WQ_DRV_NAME : string := "user".

(** [p->f = strdup(s)], and whether it is not NULL. *)
Definition dup_into (i : nat) (s : string) (f : option string → wq_parameters → wq_parameters) : C bool :=
  o ← in_lib (strdup s); upd_param i (f o);; mret (match o with Some _ => true | None => false end).

(* accfg/config.c:1491-1519 config_default_wq_set_fixed *)
Fixpoint config_default_wq_set_fixed (types : list nat) : C Z :=
  match types with
  | [] => mret 0
  | i :: types' =>
      ok ← dup_into i CONFIG_DEFAULT_WQ_MODE (λ o p, p <| wp_mode := o |>);
      if negb ok then mret (- ENOMEM)
      else
        ok ← dup_into i CONFIG_DEFAULT_WQ_TYPE (λ o p, p <| wp_type := o |>);
        if negb ok then mret (- ENOMEM)
        else
          ok ← dup_into i CONFIG_DEFAULT_WQ_DRV_NAME (λ o p, p <| wp_driver_name := o |>);
          if negb ok then mret (- ENOMEM) else config_default_wq_set_fixed types'
  end.

(** The indices below [ACCFG_DEVICE_MAX]. *)
Definition device_types : list nat := seq 0 (Z.to_nat ACCFG_DEVICE_MAX).

(* accfg/config.c:1521-1547 config_default *)
Definition config_default : C unit :=
  for_each device_types (λ i,
    mode ← in_lib (strdup CONFIG_DEFAULT_WQ_MODE);
    type ← in_lib (strdup CONFIG_DEFAULT_WQ_TYPE);
    name ← in_lib (strdup CONFIG_DEFAULT_WQ_NAME);
    driver_name ← in_lib (strdup CONFIG_DEFAULT_WQ_DRV_NAME);
    upd_param i (CONFIG_DEFAULT_WQ mode type name driver_name);;
    upd_conf i (λ c, c <| cd_configured := true |>)).

(** A freed string is one that must not be used: [None]. *)
(* accfg/config.c:1549-1565 config_default_param_free *)
Definition config_default_param_free : C unit :=
  for_each device_types (λ i,
    c ← get_conf i;
    if negb (cd_configured c) then mret ()
    else upd_param i (λ p, p <| wp_name := None |> <| wp_type := None |> <| wp_mode := None |>
                             <| wp_driver_name := None |>)).

(* accfg/config.c:1567-1591 config_default_from_file *)
Definition config_default_from_file (ctx : positive) : C Z :=
  rc ← read_config_file;
  if rc <? 0 then mret rc
  else
    set_static (λ st, st <| config_default_file := true |>);;
    rc ← parse_config (Some ctx);
    if rc <? 0 then mret rc
    else
      config_default_wq_set_fixed device_types;;
      for_each device_types (λ i,
        c ← get_conf i;
        match wp_name (cd_param c) with
        | Some _ => upd_conf i (λ c, c <| cd_configured := true |>)
        | None => mret ()
        end);;
      mret 0.

(** A queue of the device: disabled when it has the name, and otherwise the reason
    to leave the device enabled.  [strcmp] of a NULL name is undefined. *)
Definition disable_default_wq (user_default_wq_name : string) (other : bool) (wq : positive) : C bool :=
  wq_name ← in_lib (accfg_wq_get_type_name wq);
  wq_state ← in_lib (accfg_wq_get_state wq);
  if decide (wq_state = ACCFG_WQ_DISABLED) then mret other
  else
    wq_name ← must wq_name;
    if strcmp_eq wq_name user_default_wq_name then
      when_verbose (accfg_wq_get_devname wq);;
      in_lib (accfg_wq_disable wq true);; mret other
    else mret true.

Definition disable_default_device (user_default_wq_name : string) (dev : positive) : C unit :=
  non_default_wq_enabled ← each_wq dev false (disable_default_wq user_default_wq_name);
  dev_state ← in_lib (accfg_device_get_state (Some dev));
  if bool_decide (dev_state = ACCFG_DEVICE_ENABLED) && negb non_default_wq_enabled then
    when_verbose (accfg_device_get_devname dev);;
    in_lib (accfg_device_disable (Some dev) true);; mret ()
  else mret ().

(* accfg/config.c:1593-1647 config_default_disable *)
Definition config_default_disable (ctx : positive) : C unit :=
  conf ← static st_config;
  name ← in_lib (strdup (default CONFIG_DEFAULT_WQ_NAME (cf_user_default_wq_name conf)));
  match name with
  | None => mret ()
  | Some name => each_device ctx () (λ _ dev, disable_default_device name dev)
  end.

Definition config_default_vars (st : statics) : variables :=
  {["config.config_file" := VStr (cf_config_file (st_config st));
    "config.user_default_wq_name" := VStr (cf_user_default_wq_name (st_config st));
    "disable" := VBool false; "verbose" := VBool (st_verbose st)]}.
Definition config_default_of (vars : variables) (st : statics) : statics :=
  st <| st_config ::= λ c, c <| cf_config_file := string_of vars "config.config_file" |>
                             <| cf_user_default_wq_name := string_of vars "config.user_default_wq_name" |> |>
     <| st_verbose := bool_of vars "verbose" |>.

(* accfg/config.c:1652-1662 cmd_config_default *)
Definition cmd_config_default_options : list opt :=
  [OPT_FILENAME "c" "config-file" "config.config_file" "config-file" "override the default config";
   OPT_BOOLEAN "d" "disable" "disable" "disable configured default devices and wqs";
   OPT_STRING "n" "name" "config.user_default_wq_name" "user default wq name"
     ("specify user default wq name. Default " +:+ String quote "" +:+ "user_default_wq" +:+ String quote "");
   OPT_BOOLEAN "v" "verbose" "verbose" "emit extra debug messages to stderr";
   OPT_END].

(** After the options.  A failure to read or parse is not reported. *)
(* accfg/config.c:1681-1717 cmd_config_default *)
Definition default_config (ctx : positive) (disable : bool) : C Z :=
  rc ← walk_all ctx;
  if_ok rc
    (if disable then config_default_disable ctx;; mret 0
     else
       conf ← static st_config;
       rc ← match cf_config_file conf with
            | Some _ => config_default_from_file ctx
            | None => config_default;; mret 0
            end;
       (if rc =? 0 then config_default_activate_devices ctx else mret ());;
       config_default_param_free;;
       mret 0).

(* accfg/config.c:1649-1718 cmd_config_default *)
Definition cmd_config_default (alloc_ok : Z → bool) (argv : list string) (ctx : positive)
    : C Z :=
  st ← static id;
  vars ← options_only alloc_ok (Some "./") argv cmd_config_default_options "accfg config-default [<options>]"
    (config_default_vars st);
  set_static (config_default_of vars);;
  default_config ctx (bool_of vars "disable").
End files.
End config.
Notation json_parse := (json_parse_from fault).
Notation json_parse_array := (json_parse_array_from fault).

