(* ===== verification/ListCmd.v ===== *)
(** * accfg/list.c: the list and save-config commands

    The options are read by [parse_options] into the file's static variables; the
    walk (Listing) builds the document, which is printed or written to a file. *)

From S2P Require Import Prelude CString Prog ParseOptions Types Sysfs Param Tree Device Wq Filter JsonStore JsonUtil Listing Commands.
Local Open Scope string_scope.
Local Open Scope Z_scope.

(* accfg/list.c:19-26 list *)
Record list_options := ListOptions {
  o_devices : bool;
  o_groups : bool;
  o_engines : bool;
  o_wqs : bool;
  o_idle : bool;
  o_save_conf : bool;
}.
#[export] Instance eta_list_options : Eta list_options := λ r,
  ListOptions (o_devices r) (o_groups r) (o_engines r) (o_wqs r) (o_idle r) (o_save_conf r).

(* accfg/list.c:28-37 listopts_to_flags *)
Definition listopts_to_flags (list : list_options) : Z :=
  let flags := if o_idle list then Z.lor 0 UTIL_JSON_IDLE else 0 in
  if o_save_conf list then Z.lor flags UTIL_JSON_SAVE else flags.

(* accfg/list.c:618-621 num_list_flags *)
Definition num_list_flags (list : list_options) : Z :=
  Z.b2z (o_devices list) + Z.b2z (o_groups list) + Z.b2z (o_wqs list) + Z.b2z (o_engines list).

Definition given (o : option string) : bool := match o with Some _ => true | None => false end.

(** The kind asked for is the one of the name, when no flag names one. *)
(* accfg/list.c:662-667 cmd_list *)
Definition default_kinds (list : list_options) (param : util_filter_params) : list_options :=
  if num_list_flags list =? 0 then
    list <| o_devices := given (p_device param) |> <| o_groups := given (p_group param) |>
         <| o_wqs := given (p_wq param) |> <| o_engines := given (p_engine param) |>
  else list.

Section list.
Context {F : Type} `{Kernel F} `{FileOut F} {S : Type} `{JsonOut S}.
Notation M := (prog (world F)).
Notation J := (prog (jstate F S)).
Notation L := (prog (lstate F S)).

Definition printf (text : string) : L unit := json (fprintf stdout text).
Definition display (a : option positive) : L unit :=
  flags ← arg lf_flags; json (util_display_json_array stdout a flags).
Definition when_some {A} (o : option A) (k : L unit) : L unit := match o with Some _ => k | None => mret () end.

(** [list_for_each(...) if (match_device(dev, iter)) { jc = iter; break; }] *)
Fixpoint first_match (dev : positive) (l : list accfg_json_container) : L (option accfg_json_container) :=
  match l with
  | [] => mret None
  | iter :: l' =>
      b ← in_world (match_device dev (jc_device_name iter));
      if b : bool then mret (Some iter) else first_match dev l'
  end.

(** ** Saving *)

(** A write that fails is not noticed. *)
(* accfg/list.c:373-392 save_config *)
Definition save_config (saved_file : string) : L Z :=
  jdevices ← arg lf_jdevices;
  fd ← in_world (call (k_create saved_file));
  match fd with
  | None => mret (- EIO)
  | Some _ =>
      flags ← arg lf_flags;
      when_some jdevices (json (util_display_json_array (file saved_file) jdevices flags));;
      free_containers;;
      mret 0
  end.

(** ** Displaying

    A command that shows one kind of objects returns without [free_containers]. *)

(* accfg/list.c:394-415 display_device *)
Definition display_device (param : util_filter_params) (jdevices : positive) : L Z :=
  printf (newline "devices:");;
  match p_device param with
  | None => display (Some jdevices);; mret 0
  | Some _ =>
      jdevice ← json (json_object_array_get_idx jdevices 0);
      match jdevice with
      | None => mret (- EINVAL)
      | Some jdevice => text ← json (json_object_to_json_string_ext jdevice); printf (newline text);; mret 0
      end
  end.

(** The container of the device of the object asked for. *)
Definition display_of (ctx : positive) (name : string)
    (parse : positive → string → M (Z + positive * positive))
    (k : positive → accfg_json_container → L unit) : L Z :=
  r ← in_world (parse ctx name);
  match r with
  | inl rc => mret rc
  | inr (dev, _) =>
      l ← arg lf_jdev_list;
      jc ← first_match dev l;
      match jc with
      | None => mret (- EINVAL)
      | Some jc => k dev jc;; mret 0
      end
  end.

(* accfg/list.c:417-455 display_group *)
Definition display_group (param : util_filter_params) (ctx : positive) : L Z :=
  printf (newline "groups:");;
  match p_group param with
  | None =>
      l ← arg lf_jdev_list;
      for_each l (λ iter, printf (newline ("device " +:+ jc_device_name iter +:+ ":"));; display (jc_jgroups iter));;
      mret 0
  | Some name =>
      display_of ctx name parse_group_name (λ _ jc,
        printf (newline ("device " +:+ jc_device_name jc +:+ ":"));;
        when_some (jc_jgroups jc) (display (jc_jgroups jc)))
  end.

(** The groups of one device that have objects; [once] until the heading is printed. *)
Fixpoint display_grouped (heading : string) (arrays : list (option positive)) (ids : list Z) (slots_left : list nat)
    (once : bool) : L unit :=
  match slots_left with
  | [] => mret ()
  | i :: slots' =>
      a ← must (arrays !! i);
      match a with
      | None => display_grouped heading arrays ids slots' once
      | Some _ =>
          (if once then printf (newline heading) else mret ());;
          id ← must (ids !! i);
          printf (newline ("group id " +:+ print_u (u32 id) +:+ ":"));;
          display a;;
          display_grouped heading arrays ids slots' false
      end
  end.

(** What [display_wq] and [display_engine] share: the arrays of the kind, the words
    for it, and the name asked for. *)
Definition display_children (title grouped ungrouped : string)
    (arrays : accfg_json_container → list (option positive)) (rest : accfg_json_container → option positive)
    (name : option string) (parse : positive → string → M (Z + positive * positive)) (ctx : positive) : L Z :=
  printf (newline title);;
  match name with
  | None =>
      l ← arg lf_jdev_list;
      for_each l (λ iter,
        dev ← in_world (accfg_ctx_device_get_by_name ctx (jc_device_name iter));
        dev ← must dev;
        max_groups ← in_world (accfg_device_get_max_groups dev);
        printf (newline ("device " +:+ jc_device_name iter +:+ ":"));;
        display_grouped grouped (arrays iter) (jc_jgroup_id iter) (slot_range max_groups) true;;
        when_some (rest iter) (printf (newline ungrouped);; display (rest iter)));;
      mret 0
  | Some name =>
      display_of ctx name parse (λ dev jc,
        max_groups ← in_world (accfg_device_get_max_groups dev);
        printf (newline ("device " +:+ jc_device_name jc +:+ ":"));;
        for_each (slot_range max_groups) (λ i,
          a ← must (arrays jc !! i); when_some a (display a));;
        when_some (rest jc) (display (rest jc)))
  end.

(* accfg/list.c:457-523 display_wq *)
Definition display_wq (param : util_filter_params) (ctx : positive) : L Z :=
  display_children "workqueues:" "grouped workqueues:" "ungrouped workqueues:" jc_jwq_group jc_jwq_ungroup
    (p_wq param) parse_wq_name ctx.
(* accfg/list.c:525-593 display_engine *)
Definition display_engine (param : util_filter_params) (ctx : positive) : L Z :=
  display_children "engines:" "grouped engines:" "ungrouped engines:" jc_jengine_group jc_jengine_ungroup
    (p_engine param) parse_engine_name ctx.

(* accfg/list.c:595-616 list_display *)
Definition list_display (list : list_options) (param : util_filter_params) (ctx : positive) : L Z :=
  jdevices ← arg lf_jdevices;
  if negb (o_devices list) && negb (o_groups list) && negb (o_wqs list) && negb (o_engines list) then
    when_some jdevices (display jdevices);; free_containers;; mret 0
  else if o_devices list then jdevices ← must jdevices; display_device param jdevices
  else if o_groups list then display_group param ctx
  else if o_wqs list then display_wq param ctx
  else display_engine param ctx.

(** ** The commands *)

(** From the walk on. *)
(* accfg/list.c:669-692 cmd_list *)
Definition list_objects (list : list_options) (param : util_filter_params) (ctx : positive) : L Z :=
  rc ← walk_listing (list_callbacks (o_idle list)) (listopts_to_flags list) ctx param;
  if negb (rc =? 0) then mret rc
  else
    rc ← list_display list param ctx;
    if negb (rc =? 0) then mret rc
    else failed ← gets did_fail; mret (if failed : bool then - EINVAL else 0).

(* accfg/list.c:718-748 cmd_save *)
Definition save_objects (list : list_options) (param : util_filter_params) (saved_file : string) (ctx : positive) : L Z :=
  rc ← walk_listing (list_callbacks (o_idle list)) (listopts_to_flags list) ctx param;
  if negb (rc =? 0) then mret rc
  else
    config_file ← in_world (strdup saved_file);
    match config_file with
    | None => mret (- ENOMEM)
    | Some config_file => rc ← save_config config_file; mret (if rc <? 0 then rc else 0)
    end.

Section commands.
Context (alloc_ok : Z → bool) (ACCFG_CONF_FILE : string).

(** A command's own variables, from its start to its end. *)
Definition with_arg {A} (m : L A) : J A := zoom (λ j, LState j zero_list_arg false) (λ l _, l_json l) m.

(* accfg/list.c:627-647 cmd_list *)
Definition cmd_list_options : list opt :=
  [OPT_STRING "d" "device" "util_param.device" "device-id" "filter by device";
   OPT_STRING "g" "group" "util_param.group" "group-id" "filter by group";
   OPT_STRING "q" "workqueue" "util_param.wq" "wq-id" "filter by workqueue";
   OPT_STRING "e" "engine" "util_param.engine" "engine-id" "filter by engine";
   OPT_BOOLEAN "G" "groups" "list.groups" "include group info";
   OPT_BOOLEAN "D" "devices" "list.devices" "include device info";
   OPT_BOOLEAN "E" "engines" "list.engines" "include engine info";
   OPT_BOOLEAN "Q" "workqueues" "list.wqs" "include workqueue info";
   OPT_BOOLEAN "i" "idle" "list.idle" "include idle components";
   OPT_END].
Definition list_vars : variables :=
  {["util_param.device" := VStr None; "util_param.group" := VStr None; "util_param.wq" := VStr None;
    "util_param.engine" := VStr None; "list.groups" := VBool false; "list.devices" := VBool false;
    "list.engines" := VBool false; "list.wqs" := VBool false; "list.idle" := VBool false]}.
Definition list_param_of (vars : variables) : util_filter_params :=
  FilterParams (string_of vars "util_param.device") (string_of vars "util_param.group")
    (string_of vars "util_param.wq") (string_of vars "util_param.engine").
Definition list_options_of (vars : variables) : list_options :=
  ListOptions (bool_of vars "list.devices") (bool_of vars "list.groups") (bool_of vars "list.engines")
    (bool_of vars "list.wqs") (bool_of vars "list.idle") false.

(* accfg/list.c:623-693 cmd_list *)
Definition cmd_list (argv : list string) (ctx : positive) : J Z :=
  vars ← options_only alloc_ok None argv cmd_list_options "accel-config list [<options>]" list_vars;
  let param := list_param_of vars in
  with_arg (list_objects (default_kinds (list_options_of vars) param) param ctx).

(* accfg/list.c:697-701 cmd_save *)
Definition cmd_save_options : list opt :=
  [OPT_STRING "s" "saved-file" "config_save.saved_file" "saved-file" "specify saved file name and path"; OPT_END].

(* accfg/list.c:695-749 cmd_save *)
Definition cmd_save (argv : list string) (ctx : positive) : J Z :=
  vars ← options_only alloc_ok None argv cmd_save_options "accel-config save-config [<options>]"
           {["config_save.saved_file" := VStr None]};
  let list := ListOptions false false false false false true in
  with_arg (save_objects list (FilterParams None None None None)
              (default ACCFG_CONF_FILE (string_of vars "config_save.saved_file")) ctx).
End commands.
End list.
