(* ===== verification/Help.v ===== *)
(** * util/help.c: the help command and the manual pages

    The calls about the process are the class [Exec]: [execlp] ends the process with
    the status of the program it runs, or fails.  stderr has no effect here. *)

From S2P Require Import Prelude CString Prog Strbuf Types Sysfs Param Tree Device Wq Json JsonStore JsonUtil Commands Config ListCmd.
Local Open Scope string_scope.
Local Open Scope Z_scope.

(** The calls about the process: [setenv], and [exec] of a program with its
    arguments, whose result is the status of the program or an error number. *)
Class Exec (F : Type) := {
  k_setenv : string → string → F → kres unit * F;
  k_exec : string → list string → F → (Z + Z) * F;
}.

Definition tolower (c : ascii) : ascii :=
  let n := code c in if (65 <=? n) && (n <=? 90) then chr (n + 32) else c.
Fixpoint strcasecmp_eq (s t : string) : bool :=
  match s, t with
  | EmptyString, EmptyString => true
  | String a s', String b t' => Ascii.eqb (tolower a) (tolower b) && strcasecmp_eq s' t'
  | _, _ => false
  end.

(** ** util/help.c *)

Section help.
Context {F : Type} `{Kernel F} `{Exec F}.
Notation M := (prog (world F)).
Variables (realloc_ok : Z → bool) (PREFIX ACCFG_MAN_PATH : string).

Definition execlp (file : string) (args : list string) : M unit := λ w,
  match k_exec file args (fs w) with
  | (inl status, f) => Exited status (w <| fs := f |>)
  | (inr e, f) => Done () (w <| fs := f |> <| errno := e |>)
  end.
Definition getenv (name : string) : M (option string) := gets (λ w, k_getenv name (fs w)).

(** The buffer of a [struct strbuf] as a C string. *)
Definition strbuf_string : prog strbuf string :=
  sb ← get; match buf sb with Own b => must (c_string b) | _ => fault end.

(** The viewer to run and its name: both NULL in the only call there is.  The name
    is what follows the last slash, with the slash. *)
(* util/help.c:45-61 exec_man_konqueror *)
Definition konqueror_path (path : option string) : M (string * string) :=
  match path with
  | None => mret ("kfmclient", "kfmclient")
  | Some path =>
      match after_last slash path with
      | None => mret (path, "kfmclient")
      | Some name =>
          if strcmp_eq name "konqueror" then
            new ← strdup path;
            new ← must new;
            mret (String.substring 0 (String.length new - String.length name) new +:+ "kfmclient", String slash name)
          else mret (path, String slash name)
      end
  end.
(* util/help.c:34-68 exec_man_konqueror *)
Definition exec_man_konqueror (path : option string) (page : string) : M unit :=
  display ← getenv "DISPLAY";
  match display with
  | Some (String _ _) =>
      '(path, filename) ← konqueror_path path;
      man_page ← with_strbuf (strbuf_addf realloc_ok (String.list_ascii_of_string ("man:" +:+ page +:+ "(1)"));;
                              strbuf_string);
      execlp path [filename; "newTab"; man_page]
  | _ => mret ()
  end.

(* util/help.c:70-79 exec_man_man *)
Definition exec_man_man (path : option string) (page : string) : M unit :=
  execlp (default "man" path) ["man"; page].

(** [None] when there is no memory for the name. *)
(* util/help.c:81-95 cmd_to_page *)
Definition cmd_to_page (cmd : option string) (util_name : string) : M (option string) :=
  strdup match cmd with
         | None => util_name
         | Some cmd => if String.prefix util_name cmd then cmd else util_name +:+ "-" +:+ cmd
         end.

(* util/help.c:97-108 system_path *)
Definition system_path (path : string) : M string :=
  if is_absolute_path path then mret path
  else with_strbuf (strbuf_addf realloc_ok (String.list_ascii_of_string (PREFIX +:+ "/" +:+ path));;
                    '(res, _) ← strbuf_detach realloc_ok; must (res ≫= c_string)).

(* util/help.c:110-127 setup_man_path *)
Definition setup_man_path : M unit :=
  old_path ← getenv "MANPATH";
  path ← system_path ACCFG_MAN_PATH;
  new_path ← with_strbuf (strbuf_addstr realloc_ok path;;
                          strbuf_addch realloc_ok ":";;
                          match old_path with Some old => strbuf_addstr realloc_ok old | None => mret () end;;
                          strbuf_string);
  call (k_setenv "MANPATH" new_path);;
  mret ().

(* util/help.c:129-137 exec_viewer *)
Definition exec_viewer (name page : string) : M unit :=
  if strcasecmp_eq name "man" then exec_man_man None page
  else if strcasecmp_eq name "konqueror" then exec_man_konqueror None page
  else mret ().

(* util/help.c:139-156 help_show_man_page *)
Definition help_show_man_page (cmd : option string) (util_name viewer : string) : M Z :=
  fallback ← getenv viewer;
  page ← cmd_to_page cmd util_name;
  match page with
  | None => mret (-1)
  | Some page =>
      setup_man_path;;
      match fallback with Some v => exec_viewer v page | None => mret () end;;
      exec_viewer "man" page;;
      mret (-1)
  end.
End help.
