(* ===== verification/Main.v ===== *)
(** * util/main.c, accfg/accel-config.c: from the command line to the exit status

    The state of the process is that of a listing (the world, json-c's memory, what
    was printed) with the static variables of accfg/config.c.  The library's commands run on
    the world, list and save-config on the listing, load-config and
    config-user-default on the world and the statics.  What is printed to stderr
    has no effect. *)

From S2P Require Import Prelude CString Prog Strbuf Types Sysfs Param Tree Device Wq Enable Json JsonStore JsonUtil Commands Config ListCmd Help.
Local Open Scope string_scope.
Local Open Scope Z_scope.

Record process (F S : Type) := Process { ps_json : jstate F S; ps_statics : statics }.
Arguments Process {F S} ps_json ps_statics.
Arguments ps_json {F S} _.
Arguments ps_statics {F S} _.
#[export] Instance eta_process F S : Eta (process F S) := λ r, Process (ps_json r) (ps_statics r).
Definition ps_world {F S} (p : process F S) : world F := j_world (ps_json p).

(** ** util/main.c *)

(** A command: its name, and its function on the arguments, its name the first. *)
Definition cmd_struct (T : Type) : Type := string * (list string → positive → prog T Z).

(* util/main.c:79-94 main_handle_internal_command *)
Fixpoint main_handle_internal_command {T} (cmds : list (cmd_struct T)) (argv : list string) (ctx : positive) :
    prog T Z :=
  match argv with
  | [] => fault
  | argv0 :: _ =>
      match cmds with
      | [] => mret (- EINVAL)
      | (cmd, fn) :: cmds' =>
          if strcmp_eq cmd argv0 then fn argv ctx else main_handle_internal_command cmds' argv ctx
      end
  end.

(** [%#10x] *)
Definition print_10x (v : Z) : string :=
  let s := (if v =? 0 then "" else "0x") +:+ print_x v in
  String.string_of_list_ascii (replicate (10 - String.length s) " "%char) +:+ s.

Section main.
Context {F : Type} `{Kernel F} `{Stdio F} `{FileOut F} `{Exec F} {Doc : Type} `{JsonC Doc} {S : Type} `{JsonOut S}.
Notation M := (prog (world F)).
Notation P := (prog (process F S)).
Variables (realloc_ok : Z → bool) (PREFIX ACCFG_MAN_PATH VERSION ACCFG_CONF_FILE : string).

Definition on_json {A} (m : prog (jstate F S) A) : P A := zoom ps_json (λ j p, p <| ps_json := j |>) m.
Definition on_world {A} (m : M A) : P A := on_json (lib m).
(** The commands of accfg/config.c. *)
Definition on_config {A} (m : prog (cstate F) A) : P A :=
  zoom (λ p, CState (ps_world p) (ps_statics p))
    (λ c p, p <| ps_json ::= λ j, j <| j_world := c_world c |> |> <| ps_statics := c_statics c |>) m.
Definition printf (text : string) : P unit := on_json (fprintf stdout text).

(** [exit_app:], [usage] does not return. *)
Definition exit_app {A} : P A := exit 129.
Definition show_help (cmd : option string) (argv0 : string) : P Z :=
  on_world (help_show_man_page realloc_ok PREFIX ACCFG_MAN_PATH cmd argv0 "ACCFG_MAN_VIEWER").

Definition is_help (arg : string) : bool := strcmp_eq arg "--help" || strcmp_eq arg "-h".

(* util/main.c:46-58 main_handle_options *)
Fixpoint find_command (cmds : list (cmd_struct (process F S))) (argv0 argv1 : string) (rest : list string) : P unit :=
  match cmds with
  | [] => exit_app
  | (cmd, _) :: cmds' =>
      if strcmp_eq argv1 cmd then
        match rest with
        | arg :: _ => if is_help arg then show_help (Some argv1) argv0;; exit_app else mret ()
        | [] => mret ()
        end
      else find_command cmds' argv0 argv1 rest
  end.

(** An empty [argv1] starts with the NUL, which is not a dash. *)
(* util/main.c:30-77 main_handle_options *)
Definition main_handle_options (argv : list string) (cmds : list (cmd_struct (process F S))) : P unit :=
  match argv with
  | [] => fault
  | [argv0] => show_help None argv0;; exit_app
  | argv0 :: argv1 :: rest =>
      if strcmp_eq argv1 "--version" || strcmp_eq argv1 "-v" then printf (newline VERSION);; exit 0
      else if negb (String.prefix "-" argv1) then find_command cmds argv0 argv1 rest
      else
        (if is_help argv1 then show_help (head rest) argv0;; mret () else mret ());;
        if strcmp_eq argv1 "--list-cmds" then
          for_each cmds (λ c, printf (newline (argv0 +:+ " " +:+ c.1)));; exit 0
        else exit_app
  end.

(** ** accfg/accel-config.c *)

Definition of_world (fn : command (F := F)) (argv : list string) (ctx : positive) : P Z := on_world (fn argv ctx).

(* accfg/accel-config.c:24-40 commands *)
Definition commands : list (cmd_struct (process F S)) :=
  [("list", λ argv ctx, on_json (cmd_list realloc_ok argv ctx));
   ("load-config", λ argv ctx, on_config (cmd_config ACCFG_CONF_FILE S realloc_ok argv ctx));
   ("save-config", λ argv ctx, on_json (cmd_save realloc_ok ACCFG_CONF_FILE argv ctx));
   ("disable-device", of_world (main_disable_device realloc_ok));
   ("enable-device", of_world (main_enable_device realloc_ok));
   ("disable-wq", of_world (main_disable_wq realloc_ok));
   ("enable-wq", of_world (main_enable_wq realloc_ok));
   ("config-device", of_world (main_config_device realloc_ok));
   ("config-group", of_world (main_config_group realloc_ok));
   ("config-wq", of_world (main_config_wq realloc_ok));
   ("config-engine", of_world (main_config_engine realloc_ok));
   ("config-user-default", λ argv ctx, on_config (cmd_config_default ACCFG_CONF_FILE S realloc_ok argv ctx))].

(** [if (o) printf(..., get_devname(o));] *)
Definition print_name (o : option positive) (prefix : string) (get_devname : positive → M string) : P unit :=
  match o with
  | Some o => name ← on_world (get_devname o); printf (prefix +:+ name)
  | None => mret ()
  end.

(* accfg/accel-config.c:68-86 main *)
Definition report_last_error (ctx : positive) (last_error : Z) : P unit :=
  printf ("Error[" +:+ print_10x last_error +:+ "] ");;
  d ← on_world (accfg_ctx_get_last_error_device ctx);
  g ← on_world (accfg_ctx_get_last_error_group ctx);
  w ← on_world (accfg_ctx_get_last_error_wq ctx);
  e ← on_world (accfg_ctx_get_last_error_engine ctx);
  print_name d "" accfg_device_get_devname;;
  print_name g "/" accfg_group_get_devname;;
  print_name w "/" accfg_wq_get_devname;;
  print_name e "/" accfg_engine_get_devname;;
  s ← on_world (accfg_ctx_get_last_error_str ctx);
  printf (newline (": " +:+ print_s s)).

(** The command, and the end of the process. *)
(* accfg/accel-config.c:63-95 main *)
Definition run_command (cmds : list (cmd_struct (process F S))) (argv : list string) (ctx : positive) : P Z :=
  rc ← main_handle_internal_command cmds argv ctx;
  last_error ← on_world (accfg_ctx_get_last_error ctx);
  (if negb (rc =? 0) && negb (last_error =? 0) then report_last_error ctx last_error else mret ());;
  on_world (accfg_unref (Some ctx));;
  if rc =? 0 then mret 0 else on_world (set_errno (Z.abs rc));; mret EXIT_FAILURE.

(* accfg/accel-config.c:42-96 main *)
Definition main (argv : list string) : P Z :=
  main_handle_options argv commands;;
  loaded ← on_world (sys_access "/sys/module/idxd");
  if negb loaded then mret EXIT_FAILURE
  else
    '(rc, ctx) ← on_world accfg_new;
    match ctx with
    | None => on_world (set_errno (Z.abs rc));; mret EXIT_FAILURE
    | Some ctx => run_command commands (tail argv) ctx
    end.
End main.
