(* ===== verification/ParseLines.v ===== *)
(** * What command lines mean

    The parser on lines of arguments and options with numbers, read back or refused;
    and the tables of the commands, which fit their variables, so that the theorems of
    ParseFacts hold of every command. *)

From S2P Require Import Prelude CString Prog Strbuf ParseOptions ParseFacts Types Sysfs Enable ConfigAttr Commands Config ListCmd SimKernel Demo.
Local Open Scope Z_scope.

(** ** Prefixes of strings *)

Lemma prefix_app s t : String.prefix s (s +:+ t) = true.
Proof. induction s as [|c s IH]; [by destruct t|]. rewrite append_cons. simpl. by destruct (ascii_dec c c). Qed.
Lemma literal_app s t : literal s (s +:+ t) = Some t.
Proof.
  unfold literal. rewrite prefix_app. f_equal. rewrite append_length.
  replace (String.length s + String.length t - String.length s)%nat with (String.length t) by lia.
  induction s as [|c s IH]; [apply substring_all|]. rewrite append_cons. simpl. exact IH.
Qed.
Lemma prefix_inv s u : String.prefix s u = true → ∃ t, u = s +:+ t.
Proof.
  revert u. induction s as [|c s IH]; intros u; [by exists u|].
  destruct u as [|d u]; simpl; [done|]. destruct (ascii_dec c d) as [->|]; [|done].
  intros [t ->]%IH. by exists t.
Qed.
Lemma literal_inv s u t : literal s u = Some t → u = s +:+ t.
Proof.
  intros H. pose proof H as H'. unfold literal in H. destruct (String.prefix s u) eqn:Hp; [|done].
  apply prefix_inv in Hp as [t' ->]. rewrite literal_app in H'. by injection H' as ->.
Qed.
(** Names: without [=], and not starting with [no-]. *)
Definition no_eq (s : string) : Prop := chars s (λ c, negb (Ascii.eqb c "=") = true).
Definition eq_value (name v : string) : string := name +:+ String "=" v.

Lemma eq_value_inv n m x y : no_eq n → no_eq m → eq_value n x = eq_value m y → n = m ∧ x = y.
Proof.
  intros Hn Hm H. apply (f_equal (span (λ c, negb (Ascii.eqb c "=")))) in H.
  unfold eq_value in H. rewrite !span_chars in H by done. simpl in H.
  by rewrite !append_empty_r in H; injection H.
Qed.
Lemma arg_end_value n v : no_eq n → arg_end (eq_value n v) = Some v.
Proof. intros Hn. unfold arg_end, eq_value. by rewrite span_chars. Qed.

(** Does a name start with [no-]?  An argument with a clean name does not either. *)
Definition starts_no (s : string) : bool := prefixcmp s "no-" =? 0.

Lemma starts_no_value n v : starts_no n = false → strncmp_eq (eq_value n v) "no-" 3 = false.
Proof.
  unfold starts_no, strncmp_eq, eq_value. intros Hn. apply String.eqb_neq. intros Heq. revert Hn Heq.
  destruct n as [|a [|b [|c n]]]; rewrite ?append_cons; change ("" +:+ ?x) with x; simpl; try congruence.
  intros Hn [= -> -> ->]. destruct n; done.
Qed.

(** What an option before the one meant can be: no match, or an abbreviation. *)
Lemma match_other n n' v rest fl :
  no_eq n → no_eq n' → n ≠ n' → starts_no n = false → starts_no n' = false →
  match_name (eq_value n v) n' = Match rest fl → ∃ c r, rest = String c r ∧ Ascii.eqb c "=" = false.
Proof.
  intros Hn Hn' Hne Hs Hs'. unfold match_name. destruct (skip_prefix _ n') as [r|] eqn:Hp.
  - intros [= <- <-]. apply literal_inv in Hp. destruct r as [|c r].
    + exfalso. rewrite append_empty_r in Hp. unfold no_eq in Hn'. rewrite <- Hp in Hn'.
      unfold eq_value in Hn'. apply chars_app in Hn' as [_ H]. by apply Forall_cons in H as [? _].
    + exists c, r. split; [done|]. destruct (Ascii.eqb_spec c "="); [|done]. subst c.
      apply eq_value_inv in Hp as [? _]; done.
  - unfold starts_no in Hs'. rewrite Hs'. simpl andb. cbv iota.
    destruct (strncmp_eq _ _ _); [discriminate|]. destruct (prefixcmp "no-" _ =? 0); [discriminate|].
    by rewrite starts_no_value.
Qed.
Lemma match_self n v : match_name (eq_value n v) n = Match (String "=" v) 0.
Proof. unfold match_name, skip_prefix, eq_value. by rewrite literal_app. Qed.

(** The same for an argument that is a name alone. *)
Lemma arg_end_none n : no_eq n → arg_end n = None.
Proof.
  intros Hn. unfold arg_end. rewrite <- (append_empty_r n), span_chars by done. done.
Qed.
Lemma match_other_alone n n' rest fl :
  no_eq n → n ≠ n' → starts_no n = false → starts_no n' = false →
  match_name n n' = Match rest fl → ∃ c r, rest = String c r ∧ Ascii.eqb c "=" = false.
Proof.
  intros Hn Hne Hs Hs'. unfold match_name. destruct (skip_prefix n n') as [r|] eqn:Hp.
  - intros [= <- <-]. apply literal_inv in Hp. destruct r as [|c r]; [by rewrite append_empty_r in Hp|].
    exists c, r. split; [done|]. rewrite Hp in Hn. unfold no_eq in Hn.
    apply chars_app in Hn as [_ Hn]. apply Forall_cons in Hn as [Hc _]. by apply negb_true_iff in Hc.
  - unfold starts_no in Hs'. rewrite Hs'. simpl andb. cbv iota.
    destruct (strncmp_eq n' n _); [discriminate|]. destruct (prefixcmp "no-" _ =? 0); [discriminate|].
    assert (strncmp_eq n "no-" 3 = false) as ->; [|done].
    unfold starts_no in Hs. unfold strncmp_eq. apply String.eqb_neq. intros Heq. revert Hs Heq.
    destruct n as [|a [|b [|c n]]]; simpl; try congruence. intros Hs [= -> -> ->]. by destruct n.
Qed.
Lemma match_alone n : match_name n n = Match "" 0.
Proof. unfold match_name, skip_prefix. pose proof (literal_app n "") as H. rewrite append_empty_r in H. by rewrite H. Qed.

Section lines.
Context (alloc_ok : Z → bool).

(** ** Long options with a value *)

(** Arguments that are words of their own. *)
Definition special_words : list string := ["help-all"; "help"; "list-opts"; "list-cmds"]%string.

(** [o] with the name [n] is in the table, and the options before it have other names; no name
    starts with [no-] or has a [=], and [n] is no special word. *)
Definition named (table : list opt) (o : opt) (n : string) : Prop :=
  ∃ pre post, table = pre ++ o :: post ∧ long_name o = Some n ∧
    o_type o ≠ OPTION_END ∧ o_type o ≠ OPTION_ARGUMENT ∧ no_eq n ∧ n ≠ EmptyString ∧ (n ∉ special_words) ∧
    starts_no n = false ∧
    Forall (λ o' : opt, o_type o' ≠ OPTION_END ∧ o_type o' ≠ OPTION_ARGUMENT ∧
      ∀ n', long_name o' = Some n' → n' ≠ n ∧ no_eq n' ∧ starts_no n' = false) pre.

(** An option named in full, with its value after a [=], is found, whatever
    abbreviations the options before it allow. *)
Lemma long_loop_stuck table o n v abbrev ambiguous p :
  named table o n →
  long_loop alloc_ok (eq_value n v) table abbrev ambiguous p =
    get_value alloc_ok o 0 (p <| p_opt := Some v |>).
Proof.
  intros (pre & post & -> & Hl & He & Ha & Hn & _ & _ & Hs & Hpre). revert abbrev ambiguous p.
  induction Hpre as [|o' pre (He' & Ha' & Hl') Hpre IH]; intros abbrev ambiguous p; simpl.
  - rewrite bool_decide_false, Hl, bool_decide_false by done. by rewrite match_self.
  - rewrite bool_decide_false by done. destruct (long_name o') as [n'|]; [|apply IH].
    rewrite bool_decide_false by done. destruct (Hl' _ eq_refl) as (Hne & Hn' & Hs').
    destruct (match_name (eq_value n v) n') as [|rest fl|fl] eqn:Hm; [apply IH| |].
    + apply match_other in Hm as (c & r & -> & Hc); [|done..]. rewrite Hc. apply IH.
    + unfold mbind, prog_bind. destruct (has fl OPT_UNSET); [apply IH|].
      rewrite arg_end_value by done. unfold set_opt, modify. by rewrite IH.
Qed.

(** The same for an option whose value is the next argument. *)
Lemma long_loop_alone table o n abbrev ambiguous p :
  named table o n → long_loop alloc_ok n table abbrev ambiguous p = get_value alloc_ok o 0 p.
Proof.
  intros (pre & post & -> & Hl & He & Ha & Hn & _ & _ & Hs & Hpre). revert abbrev ambiguous.
  induction Hpre as [|o' pre (He' & Ha' & Hl') Hpre IH]; intros abbrev ambiguous; simpl.
  - rewrite bool_decide_false, Hl, bool_decide_false by done. by rewrite match_alone.
  - rewrite bool_decide_false by done. destruct (long_name o') as [n'|]; [|apply IH].
    rewrite bool_decide_false by done. destruct (Hl' _ eq_refl) as (Hne & Hn' & Hs').
    destruct (match_name n n') as [|rest fl|fl] eqn:Hm; [apply IH| |].
    + apply match_other_alone in Hm as (c & r & -> & Hc); [|done..]. rewrite Hc. apply IH.
    + rewrite arg_end_none by done. unfold mbind, prog_bind. destruct (has fl OPT_UNSET); apply IH.
Qed.

Lemma write_var_run v d c p :
  p_vars p !! v = Some c → same_type d c = true → write_var v d p = Done () (p <| p_vars ::= <[v := d]> |>).
Proof.
  intros Hc Ht. unfold write_var, get_var, get, set_var, modify, mbind, prog_bind. by rewrite Hc; simpl; rewrite Ht.
Qed.

(** The options that take a number: how they convert its text, and the value they store. *)
Definition number_of (t : parse_opt_type) : option ((Z → cval) * (string → strto)) :=
  match t with
  | OPTION_INTEGER => Some (λ z, VInt (s32 z), λ s, strtol s 10)
  | OPTION_UINTEGER => Some (λ z, VUint (u32 z), λ s, strtol s 10)
  | OPTION_LONG => Some (λ z, VLong (s64 z), λ s, strtol s 10)
  | OPTION_U64 => Some (λ z, VU64 (u64 z), λ s, strtoull s 10)
  | _ => None
  end.
Definition number_option (o : option_data) (mk : Z → cval) (conv : string → strto) : Prop :=
  o_flags o = 0 ∧ number_of (o_type o) = Some (mk, conv).

(** The variable of the option is there, and of its type. *)
Definition has_var (o : option_data) (mk : Z → cval) (vars : variables) : Prop :=
  type_of <$> (vars !! value o) = Some (type_of (mk 0)).

Lemma number_same_type (o : opt) mk conv c z :
  number_option o mk conv → type_of c = type_of (mk 0) → same_type (mk z) c = true.
Proof.
  intros [_ Ho] Hc. apply same_type_spec. rewrite Hc. unfold number_of in Ho.
  destruct (o_type o); try done; by injection Ho as <- <-.
Qed.

(** The option is given the text [v], stuck to it or as the next argument. *)
Lemma get_value_number (o : opt) mk conv v p p1 :
  number_option o mk conv → has_var o mk (p_vars p1) → get_arg o 0 p = Done (Some (Some v)) p1 →
  get_value alloc_ok o 0 p =
    let p2 := (if st_range (conv v) then p1 <| p_errno := Some ERANGE |> else p1)
                <| p_vars ::= <[value o := mk (st_val (conv v))]> |> in
    match st_rest (conv v) with
    | EmptyString => Done 0 p2
    | _ => opterror o "expects a numerical value" 0 p2
    end.
Proof.
  intros Ho Hv Harg. pose proof Ho as [Hfl Hn]. unfold has_var in Hv.
  destruct (p_vars p1 !! value o) as [c|] eqn:Hc; [|done]. injection Hv as Hv.
  assert (takes_no_value o = false) as Htake by (unfold takes_no_value; by destruct (o_type o)).
  assert (store_value alloc_ok o 0 = get_number o 0 mk conv) as Hstore.
  { unfold store_value. destruct (o_type o); try done; by injection Hn as <- <-. }
  unfold get_value. rewrite get_bind. change (has 0 OPT_UNSET) with false. rewrite !andb_false_l. cbv iota.
  rewrite Htake, !andb_false_r, Hstore. cbv iota. unfold get_number. rewrite get_bind, Hfl.
  change (has 0 OPT_UNSET) with false. change (has 0 PARSE_OPT_OPTARG && _) with false. cbv beta iota.
  erewrite bind_run by exact Harg. cbv iota.
  set (p2 := if st_range (conv v) then p1 <| p_errno := Some ERANGE |> else p1).
  rewrite (bind_run _ _ _ () p2) by (subst p2; by destruct (st_range (conv v))).
  erewrite bind_run; [|eapply (write_var_run _ _ c); [by subst p2; destruct (st_range (conv v))|by eapply number_same_type]].
  by destruct (st_rest (conv v)).
Qed.

Lemma get_arg_stuck o fl v p :
  p_opt p = Some v → get_arg o fl p = Done (Some (Some v)) (p <| p_opt := None |>).
Proof. intros Hv. unfold get_arg, get, mbind, prog_bind. by rewrite Hv. Qed.

Lemma get_arg_next o v p :
  p_opt p = None → o_flags o = 0 → (1 < p_argc p)%nat → mjoin (p_out p !! S (p_argv p)) = Some v →
  get_arg o 0 p = Done (Some (Some v)) (p <| p_argc ::= pred |> <| p_argv ::= S |>).
Proof.
  intros Ho Hfl Hc Hv. unfold get_arg. rewrite get_bind, Ho, Hfl. change (has 0 _) with false. cbv iota.
  rewrite (bind_run _ _ _ false p) by done. cbv iota. rewrite bool_decide_true by done.
  unfold modify, arg_at, get, mbind, prog_bind. simpl. by rewrite Hv.
Qed.

(** ** Arguments *)

Definition plain_arg (a : string) : Prop := match a with String "-" (String _ _) => False | _ => True end.

(** What a line is made of: arguments that are no options, and options with a number, stuck to
    their name with a [=] or as the argument after. *)
Inductive piece :=
  | PArg (a : string)
  | PStuck (o : opt) (n v : string)
  | PNext (o : opt) (n v : string).

Definition texts (x : piece) : list string :=
  match x with
  | PArg a => [a]
  | PStuck _ n v => ["--" +:+ eq_value n v]
  | PNext _ n v => ["--" +:+ n; v]
  end.
(** What is left of it. *)
Definition kept (x : piece) : list string := match x with PArg a => [a] | _ => [] end.

(** An option of the table, with its conversion and the text it is given. *)
Definition numbered (table : list opt) (vars : variables) (x : piece)
    (P : opt → (Z → cval) → (string → strto) → string → Prop) : Prop :=
  match x with
  | PArg _ => False
  | PStuck o n v | PNext o n v =>
      named table o n ∧ ∃ mk conv, number_option o mk conv ∧ has_var o mk vars ∧ P o mk conv v
  end.

(** The numbers an option takes, and their texts: decimal, or nothing at all. *)
Definition takes_number (o : option_data) (z : Z) : Prop :=
  match o_type o with OPTION_U64 => 0 <= z <= ULLONG_MAX | _ => LONG_MIN <= z <= LONG_MAX end.
Definition text_of (o : option_data) (v : string) (z : Z) : Prop :=
  v = print_d z ∧ takes_number o z ∨ v = "" ∧ z = 0.

(** A piece that goes well, and what it stores. *)
Definition piece_stores (table : list opt) (x : piece) (vars vars' : variables) : Prop :=
  match x with
  | PArg a => plain_arg a ∧ vars' = vars
  | _ => numbered table vars x (λ o mk conv v, ∃ z, text_of o v z ∧ vars' = <[value o := mk z]> vars)
  end.
Inductive pieces_store (table : list opt) : list piece → variables → variables → Prop :=
  | pieces_nil vars : pieces_store table [] vars vars
  | pieces_cons x l vars vars1 vars2 :
      piece_stores table x vars vars1 → pieces_store table l vars1 vars2 → pieces_store table (x :: l) vars vars2.

Lemma text_of_conv (o : opt) mk conv v z :
  number_option o mk conv → text_of o v z → st_val (conv v) = z ∧ st_rest (conv v) = "" ∧ st_range (conv v) = false.
Proof.
  intros [_ Hn] [[-> Hz]|[-> ->]].
  - unfold takes_number in Hz. unfold number_of in Hn. rewrite <- (append_empty_r (print_d z)).
    destruct (o_type o); try done; injection Hn as <- <-; try (by rewrite (strtol_print_d 10) by (by auto)).
    unfold print_d. destruct (Z.ltb_spec z 0); [lia|]. unfold print_u.
    rewrite (strtoull_print 10 10) by (done || lia || (unfold base_reads; lia)). done.
  - unfold number_of in Hn. destruct (o_type o); try done; by injection Hn as <- <-.
Qed.

(** ** One turn of the loop *)

(** The array while arguments move towards the front: the ones kept, the places free, the rest. *)
Record moving (front gap rest : list string) (p : pstate) : Prop := Moving {
  m_out : p_out p = (Some <$> front) ++ (Some <$> gap) ++ (Some <$> rest) ++ [None];
  m_cpidx : p_cpidx p = length front;
  m_argv : p_argv p = (length front + length gap)%nat;
  m_argc : p_argc p = length rest;
  m_flags : p_flags p = 0;
  m_opt : p_opt p = None;
  m_gap : gap ≠ [];
}.

Lemma moving_arg front gap rest i a p :
  moving front gap rest p → rest !! i = Some a → mjoin (p_out p !! (p_argv p + i)%nat) = Some a.
Proof.
  intros [] Ha. rewrite m_out0, m_argv0, (assoc_L (++)).
  rewrite lookup_app_r by (rewrite length_app, !length_fmap; lia).
  replace (_ + _ + i - _)%nat with i by (rewrite length_app, !length_fmap; lia).
  rewrite lookup_app_l by (rewrite length_fmap; by eapply lookup_lt_Some). by rewrite list_lookup_fmap, Ha.
Qed.

(** Arguments that were read become free places. *)
Lemma moving_skip front gap l rest p p' :
  moving front gap (l ++ rest) p → p_out p' = p_out p → p_cpidx p' = p_cpidx p → p_flags p' = p_flags p →
  p_opt p' = None → p_argv p' = (p_argv p + length l)%nat → p_argc p' = (p_argc p - length l)%nat →
  moving front (gap ++ l) rest p'.
Proof.
  intros [] Ho Hc Hf Hp Ha Hn. constructor.
  - rewrite Ho, m_out0, !fmap_app. by rewrite <- !(assoc_L (++)).
  - by rewrite Hc.
  - rewrite Ha, m_argv0, length_app. lia.
  - rewrite Hn, m_argc0, length_app. lia.
  - by rewrite Hf.
  - done.
  - by destruct gap.
Qed.

Lemma moving_keep front gap a rest p :
  moving front gap (a :: rest) p → ∃ gap', moving (front ++ [a]) gap' rest
    (p <| p_out ::= <[p_cpidx p := Some a]> |> <| p_cpidx ::= S |> <| p_argc ::= pred |> <| p_argv ::= S |>).
Proof.
  intros []. destruct gap as [|g gap]; [done|]. exists (gap ++ [a]). constructor; simpl.
  - rewrite m_out0, m_cpidx0, insert_app_r_alt by (rewrite length_fmap; lia).
    rewrite length_fmap, Nat.sub_diag. simpl. rewrite !fmap_app. simpl. by rewrite <- !(assoc_L (++)).
  - rewrite m_cpidx0, length_app. simpl. lia.
  - rewrite m_argv0, !length_app. simpl. lia.
  - by rewrite m_argc0.
  - done.
  - done.
  - by destruct gap.
Qed.

Lemma not_special arg : strcmp_eq arg "help-all" = false ∧
  strcmp_eq arg "help" = false ∧ strcmp_eq arg "list-opts" = false ∧ strcmp_eq arg "list-cmds" = false ↔
  (arg ∉ special_words).
Proof. unfold special_words, strcmp_eq. rewrite !String.eqb_neq. set_solver. Qed.

Lemma value_not_special n v : no_eq n → (eq_value n v ∉ special_words).
Proof.
  intros Hn Hin. assert (∀ t, arg_end t = None → eq_value n v ≠ t) as H.
  { intros t Ht Heq. rewrite <- Heq, arg_end_value in Ht by done. done. }
  unfold special_words in Hin. rewrite !elem_of_cons in Hin.
  destruct Hin as [He|[He|[He|[He|Hin]]]]; [by apply H in He..|by apply elem_of_nil in Hin].
Qed.

Lemma long_turn_value arg usagestr table help p r p' :
  (arg ∉ special_words) → parse_long_opt alloc_ok arg table p = Done r p' →
  long_turn alloc_ok arg usagestr table help p =
    if r =? -1 then (r ← parse_options_usage usagestr table arg false; mret (Return r)) p'
    else if r =? -2 then Done Unknown p' else Done Continue p'.
Proof.
  intros Hn Hr. unfold long_turn. apply not_special in Hn as (-> & -> & -> & ->). rewrite !andb_false_r.
  rewrite (bind_run _ _ _ _ _ Hr). by destruct (r =? -1), (r =? -2).
Qed.

Lemma arg_at_run i s p : mjoin (p_out p !! i) = Some s → arg_at i p = Done s p.
Proof. intros Hs. unfold arg_at, get, mbind, prog_bind. by rewrite Hs. Qed.

Lemma one_turn_long arg usagestr table help p :
  arg ≠ "" → mjoin (p_out p !! p_argv p) = Some ("--" +:+ arg) →
  one_turn alloc_ok usagestr table help p = long_turn alloc_ok arg usagestr table help p.
Proof.
  intros Hne Ha. unfold one_turn. rewrite get_bind, (bind_run _ _ _ _ _ (arg_at_run _ _ _ Ha)). by destruct arg.
Qed.

Lemma one_turn_plain usagestr table help front gap a rest p :
  moving front gap (a :: rest) p → plain_arg a →
  one_turn alloc_ok usagestr table help p = Done Continue (p <| p_out ::= <[p_cpidx p := Some a]> |> <| p_cpidx ::= S |>).
Proof.
  intros Hm Ha. pose proof (moving_arg _ _ _ 0 a p Hm eq_refl) as Hat. rewrite Nat.add_0_r in Hat.
  unfold one_turn. rewrite get_bind, (bind_run _ _ _ _ _ (arg_at_run _ _ _ Hat)).
  assert ((if has (p_flags p) PARSE_OPT_STOP_AT_NON_OPTION then mret Break else keep_arg (Some a) ;; mret Continue) p =
    Done Continue (p <| p_out ::= <[p_cpidx p := Some a]> |> <| p_cpidx ::= S |>)) as Hk.
  { pose proof Hm as []. rewrite m_flags0. change (has 0 _) with false. cbv iota.
    unfold keep_arg, put_arg, get, modify, mret, prog_ret, mbind, prog_bind.
    rewrite bool_decide_true; [done|]. rewrite m_out0, m_cpidx0, !length_app, !length_fmap. simpl. lia. }
  destruct a as [|c a]; [exact Hk|]. destruct (decide (c = "-"%char)) as [->|Hc].
  - destruct a; [exact Hk|done].
  - clear -Hk Hc. destruct c as [[] [] [] [] [] [] [] []]; try exact Hk; done.
Qed.

(** An option with a number: its argument or arguments are read, and its text converted. *)
Lemma option_value table vars x front gap rest p P :
  numbered table vars x P → moving front gap (texts x ++ rest) p → p_vars p = vars →
  ∃ arg o mk conv v p1, P o mk conv v ∧ number_option o mk conv ∧
    arg ≠ "" ∧ (arg ∉ special_words) ∧ mjoin (p_out p !! p_argv p) = Some ("--" +:+ arg) ∧
    p_vars p1 = vars ∧ p_errno p1 = p_errno p ∧
    moving front (gap ++ texts x) rest (p1 <| p_argc ::= pred |> <| p_argv ::= S |>) ∧
    parse_long_opt alloc_ok arg table p =
      let p2 := (if st_range (conv v) then p1 <| p_errno := Some ERANGE |> else p1)
                <| p_vars ::= <[value o := mk (st_val (conv v))]> |> in
      match st_rest (conv v) with
      | EmptyString => Done 0 p2
      | _ => opterror o "expects a numerical value" 0 p2
      end.
Proof.
  intros Hx Hm Hv.
  assert (∀ t l, texts x ++ rest = t :: l → mjoin (p_out p !! p_argv p) = Some t) as Hat.
  { intros t l Hl. rewrite <- (Nat.add_0_r (p_argv p)). eapply moving_arg; [exact Hm|]. by rewrite Hl. }
  destruct x as [a|o n v|o n v]; [done|..]; destruct Hx as (Hn & mk & conv & Ho & Hvar & HP);
    pose proof Hn as (pre & post & _ & _ & _ & _ & Hno & Hne & Hsp & _); pose proof Hm as [].
  - exists (eq_value n v), o, mk, conv, v, (p <| p_opt := None |>). split_and!; try done.
    + by destruct n.
    + by apply value_not_special.
    + by eapply Hat.
    + eapply moving_skip; [exact Hm|done..|simpl; lia|simpl; lia].
    + unfold parse_long_opt. rewrite (long_loop_stuck _ o) by done.
      apply get_value_number; [done|by rewrite <- Hv in Hvar|done].
  - exists n, o, mk, conv, v, (p <| p_argc ::= pred |> <| p_argv ::= S |>). split_and!; try done.
    + by eapply Hat.
    + eapply moving_skip; [exact Hm|done..|simpl; lia|simpl; lia].
    + unfold parse_long_opt. rewrite (long_loop_alone _ o) by done.
      apply get_value_number; [done|by rewrite <- Hv in Hvar|].
      apply get_arg_next; [done|apply Ho|rewrite m_argc0; simpl; lia|].
      rewrite <- (Nat.add_1_r (p_argv p)). by eapply moving_arg.
Qed.

(** A turn over a piece that goes well. *)
Lemma turn_piece usagestr table help x vars' front gap rest p :
  piece_stores table x (p_vars p) vars' → moving front gap (texts x ++ rest) p →
  ∃ p1, one_turn alloc_ok usagestr table help p = Done Continue p1 ∧ p_vars p1 = vars' ∧ p_errno p1 = p_errno p ∧
    ∃ gap', moving (front ++ kept x) gap' rest (p1 <| p_argc ::= pred |> <| p_argv ::= S |>).
Proof.
  intros Hx Hm. assert (Hnum : ∀ vars, p_vars p = vars →
    numbered table vars x (λ o mk conv v, ∃ z, text_of o v z ∧ vars' = <[value o := mk z]> vars) → kept x = [] →
    ∃ p1, one_turn alloc_ok usagestr table help p = Done Continue p1 ∧ p_vars p1 = vars' ∧ p_errno p1 = p_errno p ∧
    ∃ gap', moving (front ++ kept x) gap' rest (p1 <| p_argc ::= pred |> <| p_argv ::= S |>)).
  { intros vars Hv Hn ->.
    destruct (option_value _ _ _ _ _ _ _ _ Hn Hm Hv) as
      (arg & o & mk & conv & v & p1 & (z & Htext & Hz) & Ho & Hne & Hsp & Hat & Hv1 & He1 & Hm1 & Hrun).
    destruct (text_of_conv _ _ _ _ _ Ho Htext) as (Hval & Hrest & Hrange).
    rewrite Hval, Hrest, Hrange in Hrun. exists (p1 <| p_vars ::= <[value o := mk z]> |>).
    rewrite (one_turn_long arg) by done. rewrite (long_turn_value _ _ _ _ _ _ _ Hsp Hrun).
    split; [done|]. split; [by simpl; rewrite Hv1, Hz|]. split; [done|].
    rewrite app_nil_r. eexists. destruct Hm1. constructor; done. }
  destruct x as [a|o n v|o n v]; [|by eapply Hnum..]. destruct Hx as [Ha ->]. simpl in Hm.
  eexists. split; [by eapply one_turn_plain|]. split; [done|]. split; [done|]. by eapply moving_keep.
Qed.

Lemma texts_pos x : (1 <= length (texts x))%nat.
Proof. destruct x; simpl; lia. Qed.

(** The loop, over pieces that go well. *)
Lemma loop_pieces usagestr table help l vars' front gap rest fuel p :
  pieces_store table l (p_vars p) vars' → moving front gap ((l ≫= texts) ++ rest) p →
  (length (l ≫= texts) + length rest < fuel)%nat →
  ∃ fuel' p' gap', step_loop alloc_ok fuel usagestr table help p = step_loop alloc_ok fuel' usagestr table help p' ∧
    (length rest < fuel')%nat ∧ moving (front ++ (l ≫= kept)) gap' rest p' ∧ p_vars p' = vars' ∧ p_errno p' = p_errno p.
Proof.
  intros Hl. remember (p_vars p) as vars eqn:Hv. revert front gap fuel p Hv.
  induction Hl as [vars|x l vars vars1 vars2 Hx Hl IH]; intros front gap fuel p Hv Hm Hfuel.
  { exists fuel, p, gap. rewrite app_nil_r. simpl in *. split_and!; try done; lia. }
  rewrite bind_cons in Hm, Hfuel. rewrite bind_cons. rewrite <- (assoc_L (++)) in Hm. rewrite length_app in Hfuel. subst vars.
  destruct (turn_piece usagestr table help _ _ _ _ _ _ Hx Hm) as (p1 & Hturn & Hv1 & He1 & gap1 & Hm1).
  destruct fuel as [|fuel]; [lia|]. pose proof (texts_pos x).
  destruct (λ H, IH _ _ fuel _ H Hm1) as (fuel' & p' & gap' & Hrun & Hf & Hm' & Hv' & He'); [by symmetry|lia|].
  exists fuel', p', gap'. split; [|split; [done|]].
  - rewrite <- Hrun. simpl. rewrite get_bind. pose proof (m_argc _ _ _ _ Hm) as Hc. rewrite length_app in Hc.
    destruct (length (texts x)); [lia|]. rewrite Hc. cbn [Nat.add]. by rewrite (bind_run _ _ _ _ _ Hturn).
  - rewrite (assoc_L (++)). by rewrite He', <- He1.
Qed.

Lemma end_pieces front gap p :
  moving front gap [] p → ∃ p', (n ← parse_options_end; p ← get; must (mapM id (take n (p_out p)))) p = Done front p' ∧
    p_vars p' = p_vars p ∧ p_errno p' = p_errno p.
Proof.
  intros []. simpl in *. eexists. split; [|split].
  - unfold parse_options_end. rewrite (bind_run _ _ _ (p_cpidx p)
      (p <| p_out ::= λ out, (take (p_cpidx p) out ++ [] ++ None :: drop (p_cpidx p + p_argc p + 1) out)%list |>)).
    + rewrite get_bind. simpl. rewrite m_cpidx0, m_out0.
      rewrite !(take_app_length' (Some <$> front)) by (by rewrite length_fmap).
      rewrite (proj2 (mapM_Some id (Some <$> front) front)); [done|].
      apply Forall2_fmap_l, Forall_Forall2_diag, Forall_true. done.
    + rewrite get_bind, m_argc0, take_0, bool_decide_true.
      * unfold mbind, prog_bind, modify. simpl. by rewrite m_argc0, !Nat.add_0_r.
      * rewrite m_cpidx0, m_out0, !length_app, !length_fmap. simpl. destruct gap; [done|]. simpl. lia.
  - done.
  - done.
Qed.

Lemma start_moving a0 rest vars : moving [] [a0] rest
  (PState ((Some <$> a0 :: rest) ++ [None]) 1 (length rest) 0 None 0 None vars "" "" None).
Proof. by constructor. Qed.

(** C33: A command line of arguments that are no options and of options with a number, in any order
    and number, is read back.  An option is named in full, with the decimal digits of its number
    after a [=] or as the next argument, and may be an int, an unsigned int, a long or a 64-bit one.
    The line parses; what is left are the arguments that are no options, all of them and in
    their order; every option's variable holds the last number it was given, converted to its type (nothing at
    all after the [=] is read as 0), every other variable what it held, and [errno] is not touched.  The options'
    table is any with no OPTION_ARGUMENT before them, where the names have no [=] and do not start
    with "no-"; what they abbreviate to plays no part. *)
Theorem parse_long_number a0 l table usagestr vars vars' :
  pieces_store table l vars vars' →
  ∃ p, parse_options alloc_ok (a0 :: (l ≫= texts)) table usagestr 0 vars = Done (l ≫= kept) p ∧
    p_vars p = vars' ∧ p_errno p = None.
Proof.
  intros Hl. unfold parse_options, parse_options_subcommand_prefix, parse_options_start. simpl.
  rewrite Nat.sub_0_r. pose proof (start_moving a0 (l ≫= texts) vars) as Hm.
  rewrite <- (app_nil_r (l ≫= texts)) in Hm at 1. set (p0 := PState _ _ _ _ _ _ _ _ _ _ _) in *.
  destruct (loop_pieces usagestr table true l vars' [] [a0] [] (S (length (l ≫= texts))) p0 Hl Hm)
    as (fuel & p1 & gap & Hrun & Hf & Hm1 & Hv1 & He1); [simpl; lia|].
  destruct (end_pieces _ _ _ Hm1) as (p2 & Hend & Hv2 & He2).
  exists p2. split; [|by rewrite Hv2, He2, He1].
  unfold finish_parse, parse_options_step.
  rewrite (bind_run _ _ _ PARSE_OPT_DONE p1).
  - exact Hend.
  - rewrite get_bind, (bind_run _ _ _ () p0) by done. etrans; [exact Hrun|].
    destruct fuel; [simpl in Hf; lia|]. simpl. rewrite get_bind. by rewrite (m_argc _ _ _ _ Hm1).
Qed.

(** ** Numbers that are none *)

Lemma step_loop_return usagestr table help fuel n p r p' :
  p_argc p = S n → one_turn alloc_ok usagestr table help p = Done (Return r) p' →
  step_loop alloc_ok (S fuel) usagestr table help p = Done r p'.
Proof.
  intros Hn Ht. simpl. rewrite get_bind, Hn. by rewrite (bind_run _ _ _ _ _ Ht).
Qed.

(** C34: A number that is followed by something else, or that is no number at all, ends the process at
    once with the status of success.  The option is one with a number, named in full, with its
    value after a [=] or as the next argument; it may stand anywhere on the line behind arguments that
    are no options and options with good numbers, and whatever follows it plays no part.  Only an empty value is not refused: it
    is read as 0. *)
Theorem bad_number_exits_0 Γ a0 l x args table usagestr vars vars' :
  pieces_store table l vars vars' →
  numbered table vars' x (λ o mk conv v, st_rest (conv v) ≠ ""%string) →
  table_ok Γ table → (∀ u, usagestr = Some u → u ≠ []) →
  ∃ p, parse_options alloc_ok (a0 :: (l ≫= texts) ++ texts x ++ args) table usagestr 0 vars = Exited 0 p.
Proof.
  intros Hl Hx Htab Hu. unfold parse_options, parse_options_subcommand_prefix, parse_options_start. simpl.
  rewrite Nat.sub_0_r. pose proof (start_moving a0 ((l ≫= texts) ++ texts x ++ args) vars) as Hm.
  set (p0 := PState _ _ _ _ _ _ _ _ _ _ _) in *.
  destruct (loop_pieces usagestr table true l vars' [] [a0] (texts x ++ args)
    (S (length ((l ≫= texts) ++ texts x ++ args))) p0 Hl Hm)
    as (fuel & p1 & gap & Hrun & Hf & Hm1 & Hv1 & He1); [rewrite !length_app; lia|].
  destruct (option_value _ _ _ _ _ _ _ _ Hx Hm1 Hv1) as
    (arg & o & mk & conv & v & p2 & Hbad & Ho & Hne & Hsp & Hat & _ & _ & _ & Hopt).
  assert (∃ p3, parse_long_opt alloc_ok arg table p1 = Done (-1) p3) as [p3 Hlong].
  { rewrite Hopt. cbv zeta. destruct (st_rest (conv v)); [done|].
    unfold opterror. change (has 0 _) with false. change (has 0 _) with false. eexists. done. }
  pose proof (parse_options_usage_spec Γ usagestr table Hu Htab arg false p3) as Huse.
  apply wp_Done in Huse as (r & p4 & Huse & ->). exists p4.
  unfold finish_parse, parse_options_step. rewrite (bind_run _ _ _ PARSE_OPT_HELP p4); [done|].
  rewrite get_bind, (bind_run _ _ _ () p0) by done. etrans; [exact Hrun|].
  destruct fuel as [|fuel]; [lia|]. pose proof (texts_pos x) as Hpos. pose proof (m_argc _ _ _ _ Hm1) as Hc.
  rewrite length_app in Hc. destruct (length (texts x)) as [|k]; [lia|].
  eapply step_loop_return; [exact Hc|]. rewrite (one_turn_long arg) by done.
  rewrite (long_turn_value _ _ _ _ _ _ _ Hsp Hlong). simpl Z.eqb. cbv iota.
  unfold mbind, prog_bind. by rewrite Huse.
Qed.
End lines.

(** ** The tables of the commands *)

Lemma typed_self (vars : variables) :
  bool_decide (map_Forall (λ _ c, fits_in (type_of c) c) vars) = true → typed (type_of <$> vars) vars.
Proof.
  intros H%bool_decide_eq_true v. rewrite lookup_fmap. destruct (vars !! v) as [c|] eqn:Hv; simpl; [|done].
  by apply (H v).
Qed.

(** The commands on objects, and the variables their options write. *)
Definition command_tables : list (list opt * variables) :=
  [(device_options, param_vars); (device_disable_options, param_vars);
   (config_device_options, dev_param_vars); (config_group_options, group_param_vars);
   (config_wq_options, wq_param_vars); (config_engine_options, engine_param_vars)].

(** The commands that take options only: list, save-config, load-config and config-default. *)
Definition option_tables (st : statics) : list (option string * list opt * variables) :=
  [(None, cmd_list_options, list_vars);
   (None, cmd_save_options, {["config_save.saved_file" := VStr None]});
   (Some "./", cmd_config_options, config_vars st);
   (Some "./", cmd_config_default_options, config_default_vars st)]%string.

(** [table_ok], for a table whose entries are constants. *)
Ltac table :=
  repeat first [apply table_end; reflexivity | apply table_cons; [discriminate| |]];
  (split; [vm_compute; reflexivity|]); first [intros ?; discriminate | split; discriminate].

Lemma tables_typed t vars :
  (t, vars) ∈ command_tables → table_ok (type_of <$> vars) t ∧ typed (type_of <$> vars) vars.
Proof.
  unfold command_tables. rewrite !elem_of_cons. intros H. split; [|apply typed_self].
  - destruct H as [[= -> ->]|[[= -> ->]|[[= -> ->]|[[= -> ->]|[[= -> ->]|[[= -> ->]|H]]]]]];
      [table..|by apply elem_of_nil in H].
  - destruct H as [[= -> ->]|[[= -> ->]|[[= -> ->]|[[= -> ->]|[[= -> ->]|[[= -> ->]|H]]]]]];
      [vm_compute; reflexivity..|by apply elem_of_nil in H].
Qed.

Lemma option_tables_typed st prefix t vars :
  (prefix, t, vars) ∈ option_tables st →
  table_ok (type_of <$> vars) t ∧ typed (type_of <$> vars) vars ∧ from_option short True prefix.
Proof.
  unfold option_tables. rewrite !elem_of_cons. intros H.
  destruct H as [[= -> -> ->]|[[= -> -> ->]|[[= -> -> ->]|[[= -> -> ->]|H]]]]; [| | | |by apply elem_of_nil in H].
  all: split; [table|split; [apply typed_self; vm_compute; reflexivity|done]].
Qed.

Section commands.
Context (alloc_ok : Z → bool) (alloc_all : ∀ n, alloc_ok n = true ↔ n < 2 ^ 63).

(** The table of a command, whatever the line: a status, or variables of their types and a
    part of the arguments. *)
Lemma prefix_options prefix t (vars : variables) argv usage :
  table_ok (type_of <$> vars) t → typed (type_of <$> vars) vars → from_option short True prefix →
  argv ≠ [] → Forall short argv →
  match parse_options_prefix alloc_ok argv prefix t (Some [usage]) 0 vars with
  | Done args p => typed (type_of <$> vars) (p_vars p) ∧ from_option (eq ERANGE) True (p_errno p) ∧ sublist args (tail argv)
  | Exited c _ => exits c
  | Fault => False
  end.
Proof.
  intros Htab Hty Hpre Hne Hs.
  assert (line_ok argv prefix t (Some [usage]) 0 (type_of <$> vars) vars) as Hl.
  { by constructor; try done; intros u [= <-]. }
  pose proof (parse_line alloc_ok alloc_all _ _ _ _ _ _ _ Hl) as Hp.
  destruct (parse_options_prefix alloc_ok argv prefix t (Some [usage]) 0 vars) as [args p|c p|]; [|done..].
  destruct Hp as (Hv & He & Hsub). split; [done|]. split; [done|]. by destruct argv.
Qed.

Lemma command_options t vars argv usage :
  (t, vars) ∈ command_tables → argv ≠ [] → Forall short argv →
  match parse_options alloc_ok argv t (Some [usage]) 0 vars with
  | Done args p => typed (type_of <$> vars) (p_vars p) ∧ from_option (eq ERANGE) True (p_errno p) ∧ sublist args (tail argv)
  | Exited c _ => exits c
  | Fault => False
  end.
Proof. intros [Htab Hty]%tables_typed. by apply (prefix_options None). Qed.

(** C11: What every command that takes options does with its command line, whatever that is.  A
    command on objects ends with a status of the parser before it has done anything, or
    runs on some of the arguments given, in their order, with every parameter a value of its C type; only
    [errno] may have changed, to ERANGE, by a number out of range.  The commands list,
    save-config, load-config and config-default take options only: they end in the same way, also
    when an argument is left, or run with nothing changed.  The strings of the line are below 2^62 bytes, and
    the parser's own allocations are assumed to succeed below 2^63 bytes ([alloc_all]): the copy of an
    unknown switch is not tested for NULL. *)
Theorem command_line :
  (∀ F A t vars argv usage (k : list string → variables → prog (world F) A) (w : world F),
    (t, vars) ∈ command_tables → argv ≠ [] → Forall short argv →
    (∃ c, exits c ∧ after_options alloc_ok argv t usage vars k w = Exited c w) ∨
    (∃ args vars' w', sublist args (tail argv) ∧ typed (type_of <$> vars) vars' ∧
      (w' = w ∨ w' = w <| errno := ERANGE |>) ∧
      after_options alloc_ok argv t usage vars k w = k args vars' w')) ∧
  (∀ T st prefix t vars argv usage (s : T),
    (prefix, t, vars) ∈ option_tables st → argv ≠ [] → Forall short argv →
    (∃ c, exits c ∧ options_only alloc_ok prefix argv t usage vars s = Exited c s) ∨
    (∃ vars', typed (type_of <$> vars) vars' ∧
      options_only alloc_ok prefix argv t usage vars s = Done vars' s)).
Proof.
  split.
  - intros F A t vars argv usage k w Ht Hne Hs.
    pose proof (command_options t vars argv usage Ht Hne Hs) as Hp. unfold after_options.
    destruct (parse_options alloc_ok argv t (Some [usage]) 0 vars) as [args p|c p|]; [|by left; eauto|done].
    right. destruct Hp as (Hv & He & Hsub). exists args, (p_vars p), (parser_errno p w). split_and!; try done.
    unfold parser_errno. destruct (p_errno p) as [e|]; [right; by rewrite <- He|by left].
  - intros T st prefix t vars argv usage s Ht Hne Hs. destruct (option_tables_typed _ _ _ _ Ht) as (Htab & Hty & Hpre).
    pose proof (prefix_options prefix t vars argv usage Htab Hty Hpre Hne Hs) as Hp. unfold options_only.
    destruct (parse_options_prefix alloc_ok argv prefix t (Some [usage]) 0 vars) as [args p|c p|]; [|by left; eauto|done].
    destruct args as [|a args]; [right; exists (p_vars p); by destruct Hp|]. left.
    set (report := for_each _ _). assert (wpx exits (report;; usage_with_options (A := ()) (Some [usage]) t) (λ _ _, False) p) as Hw.
    { apply wpx_bind. eapply wpx_mono with (Q := λ _ _, True).
      - subst report. generalize (a :: args), p. clear. intros l. induction l as [|x l IH]; intros p; [done|].
        simpl. apply wpx_bind, wpx_bind, wpx_bind, wpx_modify, wpx_ret, wpx_ret, IH.
      - intros _ p1 _. unfold usage_with_options. apply wpx_bind.
        eapply wpx_mono; [apply wp_wpx; eapply (usage_spec (type_of <$> vars)); [|done]|]; [by intros u [= <-]|].
        intros _ p2 _. by right; right. }
    unfold wpx in Hw. destruct ((report;; _) p) as [u p1|e p1|]; [done| |done]. by exists e.
Qed.
End commands.

(** ** Instances: [config-wq --wq-size=8 dsa0/wq0.0] *)

Definition grants (n : Z) : bool := n <? 2 ^ 63.
Lemma grants_all n : grants n = true ↔ n < 2 ^ 63.
Proof. apply Z.ltb_lt. Qed.

Definition wq_line : list string := ["config-wq"; "--wq-size=8"; "dsa0/wq0.0"]%string.
Definition wq_usage : option (list string) := Some ["usage"%string].
Notation wq_types := (type_of <$> wq_param_vars).

Lemma wq_line_ok : line_ok wq_line None config_wq_options wq_usage 0 wq_types wq_param_vars.
Proof.
  destruct (tables_typed config_wq_options wq_param_vars) as [Ht Hv]; [unfold command_tables; set_solver|].
  constructor; try done; [repeat constructor|]. by intros u [= <-].
Qed.

Definition wq_parsed : outcome pstate (list string) :=
  parse_options_prefix grants wq_line None config_wq_options wq_usage 0 wq_param_vars.

Example wq_parsed_value :
  match wq_parsed with
  | Done args p => args = ["dsa0/wq0.0"%string] ∧ wp_wq_size (wq_param_of (p_vars p)) = 8
  | _ => False
  end.
Proof. vm_compute. done. Qed.

Lemma wq_parsed_done : ∃ p, wq_parsed = Done ["dsa0/wq0.0"%string] p.
Proof.
  pose proof wq_parsed_value as Hw. destruct wq_parsed as [args p| |]; [|done..].
  destruct Hw as [-> _]. by exists p.
Qed.

Lemma parse_options_ends_witness :
  match wq_parsed with
  | Done args p => typed wq_types (p_vars p) ∧ sublist args (tail wq_line)
  | Exited c _ => exits c
  | Fault => False
  end.
Proof. exact (parse_options_ends grants grants_all _ _ _ _ _ _ _ wq_line_ok). Defined.

Definition wq_size_option : opt := OPT_UINTEGER "s" "wq-size" "wq_param.wq_size" "specify wq-size used by wq".
Definition wq_transfer_option : opt :=
  OPT_U64 "x" "max-transfer-size" "wq_param.max_transfer_size" "specify max-transfer-size used by wq".

(** The options before one in a table, each with its own name. *)
Ltac named_in n :=
  exists (take n config_wq_options), (drop (S n) config_wq_options); split_and!; try done;
  [by repeat constructor|unfold special_words; by rewrite !elem_of_cons, elem_of_nil; intuition discriminate|];
  simpl; repeat (constructor; [split_and!; [done..|intros ? [= <-]; split_and!; [done|by repeat constructor|done]]|]);
  constructor.
Lemma wq_size_named : named config_wq_options wq_size_option "wq-size".
Proof. named_in 1%nat. Qed.
Lemma wq_transfer_named : named config_wq_options wq_transfer_option "max-transfer-size".
Proof. named_in 12%nat. Qed.

(** [config-wq --wq-size=8 dsa0/wq0.0 --max-transfer-size 2097152] *)
Definition wq_pieces : list piece :=
  [PStuck wq_size_option "wq-size" "8"; PArg "dsa0/wq0.0";
   PNext wq_transfer_option "max-transfer-size" "2097152"]%string.
Definition wq_stored : variables :=
  <["wq_param.max_transfer_size" := VU64 2097152]> (<["wq_param.wq_size" := VUint 8]> wq_param_vars).
Lemma wq_pieces_store : pieces_store config_wq_options wq_pieces wq_param_vars wq_stored.
Proof.
  eapply pieces_cons; [|eapply pieces_cons; [by split|eapply pieces_cons; [|apply pieces_nil]]].
  - split; [exact wq_size_named|]. eexists _, _. split; [done|]. split; [reflexivity|].
    exists 8. split; [left; done|reflexivity].
  - split; [exact wq_transfer_named|]. eexists _, _. split; [done|]. split; [reflexivity|].
    exists 2097152. split; [left; done|reflexivity].
Qed.

Lemma parse_long_number_witness :
  ∃ p, parse_options grants ["config-wq"; "--wq-size=8"; "dsa0/wq0.0"; "--max-transfer-size"; "2097152"]%string
    config_wq_options wq_usage 0 wq_param_vars = Done ["dsa0/wq0.0"%string] p ∧
    p_vars p = wq_stored ∧ p_errno p = None.
Proof. exact (parse_long_number grants "config-wq" wq_pieces config_wq_options wq_usage _ _ wq_pieces_store). Defined.

Lemma bad_number_exits_0_witness :
  ∃ p, parse_options grants ["config-wq"; "--wq-size=8"; "dsa0/wq0.0"; "--max-transfer-size"; "2097152"; "--wq-size"; "8k"; "dsa0/wq0.1"]%string
    config_wq_options wq_usage 0 wq_param_vars = Exited 0 p.
Proof.
  apply (bad_number_exits_0 grants wq_types "config-wq" wq_pieces (PNext wq_size_option "wq-size" "8k")
    ["dsa0/wq0.1"%string] config_wq_options wq_usage wq_param_vars wq_stored wq_pieces_store).
  - split; [exact wq_size_named|]. eexists _, _. split; [done|]. split; [reflexivity|done].
  - apply tables_typed. unfold command_tables. set_solver.
  - by intros u [= <-].
Defined.

Lemma command_line_witness :
  let k args vars := mret (Z.of_nat (length args)) : prog (world sim) Z in
  ((∃ c, exits c ∧ after_options grants wq_line config_wq_options "usage" wq_param_vars k demo_world = Exited c demo_world) ∨
  (∃ args vars' w', sublist args (tail wq_line) ∧ typed wq_types vars' ∧
    (w' = demo_world ∨ w' = demo_world <| errno := ERANGE |>) ∧
    after_options grants wq_line config_wq_options "usage" wq_param_vars k demo_world = k args vars' w')) ∧
  ((∃ c, exits c ∧ options_only grants None ["list"; "-G"]%string cmd_list_options "usage" list_vars demo_world = Exited c demo_world) ∨
  (∃ vars', typed (type_of <$> list_vars) vars' ∧
    options_only grants None ["list"; "-G"]%string cmd_list_options "usage" list_vars demo_world = Done vars' demo_world)).
Proof.
  intros k. split.
  - apply (proj1 (command_line grants grants_all)); [unfold command_tables; set_solver|done|repeat constructor].
  - apply (proj2 (command_line grants grants_all) _ initial_statics); [unfold option_tables; set_solver|done|repeat constructor].
Defined.
