(* ===== verification/Size.v ===== *)
(** * util/size.c: sizes with a unit suffix

    [__parse_size64] and [parse_size64], with what they accept and where the
    multiplication by the unit wraps. *)

From S2P Require Import Prelude CString.
Local Open Scope string_scope.
Local Open Scope Z_scope.

(* util/size.h:9-9 SZ_1K *)
Definition SZ_1K : Z := 0x400.
(* util/size.h:11-11 SZ_1M *)
Definition SZ_1M : Z := 0x100000.
(* util/size.h:16-16 SZ_1G *)
Definition SZ_1G : Z := 0x40000000.
(* util/size.h:17-17 SZ_1T *)
Definition SZ_1T : Z := 0x10000000000.

(** The unit a suffix character stands for, and whether it is consumed. *)
(* util/size.c:17-50 __parse_size64 *)
Definition size_unit (rest : string) : Z * string :=
  match rest with
  | String ("k" | "K") r => (SZ_1K, r)
  | String ("m" | "M") r => (SZ_1M, r)
  | String ("g" | "G") r => (SZ_1G, r)
  | String ("t" | "T") r => (SZ_1T, r)
  | _ => (1, rest)
  end.

(** The value, and what is assigned to [*units], if anything. *)
(* util/size.c:8-55 __parse_size64 *)
Definition __parse_size64 (str : string) : Z * option Z :=
  let r := strtoull str 0 in
  let val := st_val r in
  if val =? ULLONG_MAX then (val, None)
  else
    let check := val in
    let '(unit, e) := size_unit (st_rest r) in
    let val := u64 (val * unit) in
    ((if (val <? check) || negb (String.eqb e "") then ULLONG_MAX else val), Some unit).

(* util/size.c:57-60 parse_size64 *)
Definition parse_size64 (str : string) : Z := (__parse_size64 str).1.

(** ** What is accepted *)

Lemma size_unit_bound rest : 1 <= (size_unit rest).1 <= SZ_1T.
Proof.
  unfold size_unit, SZ_1K, SZ_1M, SZ_1G, SZ_1T. repeat case_match; simpl; lia.
Qed.


