(* ===== verification/SysfsFacts.v ===== *)
(** * util/sysfs.c: what attribute access and enumeration do

    Frames of the system calls ([respects (on f)], [fd_delta]), their totality, and the
    behaviour of [__sysfs_read_attr], [write_attr] and [__sysfs_device_parse]. *)

From S2P Require Import Prelude CString Prog Types SimKernel Sysfs.
Local Open Scope string_scope.
Local Open Scope Z_scope.

(** ** Frames *)

(** The library's memory is the same. *)
Definition lib {F} (w : world F) : heap * Z * string := (hp w, init_cmd_status w, filename_prefix w).
Definition on {F A} (f : world F → A) : relation (world F) := λ w w', f w' = f w.
#[export] Instance on_preorder {F A} (f : world F → A) : PreOrder (on f).
Proof. split; [done|]. intros w1 w2 w3 H1 H2. unfold on in *. congruence. Qed.

(** The number of descriptors grows by [delta] of the result. *)
Definition fd_delta {F A} (m : prog (world F) A) (delta : A → Z) : Prop :=
  ∀ w a w', m w = Done a w' → nfds w' = nfds w + delta a.
Notation fd_balanced m := (fd_delta m (λ _, 0)).

(** What a relation on worlds must ignore for a call to respect it: the state of
    the operating system and [errno] always, the count of descriptors for
    [open] and [close], the trace for [write], the memory for an assignment. *)
Class OsFrame {F} (R : relation (world F)) : Prop := {
  os_preorder :: PreOrder R;
  os_fs w f : R w (w <| fs := f |>);
  os_errno w e : R w (w <| errno := e |>);
}.
Class FdFrame {F} (R : relation (world F)) : Prop := fd_nfds w g : R w (w <| nfds ::= g |>).
Class TrFrame {F} (R : relation (world F)) : Prop := tr_trace w e : R w (w <| trace ::= cons e |>).
Class HpFrame {F} (R : relation (world F)) : Prop := hp_hp w g : R w (w <| hp ::= g |>).

#[export] Instance os_lib F : OsFrame (on (lib (F := F))).
Proof. split; [apply _|done..]. Qed.
#[export] Instance fd_lib F : FdFrame (on (lib (F := F))).
Proof. done. Qed.
#[export] Instance tr_lib F : TrFrame (on (lib (F := F))).
Proof. done. Qed.
#[export] Instance os_trace F : OsFrame (on (trace (F := F))).
Proof. split; [apply _|done..]. Qed.
#[export] Instance fd_trace F : FdFrame (on (trace (F := F))).
Proof. done. Qed.
#[export] Instance hp_trace F : HpFrame (on (trace (F := F))).
Proof. done. Qed.
#[export] Instance os_nfds F : OsFrame (on (nfds (F := F))).
Proof. split; [apply _|done..]. Qed.
#[export] Instance tr_nfds F : TrFrame (on (nfds (F := F))).
Proof. done. Qed.
#[export] Instance hp_nfds F : HpFrame (on (nfds (F := F))).
Proof. done. Qed.

Section syscalls.
Context {F : Type} `{Kernel F} (R : relation (world F)) `{!OsFrame R}.
Notation M := (prog (world F)).

Lemma r_call {A} (k : F → kres A * F) : respects R (call k).
Proof.
  intros w a w' Hc. unfold call in Hc. destruct (k (fs w)) as [[b|e] f].
  - injection Hc as _ <-. exact (os_fs w f).
  - injection Hc as _ <-. etrans; [exact (os_fs w f)|exact (os_errno (w <| fs := f |>) e)].
Qed.
Lemma r_open `{!FdFrame R} fl path : respects R (sys_open fl path).
Proof. unfold sys_open. frame; [apply r_call|apply respects_modify]. intros w. exact (fd_nfds w _). Qed.
Lemma r_openat `{!FdFrame R} fl dfd name : respects R (sys_openat fl dfd name).
Proof. by apply r_open. Qed.
Lemma r_close `{!FdFrame R} fd : respects R (sys_close (F := F) fd).
Proof. apply respects_modify. intros w. exact (fd_nfds w _). Qed.
Lemma r_read fd n : respects R (sys_read fd n).
Proof. apply r_call. Qed.
Lemma r_write `{!TrFrame R} fd data : respects R (sys_write fd data).
Proof.
  intros w a w' Hw. unfold sys_write in Hw.
  destruct (k_write fd data (fs w)) as [r f].
  assert (R w (w <| fs := f |> <| trace ::= cons (EvWrite fd data r) |>)) as H1.
  { etrans; [exact (os_fs w f)|exact (tr_trace (w <| fs := f |>) _)]. }
  destruct r as [n|e]; injection Hw as _ <-; [done|]. etrans; [exact H1|exact (os_errno _ e)].
Qed.
Lemma r_access path : respects R (sys_access path).
Proof. unfold sys_access. frame. apply r_call. Qed.
Lemma r_lstat path : respects R (sys_lstat path).
Proof. unfold sys_lstat. frame. apply r_call. Qed.
Lemma r_realpath path : respects R (sys_realpath path).
Proof. apply r_call. Qed.
Lemma r_scandir path : respects R (sys_scandir path).
Proof. apply r_call. Qed.
Lemma r_alloc : respects R (alloc (F := F)).
Proof.
  intros w a w' Hw. unfold alloc in Hw. destruct (k_alloc (fs w)) as [[] f]; injection Hw as _ <-.
  - exact (os_fs w f).
  - etrans; [exact (os_fs w f)|exact (os_errno (w <| fs := f |>) _)].
Qed.
Lemma r_strdup s : respects R (strdup (F := F) s).
Proof. unfold strdup. frame. apply r_alloc. Qed.
Lemma r_set_errno e : respects R (set_errno (F := F) e).
Proof. apply respects_modify. intros w. exact (os_errno w _). Qed.
Lemma r_get_errno : respects R (get_errno (F := F)).
Proof. apply respects_gets; apply _. Qed.
Lemma r_neg_errno : respects R (neg_errno (F := F)).
Proof. unfold neg_errno. frame. apply r_get_errno. Qed.
Lemma r_sprintf_buf cap s : respects R (sprintf_buf (F := F) cap s).
Proof. unfold sprintf_buf. frame. Qed.
Lemma r_devpath_to_devname s : respects R (devpath_to_devname (F := F) s).
Proof. apply respects_must; apply _. Qed.
End syscalls.
#[export] Hint Resolve r_open r_openat r_close r_read r_write r_access r_lstat r_realpath
  r_scandir r_alloc r_strdup r_set_errno r_get_errno r_neg_errno r_sprintf_buf
  r_devpath_to_devname : frame.
#[export] Hint Extern 1 (OsFrame _) => typeclasses eauto : frame.
#[export] Hint Extern 1 (FdFrame _) => typeclasses eauto : frame.
#[export] Hint Extern 1 (TrFrame _) => typeclasses eauto : frame.
#[export] Hint Extern 1 (HpFrame _) => typeclasses eauto : frame.

Section sysfs_frames.
Context {F : Type} `{Kernel F} (R : relation (world F)) `{!OsFrame R, !FdFrame R}.
Lemma r_read_attr path : respects R (__sysfs_read_attr path).
Proof. unfold __sysfs_read_attr. frame. Qed.
Lemma r_write_attr `{!TrFrame R} path buf : respects R (__sysfs_write_attr path buf).
Proof. unfold __sysfs_write_attr, write_attr. frame. Qed.
End sysfs_frames.
#[export] Hint Resolve r_read_attr r_write_attr : frame.

Section total.
Context {F : Type} `{Kernel F}.

Lemma a_call {A} (k : F → kres A * F) : always (call k).
Proof. intros w. unfold call. destruct (k (fs w)) as [[a|e] f]; by eexists _, _. Qed.
Lemma a_open fl path : always (sys_open fl path).
Proof. unfold sys_open. always; apply a_call. Qed.
Lemma a_openat fl dfd name : always (sys_openat fl dfd name).
Proof. apply a_open. Qed.
Lemma a_close fd : always (sys_close (F := F) fd).
Proof. apply always_modify. Qed.
Lemma a_read fd n : always (sys_read fd n).
Proof. apply a_call. Qed.
Lemma a_write fd data : always (sys_write fd data).
Proof. intros w. unfold sys_write. destruct (k_write fd data (fs w)) as [[n|e] f]; by eexists _, _. Qed.
Lemma a_access path : always (sys_access path).
Proof. unfold sys_access. always; apply a_call. Qed.
Lemma a_realpath path : always (sys_realpath path).
Proof. apply a_call. Qed.
Lemma a_alloc : always (alloc (F := F)).
Proof. intros w. unfold alloc. destruct (k_alloc (fs w)) as [[] f]; by eexists _, _. Qed.
Lemma a_strdup s : always (strdup (F := F) s).
Proof. unfold strdup. always; apply a_alloc. Qed.
Lemma a_errno : always (get_errno (F := F)).
Proof. apply always_gets. Qed.
Lemma a_neg_errno : always (neg_errno (F := F)).
Proof. unfold neg_errno. always; apply a_errno. Qed.
Lemma a_set_errno e : always (set_errno (F := F) e).
Proof. apply always_modify. Qed.
#[local] Hint Resolve a_open a_openat a_close a_read a_write a_neg_errno : always.
Lemma a_read_attr path : always (__sysfs_read_attr path).
Proof. unfold __sysfs_read_attr. always. Qed.
Lemma a_write_attr path buf : always (__sysfs_write_attr path buf).
Proof. unfold __sysfs_write_attr, write_attr. always. Qed.
End total.
#[export] Hint Resolve a_open a_openat a_close a_read a_write a_access a_realpath a_alloc
  a_strdup a_errno a_neg_errno a_set_errno a_read_attr a_write_attr : always.

Section frames.
Context {F : Type} `{Kernel F}.
Notation M := (prog (world F)).

Lemma fd_delta_ret {A} (a : A) delta : delta a = 0 → fd_delta (F := F) (mret a) delta.
Proof. intros Ha w a' w' [= <- <-]. lia. Qed.
Lemma fd_delta_bind {A B} (m : M A) (k : A → M B) d1 delta :
  fd_delta m d1 → (∀ a, fd_delta (k a) (λ b, delta b - d1 a)) → fd_delta (m ≫= k) delta.
Proof.
  intros Hm Hk w b w' (a & w1 & H1 & H2)%bind_Done.
  apply Hm in H1. apply Hk in H2. lia.
Qed.
Lemma fd_delta_on {A} (m : M A) delta :
  respects (on nfds) m → (∀ a, delta a = 0) → fd_delta m delta.
Proof. intros Hm Hd w a w' Hr. apply Hm in Hr. unfold on in Hr. rewrite Hd. lia. Qed.
Lemma fd_delta_fault {A} delta : fd_delta (F := F) (fault : M A) delta.
Proof. done. Qed.
Lemma fd_delta_sys_open fl path :
  fd_delta (sys_open fl path) (λ r, match r with Some _ => 1 | None => 0 end).
Proof.
  unfold sys_open. intros w a w' (r & w1 & H1 & H2)%bind_Done. unfold call in H1.
  destruct (k_open fl path (fs w)) as [[u|e] f]; injection H1 as <- <-;
    injection H2 as <- <-; simpl; lia.
Qed.
Lemma fd_delta_sys_openat fl dfd name :
  fd_delta (sys_openat fl dfd name) (λ r, match r with Some _ => 1 | None => 0 end).
Proof. apply fd_delta_sys_open. Qed.
Lemma fd_delta_sys_close fd : fd_delta (F := F) (sys_close fd) (λ _, -1).
Proof. intros w a w' [= _ <-]. simpl. lia. Qed.
End frames.

Create HintDb fd discriminated.
#[export] Hint Resolve fd_delta_sys_open fd_delta_sys_openat fd_delta_sys_close : fd.

(** [fd] proves [fd_delta body delta] the way [frame] proves [respects]: a part
    that opens or closes nothing is balanced, the others are hints. *)
Ltac fd_part := first
  [ solve [eauto with fd]
  | apply (fd_delta_on _ (λ _, 0)); [solve [frame]|done] ].
Ltac fd_step :=
  match goal with
  | |- ∀ _, _ => intro
  | |- fd_delta (mret _) _ => apply fd_delta_ret; cbn; lia
  | |- fd_delta fault _ => apply fd_delta_fault
  | |- fd_delta (_ ≫= _) _ => eapply fd_delta_bind; [fd_part|]
  | |- fd_delta (let _ := _ in _) _ => cbv zeta
  | |- fd_delta _ _ => apply fd_delta_on; [solve [frame]|cbn; lia]
  | |- fd_delta (match ?x with _ => _ end) _ => destruct x
  end.
Ltac fd := repeat (first [fd_step | solve [eauto with fd]]).

Section fd_attributes.
Context {F : Type} `{Kernel F}.
Lemma fd_read_attr path : fd_balanced (__sysfs_read_attr path).
Proof. unfold __sysfs_read_attr. fd. Qed.
Lemma fd_write_attr path buf : fd_balanced (__sysfs_write_attr path buf).
Proof. unfold __sysfs_write_attr, write_attr. fd. Qed.
End fd_attributes.
#[export] Hint Resolve fd_read_attr fd_write_attr : fd.

(** ** Attributes *)

(** [run] unfolds the monad and the system calls in the goal. *)
Ltac run := unfold sys_openat, sys_open, sys_close, sys_read, sys_write, sys_access,
  sys_realpath, sys_scandir, sys_lstat, neg_errno, call, get_errno, set_errno, gets, modify, get,
  mbind, prog_bind, mret, prog_ret; simpl.

(** [ran] closes a goal "the run ends like this", the run being evaluated. *)
Ltac ran := repeat match goal with |- ∃ _, _ => eexists end; split; [reflexivity|];
  simpl; rewrite ?Z.pred_succ; repeat split; try done; try lia.

Lemma strlen_nonneg s : 0 <= strlen s.
Proof. unfold strlen. lia. Qed.

Lemma span_length p s : (String.length (span p s).1 <= String.length s)%nat.
Proof.
  induction s as [|c s IH]; simpl; [lia|]. destruct (p c); [|simpl; lia].
  destruct (span p s) as [a b]. simpl in *. lia.
Qed.

Lemma strip_nl_length s : (String.length (strip_nl s) <= String.length s)%nat.
Proof.
  induction s as [|c s IH]; [done|]. destruct s as [|c' s]; [simpl; destruct (Ascii.eqb c NL); simpl; lia|].
  change (strip_nl (String c (String c' s))) with (String c (strip_nl (String c' s))).
  simpl in *. lia.
Qed.

Section attributes.
Context {F : Type} `{Kernel F}.
Notation M := (prog (world F)).

(** The runs, call by call. *)
Lemma run_read_attr path w :
  ∃ rc buf w', __sysfs_read_attr path w = Done (rc, buf) w' ∧
    lib w' = lib w ∧ trace w' = trace w ∧ nfds w' = nfds w ∧ strlen buf < SYSFS_ATTR_SIZE ∧
    match k_open O_RDONLY path (fs w) with
    | (KErr e, f) => rc = - e ∧ fs w' = f ∧ errno w' = e
    | (KOk _, f) =>
        match k_read path SYSFS_ATTR_SIZE f with
        | (KErr e, f') => rc = - e ∧ buf = "" ∧ fs w' = f' ∧ errno w' = e
        | (KOk data, f') =>
            fs w' = f' ∧ errno w' = errno w ∧
            if strlen data <? SYSFS_ATTR_SIZE then rc = 0 ∧ buf = cstr (strip_nl data)
            else rc = - errno w ∧ buf = ""
        end
    end.
Proof.
  unfold __sysfs_read_attr. run.
  destruct (k_open O_RDONLY path (fs w)) as [[[]|e] f]; [|ran].
  simpl. destruct (k_read path SYSFS_ATTR_SIZE f) as [[data|e] f'] eqn:Hr; simpl; [|ran].
  destruct (Z.leb_spec SYSFS_ATTR_SIZE (strlen data)), (Z.ltb_spec (strlen data) SYSFS_ATTR_SIZE);
    [lia|ran|ran|lia].
  pose proof (span_length (λ c, negb (Ascii.eqb c NUL)) (strip_nl data)).
  pose proof (strip_nl_length data). unfold cstr, strlen in *. lia.
Qed.

Lemma run_write_attr path buf w :
  ∃ rc w', write_attr path buf w = Done rc w' ∧ lib w' = lib w ∧ nfds w' = nfds w ∧
    match k_open O_WRONLY path (fs w) with
    | (KErr e, f) => rc = - e ∧ trace w' = trace w ∧ fs w' = f ∧ errno w' = e
    | (KOk _, f) =>
        let r := k_write path buf f in
        trace w' = EvWrite path buf r.1 :: trace w ∧ fs w' = r.2 ∧
        match r.1 with
        | KOk n => errno w' = errno w ∧ rc = if n <? strlen buf then - errno w else 0
        | KErr e => errno w' = e ∧ rc = - e
        end
    end.
Proof.
  unfold write_attr. run.
  destruct (k_open O_WRONLY path (fs w)) as [[[]|e] f]; [|ran].
  simpl. destruct (k_write path buf f) as [[n|e] f'] eqn:Hr; simpl; [ran|].
  pose proof (strlen_nonneg buf). destruct (Z.ltb_spec (-1) (strlen buf)); [ran|lia].
Qed.

(** C28: Reading an attribute always returns, touches neither the library's memory nor the
    trace and leaves no descriptor open.  A failing [open] or [read] gives its negated error
    number; contents shorter than 1024 bytes give 0 and the text up to a NUL without its final
    newline, which fits the buffer; longer contents leave the empty string and the negated
    [errno] of earlier calls, which is 0, success, when nothing failed before. *)
Theorem sysfs_read_attr_spec path w :
  ∃ rc buf w', __sysfs_read_attr path w = Done (rc, buf) w' ∧
    lib w' = lib w ∧ trace w' = trace w ∧ nfds w' = nfds w ∧ strlen buf < SYSFS_ATTR_SIZE ∧
    match k_open O_RDONLY path (fs w) with
    | (KErr e, _) => rc = - e
    | (KOk _, f) =>
        match (k_read path SYSFS_ATTR_SIZE f).1 with
        | KErr e => rc = - e ∧ buf = ""
        | KOk data =>
            if strlen data <? SYSFS_ATTR_SIZE then rc = 0 ∧ buf = cstr (strip_nl data)
            else rc = - errno w ∧ buf = ""
        end
    end.
Proof.
  destruct (run_read_attr path w) as (rc & buf & w' & Hr & Hl & Ht & Hn & Hb & Hcase).
  exists rc, buf, w'. split; [done|]. do 4 (split; [done|]).
  destruct (k_open O_RDONLY path (fs w)) as [[[]|e] f]; [|tauto].
  destruct (k_read path SYSFS_ATTR_SIZE f) as [[data|e] f']; simpl; tauto.
Qed.

(** C29: Writing an attribute always returns, touches nothing of the library's memory, leaves no
    descriptor open and makes at most one write, of the whole text.  The result is 0 exactly
    when the system wrote every byte, or wrote fewer while [errno] happened to be 0; a failing
    [open] or [write] gives its negated error number, a short write the [errno] left behind. *)
Theorem write_attr_spec path buf w :
  ∃ rc w', write_attr path buf w = Done rc w' ∧ lib w' = lib w ∧ nfds w' = nfds w ∧
    match k_open O_WRONLY path (fs w) with
    | (KErr e, _) => rc = - e ∧ trace w' = trace w
    | (KOk _, f) =>
        trace w' = EvWrite path buf (k_write path buf f).1 :: trace w ∧
        match (k_write path buf f).1 with
        | KOk n => rc = if n <? strlen buf then - errno w else 0
        | KErr e => rc = - e
        end
    end.
Proof.
  destruct (run_write_attr path buf w) as (rc & w' & Hr & Hl & Hn & Hcase).
  exists rc, w'. split; [done|]. do 2 (split; [done|]).
  destruct (k_open O_WRONLY path (fs w)) as [[[]|e] f]; [|tauto].
  simpl in Hcase. destruct (k_write path buf f) as [[n|e] f']; simpl in *; tauto.
Qed.
End attributes.

(** ** Enumeration *)

(** The entries the filter keeps. *)
Definition kept (flt : string → bool) (names : list string) : list string :=
  base.filter (λ n, flt n = true) names.

(** A predicate on worlds the operating system cannot change. *)
Class Stable {F} (I : world F → Prop) : Prop := {
  stable_fs w f : I w → I (w <| fs := f |>);
  stable_errno w e : I w → I (w <| errno := e |>);
}.

Section enumeration.
Context {F : Type} `{Kernel F} (I : world F → Prop) `{!Stable I}.
Notation M := (prog (world F)).
Context (base_path dev_prefix bus_type : string).
Context (add_dev : Z → string → string → string → M (option positive)).
Hypothesis add_dev_total : ∀ id path w, I w →
  wp (add_dev id path dev_prefix bus_type) (λ _, I) w.

Lemma wp_call {A} (k : F → kres A * F) w : I w → wp (call k) (λ _, I) w.
Proof.
  intros HI. unfold wp, call. destruct (k (fs w)) as [[a|e] f]; [by apply stable_fs|].
  apply (stable_errno (w <| fs := f |>)). by apply stable_fs.
Qed.

Lemma wp_alloc w : I w → wp alloc (λ _, I) w.
Proof.
  intros HI. unfold wp, alloc. destruct (k_alloc (fs w)) as [[] f]; [by apply stable_fs|].
  apply (stable_errno (w <| fs := f |>)). by apply stable_fs.
Qed.

Lemma device_parse_entry_spec d_name add_errors w :
  I w →
  wp (device_parse_entry base_path dev_prefix bus_type add_dev d_name add_errors)
    (λ r w', I w' ∧
      match r with
      | None => (sscanf_name_id d_name).1 < 0
      | Some n => 0 <= (sscanf_name_id d_name).1 ∧ add_errors <= n <= add_errors + 1
      end) w.
Proof.
  intros HI. unfold device_parse_entry. destruct (sscanf_name_id d_name) as [rc id]. simpl.
  destruct (Z.ltb_spec rc 0); [by apply wp_ret|].
  destruct (strchr_in d_name "!"); [apply wp_ret; split; [done|lia]|].
  apply wp_bind. eapply wp_mono, wp_alloc; [|done]. intros [] w1 H1; [|apply wp_ret; split; [done|lia]].
  apply wp_bind. eapply wp_mono, add_dev_total; [|done]. intros [p|] w2 H2; apply wp_ret;
    (split; [done|lia]).
Qed.

Lemma device_parse_loop_spec d add_errors w :
  I w →
  wp (device_parse_loop base_path dev_prefix bus_type add_dev d add_errors)
    (λ r w', I w' ∧
      ((Exists (λ n, (sscanf_name_id n).1 < 0) d ∧ r = - EINVAL) ∨
       (Forall (λ n, 0 <= (sscanf_name_id n).1) d ∧
        add_errors <= r <= add_errors + Z.of_nat (length d)))) w.
Proof.
  revert add_errors w. induction d as [|n d IH]; intros add_errors w HI; simpl.
  { apply wp_ret. split; [done|]. right. split; [constructor|lia]. }
  apply wp_bind. eapply wp_mono, device_parse_entry_spec; [|done].
  intros [k|] w1 [H1 Hn].
  - eapply wp_mono, IH; [|done]. intros r w2 [H2 [[Hx ->]|[Hx Hr]]]; (split; [done|]).
    + left. split; [by apply Exists_cons_tl|done].
    + right. split; [constructor; tauto|lia].
  - apply wp_ret. split; [done|]. left. split; [by apply Exists_cons_hd|done].
Qed.

(** Enumerating a directory returns whatever the callback does: -ENODEV when the directory
    cannot be listed, -EINVAL when an entry the filter keeps has no number to read (the entries
    before it have been added by then), and otherwise the number of entries that could not be
    added, at most the number of entries kept.  An invariant the callback preserves holds after it. *)
Theorem device_parse_spec flt w :
  I w →
  wp (__sysfs_device_parse base_path dev_prefix bus_type flt add_dev)
    (λ r w', I w' ∧
      match (k_scandir base_path (fs w)).1 with
      | KErr _ => r = - ENODEV
      | KOk names =>
          (Exists (λ n, (sscanf_name_id n).1 < 0) (kept flt names) ∧ r = - EINVAL) ∨
          (Forall (λ n, 0 <= (sscanf_name_id n).1) (kept flt names) ∧
           0 <= r <= Z.of_nat (length (kept flt names)))
      end) w.
Proof.
  intros HI. apply wp_bind. pose proof (wp_call (k_scandir base_path) w HI) as Hc.
  unfold sys_scandir. unfold wp at 1. unfold wp at 1 in Hc. unfold call in *.
  destruct (k_scandir base_path (fs w)) as [[names|e] f]; [|by apply wp_ret].
  eapply wp_mono, device_parse_loop_spec; [|done]. simpl. intros r w' Hr.
  by rewrite Z.add_0_l in Hr.
Qed.
End enumeration.

(** ** Instances *)

Definition parse_world : world sim :=
  sim_world (empty_sim <| sim_dirs := {[ "/d" := ["dsa0"; "dsa1"; "iax1"] ]} |>).

Definition is_dsa (n : string) : bool := strncmp_eq n "dsa" 3.

#[export] Instance stable_true : Stable (λ _ : world sim, True).
Proof. done. Qed.

Lemma device_parse_spec_witness :
  let add := λ (id : Z) (p d b : string), mret (if id =? 0 then Some 1%positive else None) in
  (∃ w', __sysfs_device_parse "/d" "dsa" "dsa" is_dsa add parse_world = Done 1 w') ∧
  wp (__sysfs_device_parse "/d" "dsa" "dsa" is_dsa add)
    (λ r w', True ∧
      match (k_scandir "/d" (fs parse_world)).1 with
      | KErr _ => r = - ENODEV
      | KOk names =>
          (Exists (λ n, (sscanf_name_id n).1 < 0) (kept is_dsa names) ∧ r = - EINVAL) ∨
          (Forall (λ n, 0 <= (sscanf_name_id n).1) (kept is_dsa names) ∧
           0 <= r <= Z.of_nat (length (kept is_dsa names)))
      end) parse_world.
Proof.
  split; [eexists; vm_compute; reflexivity|].
  apply (device_parse_spec (λ _, True)); [by intros|done].
Defined.
