(* ===== verification/ParamFacts.v ===== *)
(** * libaccfg.c: parameters, status strings and the saved error

    Frames and totality of the helpers of Param, what a parameter read or
    written as text means, and the strings of the command status. *)

From S2P Require Import Prelude CString Prog Types SimKernel Sysfs Param SysfsFacts.
Local Open Scope string_scope.
Local Open Scope Z_scope.

(** ** Frames and totality *)

Section frames.
Context {F : Type} `{Kernel F} (R : relation (world F)) `{!OsFrame R}.
Notation M := (prog (world F)).

Lemma r_strtox f s base : respects R (strtox (F := F) f s base).
Proof. unfold strtox. frame. Qed.
#[local] Hint Resolve r_strtox : frame.

Lemma r_set_param `{!FdFrame R, !TrFrame R} dfd name buf len :
  respects R (accfg_set_param dfd name buf len).
Proof. unfold accfg_set_param. frame. Qed.
Lemma r_get_long `{!FdFrame R} dfd name : respects R (accfg_get_param_long dfd name).
Proof. unfold accfg_get_param_long. frame. Qed.
Lemma r_get_ull `{!FdFrame R} dfd name : respects R (accfg_get_param_unsigned_llong dfd name).
Proof. unfold accfg_get_param_unsigned_llong. frame. Qed.
Lemma r_get_str `{!FdFrame R} dfd name : respects R (accfg_get_param_str dfd name).
Proof. unfold accfg_get_param_str. frame. Qed.

Lemma r_deref {A} (m : heap → gmap positive A) p : respects R (deref (F := F) m p).
Proof. unfold deref. frame. Qed.
Lemma r_on_heap `{!HpFrame R} g : respects R (on_heap (F := F) g).
Proof. apply respects_modify. intros w. exact (hp_hp w g). Qed.
End frames.
#[export] Hint Resolve r_strtox r_set_param r_get_long r_get_ull r_get_str r_deref r_on_heap : frame.

Section objects.
Context {F : Type} `{Kernel F} (R : relation (world F)) `{!OsFrame R}.

Lemma r_get_ctx p : respects R (get_ctx (F := F) p).
Proof. apply r_deref; apply _. Qed.
Lemma r_get_device p : respects R (get_device (F := F) p).
Proof. apply r_deref; apply _. Qed.
Lemma r_get_group p : respects R (get_group (F := F) p).
Proof. apply r_deref; apply _. Qed.
Lemma r_get_wq p : respects R (get_wq (F := F) p).
Proof. apply r_deref; apply _. Qed.
Lemma r_get_engine p : respects R (get_engine (F := F) p).
Proof. apply r_deref; apply _. Qed.
#[local] Hint Resolve r_get_ctx r_get_device r_get_group r_get_wq r_get_engine : frame.

Lemma r_upd_ctx `{!HpFrame R} p f : respects R (upd_ctx (F := F) p f).
Proof. unfold upd_ctx. frame. Qed.
Lemma r_upd_device `{!HpFrame R} p f : respects R (upd_device (F := F) p f).
Proof. unfold upd_device. frame. Qed.
Lemma r_upd_group `{!HpFrame R} p f : respects R (upd_group (F := F) p f).
Proof. unfold upd_group. frame. Qed.
Lemma r_upd_wq `{!HpFrame R} p f : respects R (upd_wq (F := F) p f).
Proof. unfold upd_wq. frame. Qed.
Lemma r_upd_engine `{!HpFrame R} p f : respects R (upd_engine (F := F) p f).
Proof. unfold upd_engine. frame. Qed.
Lemma r_fresh `{!HpFrame R} : respects R (fresh (F := F)).
Proof. unfold fresh. frame. Qed.
#[local] Hint Resolve r_upd_ctx : frame.
Lemma r_cmd_status `{!FdFrame R} device : respects R (accfg_device_get_cmd_status device).
Proof. unfold accfg_device_get_cmd_status. frame. Qed.
#[local] Hint Resolve r_cmd_status : frame.
Lemma r_save_last_error `{!FdFrame R, !HpFrame R} d wq g e :
  respects R (save_last_error (F := F) d wq g e).
Proof. unfold save_last_error. frame. Qed.
End objects.
#[export] Hint Resolve r_get_ctx r_get_device r_get_group r_get_wq r_get_engine r_upd_ctx
  r_upd_device r_upd_group r_upd_wq r_upd_engine r_fresh r_cmd_status r_save_last_error : frame.

Section total.
Context {F : Type} `{Kernel F}.
Notation M := (prog (world F)).

Lemma a_strtox f s base : always (strtox (F := F) f s base).
Proof. unfold strtox. always. Qed.
#[local] Hint Resolve a_strtox : always.
Lemma a_set_param dfd name buf len : always (accfg_set_param dfd name buf len).
Proof. unfold accfg_set_param. always. Qed.
Lemma a_get_long dfd name : always (accfg_get_param_long dfd name).
Proof. unfold accfg_get_param_long. always. Qed.
Lemma a_get_ull dfd name : always (accfg_get_param_unsigned_llong dfd name).
Proof. unfold accfg_get_param_unsigned_llong. always. Qed.
Lemma a_get_str dfd name : always (accfg_get_param_str dfd name).
Proof. unfold accfg_get_param_str. always. Qed.
Lemma a_fresh : always (fresh (F := F)).
Proof. unfold fresh, on_heap. always. Qed.
Lemma wp_deref {A} (m : heap → gmap positive A) p a Q (w : world F) :
  m (hp w) !! p = Some a → Q a w → wp (deref m p) Q w.
Proof. intros Hp HQ. unfold wp, deref, gets, mbind, prog_bind, must. by rewrite Hp. Qed.
End total.
#[export] Hint Resolve a_strtox a_set_param a_get_long a_get_ull a_get_str a_fresh : always.

Section balance.
Context {F : Type} `{Kernel F}.

Lemma fd_set_param dfd name buf len : fd_balanced (accfg_set_param dfd name buf len).
Proof. unfold accfg_set_param. fd. Qed.
Lemma fd_get_long dfd name : fd_balanced (accfg_get_param_long dfd name).
Proof.
  unfold accfg_get_param_long. eapply fd_delta_bind; [fd_part|]. intros fd0.
  eapply fd_delta_bind; [fd_part|]. intros e.
  eapply (fd_delta_bind _ _ (λ r, match r with inr (Some _) => 1 | _ => 0 end -
    match fd0 with Some _ => 1 | None => 0 end)).
  - fd.
  - fd.
Qed.
Lemma fd_get_ull dfd name : fd_balanced (accfg_get_param_unsigned_llong dfd name).
Proof. unfold accfg_get_param_unsigned_llong. fd. Qed.
Lemma fd_get_str dfd name : fd_balanced (accfg_get_param_str dfd name).
Proof. unfold accfg_get_param_str. fd. Qed.
#[local] Hint Resolve fd_set_param fd_get_long fd_get_ull fd_get_str : fd.
Lemma fd_cmd_status device : fd_balanced (accfg_device_get_cmd_status device).
Proof. unfold accfg_device_get_cmd_status. fd. Qed.
#[local] Hint Resolve fd_cmd_status : fd.
Lemma fd_save_last_error d wq g e : fd_balanced (save_last_error (F := F) d wq g e).
Proof. unfold save_last_error. fd. Qed.
End balance.
#[export] Hint Resolve fd_set_param fd_get_long fd_get_ull fd_get_str fd_cmd_status
  fd_save_last_error : fd.

(** ** [errno] is never negative *)

Definition errno_from {F} (b : Z) : relation (world F) := λ w w', b <= errno w → b <= errno w'.
Notation errno_ok := (errno_from 0).
#[export] Instance errno_from_preorder F b : PreOrder (errno_from (F := F) b).
Proof. split; [intros w Hw; exact Hw|]. intros w1 w2 w3 H1 H2 H. by apply H2, H1. Qed.

Section errno.
Context {F : Type} `{KernelLaws F}.
Notation M := (prog (world F)).
(** 0, and 1 after a failure. *)
Variable b : Z.
Hypothesis Hb : b <= 1.
Notation ok m := (respects (errno_from b) m).

Lemma e_modify (f : world F → world F) : (∀ w, errno (f w) = errno w) → ok (modify f).
Proof. intros Hf. apply respects_modify. intros w. unfold errno_from. by rewrite Hf. Qed.
Lemma e_call {A} (k : F → kres A * F) :
  (∀ f e f', k f = (KErr e, f') → 0 < e < 2 ^ 31) → ok (call k).
Proof.
  intros Hk w a w' Hc He. unfold call in Hc. destruct (k (fs w)) as [[r|e] f] eqn:Hr.
  - by injection Hc as _ <-.
  - injection Hc as _ <-. apply Hk in Hr. simpl. lia.
Qed.
Lemma e_open fl path : ok (sys_open fl path).
Proof.
  unfold sys_open. frame; [apply e_call; intros f e f' Hk; by eapply k_open_errno|by apply e_modify].
Qed.
Lemma e_read fd n : ok (sys_read fd n).
Proof. apply e_call. intros f e f' Hk. by eapply k_read_errno. Qed.
Lemma e_access path : ok (sys_access path).
Proof. unfold sys_access. frame. apply e_call. intros f e f' Hk. by eapply k_access_errno. Qed.
Lemma e_close fd : ok (sys_close (F := F) fd).
Proof. by apply e_modify. Qed.
Lemma e_write fd data : ok (sys_write fd data).
Proof.
  intros w a w' Hw He. unfold sys_write in Hw.
  destruct (k_write fd data (fs w)) as [[n|e] f] eqn:Hk; injection Hw as _ <-; [done|].
  apply k_write_errno in Hk. simpl. lia.
Qed.
Lemma e_alloc : ok (alloc (F := F)).
Proof.
  intros w a w' Hw He. unfold alloc in Hw.
  destruct (k_alloc (fs w)) as [[] f]; injection Hw as _ <-; [done|]. simpl. unfold ENOMEM. lia.
Qed.
Lemma e_errno : ok (get_errno (F := F)).
Proof. apply respects_gets, _. Qed.
#[local] Hint Resolve e_open e_read e_access e_close e_write e_alloc e_errno : frame.

Lemma e_neg_errno : ok (neg_errno (F := F)).
Proof. unfold neg_errno. frame. Qed.
Lemma e_sprintf cap s : ok (sprintf_buf (F := F) cap s).
Proof. unfold sprintf_buf. frame. Qed.
Lemma e_on_heap g : ok (on_heap (F := F) g).
Proof. by apply e_modify. Qed.
Lemma e_deref {A} (m : heap → gmap positive A) p : ok (deref (F := F) m p).
Proof. unfold deref. frame. Qed.
Lemma e_strtox f s base : ok (strtox (F := F) f s base).
Proof.
  unfold strtox. frame. apply respects_modify. intros w _. simpl. unfold ERANGE. lia.
Qed.
#[local] Hint Resolve e_neg_errno e_sprintf e_on_heap e_deref e_strtox : frame.
Lemma e_read_attr path : ok (__sysfs_read_attr path).
Proof. unfold __sysfs_read_attr. frame. Qed.
Lemma e_write_attr path buf : ok (__sysfs_write_attr path buf).
Proof. unfold __sysfs_write_attr, write_attr. frame. Qed.
#[local] Hint Resolve e_read_attr e_write_attr : frame.
Lemma e_save_last_error d wq g e : ok (save_last_error (F := F) d wq g e).
Proof.
  unfold save_last_error, accfg_device_get_cmd_status, get_device, get_ctx, upd_ctx. frame.
Qed.
#[local] Hint Resolve e_save_last_error : frame.
End errno.
Ltac errno_call := first [apply e_open|apply e_read|apply e_access|apply e_close|apply e_write|apply e_alloc|apply e_errno|apply e_neg_errno|apply e_sprintf|apply e_on_heap|apply e_deref|apply e_strtox|apply e_read_attr|apply e_write_attr|apply e_save_last_error]; lia.
#[export] Hint Extern 4 (respects (errno_from _) _) => errno_call : frame.

(** ** Numbers as text *)

Lemma strip_nl_snoc s : strip_nl (s +:+ String NL "") = s.
Proof.
  induction s as [|c s IH]; [done|]. rewrite append_cons.
  change (strip_nl (String c (s +:+ String NL ""))) with
    (match s +:+ String NL "" with
     | EmptyString => if Ascii.eqb c NL then "" else String c (s +:+ String NL "")
     | _ => String c (strip_nl (s +:+ String NL ""))
     end).
  rewrite IH. destruct s; done.
Qed.

Lemma strip_nl_clean s : chars s (λ c, c ≠ NL) → strip_nl s = s.
Proof.
  induction s as [|c s IH]; [done|]. intros [Hc Hs]%Forall_cons.
  destruct s as [|c' s].
  - simpl. destruct (Ascii.eqb_spec c NL); done.
  - change (strip_nl (String c (String c' s))) with (String c (strip_nl (String c' s))).
    rewrite IH; done.
Qed.

(** Characters that are neither NUL nor a newline. *)
Definition plain (c : ascii) : Prop := c ≠ NUL ∧ c ≠ NL.

Lemma digit_plain d : 0 <= d < 36 → plain (digit_char d).
Proof.
  intros Hd. pose proof (digit_char_ok d Hd) as Hok. unfold digit_ok in Hok.
  rewrite !andb_true_iff, !negb_true_iff in Hok.
  destruct Hok as [[[[_ H1] H2] _] _]. split; by apply Ascii.eqb_neq.
Qed.

Lemma print_base_plain base n : 2 <= base <= 36 → 0 <= n → chars (print_base base n) plain.
Proof.
  intros Hb Hn. apply print_digits_chars; [done..|apply digit_plain|constructor].
Qed.

Lemma print_d_plain v : chars (print_d v) plain.
Proof.
  unfold print_d, print_u. destruct (Z.ltb_spec v 0).
  - apply chars_app. split; [|apply print_base_plain; lia].
    by apply Forall_singleton.
  - apply print_base_plain; lia.
Qed.

Lemma plain_cstr s : chars s plain → cstr (strip_nl s) = s ∧ cstr (strip_nl (s +:+ String NL "")) = s.
Proof.
  intros Hs. rewrite strip_nl_snoc, strip_nl_clean, cstr_clean; [done|..].
  all: eapply Forall_impl; [exact Hs|]; by intros c [H1 H2].
Qed.

(** What a driver shows for an integer attribute: decimal, with or without a newline. *)
Definition decimal_text (v : Z) (data : string) : Prop :=
  data = print_d v ∨ data = print_d v +:+ String NL "".

Lemma decimal_text_value v data :
  decimal_text v data → LONG_MIN <= v <= LONG_MAX →
  strtol (cstr (strip_nl data)) 0 = Strto v "" true false.
Proof.
  intros Hd Hv. destruct (plain_cstr (print_d v) (print_d_plain v)) as [H1 H2].
  assert (cstr (strip_nl data) = print_d v) as -> by (destruct Hd as [-> | ->]; done).
  rewrite <- (append_empty_r (print_d v)). by apply strtol_print_d; [left|..].
Qed.

Lemma decimal_text_atoi v data :
  decimal_text v data → - 2 ^ 31 <= v < 2 ^ 31 → atoi (cstr (strip_nl data)) = v.
Proof.
  intros Hd Hv. destruct (plain_cstr (print_d v) (print_d_plain v)) as [H1 H2].
  assert (cstr (strip_nl data) = print_d v) as -> by (destruct Hd as [-> | ->]; done).
  unfold atoi. rewrite <- (append_empty_r (print_d v)).
  rewrite strtol_print_d; [by apply s32_id|by right|unfold LONG_MIN, LONG_MAX; lia|done].
Qed.

Lemma decimal_text_short v data :
  decimal_text v data → - 2 ^ 63 <= v < 2 ^ 64 → strlen data <= 22.
Proof.
  intros Hd Hv. pose proof (print_d_short v Hv).
  destruct Hd as [-> | ->]; rewrite ?strlen_app; change (strlen (String NL "")) with 1; lia.
Qed.

Lemma decimal_text_nonempty v data : decimal_text v data → data ≠ "".
Proof.
  assert (print_d v ≠ "") as Hne.
  { unfold print_d, print_u. destruct (Z.ltb_spec v 0); [done|]. by apply print_base_nonempty. }
  intros [-> | ->]; [done|]. by destruct (print_d v).
Qed.

Section values.
Context {F : Type} `{Kernel F}.

(** What is read at [path] by an [open] and a [read] of [n] bytes from [f]. *)
Definition reads (path : string) (n : Z) (f : F) (data : string) (f' : F) : Prop :=
  ∃ f1, k_open O_RDONLY path f = (KOk (), f1) ∧ k_read path n f1 = (KOk data, f').

Lemma read_attr_reads path data w f' :
  reads path SYSFS_ATTR_SIZE (fs w) data f' → strlen data < SYSFS_ATTR_SIZE →
  ∃ w', __sysfs_read_attr path w = Done (0, cstr (strip_nl data)) w' ∧ fs w' = f' ∧
    errno w' = errno w ∧ lib w' = lib w ∧ trace w' = trace w ∧ nfds w' = nfds w.
Proof.
  intros (f1 & Ho & Hr) Hlen. unfold __sysfs_read_attr. run. rewrite Ho. simpl. rewrite Hr.
  simpl. destruct (Z.leb_spec SYSFS_ATTR_SIZE (strlen data)); [lia|]. ran.
Qed.

(** C31: An attribute showing an integer is read as that integer: when the file of the name, or,
    where the driver does not have it, the file of its deprecated name, holds the decimal text
    of a 64-bit [v] with or without a newline, [accfg_get_param_long] returns [v], leaving
    memory, trace and descriptors as they were. *)
Theorem accfg_get_param_long_value dfd name v data w f' :
  decimal_text v data → LONG_MIN <= v <= LONG_MAX →
  reads (dfd +:+ "/" +:+ name) (MAX_PARAM_LEN - 1) (fs w) data f' ∨
  (∃ old f0, deprecated_attr name = Some old ∧
     k_open O_RDONLY (dfd +:+ "/" +:+ name) (fs w) = (KErr ENOENT, f0) ∧
     reads (dfd +:+ "/" +:+ old) (MAX_PARAM_LEN - 1) f0 data f') →
  ∃ w', accfg_get_param_long dfd name w = Done v w' ∧ fs w' = f' ∧
    lib w' = lib w ∧ trace w' = trace w ∧ nfds w' = nfds w.
Proof.
  intros Hd Hv Hr.
  assert (∃ w', accfg_get_param_long dfd name w = Done v w' ∧ fs w' = f') as (w' & Hw & Hf).
  { pose proof (decimal_text_value v data Hd Hv) as Hval.
    pose proof (decimal_text_nonempty v data Hd) as Hne.
    unfold accfg_get_param_long, strtox. run.
    destruct Hr as [(f1 & Ho & Hr)|(old & f0 & Hold & Ho0 & f1 & Ho & Hr)].
    - rewrite Ho. simpl. rewrite Hr. destruct data as [|c data]; [done|]. rewrite Hval. by eexists.
    - rewrite Ho0. simpl. rewrite Hold. simpl. rewrite Ho. simpl. rewrite Hr.
      destruct data as [|c data]; [done|]. rewrite Hval. by eexists. }
  exists w'. split; [done|]. split; [done|].
  split; [|split].
  - by eapply (r_get_long (on lib)).
  - by eapply (r_get_long (on trace)).
  - apply fd_get_long in Hw. lia.
Qed.
End values.

(** ** Strings of the command status *)

(** Indices of the table of hardware status codes with no string. *)
Definition status_hole (i : Z) : bool :=
  match array_get accfg_device_cmd_status i with Some None => true | _ => false end.

Lemma ldiff_disjoint x m : Z.land x m = 0 → Z.ldiff x m = x.
Proof.
  intros H0. apply Z.bits_inj'. intros n Hn. rewrite Z.ldiff_spec.
  assert (Z.testbit (Z.land x m) n = false) as Hb by (by rewrite H0, Z.bits_0).
  rewrite Z.land_spec in Hb. by destruct (Z.testbit x n), (Z.testbit m n).
Qed.

Lemma device_status_range i :
  0 <= i <= ACCFG_CMD_STATUS_MAX →
  ∃ r, array_get accfg_device_cmd_status i = Some r ∧ (r = None ↔ status_hole i = true).
Proof.
  intros Hi. unfold status_hole, array_get.
  change (array_size accfg_device_cmd_status) with 70. unfold ACCFG_CMD_STATUS_MAX in Hi.
  destruct (Z.leb_spec 0 i); [|lia]. destruct (Z.ltb_spec i 70); [|lia]. simpl.
  eexists. split; [done|]. by destruct (snd <$> _).
Qed.

Lemma sw_status_listed i : 0 < i < array_size accfg_sw_cmd_status →
  ∃ s, array_get accfg_sw_cmd_status i = Some (Some s).
Proof.
  change (array_size accfg_sw_cmd_status) with 15. intros Hi.
  assert (forallb (λ i, match array_get accfg_sw_cmd_status i with Some (Some _) => true | _ => false end)
    (seqZ 1 14) = true) as Hall by (by vm_compute).
  rewrite forallb_forall in Hall. specialize (Hall i).
  destruct (array_get accfg_sw_cmd_status i) as [[s|]|]; [by exists s|..].
  all: discriminate Hall; apply list_elem_of_In, elem_of_seqZ; lia.
Qed.

(** The string of a 32-bit command status is looked up within its table for every value.
    It is NULL exactly for a status without software part whose low 31 bits, at most 0x45, are
    an index the table skips (0x5, 0x19, 0x30, ...); a software status above 14, which the
    driver has (0x800f0000 and the codes added after it), gets the string "Unknown error". *)
Theorem get_cmd_status_str_spec status :
  0 <= status < 2 ^ 32 →
  ∃ r, get_cmd_status_str status = Some r ∧
    let code := Z.ldiff status IDXD_SCMD_SOFTERR_MASK in
    let sw := if Z.land status IDXD_SCMD_SOFTERR_MASK =? 0 then 0 else SCMD_STAT status in
    (r = None ↔ sw = 0 ∧ status_hole (Z.min code ACCFG_CMD_STATUS_MAX) = true) ∧
    (14 < sw → r = Some "Unknown error").
Proof.
  intros Hs. unfold get_cmd_status_str.
  assert (0 <= Z.ldiff status IDXD_SCMD_SOFTERR_MASK) as Hc by (apply Z.ldiff_nonneg; lia).
  assert (∀ s, 0 <= s → ∃ r, array_get accfg_device_cmd_status
    (if ACCFG_CMD_STATUS_MAX <? s then ACCFG_CMD_STATUS_MAX else s) = Some r ∧
    (r = None ↔ status_hole (Z.min s ACCFG_CMD_STATUS_MAX) = true)) as Hclamp.
  { intros s Hs0. unfold ACCFG_CMD_STATUS_MAX in *. destruct (Z.ltb_spec 69 s).
    - rewrite Z.min_r by lia. apply device_status_range. unfold ACCFG_CMD_STATUS_MAX. lia.
    - rewrite Z.min_l by lia. apply device_status_range. unfold ACCFG_CMD_STATUS_MAX. lia. }
  destruct (Z.eqb_spec (Z.land status IDXD_SCMD_SOFTERR_MASK) 0) as [H0|H0];
    cbn [negb]; cbv zeta.
  - destruct (Hclamp status) as (r & Hr & Hn); [lia|]. exists r. split; [done|].
    rewrite (ldiff_disjoint _ _ H0). split; [tauto|lia].
  - assert (0 <= SCMD_STAT status) by (by apply Z.shiftr_nonneg).
    destruct (Z.eqb_spec (SCMD_STAT status) 0) as [H1|H1]; cbn [negb].
    + destruct (Hclamp (Z.ldiff status IDXD_SCMD_SOFTERR_MASK) Hc) as (r & Hr & Hn).
      exists r. split; [done|]. split; [tauto|lia].
    + destruct (Z.leb_spec (array_size accfg_sw_cmd_status) (SCMD_STAT status)) as [H2|H2].
      * exists (Some "Unknown error"). split; [done|]. split; [|done]. split; [done|tauto].
      * change (array_size accfg_sw_cmd_status) with 15 in *.
        destruct (sw_status_listed (SCMD_STAT status)) as [str ->];
          [change (array_size accfg_sw_cmd_status) with 15; lia|].
        exists (Some str). split; [done|]. split; [|lia]. split; [done|tauto].
Qed.

Lemma get_cmd_status_str_spec_witness :
  get_cmd_status_str 0x80100000 = Some (Some "Unknown error") ∧
  get_cmd_status_str 5 = Some None ∧
  ∃ r, get_cmd_status_str 0x80100000 = Some r ∧
    let code := Z.ldiff 0x80100000 IDXD_SCMD_SOFTERR_MASK in
    let sw := if Z.land 0x80100000 IDXD_SCMD_SOFTERR_MASK =? 0 then 0 else SCMD_STAT 0x80100000 in
    (r = None ↔ sw = 0 ∧ status_hole (Z.min code ACCFG_CMD_STATUS_MAX) = true) ∧
    (14 < sw → r = Some "Unknown error").
Proof.
  split; [vm_compute; reflexivity|]. split; [vm_compute; reflexivity|].
  apply (get_cmd_status_str_spec 0x80100000). lia.
Defined.

Lemma sim_reads path n data s :
  sim_files s !! path = Some data → strlen data <= n → reads path n s data s.
Proof.
  intros Hp Hn. exists s. split; [by eapply sim_open_file|by apply sim_read_file].
Qed.

(** The read buffer limit of a driver that still calls it the token limit. *)
Definition param_world : world sim :=
  sim_world (empty_sim <| sim_files := {[ "/d/token_limit" := "12" +:+ String NL "" ]} |>).

Lemma accfg_get_param_long_value_witness :
  ∃ w', accfg_get_param_long "/d" "read_buffer_limit" param_world = Done 12 w' ∧
    fs w' = fs param_world ∧ lib w' = lib param_world ∧ trace w' = trace param_world ∧
    nfds w' = nfds param_world.
Proof.
  apply (accfg_get_param_long_value "/d" "read_buffer_limit" 12 ("12" +:+ String NL "")
    param_world (fs param_world)).
  - right. reflexivity.
  - unfold LONG_MIN, LONG_MAX. lia.
  - right. exists "token_limit", (fs param_world). split; [reflexivity|]. split; [reflexivity|].
    exists (fs param_world). split; vm_compute; reflexivity.
Defined.
