(* ===== verification/DeviceFacts.v ===== *)
(** * libaccfg.c: what operations on devices and groups do

    The setters against one specification, [stored]; state and command paths;
    enabling and disabling. *)

From S2P Require Import Prelude CString Prog Types SimKernel Sysfs Param Tree Demo Device.
From S2P Require Import SysfsFacts ParamFacts.
Local Open Scope string_scope.
Local Open Scope Z_scope.

(** ** The objects, saved errors apart *)

Definition erase (c : accfg_ctx) : accfg_ctx := c <| c_error_ctx := None |>.
Definition erase_heap (h : heap) : heap := h <| h_ctxs ::= fmap erase |>.
Definition objs {F} (w : world F) : heap * Z * string :=
  (erase_heap (hp w), init_cmd_status w, filename_prefix w).

#[export] Instance os_objs F : OsFrame (on (objs (F := F))).
Proof. split; [apply _|done..]. Qed.
#[export] Instance fd_objs F : FdFrame (on (objs (F := F))).
Proof. done. Qed.
#[export] Instance tr_objs F : TrFrame (on (objs (F := F))).
Proof. done. Qed.

Lemma objs_lib {F} (w w' : world F) : lib w' = lib w → objs w' = objs w.
Proof. unfold lib, objs. by intros [= -> -> ->]. Qed.

Section errors.
Context {F : Type} `{Kernel F}.
Notation M := (prog (world F)).

Lemma save_error_objs p ec :
  respects (on objs) (upd_ctx (F := F) p (λ c, c <| c_error_ctx := ec |>)).
Proof.
  unfold upd_ctx. frame. apply respects_modify. intros w. unfold on, objs, erase_heap. simpl.
  do 3 f_equal. apply map_eq. intros i. rewrite !lookup_fmap.
  destruct (decide (i = p)) as [->|]; [|by rewrite lookup_alter_ne].
  rewrite lookup_alter_eq. by destruct (h_ctxs (hp w) !! p).
Qed.
#[local] Hint Resolve save_error_objs : frame.

Lemma save_last_error_objs d wq g e : respects (on objs) (save_last_error (F := F) d wq g e).
Proof. unfold save_last_error. frame. Qed.

(** [save_last_error] needs the device and its context, and keeps both. *)
Definition has_device (device : positive) (h : heap) : Prop :=
  ∃ d c, h_devices h !! device = Some d ∧ h_ctxs h !! d_ctx d = Some c.

Lemma wp_upd_ctx p f c Q (w : world F) :
  h_ctxs (hp w) !! p = Some c →
  Q () (w <| hp ::= λ h, h <| h_ctxs ::= alter f p |> |>) → wp (upd_ctx p f) Q w.
Proof. intros Hp HQ. apply wp_bind. by eapply wp_deref. Qed.

Lemma wp_lib {A} (m : M A) w :
  always m → respects (on lib) m → wp m (λ _ w', lib w' = lib w) w.
Proof. apply wp_always. Qed.

Lemma hp_lib (w w' : world F) : lib w' = lib w → hp w' = hp w.
Proof. by intros [= ->]. Qed.

Lemma wp_cmd_status device w :
  has_device device (hp w) →
  wp (accfg_device_get_cmd_status (Some device)) (λ _ w', lib w' = lib w) w.
Proof.
  intros (d & c & Hd & _). unfold accfg_device_get_cmd_status. apply wp_bind.
  eapply wp_deref; [done|]. apply wp_lib; [|frame]. always.
Qed.

Lemma wp_save_last_error device wq g e w :
  has_device device (hp w) →
  wp (save_last_error device wq g e)
    (λ _ w', objs w' = objs w ∧ trace w' = trace w ∧ nfds w' = nfds w) w.
Proof.
  intros (d & c & Hd & Hc).
  assert (wp (save_last_error device wq g e) (λ _ _, True) w) as Hwp.
  { unfold save_last_error. apply wp_bind. eapply wp_deref; [done|].
    apply wp_bind. eapply wp_deref; [done|]. apply wp_bind.
    apply wp_mono with (λ _ w1, h_devices (hp w1) !! device = Some d ∧
      ∃ c, h_ctxs (hp w1) !! d_ctx d = Some c).
    - intros [] w1 (Hd1 & c1 & Hc1). apply wp_bind. eapply wp_deref; [done|].
      destruct (c_error_ctx c1); [|done]. apply wp_bind.
      eapply wp_mono, wp_cmd_status; [|by exists d, c1]. intros status w2 Hl.
      apply hp_lib in Hl. eapply wp_upd_ctx; [by rewrite Hl|done].
    - destruct (c_error_ctx c); [apply wp_ret; eauto|]. apply wp_bind.
      eapply wp_mono, wp_lib; [|apply a_alloc|apply r_alloc; apply _].
      intros ok w1 Hl. apply hp_lib in Hl.
      destruct ok; [|apply wp_ret; rewrite Hl; eauto].
      eapply wp_upd_ctx; [by rewrite Hl|]. simpl. rewrite Hl, lookup_alter_eq, Hc. simpl. eauto. }
  apply wp_Done in Hwp as (u & w' & Hr & _). unfold wp. rewrite Hr.
  split; [by eapply save_last_error_objs|].
  split; [by eapply (r_save_last_error (on trace))|]. apply fd_save_last_error in Hr. lia.
Qed.
End errors.
#[export] Hint Resolve save_last_error_objs : frame.

(** ** Setters *)

(** A write that was cut short counts as done when [errno], [e0] at that time, is 0: the code
    returns it. *)
Definition counts_as_done (buf : string) (e0 : Z) (r : kres Z) : bool :=
  match r with KOk n => (strlen buf <=? n) || (e0 =? 0) | KErr _ => false end.

(** What a setter promises of a run from [w] to [w'] with result [rc], when it reaches the open of
    [path] in the state [f] of the system, with [errno] [e0]: a file that opens is given [buf] in
    one write; when that is done the result is 0 and the objects are changed by [g]; in every other
    case the result is negative and no object is changed. *)
Definition stored {F} `{Kernel F} (path buf : string) (g : heap → heap) (f : F) (e0 : Z) (w : world F)
    (rc : Z) (w' : world F) : Prop :=
  match k_open O_WRONLY path f with
  | (KErr _, _) => trace w' = trace w ∧ rc = - errno w' ∧ rc < 0 ∧ objs w' = objs w
  | (KOk _, f1) =>
      let r := (k_write path buf f1).1 in
      trace w' = EvWrite path buf r :: trace w ∧
      if counts_as_done buf e0 r then rc = 0 ∧ lib w' = (g (hp w), init_cmd_status w, filename_prefix w)
      else rc = - errno w' ∧ rc < 0 ∧ objs w' = objs w
  end.

(** The world a setter is judged from may be any with the same memory and trace. *)
Lemma stored_lib {F} `{Kernel F} path buf g f e0 (w w1 : world F) rc w' :
  lib w1 = lib w → trace w1 = trace w → stored path buf g f e0 w1 rc w' → stored path buf g f e0 w rc w'.
Proof.
  intros Hl Ht. unfold stored. rewrite Ht. pose proof (objs_lib _ _ Hl) as ->.
  unfold lib in *. by injection Hl as -> -> ->.
Qed.

(** Either the attempt failed and no object changed, or the objects hold the new value. *)
Lemma stored_cases {F} `{Kernel F} path buf g f e0 (w : world F) rc w' :
  stored path buf g f e0 w rc w' →
  rc < 0 ∧ objs w' = objs w ∨ rc = 0 ∧ lib w' = (g (hp w), init_cmd_status w, filename_prefix w).
Proof.
  unfold stored. destruct (k_open _ _ _) as [[u|e] f1]; [|by intros (_ & _ & ? & ?); left].
  intros [_ Hs]. destruct (counts_as_done _ _ _); [by right|left; by destruct Hs as (_ & ? & ?)].
Qed.

Section setters.
Context {F : Type} `{KernelLaws F}.
Notation M := (prog (world F)).

Lemma write_attr_outcome path buf (w : world F) :
  0 <= errno w →
  wp (__sysfs_write_attr path buf) (λ rc w', lib w' = lib w ∧ nfds w' = nfds w ∧
    ((rc < 0 ∧ ∃ t, trace w' = (t ++ trace w)%list ∧ (t = [] ∨ ∃ r, t = [EvWrite path buf r])) ∨
     (rc = 0 ∧ ∃ f n, trace w' = EvWrite path buf (KOk n) :: trace w ∧
       (strlen buf <= n ∨ errno w = 0) ∧ k_write path buf f = (KOk n, fs w') ∧
       errno w' = errno w))) w.
Proof.
  intros He. unfold __sysfs_write_attr.
  destruct (run_write_attr path buf w) as (rc & w' & Hr & Hl & Hn & Hcase).
  unfold wp. rewrite Hr. split; [done|]. split; [done|].
  destruct (k_open O_WRONLY path (fs w)) as [[[]|e] f] eqn:Ho.
  - destruct (k_write path buf f) as [[n|e] f'] eqn:Hw; simpl in Hcase;
      destruct Hcase as (Ht & Hf & He' & Hrc).
    + assert (rc = 0 → strlen buf <= n ∨ errno w = 0) as Hok.
      { intros ->. destruct (Z.ltb_spec n (strlen buf)); [right; lia|by left]. }
      destruct (decide (rc = 0)) as [->|].
      * right. split; [done|]. exists f, n. rewrite Hf. auto.
      * left. split; [destruct (n <? strlen buf); lia|]. exists [EvWrite path buf (KOk n)]. eauto.
    + apply k_write_errno in Hw. left. split; [lia|]. exists [EvWrite path buf (KErr e)]. eauto.
  - apply k_open_errno in Ho. destruct Hcase as (-> & Ht & _). left. split; [lia|].
    exists []. split; [done|by left].
Qed.

(** A failed call has left a positive [errno], which saving the error keeps. *)
Lemma wp_save_positive device wq g e (w1 : world F) :
  has_device device (hp w1) → 0 < errno w1 →
  wp (save_last_error device wq g e)
    (λ _ w2, objs w2 = objs w1 ∧ trace w2 = trace w1 ∧ nfds w2 = nfds w1 ∧ 0 < errno w2) w1.
Proof.
  intros Hd He.
  eapply wp_mono, (wp_respects (errno_from 1) _ _ _ (e_save_last_error 1 ltac:(lia) device wq g e)), wp_save_last_error; [|done].
  intros _ w2 ((Ho & Ht & Hn) & He2). unfold errno_from in He2. split_and!; [done..|lia].
Qed.

Lemma wp_store_attr path buf save commit g (w : world F) :
  0 <= errno w →
  (∀ w1, lib w1 = lib w → 0 < errno w1 →
     wp save (λ _ w2, objs w2 = objs w1 ∧ trace w2 = trace w1 ∧ nfds w2 = nfds w1 ∧ 0 < errno w2) w1) →
  (∀ w1, lib w1 = lib w → wp commit (λ _ w2, w2 = w1 <| hp ::= g |>) w1) →
  wp (store_attr path buf save commit)
    (λ rc w', stored path buf g (fs w) (errno w) w rc w' ∧ nfds w' = nfds w) w.
Proof.
  intros He Hsave Hcommit. unfold store_attr, __sysfs_write_attr. apply wp_bind.
  destruct (run_write_attr path buf w) as (rc & w1 & Hr & Hl & Hn & Hcase). unfold wp at 1. rewrite Hr.
  assert (∀ Q : Z → world F → Prop, rc < 0 → 0 < errno w1 →
    (∀ w2, objs w2 = objs w → trace w2 = trace w1 → nfds w2 = nfds w → 0 < errno w2 → Q (- errno w2) w2) →
    wp (if rc <? 0 then save;; neg_errno else commit;; mret 0) Q w1) as Hfail.
  { intros Q Hneg Hpos HQ. destruct (Z.ltb_spec rc 0); [|lia]. apply wp_bind.
    eapply wp_mono, Hsave; [|done..]. intros _ w2 (Ho & Ht2 & Hn2 & He2). unfold neg_errno, get_errno.
    apply wp_bind, wp_ret, HQ; [by rewrite Ho, (objs_lib _ _ Hl)|done|by rewrite Hn2|done]. }
  unfold stored. destruct (k_open O_WRONLY path (fs w)) as [[[]|e] f] eqn:Ho.
  - destruct (k_write path buf f) as [r f'] eqn:Hw. simpl in Hcase. destruct Hcase as (Ht & _ & Hrc). simpl.
    destruct (counts_as_done buf (errno w) r) eqn:Hdone.
    + destruct r as [n|e]; [|done]. destruct Hrc as [_ Hrc]. simpl in Hdone.
      assert (rc = 0) as -> by (rewrite Hrc; destruct (Z.ltb_spec n (strlen buf)); lia).
      destruct (Z.ltb_spec 0 0); [lia|]. apply wp_bind. eapply wp_mono, Hcommit; [|done].
      intros _ w2 ->. apply wp_ret. split_and!; [done|done| |done].
      unfold lib in *. simpl. by injection Hl as -> -> ->.
    + assert (rc < 0 ∧ 0 < errno w1) as [Hneg Hpos].
      { destruct r as [n|e]; destruct Hrc as [-> ->].
        - simpl in Hdone. destruct (Z.ltb_spec n (strlen buf)); lia.
        - apply k_write_errno in Hw. lia. }
      apply Hfail; [done..|]. intros w2 Ho2 Ht2 Hn2 He2. rewrite Ht2. split_and!; [done..|lia|done|done].
  - apply k_open_errno in Ho. destruct Hcase as (-> & Ht & _ & He1).
    apply Hfail; [lia..|]. intros w2 Ho2 Ht2 Hn2 He2. rewrite Ht2. split_and!; [done..|lia|done|done].
Qed.

(** [access] leaves objects, trace and descriptors; a failure sets [errno]. *)
Lemma wp_sys_access path (w : world F) :
  0 <= errno w →
  wp (sys_access path) (λ b w', lib w' = lib w ∧ trace w' = trace w ∧ nfds w' = nfds w ∧
    0 <= errno w' ∧ b = match (k_access path (fs w)).1 with KOk _ => true | KErr _ => false end) w.
Proof.
  intros He. unfold wp, sys_access. run.
  destruct (k_access path (fs w)) as [[[]|e] f] eqn:Ha; simpl; [done|].
  apply k_access_errno in Ha. repeat split; lia.
Qed.

Lemma wp_sys_access_errno path (w : world F) :
  0 <= errno w →
  wp (sys_access path) (λ b w', lib w' = lib w ∧ trace w' = trace w ∧ nfds w' = nfds w ∧
    (if b : bool then errno w' = errno w else True)) w.
Proof.
  intros He. unfold wp, sys_access. run. by destruct (k_access path (fs w)) as [[[]|e] f].
Qed.

Lemma wp_sprintf_buf cap s Q (w : world F) :
  strlen s < cap → Q (strlen s) w → wp (sprintf_buf cap s) Q w.
Proof. intros Hs HQ. unfold sprintf_buf. by destruct (Z.ltb_spec (strlen s) cap); [|lia]. Qed.

Lemma wp_print_d val Q (w : world F) :
  - 2 ^ 63 <= val < 2 ^ 64 → Q (strlen (print_d val)) w →
  wp (sprintf_buf SYSFS_ATTR_SIZE (print_d val)) Q w.
Proof.
  intros Hv HQ. apply wp_sprintf_buf; [|done]. pose proof (print_d_short val Hv).
  unfold SYSFS_ATTR_SIZE. lia.
Qed.

(** A group the library built: its device and context exist, its buffer has room. *)
Definition group_ok (group : positive) (g : accfg_group) (h : heap) : Prop :=
  h_groups h !! group = Some g ∧ has_device (g_device g) h ∧
  g_buf_len g = strlen (g_group_path g) + MAX_BUF_LEN.

Lemma group_name_short f :
  strlen (group_field_name f) <= 64 ∧ strlen (print_s (deprecated_attr (group_field_name f))) <= 64.
Proof. by destruct f. Qed.

Lemma has_device_objs device (w w' : world F) :
  lib w' = lib w → has_device device (hp w) → has_device device (hp w').
Proof. intros Hl. by rewrite (hp_lib w w' Hl). Qed.

Lemma wp_save wq g e device (w w1 : world F) :
  has_device device (hp w) → lib w1 = lib w →
  wp (save_last_error device wq g e)
    (λ _ w2, objs w2 = objs w1 ∧ trace w2 = trace w1 ∧ nfds w2 = nfds w1) w1.
Proof. intros Hd Hl. eapply wp_save_last_error, has_device_objs; done. Qed.

Lemma run_access path (w : world F) :
  ∃ b w', sys_access path w = Done b w' ∧ lib w' = lib w ∧ trace w' = trace w ∧ nfds w' = nfds w ∧
    match k_access path (fs w) with
    | (KOk _, f) => b = true ∧ fs w' = f ∧ errno w' = errno w
    | (KErr e, f) => b = false ∧ fs w' = f ∧ errno w' = e ∧ 0 < e
    end.
Proof.
  unfold sys_access. run. destruct (k_access path (fs w)) as [[[]|e] f] eqn:Ha; [ran|].
  apply k_access_errno in Ha. ran.
Qed.

(** A setter of a group: the file of the attribute's name when it exists, and otherwise that of
    the deprecated name. *)
Definition group_set_post (f : group_field) (group : positive) (val : Z) (g : accfg_group) (w : world F)
    (rc : Z) (w' : world F) : Prop :=
  let file name := g_group_path g +:+ "/" +:+ name in
  let change h := h <| h_groups ::= alter (group_field_set f val) group |> in
  nfds w' = nfds w ∧
  match k_access (file (group_field_name f)) (fs w) with
  | (KOk _, s) => stored (file (group_field_name f)) (print_d val) change s (errno w) w rc w'
  | (KErr e, s) => stored (file (print_s (deprecated_attr (group_field_name f)))) (print_d val) change s e w rc w'
  end.

Lemma wp_group_set_field f group val g (w : world F) :
  group_ok group g (hp w) → - 2 ^ 31 <= val < 2 ^ 31 → 0 <= errno w →
  wp (accfg_group_set_field f group val) (group_set_post f group val g w) w.
Proof.
  intros (Hg & Hd & Hlen) Hv He. destruct Hd as (d & c & Hd & Hc).
  unfold accfg_group_set_field, accfg_group_get_ctx.
  destruct (group_name_short f) as [Hs1 Hs2].
  apply wp_bind. eapply wp_deref; [done|]. apply wp_bind, wp_bind. eapply wp_deref; [done|].
  apply wp_bind. eapply wp_deref; [done|]. apply wp_ret.
  apply wp_bind, wp_sprintf_buf; [rewrite strlen_path; unfold MAX_BUF_LEN in *; lia|]. apply wp_bind.
  destruct (run_access (g_group_path g +:+ "/" +:+ group_field_name f) w) as (b & w1 & Hrun & Hl & Ht & Hn & Hcase).
  unfold wp at 1. rewrite Hrun. apply wp_bind.
  apply wp_mono with (λ path w2, w2 = w1 ∧ path = g_group_path g +:+ "/" +:+
    (if b then group_field_name f else print_s (deprecated_attr (group_field_name f)))).
  2: { destruct b; [by apply wp_ret|].
       apply wp_bind, wp_sprintf_buf; [rewrite strlen_path; unfold MAX_BUF_LEN in *; lia|done]. }
  intros path w2 [-> ->]. apply wp_bind, wp_print_d; [lia|]. unfold group_set_post.
  assert (0 <= errno w1) as He1.
  { destruct (k_access _ _) as [[]]; destruct Hcase as (_ & _ & Hcase); [by rewrite Hcase|destruct Hcase; lia]. }
  eapply wp_mono; [|apply (wp_store_attr _ _ _ _
    (λ h, h <| h_groups ::= alter (group_field_set f val) group |>)); [done|..]].
  - intros rc w3 [Hst Hn3]. split; [by rewrite Hn3|]. apply (stored_lib _ _ _ _ _ w w1) in Hst; [|done..].
    destruct (k_access _ _) as [[[]|e] s]; destruct Hcase as (-> & <- & Hcase); [by rewrite <- Hcase|].
    by destruct Hcase as [<- _].
  - intros w3 Hl3 He3. apply wp_save_positive; [|done].
    rewrite (hp_lib _ _ Hl3), (hp_lib _ _ Hl). by exists d, c.
  - intros w3 Hl3. apply wp_bind. eapply wp_deref; [|done].
    by rewrite (hp_lib _ _ Hl3), (hp_lib _ _ Hl).
Qed.

(** C26: Every setter of a group attribute runs without undefined behaviour and leaks no
    descriptor.  It opens the attribute's file, or the deprecated name's when access to the first
    fails ("(null)" for a field that has none).  A file that opens gets the
    value's decimal text in one write; when the write takes all of it the result is 0 and the
    member holds the value, converted to the member's type.  A write that is cut short counts as
    complete exactly when [errno] happens to be 0.  In every other case the result is negative,
    the [errno] left, and no object but the saved error has changed. *)
Theorem accfg_group_set_field_spec f group val g (w : world F) :
  group_ok group g (hp w) → - 2 ^ 31 <= val < 2 ^ 31 → 0 <= errno w →
  wp (accfg_group_set_field f group val) (group_set_post f group val g w) w.
Proof. apply wp_group_set_field. Qed.
End setters.

(** ** Enabling and disabling a device *)

(** A device the library built: its context exists, its buffer has room, its
    path ends in a name, its bus is a short word. *)
Definition device_ok (device : positive) (d : accfg_device) (c : accfg_ctx) (name : string)
    (h : heap) : Prop :=
  h_devices h !! device = Some d ∧ h_ctxs h !! d_ctx d = Some c ∧
  d_buf_len d = strlen (d_device_path d) + MAX_BUF_LEN ∧ d_buf_len d < 2 ^ 31 ∧
  after_last slash (d_device_path d) = Some name ∧ strlen name <= 1000 ∧
  strlen (d_bus_type_str d) <= 1000.

Section control.
Context {F : Type} `{KernelLaws F}.
Notation M := (prog (world F)).

Lemma wp_devname device d c name Q (w : world F) :
  device_ok device d c name (hp w) → Q name w → wp (accfg_device_get_devname device) Q w.
Proof.
  intros (Hd & _ & _ & _ & Hn & _) HQ. unfold accfg_device_get_devname, devpath_to_devname.
  apply wp_bind. eapply wp_deref; [done|]. by rewrite Hn.
Qed.

Lemma wp_strdup s (w : world F) :
  0 <= errno w →
  wp (strdup s) (λ r w', lib w' = lib w ∧ trace w' = trace w ∧ nfds w' = nfds w ∧
    match r with Some t => t = s ∧ errno w' = errno w | None => errno w' = ENOMEM end) w.
Proof.
  intros He. unfold wp, strdup, alloc. run. by destruct (k_alloc (fs w)) as [[] f].
Qed.

(** The bind file of the device's driver. *)
Definition device_bind_path (d : accfg_device) (c : accfg_ctx) : string :=
  "/sys/bus/" +:+ d_bus_type_str d +:+ "/drivers/" +:+
    (if c_compat c then d_bus_type_str d else "idxd") +:+ "/bind".

Definition device_unbind_path (d : accfg_device) (name : string) : string :=
  "/sys/bus/" +:+ d_bus_type_str d +:+ "/devices/" +:+ name +:+ "/driver/unbind".

(** C5: Enabling a device runs without undefined behaviour, changes no object but the saved error
    and leaks no descriptor; its result is 0 only when the device's name has been written to the
    bind file of its driver (the one of the bus on kernels without the idxd driver), and
    negative otherwise. *)
Theorem accfg_device_enable_spec device d c name (w : world F) :
  device_ok device d c name (hp w) → 0 <= errno w →
  wp (accfg_device_enable (Some device)) (λ rc w',
    objs w' = objs w ∧ nfds w' = nfds w ∧ rc <= 0 ∧
    (rc = 0 → ∃ n, trace w' = EvWrite (device_bind_path d c) name (KOk n) :: trace w ∧
       (strlen name <= n ∨ errno w = 0))) w.
Proof.
  intros Hok He. destruct (Hok) as (Hd & Hc & _ & _ & Hn & Hl1 & Hl2).
  unfold accfg_device_enable, accfg_device_control, device_control_path, IDXD_DRIVER.
  apply wp_bind, wp_bind. eapply wp_deref; [done|]. apply wp_bind, wp_bind.
  eapply wp_deref; [done|]. apply wp_ret. apply wp_bind.
  unfold get_driver_bind_path. apply wp_bind, wp_sprintf_buf.
  { rewrite !strlen_app. unfold print_s. simpl (default _ _). unfold PATH_MAX.
    change (strlen "/sys/bus/") with 9. change (strlen "/drivers/") with 9.
    change (strlen "/bind") with 5.
    destruct (c_compat c); [lia|]. change (strlen "idxd") with 4. lia. }
  apply wp_bind. eapply wp_mono, wp_strdup; [|done].
  intros [p|] w1 (Hl & Ht & Hf & Hr).
  - destruct Hr as [-> He1]. apply wp_ret, wp_ret.
    assert (device_ok device d c name (hp w1)) as Hok1 by (by rewrite (hp_lib _ _ Hl)).
    apply wp_bind. eapply wp_devname; [done|]. apply wp_bind.
    eapply wp_mono, write_attr_outcome; [|lia].
    intros rc w2 (Hl2' & Hn2 & [(Hrc & t & _)|(-> & f & n & Ht2 & Hcase & _)]).
    + destruct (Z.ltb_spec rc 0); [|lia]. apply wp_bind.
      eapply wp_mono, (wp_save None None None device w); [|by exists d, c|by etrans].
      intros _ w3 (Ho3 & Ht3 & Hn3). apply wp_ret.
      split; [rewrite Ho3; apply objs_lib; by etrans|]. split; [by rewrite Hn3, Hn2|]. lia.
    + apply wp_ret. split; [apply objs_lib; by etrans|]. split; [by rewrite Hn2|].
      split; [lia|]. intros _. exists n. rewrite <- Ht, <- He1. done.
  - unfold neg_errno, get_errno. apply wp_bind, wp_bind, wp_ret, wp_ret. simpl.
    rewrite Hr. unfold ENOMEM. simpl. apply wp_ret, wp_ret.
    split; [by apply objs_lib|]. split; [done|lia].
Qed.

Lemma run_clients device d c name clients data f2 (w : world F) :
  device_ok device d c name (hp w) →
  reads (d_device_path d +:+ "/clients") SYSFS_ATTR_SIZE (fs w) data f2 →
  decimal_text clients data → - 2 ^ 31 <= clients < 2 ^ 31 →
  ∃ w', accfg_device_get_clients (Some device) w = Done clients w' ∧
    errno w' = errno w ∧ lib w' = lib w ∧ trace w' = trace w ∧ nfds w' = nfds w ∧ fs w' = f2.
Proof.
  intros (Hd & _ & Hlen & Hmax & _) Hr Ht Hc.
  unfold accfg_device_get_clients, get_device, deref, must, gets, mbind, prog_bind.
  rewrite Hd. unfold mret, prog_ret.
  rewrite s32_id by (pose proof (strlen_nonneg (d_device_path d)); unfold MAX_BUF_LEN in *; lia).
  rewrite strlen_app. change (strlen "/clients") with 8.
  destruct (Z.leb_spec (d_buf_len d) (strlen (d_device_path d) + 8));
    [unfold MAX_BUF_LEN in *; lia|].
  pose proof (decimal_text_short clients data Ht ltac:(lia)) as Hs.
  destruct (read_attr_reads _ data w f2 Hr) as (w' & Hrun & Hf & He & Hl & Htr & Hn);
    [unfold SYSFS_ATTR_SIZE; lia|].
  rewrite Hrun. simpl. exists w'. by rewrite (decimal_text_atoi clients data Ht Hc).
Qed.

(** What an attempt to write [buf] to [path] does, in the state [f] of the system and with [errno]
    [e0], to the trace, and its result. *)
Definition write_outcome (path buf : string) (f : F) (e0 : Z) (w : world F) (rc : Z) (w' : world F) : Prop :=
  match k_open O_WRONLY path f with
  | (KErr e, _) => rc = - e ∧ trace w' = trace w
  | (KOk _, f1) =>
      let r := (k_write path buf f1).1 in
      trace w' = EvWrite path buf r :: trace w ∧
      rc = match r with KOk n => if n <? strlen buf then - e0 else 0 | KErr e => - e end
  end.

Lemma write_outcome_run path buf (w : world F) : 0 <= errno w →
  wp (__sysfs_write_attr path buf)
    (λ rc w', lib w' = lib w ∧ nfds w' = nfds w ∧ rc <= 0 ∧ write_outcome path buf (fs w) (errno w) w rc w') w.
Proof.
  intros He. unfold __sysfs_write_attr, write_outcome.
  destruct (run_write_attr path buf w) as (rc & w' & Hr & Hl & Hn & Hcase). unfold wp. rewrite Hr.
  split; [done|]. split; [done|]. destruct (k_open O_WRONLY path (fs w)) as [[[]|e] f] eqn:Ho.
  - destruct (k_write path buf f) as [[n|e] f'] eqn:Hw; simpl in *; destruct Hcase as (Ht & _ & _ & ->).
    + split; [case_match; lia|done].
    + apply k_write_errno in Hw. split; [lia|done].
  - apply k_open_errno in Ho. destruct Hcase as (-> & Ht & _). split; [lia|done].
Qed.

(** C25: Disabling a device, when the unbind file of its driver resolves and its clients can be
    read: one that has clients is refused with -EPERM unless it is forced, and then nothing at all is
    written.  Otherwise the unbind file is opened and, if it opens, the device's name is
    written to it, in one write.  The result is 0 when the write took the whole name, and the
    negated error of the call that failed; after a write that was cut short it is the [errno] of
    earlier calls, negated.  In every case no object but the saved error changes, and no
    descriptor is leaked. *)
Theorem accfg_device_disable_spec device d c name force clients p f1 data f2 (w : world F) :
  device_ok device d c name (hp w) → 0 <= errno w →
  k_realpath (device_unbind_path d name) (fs w) = (KOk p, f1) →
  reads (d_device_path d +:+ "/clients") SYSFS_ATTR_SIZE f1 data f2 →
  decimal_text clients data → - 2 ^ 31 <= clients < 2 ^ 31 →
  wp (accfg_device_disable (Some device) force) (λ rc w',
    objs w' = objs w ∧ nfds w' = nfds w ∧ rc <= 0 ∧
    if (0 <? clients) && negb force then rc = - EPERM ∧ trace w' = trace w
    else write_outcome p name f2 (errno w) w rc w') w.
Proof.
  intros Hok He Hp Hr Ht Hcl. destruct (Hok) as (Hd & Hc & _ & _ & Hn & Hl1 & Hl2).
  unfold accfg_device_disable, accfg_device_control, device_control_path.
  apply wp_bind, wp_bind. eapply wp_deref; [done|]. apply wp_bind. eapply wp_devname; [done|].
  apply wp_bind. unfold get_driver_unbind_path. apply wp_bind, wp_sprintf_buf.
  { rewrite !strlen_app. unfold PATH_MAX. change (strlen "/sys/bus/") with 9.
    change (strlen "/devices/") with 9. change (strlen "/driver/unbind") with 14. lia. }
  apply wp_bind. unfold sys_realpath, call. unfold wp at 1.
  change ("/sys/bus/" +:+ d_bus_type_str d +:+ "/devices/" +:+ name +:+ "/driver/unbind")
    with (device_unbind_path d name). rewrite Hp.
  set (w1 := w <| fs := f1 |>). apply wp_ret. apply wp_bind.
  assert (lib w1 = lib w) as Hl by done. assert (device_ok device d c name (hp w1)) as Hok1 by done.
  destruct (run_clients device d c name clients data f2 w1) as (w2 & Hrun & He2 & Hlib2 & Ht2 & Hn2 & Hf2);
    [done..|].
  unfold wp at 1. rewrite Hrun. apply wp_ret.
  destruct ((0 <? clients) && negb force) eqn:Hrefuse.
  { apply wp_ret. split; [apply objs_lib; by etrans|]. split; [by rewrite Hn2|].
    split; [unfold EPERM; lia|]. split; [done|by rewrite Ht2]. }
  assert (device_ok device d c name (hp w2)) as Hok2 by (by rewrite (hp_lib _ _ Hlib2)).
  apply wp_bind. eapply wp_devname; [done|]. apply wp_bind.
  eapply wp_mono, write_outcome_run; [|by rewrite He2]. intros rc w3 (Hl3 & Hn3 & Hneg & Hout).
  assert (∀ w4, objs w4 = objs w3 → trace w4 = trace w3 → nfds w4 = nfds w3 →
    objs w4 = objs w ∧ nfds w4 = nfds w ∧ rc <= 0 ∧ write_outcome p name f2 (errno w) w rc w4) as Hend.
  { intros w4 Ho4 Ht4 Hn4. split; [rewrite Ho4; apply objs_lib; by rewrite Hl3|].
    split; [by rewrite Hn4, Hn3, Hn2|]. split; [done|]. unfold write_outcome in *.
    rewrite Hf2, (He2 : errno w2 = errno w), Ht2 in Hout. by rewrite Ht4. }
  destruct (Z.ltb_spec rc 0).
  - apply wp_bind. eapply wp_mono, (wp_save None None None device w); [|by exists d, c|by rewrite Hl3].
    intros _ w4 (Ho4 & Ht4 & Hn4). apply wp_ret. by apply Hend.
  - assert (rc = 0) as -> by lia. apply wp_ret. by apply Hend.
Qed.
End control.

(** ** Instances, on the machine of Demo *)

Ltac demo := vm_compute; repeat split; first [reflexivity | discriminate | eauto].

Lemma demo_group_ok : ∃ g, group_ok 3 g (hp demo_world).
Proof.
  eexists. split; [vm_compute; reflexivity|]. split; [|vm_compute; reflexivity].
  eexists _, _. split; vm_compute; reflexivity.
Qed.

(** The driver of the machine knows the attribute by its deprecated name only. *)
Lemma accfg_group_set_field_spec_witness : ∃ g,
  (∃ w', accfg_group_set_read_buffers_allowed 3 50 demo_world = Done 0 w') ∧
  wp (accfg_group_set_read_buffers_allowed 3 50)
    (group_set_post G_read_buffers_allowed 3 50 g demo_world) demo_world.
Proof.
  destruct demo_group_ok as [g Hg]. exists g. split; [apply runs_to_Done; vm_compute; reflexivity|].
  apply (accfg_group_set_field_spec G_read_buffers_allowed 3 50 g); [exact Hg|lia|by vm_compute].
Defined.

Lemma demo_device_ok : ∃ d c, device_ok 2 d c "dsa0" (hp demo_world) ∧
  device_bind_path d c = "/sys/bus/dsa/drivers/idxd/bind" ∧
  device_unbind_path d "dsa0" = "/sys/bus/dsa/devices/dsa0/driver/unbind" ∧
  d_device_path d = DSA.
Proof.
  eexists _, _. split; [|split; [|split]].
  { split; [vm_compute; reflexivity|]. split; [vm_compute; reflexivity|].
    split; [vm_compute; reflexivity|]. split; [vm_compute; reflexivity|].
    split; [vm_compute; reflexivity|]. by vm_compute. }
  all: vm_compute; reflexivity.
Qed.

Lemma accfg_device_enable_spec_witness :
  (∃ w', accfg_device_enable (Some 2%positive) demo_world = Done 0 w') ∧
  wp (accfg_device_enable (Some 2%positive)) (λ rc w',
    objs w' = objs demo_world ∧ nfds w' = nfds demo_world ∧ rc <= 0 ∧
    (rc = 0 → ∃ n, trace w' =
       EvWrite "/sys/bus/dsa/drivers/idxd/bind" "dsa0" (KOk n) :: trace demo_world ∧
       (strlen "dsa0" <= n ∨ errno demo_world = 0))) demo_world.
Proof.
  split; [apply runs_to_Done; vm_compute; reflexivity|].
  destruct demo_device_ok as (d & c & Hok & <- & _).
  apply (accfg_device_enable_spec 2 d c "dsa0"); [exact Hok|by vm_compute].
Defined.

(** Three clients have the device open. *)
Definition busy (w : world sim) : world sim :=
  w <| fs ::= λ s, s <| sim_files ::= insert (DSA +:+ "/clients") (nl "3") |> |>.

Lemma busy_hp w : hp (busy w) = hp w.
Proof. reflexivity. Qed.

Lemma accfg_device_disable_spec_witness :
  (∃ w', accfg_device_disable (Some 2%positive) false (busy demo_world) = Done (- EPERM) w') ∧
  wp (accfg_device_disable (Some 2%positive) false) (λ rc w',
    objs w' = objs (busy demo_world) ∧ nfds w' = nfds (busy demo_world) ∧ rc <= 0 ∧
    if (0 <? 3) && negb false then rc = - EPERM ∧ trace w' = trace (busy demo_world)
    else write_outcome "/sys/bus/dsa/drivers/idxd/unbind" "dsa0" (fs (busy demo_world))
           (errno (busy demo_world)) (busy demo_world) rc w') (busy demo_world).
Proof.
  split; [apply runs_to_Done; vm_compute; reflexivity|].
  destruct demo_device_ok as (d & c & Hok & _ & Hu & Hp).
  apply (accfg_device_disable_spec 2 d c "dsa0" false 3 "/sys/bus/dsa/drivers/idxd/unbind"
    (fs (busy demo_world)) (nl "3") (fs (busy demo_world))); [by rewrite busy_hp|by vm_compute|rewrite Hu|rewrite Hp|..].
  - by apply sim_realpath; vm_compute.
  - apply sim_reads; [vm_compute; reflexivity|by vm_compute].
  - right. reflexivity.
  - lia.
Defined.
