(* ===== verification/WqFacts.v ===== *)
(** * libaccfg.c: what operations on work queues do

    Enabling and disabling with the verification of the state, the setters, the
    operation configuration, the size limit, the device node, and the
    descriptors the operations open. *)

From S2P Require Import Prelude CString Prog Types SimKernel Sysfs Param Tree Demo Device Wq.
From S2P Require Import SysfsFacts ParamFacts DeviceFacts.
Local Open Scope string_scope.
Local Open Scope Z_scope.

(** A work queue the library built, with its device, context and name. *)
Definition wq_ok (wq : positive) (w : accfg_wq) (d : accfg_device) (c : accfg_ctx) (name : string)
    (h : heap) : Prop :=
  h_wqs h !! wq = Some w ∧ h_devices h !! w_device w = Some d ∧ h_ctxs h !! d_ctx d = Some c ∧
  w_buf_len w = strlen (w_wq_path w) + MAX_BUF_LEN ∧
  after_last slash (w_wq_path w) = Some name ∧ strlen name <= 1000 ∧
  strlen (d_bus_type_str d) <= 1000.

Lemma wq_ok_device wq w d c name h : wq_ok wq w d c name h → has_device (w_device w) h.
Proof. intros (_ & Hd & Hc & _). by exists d, c. Qed.

(** ** The state attribute *)

Definition state_name (s : accfg_wq_state) : option string :=
  match s with
  | ACCFG_WQ_DISABLED => Some "disabled"
  | ACCFG_WQ_ENABLED => Some "enabled"
  | ACCFG_WQ_QUIESCING => Some "quiescing"
  | ACCFG_WQ_LOCKED => Some "locked"
  | ACCFG_WQ_UNKNOWN => None
  end.

Section state.
Context {F : Type} `{KernelLaws F}.
Notation M := (prog (world F)).

(** What reading the state answers: a known state only for its text. *)
Lemma wp_get_state wq wr d c name (w : world F) :
  wq_ok wq wr d c name (hp w) →
  wp (accfg_wq_get_state wq) (λ s w', objs w' = objs w ∧ trace w' = trace w ∧ nfds w' = nfds w ∧
    ∀ t, state_name s = Some t →
      lib w' = lib w ∧ ∃ data,
        reads (w_wq_path wr +:+ "/state") SYSFS_ATTR_SIZE (fs w) data (fs w') ∧
        cstr (strip_nl data) = t) w.
Proof.
  intros Hok. destruct (Hok) as (Hw & Hd & Hc & Hlen & _).
  unfold accfg_wq_get_state. apply wp_bind. eapply wp_deref; [done|].
  apply wp_bind. eapply wp_deref; [done|]. rewrite strlen_app. change (strlen "/state") with 6.
  destruct (Z.leb_spec (w_buf_len wr) (strlen (w_wq_path wr) + 6));
    [unfold MAX_BUF_LEN in *; lia|].
  apply wp_bind.
  destruct (run_read_attr (w_wq_path wr +:+ "/state") w)
    as (rc & buf & w1 & Hr & Hl & Ht & Hn & _ & Hcase).
  unfold wp at 1. rewrite Hr. destruct (Z.ltb_spec rc 0).
  { apply wp_bind. eapply wp_mono, (wp_save _ _ _ _ w); [|by eapply wq_ok_device|done].
    intros _ w2 (Ho2 & Ht2 & Hn2). apply wp_ret. rewrite Ho2, Ht2, Hn2.
    split; [by apply objs_lib|]. done. }
  apply wp_ret. split; [by apply objs_lib|]. split; [done|]. split; [done|].
  intros t Hs. split; [done|].
  assert (buf = t ∧ t ≠ "") as [-> Ht0].
  { unfold strcmp_eq in Hs.
    destruct (String.eqb_spec buf "disabled") as [->|]; [by injection Hs as <-|].
    destruct (String.eqb_spec buf "enabled") as [->|]; [by injection Hs as <-|].
    destruct (String.eqb_spec buf "quiescing") as [->|]; [by injection Hs as <-|].
    destruct (String.eqb_spec buf "locked") as [->|]; [by injection Hs as <-|done]. }
  unfold reads. destruct (k_open O_RDONLY _ (fs w)) as [[[]|e] f] eqn:Ho.
  - destruct (k_read _ SYSFS_ATTR_SIZE f) as [[data|e] f'] eqn:Hrd; [|by destruct Hcase as (_ & Hb & _)].
    destruct Hcase as (Hf & _ & Hcase). destruct (strlen data <? SYSFS_ATTR_SIZE).
    + destruct Hcase as [_ ->]. exists data. split; [|done]. exists f. by rewrite Hf.
    + by destruct Hcase.
  - apply k_open_errno in Ho. lia.
Qed.

(** ** Enabling and disabling *)

(** What a successful write of the name and the verification after it saw: the
    write went through, and the state attribute, read right after it, held
    the text of the state expected. *)
Definition verified (flag : accfg_control_flag) (wr : accfg_wq) (path name : string) (w w' : world F) : Prop :=
  ∃ f0 f1 n t data f2,
    trace w' = EvWrite path name (KOk n) :: trace w ∧ (strlen name <= n ∨ errno w = 0) ∧
    k_write path name f0 = (KOk n, f1) ∧
    (expected_state flag ≫= state_name) = Some t ∧
    reads (w_wq_path wr +:+ "/state") SYSFS_ATTR_SIZE f1 data f2 ∧ cstr (strip_nl data) = t.

(** The minor number of the queue's device is [v]. *)
Definition with_minor (wq : positive) (v : Z) (h : heap) : heap :=
  h <| h_wqs ::= alter (λ w, w <| w_cdev_minor := v |>) wq |>.

Definition control_post (flag : accfg_control_flag) (wq : positive) (wr : accfg_wq)
    (path name : string) (w : world F) (rc : Z) (w' : world F) : Prop :=
  nfds w' = nfds w ∧ rc <= 0 ∧
  (rc < 0 → objs w' = objs w) ∧
  (rc = 0 → verified flag wr path name w w' ∧
     ∃ v, lib w' = (with_minor wq v (hp w), init_cmd_status w, filename_prefix w)).

Lemma wp_retrieve wq wr d c name (w : world F) :
  wq_ok wq wr d c name (hp w) →
  wp (accfg_wq_retrieve_cdev_minor wq) (λ rc w', nfds w' = nfds w ∧ trace w' = trace w ∧
    ((rc < 0 ∧ lib w' = lib w) ∨ (rc = 0 ∧ ∃ v,
       lib w' = (with_minor wq v (hp w), init_cmd_status w, filename_prefix w)))) w.
Proof.
  intros Hok. destruct (Hok) as (Hw & Hd & Hc & _).
  assert (wp (accfg_wq_retrieve_cdev_minor wq) (λ rc w',
    (rc < 0 ∧ lib w' = lib w) ∨ (rc = 0 ∧ ∃ v,
       lib w' = (with_minor wq v (hp w), init_cmd_status w, filename_prefix w))) w) as Hwp.
  { unfold accfg_wq_retrieve_cdev_minor. apply wp_bind. eapply wp_deref; [done|].
    apply wp_bind. eapply wp_deref; [done|]. apply wp_bind.
    eapply wp_mono, wp_lib; [|apply a_open|apply r_open; apply _].
    intros [dfd|] w1 Hl1; [|apply wp_ret; left; split; [unfold ENXIO; lia|done]].
    apply wp_bind. eapply wp_mono, wp_lib; [|apply a_get_long|apply r_get_long; apply _].
    intros v w2 Hl2. apply wp_bind. apply wp_bind.
    assert (lib w2 = lib w) as Hl by congruence.
    eapply wp_deref; [by rewrite (hp_lib _ _ Hl)|].
    apply wp_bind. apply wp_ret. right. split; [done|]. exists (s32 v). unfold lib in *. simpl.
    by injection Hl as -> -> ->. }
  apply wp_Done in Hwp as (rc & w' & Hr & HQ). unfold wp. rewrite Hr.
  split; [|split; [|done]].
   - assert (fd_balanced (accfg_wq_retrieve_cdev_minor (F := F) wq)) as Hfd.
    { unfold accfg_wq_retrieve_cdev_minor. fd. }
    apply Hfd in Hr. lia.
  - assert (respects (on trace) (accfg_wq_retrieve_cdev_minor (F := F) wq)) as Htr.
    { unfold accfg_wq_retrieve_cdev_minor. frame. }
    by apply Htr in Hr.
Qed.

Lemma wp_finish flag wq wr d c name path (w : world F) :
  wq_ok wq wr d c name (hp w) → 0 <= errno w →
  wp (wq_control_finish wq flag name (Some path)) (control_post flag wq wr path name w) w.
Proof.
  intros Hok He. destruct (Hok) as (Hw & _). unfold wq_control_finish. do 2 apply wp_bind.
  eapply wp_mono, write_attr_outcome; [|done].
  intros rc w1 (Hl1 & Hn1 & [(Hrc & t & _)|(-> & f0 & n & Ht1 & Hcnt & Hwr & _)]).
  { destruct (Z.ltb_spec rc 0); [|lia]. apply wp_bind.
    eapply wp_deref; [by rewrite (hp_lib _ _ Hl1)|]. apply wp_bind.
    eapply wp_mono, (wp_save _ _ _ _ w); [|by eapply wq_ok_device|done].
    intros _ w2 (Ho2 & _ & Hn2). apply wp_ret. destruct (Z.ltb_spec rc 0); [|lia]. apply wp_ret.
    split; [by rewrite Hn2|]. split; [lia|]. split; [|lia]. intros _. rewrite Ho2. by apply objs_lib. }
  apply wp_ret. change (0 <? 0) with false. cbv iota.
  assert (wq_ok wq wr d c name (hp w1)) as Hok1 by (by rewrite (hp_lib _ _ Hl1)).
  assert (∀ w2, objs w2 = objs w1 → nfds w2 = nfds w1 →
    control_post flag wq wr path name w (- ENXIO) w2) as Hfail.
  { intros w2 Ho Hn. split; [by rewrite Hn|]. split; [unfold ENXIO; lia|].
    split; [|unfold ENXIO; lia]. intros _. rewrite Ho. by apply objs_lib. }
  unfold accfg_wq_state_expected.
  destruct (expected_state flag) as [exp|] eqn:Hexp; [|do 2 apply wp_ret; by apply Hfail].
  do 2 apply wp_bind. eapply wp_mono, wp_get_state; [|done].
  intros st w2 (Ho2 & Ht2 & Hn2 & Hknown). apply wp_ret.
  destruct (bool_decide_reflect (st = exp)) as [->|]; [|apply wp_ret; by apply Hfail].
  assert (∃ t, state_name exp = Some t) as [t Ht].
  { destruct flag; try done; injection Hexp as <-; by eexists. }
  destruct (Hknown t Ht) as (Hl2 & data & Hrd & Hdata). cbn [negb].
  assert (lib w2 = lib w) as Hl by congruence.
  apply wp_bind. eapply wp_mono, wp_retrieve; [|by rewrite (hp_lib _ _ Hl)].
  intros r w3 (Hn3 & Ht3 & [[Hr Hl3]|[-> [v Hl3]]]).
  - destruct (Z.eqb_spec r 0); [lia|]. apply wp_ret. apply Hfail; [|by rewrite Hn3].
    apply objs_lib. by rewrite Hl3.
  - apply wp_ret. change (if 0 =? 0 then 0 else - ENXIO) with 0. split; [by rewrite Hn3, Hn2|]. split; [done|]. split; [intros; lia|]. intros _. split.
    + exists f0, (fs w1), n, t, data, (fs w2). rewrite Ht3, Ht2, Hexp. done.
    + exists v. rewrite Hl3. unfold lib in Hl. by injection Hl as -> -> ->.
Qed.

Lemma control_post_from flag wq wr path name (w w1 : world F) rc w' :
  lib w1 = lib w → trace w1 = trace w → nfds w1 = nfds w → errno w1 = errno w →
  control_post flag wq wr path name w1 rc w' → control_post flag wq wr path name w rc w'.
Proof.
  intros Hl Ht Hn He (Hn' & Hrc & Hfail & Hok).
  split; [by rewrite <- Hn|]. split; [done|]. split.
  - intros Hneg. rewrite Hfail by done. by apply objs_lib.
  - intros Hz. destruct (Hok Hz) as [(f0 & f1 & n & t & data & f2 & Hv) (v & Hlib)]. split.
    + exists f0, f1, n, t, data, f2. by rewrite <- Ht, <- He.
    + exists v. rewrite Hlib. unfold lib in Hl. by injection Hl as -> -> ->.
Qed.

Lemma control_post_fail flag wq wr path name (w w' : world F) rc :
  rc < 0 → lib w' = lib w → nfds w' = nfds w → control_post flag wq wr path name w rc w'.
Proof.
  intros Hrc Hl Hn. split; [done|]. split; [lia|]. split; [|intros; lia].
  intros _. by apply objs_lib.
Qed.

(** The driver the queue is bound to: its own if it names one, the one of its
    bus on old kernels, or the one of its type, which may be none (NULL). *)
Definition wq_driver (wr : accfg_wq) (d : accfg_device) (c : accfg_ctx) : option string :=
  match w_driver_name wr with
  | Some (String _ _ as n) => Some n
  | _ => if c_compat c then Some (d_bus_type_str d) else accfg_wq_device_portals (w_type wr)
  end.

Definition wq_bind_path (wr : accfg_wq) (d : accfg_device) (c : accfg_ctx) : string :=
  "/sys/bus/" +:+ d_bus_type_str d +:+ "/drivers/" +:+ print_s (wq_driver wr d c) +:+ "/bind".

Lemma wp_bind_path wq wr d c name (w : world F) :
  wq_ok wq wr d c name (hp w) → 0 <= errno w → strlen (print_s (wq_driver wr d c)) <= 1000 →
  wp (wq_control_path wq FLAG_WQ_ENABLE false name) (λ r w', lib w' = lib w ∧
    trace w' = trace w ∧ nfds w' = nfds w ∧
    match r with
    | inl rc => rc < 0
    | inr p => p = Some (wq_bind_path wr d c) ∧ errno w' = errno w
    end) w.
Proof.
  intros (Hw & Hd & Hc & _ & _ & _ & Hbus) He Hlen. unfold wq_control_path.
  apply wp_bind. eapply wp_deref; [done|]. apply wp_bind. eapply wp_deref; [done|].
  apply wp_bind. apply wp_mono with (λ drv w1, drv = wq_driver wr d c ∧ w1 = w).
  2: { unfold wq_driver, IDXD_WQ_DEVICE_PORTAL. destruct (w_driver_name wr) as [[|ch n]|].
       2: by apply wp_ret.
       all: apply wp_bind; eapply wp_deref; [done|]; by apply wp_ret. }
  intros drv w0 [-> ->]. apply wp_bind. unfold get_driver_bind_path. apply wp_bind, wp_sprintf_buf.
  { rewrite !strlen_app. unfold PATH_MAX. change (strlen "/sys/bus/") with 9.
    change (strlen "/drivers/") with 9. change (strlen "/bind") with 5. lia. }
  apply wp_bind. eapply wp_mono, wp_strdup; [|done]. intros [p|] w1 (Hl & Ht & Hn & Hr).
  - destruct Hr as [-> He1]. apply wp_ret. destruct (w_driver_name wr) as [nm|]; [|by apply wp_ret].
    apply wp_bind. eapply wp_mono, wp_sys_access_errno; [|by rewrite He1].
    intros b w2 (Hl2 & Ht2 & Hn2 & Hb). apply wp_ret.
    destruct b; rewrite Hl2, Ht2, Hn2, Hl, Ht, Hn; [|unfold ENOENT; split; [done|]; split; [done|]; split; [done|lia]].
    by rewrite Hb, He1.
  - unfold neg_errno, get_errno. apply wp_bind, wp_bind, wp_ret, wp_ret. simpl. rewrite Hr.
    apply wp_ret. split; [done|]. split; [done|]. split; [done|]. unfold ENOMEM. lia.
Qed.

(** C4: Enabling a work queue runs without undefined behaviour and leaks no descriptor.  It
    returns 0 only when the queue's name was written to the bind file of its driver (its own,
    its bus's, or its type's) and the state attribute, read right after that write, said
    "enabled"; then only the queue's minor number has changed in memory.  Every failure is a
    negative result that leaves every object but the saved error as it was. *)
Theorem accfg_wq_enable_spec wq wr d c name (w : world F) :
  wq_ok wq wr d c name (hp w) → 0 <= errno w → strlen (print_s (wq_driver wr d c)) <= 1000 →
  wp (accfg_wq_enable wq) (control_post FLAG_WQ_ENABLE wq wr (wq_bind_path wr d c) name w) w.
Proof.
  intros Hok He Hlen. destruct (Hok) as (Hw & Hd & Hc & _ & Hname & _).
  unfold accfg_wq_enable, accfg_wq_control, accfg_wq_get_ctx, accfg_wq_get_devname.
  apply wp_bind, wp_bind. eapply wp_deref; [done|]. apply wp_bind. eapply wp_deref; [done|].
  apply wp_ret. apply wp_bind, wp_bind. eapply wp_deref; [done|].
  unfold devpath_to_devname. rewrite Hname. apply wp_ret. apply wp_bind.
  eapply wp_mono, wp_bind_path; [|done..]. intros [rc|p] w1 (Hl & Ht & Hn & Hr).
  - apply wp_ret. by apply control_post_fail.
  - destruct Hr as [-> He1]. eapply wp_mono, (wp_finish _ wq wr d c name); [|by rewrite (hp_lib _ _ Hl)|lia].
    intros rc w'. by apply control_post_from.
Qed.

Definition wq_unbind_path (d : accfg_device) (name : string) : string :=
  "/sys/bus/" +:+ d_bus_type_str d +:+ "/devices/" +:+ name +:+ "/driver/unbind".

Lemma run_wq_clients wq wr d c name clients data f2 (w : world F) :
  wq_ok wq wr d c name (hp w) →
  reads (w_wq_path wr +:+ "/clients") SYSFS_ATTR_SIZE (fs w) data f2 →
  decimal_text clients data → - 2 ^ 31 <= clients < 2 ^ 31 →
  ∃ w', accfg_wq_get_clients wq w = Done clients w' ∧
    errno w' = errno w ∧ lib w' = lib w ∧ trace w' = trace w ∧ nfds w' = nfds w.
Proof.
  intros (Hw & Hd & _ & Hlen & _) Hr Ht Hc.
  unfold accfg_wq_get_clients, get_wq, get_device, deref, must, gets, mbind, prog_bind.
  rewrite Hw. unfold mret, prog_ret. rewrite Hd, strlen_app. change (strlen "/clients") with 8.
  destruct (Z.leb_spec (w_buf_len wr) (strlen (w_wq_path wr) + 8));
    [unfold MAX_BUF_LEN in *; lia|].
  pose proof (decimal_text_short clients data Ht ltac:(lia)) as Hs.
  destruct (read_attr_reads _ data w f2 Hr) as (w' & Hrun & _ & He & Hl & Htr & Hn);
    [unfold SYSFS_ATTR_SIZE; lia|].
  rewrite Hrun. simpl. exists w'. by rewrite (decimal_text_atoi clients data Ht Hc).
Qed.

(** C24: Disabling a work queue that has clients is refused with -EPERM unless it is forced, and
    then nothing is written and nothing changes.  Otherwise the result is 0 only when the
    queue's name was written to the unbind file of its driver and the state attribute, read
    right after, said "disabled"; failures are negative and leave every object but the saved
    error as it was. *)
Theorem accfg_wq_disable_spec wq wr d c name force clients p f1 data f2 (w : world F) :
  wq_ok wq wr d c name (hp w) → 0 <= errno w →
  k_realpath (wq_unbind_path d name) (fs w) = (KOk p, f1) →
  reads (w_wq_path wr +:+ "/clients") SYSFS_ATTR_SIZE f1 data f2 →
  decimal_text clients data → - 2 ^ 31 <= clients < 2 ^ 31 →
  wp (accfg_wq_disable wq force) (λ rc w',
    if (0 <? clients) && negb force
    then rc = - EPERM ∧ lib w' = lib w ∧ trace w' = trace w ∧ nfds w' = nfds w
    else control_post FLAG_WQ_DISABLE wq wr p name w rc w') w.
Proof.
  intros Hok He Hp Hr Ht Hcl. destruct (Hok) as (Hw & Hd & Hc & _ & Hname & Hl1 & Hl2).
  unfold accfg_wq_disable, accfg_wq_control, accfg_wq_get_ctx, accfg_wq_get_devname.
  apply wp_bind, wp_bind. eapply wp_deref; [done|]. apply wp_bind. eapply wp_deref; [done|].
  apply wp_ret. apply wp_bind, wp_bind. eapply wp_deref; [done|].
  unfold devpath_to_devname. rewrite Hname. apply wp_ret. unfold wq_control_path.
  apply wp_bind, wp_bind. eapply wp_deref; [done|]. apply wp_bind. eapply wp_deref; [done|].
  apply wp_bind. unfold get_driver_unbind_path. apply wp_bind, wp_sprintf_buf.
  { rewrite !strlen_app. unfold PATH_MAX. change (strlen "/sys/bus/") with 9.
    change (strlen "/devices/") with 9. change (strlen "/driver/unbind") with 14. lia. }
  apply wp_bind. unfold sys_realpath, call. unfold wp at 1.
  change ("/sys/bus/" +:+ d_bus_type_str d +:+ "/devices/" +:+ name +:+ "/driver/unbind")
    with (wq_unbind_path d name). rewrite Hp.
  set (w1 := w <| fs := f1 |>). apply wp_ret. apply wp_bind.
  assert (wq_ok wq wr d c name (hp w1)) as Hok1 by done.
  destruct (run_wq_clients wq wr d c name clients data f2 w1) as (w2 & Hrun & He2 & Hlib2 & Ht2 & Hn2);
    [done..|].
  unfold wp at 1. rewrite Hrun. apply wp_ret.
  destruct ((0 <? clients) && negb force) eqn:Hrefuse; [by apply wp_ret|].
  eapply wp_mono, (wp_finish _ wq wr d c name); [|by rewrite (hp_lib _ _ Hlib2)|by rewrite He2].
  intros rc w'. by apply control_post_from.
Qed.
End state.

(** ** Setters *)

Section setters.
Context {F : Type} `{KernelLaws F}.
Notation M := (prog (world F)).

Lemma wq_name_short f : strlen (wq_field_name f) <= 64.
Proof. by destruct f. Qed.

(** What a setter of a queue does: the guard of the macro, then [stored]. *)
Definition set_post (guarded : bool) (path buf : string) (g : heap → heap) (w : world F)
    (rc : Z) (w' : world F) : Prop :=
  if guarded then rc = - errno w ∧ w' = w
  else stored path buf g (fs w) (errno w) w rc w' ∧ nfds w' = nfds w.

(** C27: Every setter of an integer attribute of a work queue runs without undefined behaviour and
    leaks no descriptor.  It opens the attribute's file, and a file that opens gets the value's
    decimal text in one write; when the write takes all of it (or is cut short while [errno] happens
    to be 0) the result is 0 and the member holds the value; in every other case the result is
    negative, the [errno] left, and no object but the saved error has changed.  Setting the
    threshold of a device that is not configurable touches nothing and returns minus whatever
    [errno] holds, which is 0, success, when no call failed before. *)
Theorem accfg_wq_set_field_spec f wq val wr d c name (w : world F) :
  wq_ok wq wr d c name (hp w) → - 2 ^ 31 <= val < 2 ^ 31 → 0 <= errno w →
  - 2 ^ 31 <= d_configurable d < 2 ^ 31 →
  wp (accfg_wq_set_field f wq val)
    (set_post ((d_configurable d =? 0) && bool_decide (f = W_threshold))
       (w_wq_path wr +:+ "/" +:+ wq_field_name f) (print_d val)
       (λ h, h <| h_wqs ::= alter (wq_field_set f val) wq |>) w) w.
Proof.
  intros Hok Hv He Hcf. destruct (Hok) as (Hw & Hd & Hc & Hlen & _).
  unfold accfg_wq_set_field, accfg_wq_get_ctx, accfg_device_get_configurable.
  pose proof (wq_name_short f).
  apply wp_bind, wp_bind. eapply wp_deref; [done|]. apply wp_bind. eapply wp_deref; [done|].
  apply wp_ret. apply wp_bind. eapply wp_deref; [done|].
  apply wp_bind, wp_sprintf_buf; [rewrite strlen_path; unfold MAX_BUF_LEN in *; lia|].
  apply wp_bind, wp_print_d; [lia|]. apply wp_bind, wp_bind. eapply wp_deref; [done|]. apply wp_ret.
  assert ((u32 (d_configurable d) =? 0) && strcmp_eq (wq_field_name f) "threshold" =
    (d_configurable d =? 0) && bool_decide (f = W_threshold)) as ->.
  { f_equal; [|by destruct f]. apply eq_iff_eq_true. rewrite !Z.eqb_eq. wrap_lia. }
  unfold set_post. destruct (_ && _); [done|]. apply wp_store_attr; [done|..].
  - intros w1 Hl He1. apply wp_save_positive; [|done]. rewrite (hp_lib _ _ Hl). by eapply wq_ok_device.
  - intros w1 Hl. apply wp_bind. eapply wp_deref; [by rewrite (hp_lib _ _ Hl)|done].
Qed.

(** Outcomes of setting a text attribute. *)
Inductive str_stored (f : wq_str_field) (wq : positive) (path val : string) (w : world F) :
    Z → world F → Prop :=
  | str_done n w' :
      trace w' = EvWrite path val (KOk n) :: trace w →
      lib w' = (hp w <| h_wqs ::= alter (wq_str_field_set f (Some val)) wq |>,
                init_cmd_status w, filename_prefix w) →
      str_stored f wq path val w 0 w'
  | str_nomem n w' :
      trace w' = EvWrite path val (KOk n) :: trace w →
      lib w' = (hp w <| h_wqs ::= alter (wq_str_field_set f None) wq |>,
                init_cmd_status w, filename_prefix w) →
      str_stored f wq path val w (- ENOMEM) w'
  | str_skipped w' :
      f = WS_driver_name → lib w' = lib w → str_stored f wq path val w 0 w'
  | str_failed rc w' :
      objs w' = objs w → rc = - errno w' → str_stored f wq path val w rc w'.

Lemma wq_str_name_short f : strlen (wq_str_field_name f) <= 64.
Proof. by destruct f. Qed.

Lemma wq_str_guard f cf : - 2 ^ 31 <= cf < 2 ^ 31 →
  (u32 cf =? 0) && negb (strcmp_eq (wq_str_field_name f) "name") &&
    negb (strcmp_eq (wq_str_field_name f) "driver_name") =
  (cf =? 0) && bool_decide (f = WS_mode).
Proof.
  intros Hcf. rewrite <- andb_assoc. f_equal; [|by destruct f].
  apply eq_iff_eq_true. rewrite !Z.eqb_eq. wrap_lia.
Qed.

(** Setting the mode, name or driver name of a work queue to a text shorter than 1024 bytes runs
    without undefined behaviour and leaks no descriptor.  Either the text was written to the
    attribute's file and the member is a copy of it (or NULL, with -ENOMEM, if memory ran out);
    or the attribute is the driver name and the driver has none, which counts as success and
    keeps the old name; or it failed and no object but the saved error changed.  The mode of
    a device that is not configurable is not touched: the result is minus the current [errno]. *)
Theorem accfg_wq_set_str_field_spec f wq val wr d c name (w : world F) :
  wq_ok wq wr d c name (hp w) → strlen val < SYSFS_ATTR_SIZE → 0 <= errno w →
  - 2 ^ 31 <= d_configurable d < 2 ^ 31 →
  wp (accfg_wq_set_str_field f wq val) (λ rc w',
    if (d_configurable d =? 0) && bool_decide (f = WS_mode) then rc = - errno w ∧ w' = w
    else str_stored f wq (w_wq_path wr +:+ "/" +:+ wq_str_field_name f) val w rc w' ∧
         nfds w' = nfds w) w.
Proof.
  intros Hok Hval He Hcf. destruct (Hok) as (Hw & Hd & Hc & Hlen & _).
  unfold accfg_wq_set_str_field, accfg_wq_get_ctx, accfg_device_get_configurable.
  pose proof (wq_str_name_short f).
  apply wp_bind, wp_bind. eapply wp_deref; [done|]. apply wp_bind. eapply wp_deref; [done|].
  apply wp_ret. apply wp_bind. eapply wp_deref; [done|].
  apply wp_bind, wp_sprintf_buf; [rewrite strlen_path; unfold MAX_BUF_LEN in *; lia|].
  apply wp_bind, wp_sprintf_buf; [done|]. apply wp_bind, wp_bind.
  eapply wp_deref; [done|]. apply wp_ret. rewrite wq_str_guard by done.
  destruct ((d_configurable d =? 0) && _); [done|].
  apply wp_bind. eapply wp_mono, write_attr_outcome; [|done].
  intros rc w1 (Hl1 & Hn1 & [(Hrc & t & Ht1 & _)|(-> & f0 & n & Ht1 & _ & _ & He1)]).
  - destruct (Z.ltb_spec rc 0); [|lia].
    destruct ((rc =? - ENOENT) && _) eqn:Hskip.
    + apply wp_ret. split; [|done]. apply str_skipped; [|done].
      apply andb_true_iff in Hskip as [_ Hskip]. by destruct f.
    + apply wp_bind. eapply wp_mono, (wp_save _ _ _ _ w); [|by eapply wq_ok_device|done].
      intros _ w2 (Ho2 & Ht2 & Hn2). unfold neg_errno, get_errno. apply wp_bind, wp_ret.
      split; [|by rewrite Hn2]. apply str_failed; [|done]. rewrite Ho2. by apply objs_lib.
  - change (0 <? 0) with false. cbv iota. apply wp_bind.
    eapply wp_mono, wp_strdup; [|by rewrite He1]. intros r w2 (Hl2 & Ht2 & Hn2 & Hr).
    assert (lib w2 = lib w) as Hl by congruence.
    apply wp_bind, wp_bind. eapply wp_deref; [by rewrite (hp_lib _ _ Hl)|].
    apply wp_ret. split; [|simpl; by rewrite Hn2].
    assert (∀ v, lib (w2 <| hp ::= λ h, h <| h_wqs ::= alter (wq_str_field_set f v) wq |> |>) =
      (hp w <| h_wqs ::= alter (wq_str_field_set f v) wq |>, init_cmd_status w, filename_prefix w)) as Hv.
    { intros v. unfold lib in *. simpl. by injection Hl as -> -> ->. }
    destruct r as [s|]; [destruct Hr as [-> _]; eapply str_done|eapply str_nomem].
    all: first [apply Hv|simpl; by rewrite Ht2].
Qed.

(** Setting the mode, name or driver name to a text of 1024 bytes or more overflows the
    function's buffer: the behaviour is undefined, whatever the device and the driver are. *)
Theorem accfg_wq_set_str_field_overflow f wq val wr d c name (w : world F) :
  wq_ok wq wr d c name (hp w) → SYSFS_ATTR_SIZE <= strlen val →
  accfg_wq_set_str_field f wq val w = Fault.
Proof.
  intros (Hw & Hd & Hc & Hlen & _) Hval.
  unfold accfg_wq_set_str_field, accfg_wq_get_ctx, get_wq, get_device, deref, must, gets, mbind,
    prog_bind, mret, prog_ret, sprintf_buf. rewrite Hw. cbv beta iota. rewrite Hd, Hw.
  destruct (_ <? w_buf_len wr); [|done]. destruct (Z.ltb_spec (strlen val) SYSFS_ATTR_SIZE); [lia|done].
Qed.
End setters.

(** ** Limits, device node, operation configuration *)

Section limits.
Context {F : Type} `{KernelLaws F}.
Notation M := (prog (world F)).

Fixpoint sum (l : list Z) : Z := match l with [] => 0 | x :: l' => x + sum l' end.

Lemma sum_nonneg l : Forall (λ s, 0 <= s) l → 0 <= sum l.
Proof. induction 1; simpl; lia. Qed.

Lemma total_wq_size_spec limit sizes total :
  Forall (λ s, 0 <= s) sizes → 0 <= total <= limit →
  Forall (λ s, s + limit <= INT_MAX) sizes →
  total_wq_size limit total sizes = Some (if limit <? total + sum sizes then - ERANGE else 0).
Proof.
  intros Hpos Ht Hmax. revert total Ht. induction Hpos as [|s l Hs Hl IH]; intros total Ht; simpl.
  { destruct (Z.ltb_spec limit (total + 0)); [lia|done]. }
  apply Forall_cons in Hmax as [Hm Hmax]. pose proof (sum_nonneg l Hl).
  destruct (Z.ltb_spec (total + s) (- 2 ^ 31)), (Z.ltb_spec INT_MAX (total + s)); [lia..|].
  simpl. destruct (Z.ltb_spec limit (total + s)).
  - by destruct (Z.ltb_spec limit (total + (s + sum l))); [|lia].
  - rewrite IH by (done || lia). by rewrite Z.add_assoc.
Qed.

Lemma run_get_wqs l ws (w : world F) :
  Forall2 (λ p x, h_wqs (hp w) !! p = Some x) l ws → get_wqs l w = Done ws w.
Proof.
  induction 1 as [|p x l ws Hp Hl IH]; [done|]. simpl.
  unfold get_wq, deref, must, gets, mbind, prog_bind, mret, prog_ret in *.
  by rewrite Hp, IH.
Qed.

(** The size check of a device accepts exactly the configurations with at most the device's
    number of work queues and an accumulated size within its limit, rejects the others with
    -ERANGE, and changes nothing, provided no partial sum overflows an [int]. *)
Theorem accfg_wq_size_boundary_spec device d ws wq_num (w : world F) :
  h_devices (hp w) !! device = Some d →
  Forall2 (λ p x, h_wqs (hp w) !! p = Some x) (d_wqs d) ws →
  Forall (λ x, 0 <= w_size x ∧ w_size x + d_max_work_queues_size d <= INT_MAX) ws →
  0 <= d_max_work_queues_size d → - 2 ^ 31 <= d_max_work_queues d < 2 ^ 31 →
  accfg_wq_size_boundary (Some device) wq_num w =
    Done (if (wq_num <=? d_max_work_queues d) && (sum (w_size <$> ws) <=? d_max_work_queues_size d)
          then 0 else - ERANGE) w.
Proof.
  intros Hd Hws Hsz Hlim Hmax.
  unfold accfg_wq_size_boundary, accfg_device_get_max_work_queues.
  unfold get_device, deref, gets, must, mbind, prog_bind, mret, prog_ret. rewrite Hd. cbv beta iota.
  rewrite Hd. cbv beta iota zeta.
  assert (s32 (u32 (d_max_work_queues d)) = d_max_work_queues d) as -> by wrap_lia.
  destruct (Z.ltb_spec (d_max_work_queues d) wq_num), (Z.leb_spec wq_num (d_max_work_queues d));
    [lia|done| |lia]. rewrite (run_get_wqs _ ws) by done. simpl.
  rewrite total_wq_size_spec; [|by apply Forall_fmap; eapply Forall_impl; [exact Hsz|]; intros x []|lia|
    by apply Forall_fmap; eapply Forall_impl; [exact Hsz|]; intros x []].
  simpl. rewrite Z.add_0_l.
  destruct (Z.ltb_spec (d_max_work_queues_size d) (sum (w_size <$> ws))),
    (Z.leb_spec (sum (w_size <$> ws)) (d_max_work_queues_size d)); (done || lia).
Qed.

(** [f] is the last entry that matches. *)
Definition last_match (ok : string → bool) (names : list string) (f : string) : Prop :=
  ∃ l1 l2, names = (l1 ++ f :: l2)%list ∧ ok f = true ∧ Forall (λ g, ok g = false) l2.

Lemma find_last ok names f :
  List.find ok (reverse names) = Some f → last_match ok names f.
Proof.
  induction names as [|x names IH] using rev_ind; [done|]. rewrite reverse_snoc. simpl.
  destruct (ok x) eqn:Hx.
  - intros [= ->]. exists names, []. split; [done|]. by split; [|constructor].
  - intros (l1 & l2 & -> & Hok & Hl2)%IH. exists l1, (l2 ++ [x])%list.
    rewrite <- app_assoc. split; [done|]. split; [done|]. apply Forall_app. split; [done|].
    by apply Forall_singleton.
Qed.

(** The path of a work queue's character device is, when the function succeeds, the last entry
    of /dev/<type> in directory order that is the queue's name or matches <name>-*, and it fits
    the caller's buffer with its NUL; without such an entry the result is -ENOENT, and a buffer
    that is too small gives -ERANGE and is not written. *)
Theorem accfg_wq_get_user_dev_path_spec wq wr d c name names f1 size (w : world F) :
  wq_ok wq wr d c name (hp w) → strlen (d_device_type_str d) <= 1000 →
  k_scandir ("/dev/" +:+ d_device_type_str d) (fs w) = (KOk names, f1) →
  Forall (λ n, strlen n <= 1000) names →
  wp (accfg_wq_get_user_dev_path wq size) (λ r w', lib w' = lib w ∧ trace w' = trace w ∧
    match r with
    | (rc, Some p) => rc = 0 ∧ strlen p < size ∧ ∃ f,
        p = "/dev/" +:+ d_device_type_str d +:+ "/" +:+ f ∧
        last_match (λ f, k_fnmatch (name +:+ "-*") f || strcmp_eq name f) names f
    | (rc, None) => rc = - ERANGE ∨
        rc = - ENOENT ∧ ∀ f, f ∈ names → (k_fnmatch (name +:+ "-*") f || strcmp_eq name f) = false
    end) w.
Proof.
  intros (Hw & Hd & Hc & _ & Hname & Hlen & _) Hty Hs Hshort. unfold accfg_wq_get_user_dev_path.
  apply wp_bind. eapply wp_deref; [done|]. apply wp_bind. eapply wp_deref; [done|].
  apply wp_bind, wp_sprintf_buf.
  { rewrite strlen_app. change (strlen "/dev/") with 5. unfold PATH_MAX. lia. }
  apply wp_bind. unfold sys_scandir, call. unfold wp at 1. rewrite Hs.
  apply wp_bind. unfold accfg_wq_get_devname, devpath_to_devname.
  apply wp_bind. eapply wp_deref; [done|]. rewrite Hname. apply wp_ret.
  apply wp_bind, wp_sprintf_buf.
  { rewrite strlen_app. change (strlen "-*") with 2. unfold PATH_MAX. lia. }
  destruct (find_node (name +:+ "-*") name names) as [f|] eqn:Hf.
  - apply find_last in Hf. destruct (Hf) as (l1 & l2 & Heq & _).
    assert (strlen f <= 1000) as Hfl.
    { rewrite Heq in Hshort. by apply Forall_app in Hshort as [_ [Hx _]%Forall_cons]. }
    apply wp_bind, wp_sprintf_buf.
    { rewrite !strlen_app. change (strlen "/dev/") with 5. change (strlen "/") with 1.
      unfold PATH_MAX. lia. }
    destruct (Z.leb_spec size (strlen ("/dev/" +:+ d_device_type_str d +:+ "/" +:+ f)));
      apply wp_ret; (split; [done|]; split; [done|]); [by left|].
    split; [done|]. split; [done|]. by exists f.
  - apply wp_ret. split; [done|]. split; [done|]. right. split; [done|]. intros f Hin.
    apply (find_none _ _ Hf). apply list_elem_of_In. by apply elem_of_reverse.
Qed.
End limits.

(** ** Operation configuration *)

Section op_config.
Context {F : Type} `{KernelLaws F}.
Notation M := (prog (world F)).

Lemma hex_list_plain l : Forall (λ x, 0 <= x) l → chars (print_hex_list l) plain.
Proof.
  induction 1 as [|x l Hx Hl IH]; [constructor|].
  assert (chars (print_x x) plain) as Hp by (apply print_base_plain; lia).
  destruct l as [|y l]; [done|]. rewrite print_hex_list_cons.
  apply chars_app. split; [done|]. apply chars_app. split; [by apply Forall_singleton|done].
Qed.

Lemma cut_plain s : chars s plain → cut_at NL (cstr s) = s ∧
  cut_at NL (cstr (s +:+ String NL "")) = s.
Proof.
  intros Hs.
  assert (chars s (λ c, negb (Ascii.eqb c NUL) = true) ∧ chars s (λ c, negb (Ascii.eqb c NL) = true))
    as [H1 H2].
  { split; (eapply Forall_impl; [exact Hs|]); intros c [? ?]; by apply negb_true_iff, Ascii.eqb_neq. }
  unfold cstr, cut_at. rewrite (span_chars _ s (String NL "")) by done.
  rewrite <- (append_empty_r s) at 1. rewrite (span_chars _ s "") by done. simpl.
  rewrite !append_empty_r, (span_chars _ s (String NL "")) by done.
  rewrite <- (append_empty_r s) at 1. rewrite (span_chars _ s "") by done. simpl.
  by rewrite !append_empty_r.
Qed.

(** The file of an operation configuration holds the text of the words. *)
Definition config_text (bits : list Z) (data : string) : Prop :=
  data = print_hex_list bits ∨ data = print_hex_list bits +:+ String NL "".

(** C32: The operation configuration survives the trip through the driver: eight 32-bit words are
    written as their hexadecimal text, and wherever the attribute's file shows that text, with
    or without a newline, it is read back as the same eight words and the result 0. *)
Theorem accfg_wq_op_config_roundtrip wq wr d c name bits (w1 : world F) g0 data g1 g2 :
  wq_ok wq wr d c name (hp w1) → length bits = 8%nat → Forall (λ x, 0 <= x < 2 ^ 32) bits →
  (accfg_wq_set_op_config (F := F) (Some wq) (Some bits) =
     accfg_wq_set_op_config_str (Some wq) (Some (print_hex_list bits))) ∧
  (config_text bits data →
   k_open O_PATH (w_wq_path wr) (fs w1) = (KOk (), g0) →
   reads (w_wq_path wr +:+ "/op_config") (MAX_PARAM_LEN - 1) g0 data g1 → k_alloc g1 = (true, g2) →
   ∃ w2, accfg_wq_get_op_config (Some wq) w1 = Done (0, bits) w2 ∧ lib w2 = lib w1 ∧
     nfds w2 = nfds w1).
Proof.
  intros (Hw & Hd & Hc & _) Hlen Hbits. split.
  { unfold accfg_wq_set_op_config. rewrite substring_prefix; [done|].
    pose proof (print_hex_list_length bits Hbits). unfold MAX_PARAM_LEN. lia. }
  intros Htext Ho (g & Hor & Hr) Ha.
  destruct (cut_plain (print_hex_list bits)) as [Hc1 Hc2].
  { apply hex_list_plain. eapply Forall_impl; [exact Hbits|]. by intros x [? _]. }
  assert (cut_at NL (cstr data) = print_hex_list bits) as Hcut by (destruct Htext as [-> | ->]; done).
  assert (data ≠ "") as Hne.
  { intros ->. rewrite <- Hcut in *. destruct bits as [|x [|y bits]]; [done|done|].
    rewrite print_hex_list_cons in Hcut. destruct (print_x x); done. }
  pose proof (sscanf_hex_print bits 0 ltac:(lia) Hbits) as Hscan. rewrite Hlen in Hscan.
  unfold accfg_wq_get_op_config, accfg_get_param_str, strdup, alloc, get_wq, get_device, deref, must.
  run. rewrite Hw. simpl. rewrite Hd. simpl. rewrite Ho. simpl.
  change ("/" +:+ "op_config") with "/op_config". rewrite Hor. simpl. rewrite Hr. simpl.
  destruct data as [|ch data]; [done|]. simpl. rewrite Ha. simpl. rewrite Hcut, Hscan. simpl.
  eexists. split; [done|]. simpl. rewrite !Z.pred_succ. done.
Qed.
End op_config.

(** ** Descriptors *)

Section descriptors.
Context {F : Type} `{Kernel F}.

Lemma fd_get_clients wq : fd_balanced (accfg_wq_get_clients (F := F) wq).
Proof. unfold accfg_wq_get_clients. fd. Qed.
Lemma fd_get_state wq : fd_balanced (accfg_wq_get_state (F := F) wq).
Proof. unfold accfg_wq_get_state. fd. Qed.

(** The operations that open a queue's directory close it again, whatever fails: the mode, the
    operation configuration (get and set) and the minor number.  The occupancy is the
    exception: each call that can open the directory leaves one more descriptor open. *)
Theorem accfg_wq_descriptors wq oc :
  fd_balanced (accfg_wq_get_mode (F := F) wq) ∧
  fd_balanced (accfg_wq_get_op_config (F := F) (Some wq)) ∧
  fd_balanced (accfg_wq_set_op_config_str (F := F) (Some wq) oc) ∧
  fd_balanced (accfg_wq_retrieve_cdev_minor (F := F) wq) ∧
  (∀ wr d f (w : world F), h_wqs (hp w) !! wq = Some wr → h_devices (hp w) !! w_device wr = Some d →
     k_open O_PATH (w_wq_path wr) (fs w) = (KOk (), f) →
     ∃ r w', accfg_wq_get_occupancy wq w = Done r w' ∧ nfds w' = nfds w + 1).
Proof.
  split; [unfold accfg_wq_get_mode; fd|]. split; [unfold accfg_wq_get_op_config; fd|].
  split; [unfold accfg_wq_set_op_config_str; fd|].
  split; [unfold accfg_wq_retrieve_cdev_minor; fd|].
  intros wr d f w Hw Hd Ho. unfold accfg_wq_get_occupancy, get_wq, get_device, deref, must. run.
  rewrite Hw. simpl. rewrite Hd. simpl. rewrite Ho. simpl.
  set (w1 := World _ _ _ _ _ _ _).
  destruct (a_get_long (w_wq_path wr) "occupancy" w1) as (v & w2 & Hv). rewrite Hv.
  eexists _, _. split; [done|]. apply fd_get_long in Hv. rewrite Hv. simpl. lia.
Qed.
End descriptors.

(** ** Instances *)

Lemma demo_wq_ok : ∃ wr d c, wq_ok 4 wr d c "wq0.0" (hp demo_world) ∧
  wq_bind_path wr d c = "/sys/bus/dsa/drivers/user/bind" ∧
  strlen (print_s (wq_driver wr d c)) <= 1000 ∧
  wq_unbind_path d "wq0.0" = "/sys/bus/dsa/devices/wq0.0/driver/unbind" ∧
  w_wq_path wr = DSA +:+ "/wq0.0".
Proof.
  eexists _, _, _. split; [|split; [|split; [|split]]].
  { split; [vm_compute; reflexivity|]. split; [vm_compute; reflexivity|].
    split; [vm_compute; reflexivity|]. split; [vm_compute; reflexivity|].
    split; [vm_compute; reflexivity|]. by vm_compute. }
  all: by vm_compute.
Qed.

Lemma accfg_wq_enable_spec_witness : ∃ wr,
  (∃ w', accfg_wq_enable 4 demo_world = Done 0 w') ∧
  wp (accfg_wq_enable 4) (control_post FLAG_WQ_ENABLE 4 wr "/sys/bus/dsa/drivers/user/bind"
    "wq0.0" demo_world) demo_world.
Proof.
  destruct demo_wq_ok as (wr & d & c & Hok & <- & Hlen & _). exists wr.
  split; [apply runs_to_Done; vm_compute; reflexivity|].
  apply (accfg_wq_enable_spec 4 wr d c "wq0.0"); [exact Hok|by vm_compute|exact Hlen].
Defined.

(** Two clients use the queue. *)
Lemma accfg_wq_disable_spec_witness : ∃ wr,
  (∃ w', accfg_wq_disable 4 false demo_world = Done (- EPERM) w') ∧
  wp (accfg_wq_disable 4 false) (λ rc w',
    if (0 <? 2) && negb false
    then rc = - EPERM ∧ lib w' = lib demo_world ∧ trace w' = trace demo_world ∧
         nfds w' = nfds demo_world
    else control_post FLAG_WQ_DISABLE 4 wr "/sys/bus/dsa/drivers/idxd/unbind" "wq0.0"
           demo_world rc w') demo_world.
Proof.
  destruct demo_wq_ok as (wr & d & c & Hok & _ & _ & Hu & Hp). exists wr.
  split; [apply runs_to_Done; vm_compute; reflexivity|].
  apply (accfg_wq_disable_spec 4 wr d c "wq0.0" false 2 "/sys/bus/dsa/drivers/idxd/unbind"
    (fs demo_world) (nl "2") (fs demo_world)); [exact Hok|by vm_compute|rewrite Hu|rewrite Hp|..].
  - by apply sim_realpath; vm_compute.
  - apply sim_reads; [vm_compute; reflexivity|by vm_compute].
  - right. reflexivity.
  - lia.
Defined.

Lemma demo_wq_fields : ∃ wr d c, wq_ok 4 wr d c "wq0.0" (hp demo_world) ∧
  h_devices (hp demo_world) !! 2%positive = Some d ∧ w_wq_path wr = DSA +:+ "/wq0.0" ∧
  d_configurable d = 1 ∧ d_device_type_str d = "dsa" ∧ d_wqs d = [4%positive; 5%positive] ∧
  d_max_work_queues d = 8 ∧ d_max_work_queues_size d = 128.
Proof.
  eexists _, _, _. split.
  { split; [vm_compute; reflexivity|]. split; [vm_compute; reflexivity|].
    split; [vm_compute; reflexivity|]. split; [vm_compute; reflexivity|].
    split; [vm_compute; reflexivity|]. by vm_compute. }
  split; [vm_compute; reflexivity|]. by vm_compute.
Qed.

Lemma accfg_wq_set_field_spec_witness :
  (∃ w', accfg_wq_set_size 4 24 demo_world = Done 0 w') ∧
  wp (accfg_wq_set_size 4 24)
    (set_post ((1 =? 0) && bool_decide (W_size = W_threshold)) (DSA +:+ "/wq0.0" +:+ "/" +:+ "size")
       (print_d 24) (λ h, h <| h_wqs ::= alter (wq_field_set W_size 24) 4%positive |>) demo_world)
    demo_world.
Proof.
  split; [apply runs_to_Done; vm_compute; reflexivity|].
  destruct demo_wq_fields as (wr & d & c & Hok & _ & Hp & Hcf & _).
  pose proof (accfg_wq_set_field_spec W_size 4 24 wr d c "wq0.0" demo_world) as Hset.
  rewrite Hp, Hcf in Hset. apply Hset; [exact Hok|lia|by vm_compute|lia].
Defined.

Lemma accfg_wq_set_str_field_spec_witness :
  (∃ w', accfg_wq_set_str_name 4 "mywq" demo_world = Done 0 w') ∧
  wp (accfg_wq_set_str_name 4 "mywq") (λ rc w',
    if (1 =? 0) && bool_decide (WS_name = WS_mode) then rc = - errno demo_world ∧ w' = demo_world
    else str_stored WS_name 4 (DSA +:+ "/wq0.0" +:+ "/" +:+ "name") "mywq" demo_world rc w' ∧
         nfds w' = nfds demo_world) demo_world.
Proof.
  split; [apply runs_to_Done; vm_compute; reflexivity|].
  destruct demo_wq_fields as (wr & d & c & Hok & _ & Hp & Hcf & _).
  pose proof (accfg_wq_set_str_field_spec WS_name 4 "mywq" wr d c "wq0.0" demo_world) as Hset.
  rewrite Hp, Hcf in Hset. apply Hset; [exact Hok|by vm_compute|by vm_compute|lia].
Defined.

Fixpoint repeat_char (n : nat) (c : ascii) : string :=
  match n with O => "" | S n' => String c (repeat_char n' c) end.

Lemma accfg_wq_set_str_field_overflow_witness :
  SYSFS_ATTR_SIZE <= strlen (repeat_char 1024 "a") ∧
  accfg_wq_set_str_name 4 (repeat_char 1024 "a") demo_world = Fault.
Proof.
  split; [by vm_compute|].
  destruct demo_wq_fields as (wr & d & c & Hok & _).
  apply (accfg_wq_set_str_field_overflow WS_name 4 _ wr d c "wq0.0"); [exact Hok|by vm_compute].
Defined.

Lemma demo_sizes : ∃ w1 w2, h_wqs (hp demo_world) !! 4%positive = Some w1 ∧
  h_wqs (hp demo_world) !! 5%positive = Some w2 ∧ w_size w1 = 16 ∧ w_size w2 = 32.
Proof.
  eexists _, _. split; [vm_compute; reflexivity|]. split; [vm_compute; reflexivity|].
  split; reflexivity.
Qed.

Lemma accfg_wq_size_boundary_spec_witness :
  accfg_wq_size_boundary (Some 2%positive) 2 demo_world = Done 0 demo_world.
Proof.
  destruct demo_wq_fields as (wr & d & c & _ & Hd & _ & _ & _ & Hwqs & Hmax & Hsize).
  destruct demo_sizes as (w1 & w2 & H1 & H2 & Hs1 & Hs2).
  pose proof (accfg_wq_size_boundary_spec 2 d [w1; w2] 2 demo_world Hd) as Hspec.
  rewrite Hwqs, Hmax, Hsize in Hspec. simpl (w_size <$> _) in Hspec. rewrite Hs1, Hs2 in Hspec.
  apply Hspec; [by repeat constructor| |lia..].
  repeat constructor; rewrite ?Hs1, ?Hs2; unfold INT_MAX; lia.
Defined.

Lemma accfg_wq_get_user_dev_path_spec_witness : ∃ f1,
  wp (accfg_wq_get_user_dev_path 4 64) (λ r w', lib w' = lib demo_world ∧
    trace w' = trace demo_world ∧
    match r with
    | (rc, Some p) => rc = 0 ∧ strlen p < 64 ∧ ∃ f,
        p = "/dev/" +:+ "dsa" +:+ "/" +:+ f ∧
        last_match (λ f, k_fnmatch ("wq0.0" +:+ "-*") f || strcmp_eq "wq0.0" f) ["wq0.0"; "wq0.1"] f
    | (rc, None) => rc = - ERANGE ∨
        rc = - ENOENT ∧ ∀ f, f ∈ ["wq0.0"; "wq0.1"] →
          (k_fnmatch ("wq0.0" +:+ "-*") f || strcmp_eq "wq0.0" f) = false
    end) demo_world ∧
  k_scandir ("/dev/" +:+ "dsa") (fs demo_world) = (KOk ["wq0.0"; "wq0.1"], f1).
Proof.
  assert (k_scandir ("/dev/" +:+ "dsa") (fs demo_world) = (KOk ["wq0.0"; "wq0.1"], fs demo_world)) as Hs.
  { apply sim_scandir. vm_compute. reflexivity. }
  exists (fs demo_world). split; [|exact Hs].
  destruct demo_wq_fields as (wr & d & c & Hok & _ & _ & _ & Hty & _).
  pose proof (accfg_wq_get_user_dev_path_spec 4 wr d c "wq0.0" ["wq0.0"; "wq0.1"] (fs demo_world) 64
    demo_world Hok) as Hspec.
  rewrite Hty in Hspec. apply Hspec; [by vm_compute|exact Hs|by repeat constructor].
Defined.

Lemma accfg_wq_op_config_roundtrip_witness :
  ∃ w2, accfg_wq_get_op_config (Some 4%positive) demo_world = Done (0, [0; 0; 0; 0; 0; 0; 0; 0]) w2.
Proof.
  destruct demo_wq_fields as (wr & d & c & Hok & _ & Hp & _).
  pose proof (accfg_wq_op_config_roundtrip 4 wr d c "wq0.0" [0; 0; 0; 0; 0; 0; 0; 0] demo_world
    (fs demo_world) (nl "0,0,0,0,0,0,0,0") (fs demo_world)) as Hspec.
  rewrite Hp in Hspec.
  edestruct Hspec as [_ Hget]; [exact Hok|done|by repeat constructor|].
  edestruct Hget as (w2 & Hrun & _); [by right|eapply sim_open_dir; vm_compute; reflexivity| |
    apply sim_alloc; by vm_compute|by exists w2].
  apply sim_reads; [vm_compute; reflexivity|by vm_compute].
Defined.

Lemma accfg_wq_descriptors_witness :
  ∃ r w', accfg_wq_get_occupancy 4 demo_world = Done r w' ∧ nfds w' = nfds demo_world + 1.
Proof.
  destruct demo_wq_fields as (wr & d & c & (Hw & Hd & _) & _ & Hp & _).
  destruct (accfg_wq_descriptors (F := sim) 4 None) as (_ & _ & _ & _ & Hleak).
  apply (Hleak wr d (fs demo_world)); [exact Hw|exact Hd|].
  rewrite Hp. eapply sim_open_dir. vm_compute. reflexivity.
Defined.
