(* ===== verification/TreeFacts.v ===== *)
(** * libaccfg.c: the invariant of the tree of objects

    [tree_ok] says that the library's memory is a tree: every object is in the
    list of its owner, once, and in no other.  The steps on the heap that keep it,
    and a checker for concrete heaps. *)

From S2P Require Import Prelude CString Prog Types SimKernel Sysfs Param Tree Demo.
From S2P Require Import SysfsFacts ParamFacts.
Local Open Scope string_scope.
Local Open Scope Z_scope.

(** ** The invariant *)

(** The members of one list of a device: distinct, alive, and pointing back. *)
Definition members {A} (l : list positive) (m : gmap positive A) (owner : A → positive)
    (device : positive) : Prop :=
  NoDup l ∧ ∀ p, p ∈ l ↔ ∃ x, m !! p = Some x ∧ owner x = device.

(** [buf_ok path len]: a path with a name, and a buffer with room for an attribute of it. *)
Definition buf_ok (path : string) (len : Z) : Prop :=
  len = strlen path + MAX_BUF_LEN ∧ ∃ name, after_last slash path = Some name.

Record tree_ok (h : heap) : Prop := {
  ok_ctx c x : h_ctxs h !! c = Some x → members (c_devices x) (h_devices h) d_ctx c;
  ok_device d x : h_devices h !! d = Some x →
    is_Some (h_ctxs h !! d_ctx x) ∧
    members (d_groups x) (h_groups h) g_device d ∧
    members (d_wqs x) (h_wqs h) w_device d ∧
    members (d_engines x) (h_engines h) e_device d;
  ok_group p x : h_groups h !! p = Some x → is_Some (h_devices h !! g_device x) ∧
    buf_ok (g_group_path x) (g_buf_len x);
  ok_wq p x : h_wqs h !! p = Some x → is_Some (h_devices h !! w_device x) ∧
    buf_ok (w_wq_path x) (w_buf_len x);
  ok_engine p x : h_engines h !! p = Some x → is_Some (h_devices h !! e_device x) ∧
    buf_ok (e_engine_path x) (e_buf_len x);
  ok_next p : (h_next h <= p)%positive → h_ctxs h !! p = None ∧ h_devices h !! p = None ∧
    h_groups h !! p = None ∧ h_wqs h !! p = None ∧ h_engines h !! p = None;
}.

(** [p] was handed out by [fresh] and holds no object. *)
Definition unused (p : positive) (h : heap) : Prop :=
  (p < h_next h)%positive ∧ h_ctxs h !! p = None ∧ h_devices h !! p = None ∧
  h_groups h !! p = None ∧ h_wqs h !! p = None ∧ h_engines h !! p = None.

Lemma empty_tree_ok : tree_ok empty_heap.
Proof. by split. Qed.

Lemma members_insert {A} l (m : gmap positive A) owner device p x :
  members l m owner device → m !! p = None → owner x = device →
  members (l ++ [p]) (<[p := x]> m) owner device.
Proof.
  intros [Hnd Hl] Hp Hx. split.
  - apply NoDup_app. split; [done|]. split; [|apply NoDup_singleton].
    intros q Hq Hqp. apply list_elem_of_singleton in Hqp as ->. apply Hl in Hq as (y & Hy & _). congruence.
  - intros q. rewrite elem_of_app, list_elem_of_singleton, Hl. split.
    + intros [(y & Hy & Ho)| ->]; [|exists x; by rewrite lookup_insert_eq].
      exists y. rewrite lookup_insert_ne by congruence. done.
    + intros (y & Hy & Ho). destruct (decide (q = p)) as [->|]; [by right|].
      rewrite lookup_insert_ne in Hy by done. eauto.
Qed.

Lemma members_insert_ne {A} l (m : gmap positive A) owner device p x :
  members l m owner device → m !! p = None → owner x ≠ device →
  members l (<[p := x]> m) owner device.
Proof.
  intros [Hnd Hl] Hp Hx. split; [done|]. intros q. rewrite Hl. split.
  - intros (y & Hy & Ho). exists y. rewrite lookup_insert_ne by congruence. done.
  - intros (y & Hy & Ho). destruct (decide (q = p)) as [->|].
    + rewrite lookup_insert_eq in Hy. congruence.
    + rewrite lookup_insert_ne in Hy by done. eauto.
Qed.

(** Changing objects in place, their owners kept. *)
Lemma members_alter {A} l (m : gmap positive A) owner device p f :
  (∀ x, owner (f x) = owner x) → members l m owner device → members l (alter f p m) owner device.
Proof.
  intros Hf [Hnd Hl]. split; [done|]. intros q. rewrite Hl.
  destruct (decide (q = p)) as [->|]; [|by rewrite lookup_alter_ne].
  rewrite lookup_alter_eq. destruct (m !! p) as [y|]; simpl; [|done].
  split; intros (z & [= <-] & Ho); eexists; (split; [done|]); by rewrite ?Hf in *.
Qed.

Lemma members_delete {A} l (m : gmap positive A) owner device p :
  members l m owner device → members (list_del p l) (delete p m) owner device.
Proof.
  intros [Hnd Hl]. split; [by apply NoDup_filter|]. intros q. unfold list_del.
  rewrite list_elem_of_filter, Hl. setoid_rewrite lookup_delete_Some. naive_solver.
Qed.

Lemma members_delete_ne {A} l (m : gmap positive A) owner device p x :
  m !! p = Some x → owner x ≠ device → members l m owner device →
  members l (delete p m) owner device.
Proof.
  intros Hp Hx [Hnd Hl]. split; [done|]. intros q. rewrite Hl.
  setoid_rewrite lookup_delete_Some. split; [|naive_solver].
  intros (y & Hy & Ho). exists y. split; [split; [congruence|done]|done].
Qed.

(** ** Steps on the heap that keep the invariant *)

(** Objects after [alter]: what was there, or its image. *)
Lemma alter_inv {A} f (m : gmap positive A) p q y :
  alter f p m !! q = Some y → ∃ x, m !! q = Some x ∧ (y = x ∨ p = q ∧ y = f x).
Proof.
  destruct (decide (p = q)) as [->|Hne].
  - rewrite lookup_alter_eq. destruct (m !! q) as [x|]; [|done]. intros [= <-]. eauto.
  - rewrite lookup_alter_ne by done. eauto.
Qed.

Lemma alter_is_Some {A} f (m : gmap positive A) p q :
  is_Some (m !! q) → is_Some (alter f p m !! q).
Proof. by rewrite lookup_alter_is_Some. Qed.

Lemma alter_None {A} f (m : gmap positive A) p q : m !! q = None → alter f p m !! q = None.
Proof. by rewrite lookup_alter_None. Qed.

Lemma tree_bump h : tree_ok h →
  tree_ok (h <| h_next ::= Pos.succ |>) ∧ unused (h_next h) (h <| h_next ::= Pos.succ |>).
Proof.
  intros [Hc Hd Hg Hw He Hn]. split; [|split; [simpl; lia|apply (Hn (h_next h)); lia]].
  split; simpl; [done..|]. intros p Hp. apply Hn. lia.
Qed.

Lemma tree_alter_ctx c f h :
  (∀ x, c_devices (f x) = c_devices x) → tree_ok h → tree_ok (h <| h_ctxs ::= alter f c |>).
Proof.
  intros Hf [Hc Hd Hg Hw He Hn]. split; simpl; try done.
  - intros q y (x & Hx & [-> | [-> ->]])%alter_inv; [by apply Hc|]. rewrite Hf. by apply Hc.
  - intros d x Hx. destruct (Hd d x Hx) as (H1 & H2). split; [by apply alter_is_Some|done].
  - intros p Hp. destruct (Hn p Hp) as (H1 & H2). split; [by apply alter_None|done].
Qed.

Lemma tree_alter_device d f h :
  (∀ x, d_ctx (f x) = d_ctx x ∧ d_groups (f x) = d_groups x ∧ d_wqs (f x) = d_wqs x ∧
        d_engines (f x) = d_engines x) →
  tree_ok h → tree_ok (h <| h_devices ::= alter f d |>).
Proof.
  intros Hf [Hc Hd Hg Hw He Hn]. split; simpl; try done.
  - intros c x Hx. apply members_alter; [intros y; by destruct (Hf y)|by apply Hc].
  - intros q y (x & Hx & [-> | [-> ->]])%alter_inv; [by apply Hd|].
    destruct (Hf x) as (-> & -> & -> & ->). by apply Hd.
  - intros p x Hx. destruct (Hg p x Hx). split; [by apply alter_is_Some|done].
  - intros p x Hx. destruct (Hw p x Hx). split; [by apply alter_is_Some|done].
  - intros p x Hx. destruct (He p x Hx). split; [by apply alter_is_Some|done].
  - intros p Hp. destruct (Hn p Hp) as (H1 & H2 & H3). split; [done|]. split; [by apply alter_None|done].
Qed.

Lemma tree_alter_group p f h :
  (∀ x, g_device (f x) = g_device x ∧ g_group_path (f x) = g_group_path x ∧
        g_buf_len (f x) = g_buf_len x) →
  tree_ok h → tree_ok (h <| h_groups ::= alter f p |>).
Proof.
  intros Hf [Hc Hd Hg Hw He Hn]. split; simpl; try done.
  - intros d x Hx. destruct (Hd d x Hx) as (H1 & H2 & H3). split; [done|]. split; [|done].
    apply members_alter; [intros y; by destruct (Hf y)|done].
  - intros q y (x & Hx & [-> | [-> ->]])%alter_inv; [by apply (Hg q)|].
    destruct (Hf x) as (-> & -> & ->). by apply (Hg q).
  - intros q Hq. destruct (Hn q Hq) as (H1 & H2 & H3 & H4). do 2 (split; [done|]).
    split; [by apply alter_None|done].
Qed.

Lemma tree_alter_wq p f h :
  (∀ x, w_device (f x) = w_device x ∧ w_wq_path (f x) = w_wq_path x ∧
        w_buf_len (f x) = w_buf_len x) →
  tree_ok h → tree_ok (h <| h_wqs ::= alter f p |>).
Proof.
  intros Hf [Hc Hd Hg Hw He Hn]. split; simpl; try done.
  - intros d x Hx. destruct (Hd d x Hx) as (H1 & H2 & H3 & H4). do 2 (split; [done|]). split; [|done].
    apply members_alter; [intros y; by destruct (Hf y)|done].
  - intros q y (x & Hx & [-> | [-> ->]])%alter_inv; [by apply (Hw q)|].
    destruct (Hf x) as (-> & -> & ->). by apply (Hw q).
  - intros q Hq. destruct (Hn q Hq) as (H1 & H2 & H3 & H4 & H5). do 3 (split; [done|]).
    split; [by apply alter_None|done].
Qed.

Lemma tree_insert_ctx c x h :
  unused c h → c_devices x = [] → tree_ok h → tree_ok (h <| h_ctxs ::= insert c x |>).
Proof.
  intros (Hlt & Hc0 & _) Hx [Hc Hd Hg Hw He Hn]. split; simpl; try done.
  - intros q y Hq. destruct (decide (q = c)) as [->|].
    + rewrite lookup_insert_eq in Hq. injection Hq as <-. rewrite Hx. split; [constructor|].
      intros p. split; [by intros ?%not_elem_of_nil|]. intros (d & Hdd & <-).
      destruct (Hd p d Hdd) as [[z Hz] _]. congruence.
    + rewrite lookup_insert_ne in Hq by done. by apply Hc.
  - intros d y Hy. destruct (Hd d y Hy) as ([z Hz] & Hrest). split; [|done].
    rewrite lookup_insert_ne by congruence. by exists z.
  - intros p Hp. destruct (Hn p Hp) as (H1 & H2). rewrite lookup_insert_ne by lia. done.
Qed.

(** Linking a new member: the object enters its map and its owner's list. *)
Definition link_device (ctx device : positive) (d : accfg_device) (h : heap) : heap :=
  h <| h_devices ::= insert device d |>
    <| h_ctxs ::= alter (λ c, c <| c_devices ::= list_add_tail device |>) ctx |>.
Definition link_group (device group : positive) (g : accfg_group) (h : heap) : heap :=
  h <| h_groups ::= insert group g |>
    <| h_devices ::= alter (λ d, d <| d_groups ::= list_add_tail group |>) device |>.
Definition link_wq (device wq : positive) (w : accfg_wq) (h : heap) : heap :=
  h <| h_wqs ::= insert wq w |>
    <| h_devices ::= alter (λ d, d <| d_wqs ::= list_add_tail wq |>) device |>.
Definition link_engine (device engine : positive) (e : accfg_engine) (h : heap) : heap :=
  h <| h_engines ::= insert engine e |>
    <| h_devices ::= alter (λ d, d <| d_engines ::= list_add_tail engine |>) device |>.

Lemma members_unused {A} l (m : gmap positive A) owner d p x :
  members l m owner d → m !! p = None →
  members (if decide (owner x = d) then list_add_tail p l else l) (<[p := x]> m) owner d.
Proof.
  intros Hl Hp. destruct (decide (owner x = d)); [by apply members_insert|by apply members_insert_ne].
Qed.

Lemma alter_dec {A} f (m : gmap positive A) p q y :
  alter f p m !! q = Some y → ∃ x, m !! q = Some x ∧ y = if decide (p = q) then f x else x.
Proof.
  rewrite lookup_alter. destruct (decide (p = q)) as [->|]; [|eauto].
  destruct (m !! q) as [x|]; [|done]. intros [= <-]. eauto.
Qed.

Lemma insert_None {A} (m : gmap positive A) p q x : q ≠ p → m !! q = None → <[p := x]> m !! q = None.
Proof. intros. by rewrite lookup_insert_ne. Qed.

Lemma insert_is_Some {A} (m : gmap positive A) p q x : is_Some (m !! q) → is_Some (<[p := x]> m !! q).
Proof.
  intros Hq. destruct (decide (q = p)) as [->|]; [by rewrite lookup_insert_eq|].
  by rewrite lookup_insert_ne.
Qed.

Lemma insert_inv {A} (m : gmap positive A) p q x y :
  <[p := x]> m !! q = Some y → q = p ∧ y = x ∨ q ≠ p ∧ m !! q = Some y.
Proof.
  destruct (decide (q = p)) as [->|]; [rewrite lookup_insert_eq; intros [= ->]; auto|].
  rewrite lookup_insert_ne by done. auto.
Qed.

Lemma members_nil {A} (m : gmap positive A) owner d :
  (∀ p x, m !! p = Some x → owner x ≠ d) → members [] m owner d.
Proof.
  intros Hm. split; [constructor|]. intros p. split; [by intros ?%not_elem_of_nil|].
  intros (x & Hx & Ho). by destruct (Hm p x Hx).
Qed.

Lemma tree_link_device ctx device d h :
  unused device h → is_Some (h_ctxs h !! ctx) → d_ctx d = ctx →
  d_groups d = [] → d_wqs d = [] → d_engines d = [] →
  tree_ok h → tree_ok (link_device ctx device d h).
Proof.
  intros (Hlt & _ & Hd0 & _) Hctx Hown H1 H2 H3 [Hc Hd Hg Hw He Hn].
  split; unfold link_device; simpl.
  - intros c y (x & Hx & ->)%alter_dec. specialize (Hc c x Hx).
    pose proof (members_unused _ _ _ _ _ d Hc Hd0) as Hm. rewrite Hown in Hm.
    by destruct (decide (ctx = c)).
  - intros q y [[-> ->]|[Hq Hy]]%insert_inv.
    + rewrite Hown, H1, H2, H3. split; [by apply alter_is_Some|].
      split; [|split]; apply members_nil; intros p x Hx Ho.
      * destruct (Hg p x Hx) as [[z Hz] _]. congruence.
      * destruct (Hw p x Hx) as [[z Hz] _]. congruence.
      * destruct (He p x Hx) as [[z Hz] _]. congruence.
    + destruct (Hd q y Hy). split; [by apply alter_is_Some|done].
  - intros p x Hx. destruct (Hg p x Hx). split; [by apply insert_is_Some|done].
  - intros p x Hx. destruct (Hw p x Hx). split; [by apply insert_is_Some|done].
  - intros p x Hx. destruct (He p x Hx). split; [by apply insert_is_Some|done].
  - intros p Hp. destruct (Hn p Hp) as (N1 & N2 & N3). split; [by apply alter_None|].
    split; [apply insert_None; [lia|done]|done].
Qed.

(** The part the three kinds of members share: the devices' lists. *)
Lemma tree_link_group device group g h :
  unused group h → is_Some (h_devices h !! device) → g_device g = device →
  buf_ok (g_group_path g) (g_buf_len g) → tree_ok h → tree_ok (link_group device group g h).
Proof.
  intros (Hlt & _ & _ & Hg0 & _) Hdev Hown Hbuf [Hc Hd Hg Hw He Hn].
  split; unfold link_group; simpl.
  - intros c y Hy. apply members_alter; [done|by apply Hc].
  - intros q y (x & Hx & ->)%alter_dec. destruct (Hd q x Hx) as (H1 & H2 & H3).
    pose proof (members_unused _ _ _ _ _ g H2 Hg0) as Hm. rewrite Hown in Hm.
    by destruct (decide (device = q)).
  - intros q y [[-> ->]|[Hq Hy]]%insert_inv; [rewrite Hown; split; [by apply alter_is_Some|done]|].
    destruct (Hg q y Hy). split; [by apply alter_is_Some|done].
  - intros p x Hx. destruct (Hw p x Hx). split; [by apply alter_is_Some|done].
  - intros p x Hx. destruct (He p x Hx). split; [by apply alter_is_Some|done].
  - intros p Hp. destruct (Hn p Hp) as (N1 & N2 & N3 & N4). split; [done|].
    split; [by apply alter_None|]. split; [apply insert_None; [lia|done]|done].
Qed.

Lemma tree_link_wq device wq w h :
  unused wq h → is_Some (h_devices h !! device) → w_device w = device →
  buf_ok (w_wq_path w) (w_buf_len w) → tree_ok h → tree_ok (link_wq device wq w h).
Proof.
  intros (Hlt & _ & _ & _ & Hw0 & _) Hdev Hown Hbuf [Hc Hd Hg Hw He Hn].
  split; unfold link_wq; simpl.
  - intros c y Hy. apply members_alter; [done|by apply Hc].
  - intros q y (x & Hx & ->)%alter_dec. destruct (Hd q x Hx) as (H1 & H2 & H3 & H4).
    pose proof (members_unused _ _ _ _ _ w H3 Hw0) as Hm. rewrite Hown in Hm.
    by destruct (decide (device = q)).
  - intros p x Hx. destruct (Hg p x Hx). split; [by apply alter_is_Some|done].
  - intros q y [[-> ->]|[Hq Hy]]%insert_inv; [rewrite Hown; split; [by apply alter_is_Some|done]|].
    destruct (Hw q y Hy). split; [by apply alter_is_Some|done].
  - intros p x Hx. destruct (He p x Hx). split; [by apply alter_is_Some|done].
  - intros p Hp. destruct (Hn p Hp) as (N1 & N2 & N3 & N4 & N5). split; [done|].
    split; [by apply alter_None|]. split; [done|]. split; [apply insert_None; [lia|done]|done].
Qed.

Lemma tree_link_engine device engine e h :
  unused engine h → is_Some (h_devices h !! device) → e_device e = device →
  buf_ok (e_engine_path e) (e_buf_len e) → tree_ok h → tree_ok (link_engine device engine e h).
Proof.
  intros (Hlt & _ & _ & _ & _ & He0) Hdev Hown Hbuf [Hc Hd Hg Hw He Hn].
  split; unfold link_engine; simpl.
  - intros c y Hy. apply members_alter; [done|by apply Hc].
  - intros q y (x & Hx & ->)%alter_dec. destruct (Hd q x Hx) as (H1 & H2 & H3 & H4).
    pose proof (members_unused _ _ _ _ _ e H4 He0) as Hm. rewrite Hown in Hm.
    by destruct (decide (device = q)).
  - intros p x Hx. destruct (Hg p x Hx). split; [by apply alter_is_Some|done].
  - intros p x Hx. destruct (Hw p x Hx). split; [by apply alter_is_Some|done].
  - intros q y [[-> ->]|[Hq Hy]]%insert_inv; [rewrite Hown; split; [by apply alter_is_Some|done]|].
    destruct (He q y Hy). split; [by apply alter_is_Some|done].
  - intros p Hp. destruct (Hn p Hp) as (N1 & N2 & N3 & N4 & N5). split; [done|].
    split; [by apply alter_None|]. do 2 (split; [done|]). apply insert_None; [lia|done].
Qed.

(** ** Checking the invariant by evaluation *)

Definition members_b {A} (l : list positive) (m : gmap positive A) (owner : A → positive)
    (device : positive) : bool :=
  bool_decide (NoDup l) &&
  forallb (λ p, match m !! p with Some x => bool_decide (owner x = device) | None => false end) l &&
  forallb (λ kv, negb (bool_decide (owner kv.2 = device)) || bool_decide (kv.1 ∈ l)) (map_to_list m).

Definition all_b {A} (f : positive → A → bool) (m : gmap positive A) : bool :=
  forallb (λ kv, f kv.1 kv.2) (map_to_list m).

Definition buf_b (path : string) (len : Z) : bool :=
  (len =? strlen path + MAX_BUF_LEN) && match after_last slash path with Some _ => true | None => false end.

Definition tree_b (h : heap) : bool :=
  let old {A} (p : positive) (_ : A) := (p <? h_next h)%positive in
  let hung p path len :=
    match h_devices h !! p with Some _ => buf_b path len | None => false end in
  all_b (λ c x, members_b (c_devices x) (h_devices h) d_ctx c && old c x) (h_ctxs h) &&
  all_b (λ d x, match h_ctxs h !! d_ctx x with Some _ => true | None => false end &&
                members_b (d_groups x) (h_groups h) g_device d &&
                members_b (d_wqs x) (h_wqs h) w_device d &&
                members_b (d_engines x) (h_engines h) e_device d && old d x) (h_devices h) &&
  all_b (λ p x, hung (g_device x) (g_group_path x) (g_buf_len x) && old p x) (h_groups h) &&
  all_b (λ p x, hung (w_device x) (w_wq_path x) (w_buf_len x) && old p x) (h_wqs h) &&
  all_b (λ p x, hung (e_device x) (e_engine_path x) (e_buf_len x) && old p x) (h_engines h).

Lemma all_b_spec {A} f (m : gmap positive A) p x : all_b f m = true → m !! p = Some x → f p x = true.
Proof.
  unfold all_b. rewrite forallb_forall. intros Hf Hp.
  apply (Hf (p, x)), list_elem_of_In, elem_of_map_to_list, Hp.
Qed.

Lemma members_b_spec {A} l (m : gmap positive A) owner d :
  members_b l m owner d = true → members l m owner d.
Proof.
  unfold members_b. rewrite !andb_true_iff, !forallb_forall. intros [[Hnd Hl] Hm].
  split; [by eapply bool_decide_eq_true|]. intros p. split.
  - intros Hp%list_elem_of_In. specialize (Hl p Hp). destruct (m !! p) as [x|]; [|done].
    apply bool_decide_eq_true in Hl. eauto.
  - intros (x & Hx & Ho). specialize (Hm (p, x)). simpl in Hm.
    apply (bool_decide_eq_true (p ∈ l)). rewrite (bool_decide_eq_true_2 _ Ho) in Hm. apply Hm.
    by apply list_elem_of_In, elem_of_map_to_list.
Qed.

Lemma buf_b_spec path len : buf_b path len = true → buf_ok path len.
Proof.
  unfold buf_b, buf_ok. rewrite andb_true_iff. intros [Hl%Z.eqb_eq Hp].
  split; [done|]. destruct (after_last slash path); [eauto|done].
Qed.

Lemma old_None {A} f (m : gmap positive A) n p :
  (∀ q x, f q x = true → (q < n)%positive) → all_b f m = true → (n <= p)%positive → m !! p = None.
Proof.
  intros Hf Hm Hp. destruct (m !! p) as [x|] eqn:Hx; [|done].
  apply (all_b_spec _ _ _ _ Hm), Hf in Hx. lia.
Qed.

Lemma hung_spec {A} (m : gmap positive A) p path len b :
  match m !! p with Some _ => buf_b path len | None => false end && b = true →
  is_Some (m !! p) ∧ buf_ok path len.
Proof.
  rewrite andb_true_iff. intros [Hm _]. destruct (m !! p); [|done]. split; [done|by apply buf_b_spec].
Qed.

Lemma tree_b_spec h : tree_b h = true → tree_ok h.
Proof.
  unfold tree_b. rewrite !andb_true_iff. intros ((((Hc & Hd) & Hg) & Hw) & He). split.
  - intros c x Hx. pose proof (all_b_spec _ _ _ _ Hc Hx) as Hb. apply andb_true_iff in Hb as [Hb _].
    by apply members_b_spec.
  - intros d x Hx. pose proof (all_b_spec _ _ _ _ Hd Hx) as Hb. simpl in Hb.
    rewrite !andb_true_iff in Hb. destruct Hb as ((((H1 & H2) & H3) & H4) & _).
    split; [by destruct (h_ctxs h !! d_ctx x)|]. by split; [|split]; apply members_b_spec.
  - intros p x Hx. eapply hung_spec, (all_b_spec _ _ _ _ Hg Hx).
  - intros p x Hx. eapply hung_spec, (all_b_spec _ _ _ _ Hw Hx).
  - intros p x Hx. eapply hung_spec, (all_b_spec _ _ _ _ He Hx).
  - intros p Hp. split; [|split; [|split; [|split]]]; eapply old_None; eauto;
      intros q x; rewrite !andb_true_iff; intros Hb; apply Pos.ltb_lt; apply Hb.
Qed.

Lemma demo_tree_ok : tree_ok (hp demo_world).
Proof. apply tree_b_spec. vm_compute. reflexivity. Qed.
