(* ===== verification/TreeInit.v ===== *)
(** * libaccfg.c: building the tree, and looking objects up in it

    A small Hoare logic on the library's memory, the invariant [tree_ok] kept by
    the callbacks that add objects and by the initialisation on first use, and
    what a look-up by identifier answers. *)

From S2P Require Import Prelude CString Prog Types SimKernel Sysfs Param Tree Demo.
From S2P Require Import SysfsFacts ParamFacts TreeFacts.
Local Open Scope string_scope.
Local Open Scope Z_scope.

#[export] Instance os_hp F : OsFrame (on (hp (F := F))).
Proof. split; [apply _|done..]. Qed.
#[export] Instance fd_hp F : FdFrame (on (hp (F := F))).
Proof. done. Qed.
#[export] Instance tr_hp F : TrFrame (on (hp (F := F))).
Proof. done. Qed.

(** ** Triples on the heap *)

(** From a heap in [P] the run ends, with a result and a heap in [Q]; [flt]
    says whether it may instead reach undefined behaviour. *)
Definition tri {F A} (flt : Prop) (P : heap → Prop) (m : prog (world F) A)
    (Q : A → heap → Prop) : Prop :=
  ∀ w, P (hp w) →
    match m w with Done a w' => Q a (hp w') | Exited _ _ => False | Fault => flt end.

Section triples.
Context {F : Type} (flt : Prop).
Notation M := (prog (world F)).
Implicit Types P : heap → Prop.

Lemma tri_ret {A} P (a : A) Q : (∀ h, P h → Q a h) → tri (F := F) flt P (mret a) Q.
Proof. intros HQ w. apply HQ. Qed.

Lemma tri_bind {A B} P R (m : M A) (k : A → M B) Q :
  tri flt P m R → (∀ a, tri flt (R a) (k a) Q) → tri flt P (m ≫= k) Q.
Proof.
  intros Hm Hk w HP. specialize (Hm w HP). unfold mbind, prog_bind.
  destruct (m w) as [a w'| |]; [|done..]. by apply Hk.
Qed.

Lemma tri_pre {A} P P' (m : M A) Q : (∀ h, P h → P' h) → tri flt P' m Q → tri flt P m Q.
Proof. intros HP Hm w Hw. by apply Hm, HP. Qed.

Lemma tri_post {A} P (m : M A) Q Q' :
  (∀ a h, Q a h → Q' a h) → tri flt P m Q → tri flt P m Q'.
Proof. intros HQ Hm w Hw. specialize (Hm w Hw). destruct (m w); auto. Qed.

Lemma tri_fst {A} P I (R : A → heap → Prop) (m : M A) :
  tri flt P m (λ a h, I h ∧ R a h) → tri flt P m (λ _, I).
Proof. apply tri_post. by intros a h []. Qed.

Lemma tri_know {A} (φ : Prop) P (m : M A) Q :
  (∀ h, P h → φ) → (φ → tri flt P m Q) → tri flt P m Q.
Proof. intros Hφ Hm w HP. apply Hm; [by eapply Hφ|done]. Qed.

Lemma tri_pure {A} (φ : Prop) P (m : M A) Q :
  (φ → tri flt P m Q) → tri flt (λ h, φ ∧ P h) m Q.
Proof. intros Hm w [Hφ HP]. by apply Hm. Qed.

Lemma tri_ex {A B} (P : B → heap → Prop) (m : M A) Q :
  (∀ b, tri flt (P b) m Q) → tri flt (λ h, ∃ b, P b h) m Q.
Proof. intros Hm w [b HP]. by apply (Hm b). Qed.

Lemma tri_skip {A B} P (m : M A) (k : A → M B) Q :
  always m → respects (on hp) m → (∀ a, tri flt P (k a) Q) → tri flt P (m ≫= k) Q.
Proof.
  intros Hm Hr Hk. apply tri_bind with (λ _, P); [|done]. intros w HP.
  destruct (Hm w) as (a & w' & Hrun). rewrite Hrun. apply Hr in Hrun. unfold on in Hrun. by rewrite Hrun.
Qed.

Lemma tri_deref {A B} P (m : heap → gmap positive A) p (k : A → M B) Q :
  (∀ h, P h → is_Some (m h !! p)) →
  (∀ a, tri flt (λ h, m h !! p = Some a ∧ P h) (k a) Q) → tri flt P (deref m p ≫= k) Q.
Proof.
  intros HP Hk w Hw. destruct (HP _ Hw) as [a Ha].
  specialize (Hk a w (conj Ha Hw)). unfold deref, gets, mbind, prog_bind, must. by rewrite Ha.
Qed.

(** A dereference of an object that may be gone. *)
Lemma tri_deref_any {A B} P (m : heap → gmap positive A) p (k : A → M B) Q :
  flt → (∀ a, tri flt (λ h, m h !! p = Some a ∧ P h) (k a) Q) →
  tri flt P (deref m p ≫= k) Q.
Proof.
  intros Hflt Hk w Hw. unfold deref, gets, mbind, prog_bind, must.
  destruct (m (hp w) !! p) as [a|] eqn:Ha; [|done]. by apply (Hk a).
Qed.

Lemma tri_must {A B} P (o : option A) (k : A → M B) Q :
  (o = None → flt) → (∀ a, tri flt P (k a) Q) → tri flt P (must o ≫= k) Q.
Proof.
  intros Ho Hk. destruct o as [a|]; [exact (Hk a)|]. intros w _. by apply Ho.
Qed.

Lemma tri_on_heap P g Q : (∀ h, P h → Q () (g h)) → tri (F := F) flt P (on_heap g) Q.
Proof. intros HQ w HP. apply HQ, HP. Qed.

Lemma tri_on_heap_bind {B} P g (k : unit → M B) Q :
  tri flt (λ h, ∃ h0, P h0 ∧ h = g h0) (k ()) Q → tri flt P (on_heap g ≫= k) Q.
Proof.
  intros Hk. apply tri_bind with (λ _ h, ∃ h0, P h0 ∧ h = g h0); [|intros []; exact Hk].
  apply tri_on_heap. eauto.
Qed.

Lemma tri_for_each {A} P (l : list A) (body : A → M unit) :
  (∀ a, a ∈ l → tri flt P (body a) (λ _, P)) → tri flt P (for_each l body) (λ _, P).
Proof.
  induction l as [|a l IH]; intros Hb; simpl; [by apply tri_ret|].
  apply tri_bind with (λ _, P); [apply Hb; by left|]. intros _. apply IH. intros b Hbl. apply Hb. by right.
Qed.
End triples.

(** Binds of calls that leave the heap alone are stepped over, [strdup] apart. *)
Ltac skip := repeat (first
  [ lazymatch goal with |- tri _ _ (strdup _ ≫= _) _ => fail | _ => idtac end; apply tri_skip; [solve [always]|solve [frame]|intros ?]
  | match goal with |- tri _ _ (let _ := _ in _) _ => cbv zeta end ]).

Section calls.
Context {F : Type} `{Kernel F}.
Notation M := (prog (world F)).

Lemma r_get_int (R : relation (world F)) `{!OsFrame R, !FdFrame R} dfd name : respects R (get_int dfd name).
Proof. unfold get_int. frame. Qed.
Lemma r_get_uint (R : relation (world F)) `{!OsFrame R, !FdFrame R} dfd name : respects R (get_uint dfd name).
Proof. unfold get_uint. frame. Qed.
Lemma a_get_int dfd name : always (get_int dfd name).
Proof. unfold get_int. always. Qed.
Lemma a_get_uint dfd name : always (get_uint dfd name).
Proof. unfold get_uint. always. Qed.
End calls.
#[export] Hint Resolve r_get_int r_get_uint : frame.
#[export] Hint Resolve a_get_int a_get_uint : always.

(** ** Steps on objects *)

Section steps.
Context {F : Type} `{Kernel F} (flt : Prop).
Notation M := (prog (world F)).
Implicit Types P : heap → Prop.

(** [calloc] of an object, in a tree. *)
Lemma tri_fresh {B} P (k : option positive → M B) Q :
  (∀ h, P h → tree_ok h) →
  (∀ h, P h → P (h <| h_next ::= Pos.succ |>)) →
  tri flt P (k None) Q →
  (∀ p, tri flt (λ h, unused p h ∧ P h) (k (Some p)) Q) →
  tri flt P (fresh ≫= k) Q.
Proof.
  intros Htree HP Hnone Hsome w Hw. pose proof (a_alloc w) as (ok & w1 & Ha).
  pose proof (r_alloc (on hp) _ _ _ Ha) as Hh. unfold on in Hh.
  assert (fresh w = (if ok : bool then
    Done (Some (h_next (hp w))) (w1 <| hp ::= λ h, h <| h_next ::= Pos.succ |> |>)
    else Done None w1)) as Hf.
  { unfold fresh, mbind, prog_bind. rewrite Ha. destruct ok; [|done].
    unfold on_heap, gets, modify, mret, prog_ret. by rewrite Hh. }
  unfold mbind, prog_bind. rewrite Hf. destruct ok; [|apply Hnone; by rewrite Hh].
  apply Hsome. simpl. rewrite Hh. split; [by apply tree_bump, Htree|by apply HP].
Qed.

Lemma tri_upd_ctx {B} P p f (k : unit → M B) Q :
  (∀ h, P h → is_Some (h_ctxs h !! p)) →
  tri flt (λ h, ∃ h0, P h0 ∧ h = h0 <| h_ctxs ::= alter f p |>) (k ()) Q →
  tri flt P (upd_ctx p f ≫= k) Q.
Proof.
  intros Hp Hk. apply tri_bind with (λ _ h, ∃ h0, P h0 ∧ h = h0 <| h_ctxs ::= alter f p |>);
    [|intros []; exact Hk].
  apply tri_deref; [exact Hp|]. intros a. apply tri_on_heap. intros h [_ HP]. eauto.
Qed.

Lemma tri_upd_device {B} P p f (k : unit → M B) Q :
  (∀ h, P h → is_Some (h_devices h !! p)) →
  tri flt (λ h, ∃ h0, P h0 ∧ h = h0 <| h_devices ::= alter f p |>) (k ()) Q →
  tri flt P (upd_device p f ≫= k) Q.
Proof.
  intros Hp Hk. apply tri_bind with (λ _ h, ∃ h0, P h0 ∧ h = h0 <| h_devices ::= alter f p |>);
    [|intros []; exact Hk].
  apply tri_deref; [exact Hp|]. intros a. apply tri_on_heap. intros h [_ HP]. eauto.
Qed.
End steps.

(** ** Adding one object *)

(** [path] names an entry of a directory. *)
Definition entry_path (path : string) : Prop := ∃ name, after_last slash path = Some name.

(** The heap is a tree and the object a callback adds to is there. *)
Definition at_device (device : positive) (h : heap) : Prop :=
  tree_ok h ∧ is_Some (h_devices h !! device).
Definition at_ctx (ctx : positive) (h : heap) : Prop := tree_ok h ∧ is_Some (h_ctxs h !! ctx).

Lemma at_device_bump device h : at_device device h → at_device device (h <| h_next ::= Pos.succ |>).
Proof. intros [Ht Hd]. split; [by apply tree_bump|done]. Qed.
Lemma at_ctx_bump ctx h : at_ctx ctx h → at_ctx ctx (h <| h_next ::= Pos.succ |>).
Proof. intros [Ht Hd]. split; [by apply tree_bump|done]. Qed.

(** The outcome of a callback: the object it returns, if any, is there. *)
Definition added {A} (m : heap → gmap positive A) (r : option positive) (h : heap) : Prop :=
  match r with Some p => is_Some (m h !! p) | None => True end.

Section adding.
Context {F : Type} `{Kernel F} (flt : Prop).
Notation M := (prog (world F)).

Lemma link_wq_tri device wq w :
  w_device w = device → buf_ok (w_wq_path w) (w_buf_len w) →
  tri (F := F) flt (λ h, unused wq h ∧ at_device device h)
    (on_heap (λ h, h <| h_wqs ::= insert wq w |>);;
     upd_device device (λ d, d <| d_wqs ::= list_add_tail wq |>);; mret (Some wq))
    (λ r h, at_device device h ∧ added h_wqs r h).
Proof.
  intros Hown Hbuf. apply tri_on_heap_bind, tri_upd_device.
  { intros h (h0 & (_ & _ & Hd) & ->). done. }
  apply tri_ret. intros h (h1 & (h0 & (Hu & Ht & Hd) & ->) & ->).
  split; [split|]; simpl.
  - by apply (tree_link_wq device wq w h0).
  - by apply alter_is_Some.
  - by rewrite lookup_insert_eq.
Qed.

Lemma link_group_tri device group g :
  g_device g = device → buf_ok (g_group_path g) (g_buf_len g) →
  tri (F := F) flt (λ h, unused group h ∧ at_device device h)
    (on_heap (λ h, h <| h_groups ::= insert group g |>);;
     upd_device device (λ d, d <| d_groups ::= list_add_tail group |>);; mret (Some group))
    (λ r h, at_device device h ∧ added h_groups r h).
Proof.
  intros Hown Hbuf. apply tri_on_heap_bind, tri_upd_device.
  { intros h (h0 & (_ & _ & Hd) & ->). done. }
  apply tri_ret. intros h (h1 & (h0 & (Hu & Ht & Hd) & ->) & ->).
  split; [split|]; simpl.
  - by apply (tree_link_group device group g h0).
  - by apply alter_is_Some.
  - by rewrite lookup_insert_eq.
Qed.

Lemma link_engine_tri device engine e :
  e_device e = device → buf_ok (e_engine_path e) (e_buf_len e) →
  tri (F := F) flt (λ h, unused engine h ∧ at_device device h)
    (on_heap (λ h, h <| h_engines ::= insert engine e |>);;
     upd_device device (λ d, d <| d_engines ::= list_add_tail engine |>);; mret (Some engine))
    (λ r h, at_device device h ∧ added h_engines r h).
Proof.
  intros Hown Hbuf. apply tri_on_heap_bind, tri_upd_device.
  { intros h (h0 & (_ & _ & Hd) & ->). done. }
  apply tri_ret. intros h (h1 & (h0 & (Hu & Ht & Hd) & ->) & ->).
  split; [split|]; simpl.
  - by apply (tree_link_engine device engine e h0).
  - by apply alter_is_Some.
  - by rewrite lookup_insert_eq.
Qed.

Lemma link_device_tri ctx device d :
  d_ctx d = ctx → d_groups d = [] → d_wqs d = [] → d_engines d = [] →
  tri (F := F) flt (λ h, unused device h ∧ at_ctx ctx h)
    (on_heap (λ h, h <| h_devices ::= insert device d |>);;
     upd_ctx ctx (λ c, c <| c_devices ::= list_add_tail device |>);; mret (Some device))
    (λ r h, at_ctx ctx h ∧ added h_devices r h).
Proof.
  intros Hown Hg Hw He. apply tri_on_heap_bind, tri_upd_ctx.
  { intros h (h0 & (_ & _ & Hd) & ->). done. }
  apply tri_ret. intros h (h1 & (h0 & (Hu & Ht & Hd) & ->) & ->).
  split; [split|]; simpl.
  - by apply (tree_link_device ctx device d h0).
  - by apply alter_is_Some.
  - by rewrite lookup_insert_eq.
Qed.

(** A call that gives up: no object, the tree as it was. *)
Lemma tri_none {A} P I (m : heap → gmap positive A) :
  (∀ h, P h → I h) → tri (F := F) flt P (mret None) (λ r h, I h ∧ added m r h).
Proof. intros HP. apply tri_ret. intros h Hh. split; [by apply HP|done]. Qed.
End adding.

(** The test after an allocation: the failing branch gives up. *)
Ltac allocated :=
  match goal with |- context [if negb ?x then _ else _] => destruct x; simpl end;
  [|apply tri_none; tauto].

Section callbacks.
Context {F : Type} `{Kernel F}.
Notation M := (prog (world F)).

(** A copy of a string is that string. *)
Lemma tri_strdup {B} flt P s (k : option string → M B) Q :
  tri flt P (k None) Q → tri flt P (k (Some s)) Q → tri flt P (strdup s ≫= k) Q.
Proof.
  intros Hn Hs. unfold strdup. apply tri_bind with (λ r h, (r = None ∨ r = Some s) ∧ P h).
  - skip. apply tri_ret. intros h HP. destruct a; auto.
  - intros r. apply tri_pure. by intros [-> | ->].
Qed.

Lemma add_group_tri flt device id path pfx bus :
  entry_path path →
  tri (F := F) flt (at_device device) (add_group (Some device) id path pfx bus)
    (λ r h, at_device device h ∧ added h_groups r h).
Proof.
  intros Hpath. unfold add_group.
  apply tri_deref; [by intros h [_ Hd]|]. intros d. eapply tri_pre; [by intros h [_ Hh]; exact Hh|].
  skip. destruct a as [dfd|]; [|by apply tri_none].
  apply tri_fresh; [by intros h []|by apply at_device_bump|skip; by apply tri_none|]. intros group.
  apply tri_strdup; [skip; apply tri_none; tauto|].
  destruct (sscanf_pair _ _) as [[device_id group_id]|]; [|skip; apply tri_none; tauto].
  apply tri_upd_device; [by intros h (_ & _ & Hd)|].
  eapply tri_pre with (λ h, unused group h ∧ at_device device h).
  { intros h (h0 & ((Hlt & Hc & Hd & Hrest) & Ht & HD) & ->). split; [|split].
    - split; [done|]. split; [done|]. split; [by apply alter_None|done].
    - by apply tree_alter_device.
    - by apply alter_is_Some. }
  skip. allocated.
  apply tri_strdup; [apply tri_none; tauto|]. by apply link_group_tri.
Qed.

Lemma add_engine_tri flt device id path pfx bus :
  entry_path path →
  tri (F := F) flt (at_device device) (add_engine (Some device) id path pfx bus)
    (λ r h, at_device device h ∧ added h_engines r h).
Proof.
  intros Hpath. unfold add_engine.
  apply tri_deref; [by intros h [_ Hd]|]. intros d. eapply tri_pre; [by intros h [_ Hh]; exact Hh|].
  skip. destruct a as [dfd|]; [|by apply tri_none].
  apply tri_fresh; [by intros h []|by apply at_device_bump|skip; by apply tri_none|]. intros engine.
  apply tri_strdup; [skip; apply tri_none; tauto|].
  destruct (sscanf_pair _ _) as [[device_id engine_id]|]; [|skip; apply tri_none; tauto].
  skip. apply tri_strdup; [apply tri_none; tauto|].
  skip. allocated. by apply link_engine_tri.
Qed.

Lemma tri_parse_type {B} (flt : Prop) P type (k : Z + accfg_wq_type → M B) Q :
  flt → (∀ t, tri flt P (k t) Q) → tri flt P (wq_parse_type type ≫= k) Q.
Proof.
  intros Hflt Hk. apply tri_bind with (λ _, P); [|done]. unfold wq_parse_type.
  apply tri_must; [done|]. intros s. apply tri_strdup; [by apply tri_ret|].
  by destruct (strtok_colon s); apply tri_ret.
Qed.

(** Adding a work queue dereferences the text of its type, readable or not. *)
Lemma add_wq_tri (flt : Prop) device id path pfx bus :
  flt → entry_path path →
  tri (F := F) flt (at_device device) (add_wq (Some device) id path pfx bus)
    (λ r h, at_device device h ∧ added h_wqs r h).
Proof.
  intros Hflt Hpath. unfold add_wq.
  apply tri_deref; [by intros h [_ Hd]|]. intros d. eapply tri_pre; [by intros h [_ Hh]; exact Hh|].
  skip. destruct a as [dfd|]; [|by apply tri_none].
  apply tri_fresh; [by intros h []|by apply at_device_bump|skip; by apply tri_none|]. intros wq.
  apply tri_strdup; [skip; apply tri_none; tauto|].
  destruct (sscanf_pair _ _) as [[device_id wq_id]|]; [|skip; apply tri_none; tauto].
  skip. apply tri_parse_type; [done|]. intros t.
  skip. apply tri_strdup; [apply tri_none; tauto|].
  skip. allocated. by apply link_wq_tri.
Qed.

Lemma device_parse_type_lists d :
  d_ctx (device_parse_type d).2 = d_ctx d ∧ d_groups (device_parse_type d).2 = d_groups d ∧
  d_wqs (device_parse_type d).2 = d_wqs d ∧ d_engines (device_parse_type d).2 = d_engines d.
Proof. unfold device_parse_type. by destruct (parse_type_from _ _ _ _) as [[]|]. Qed.

Lemma add_device_tri flt ctx id path pfx bus :
  tri (F := F) flt (at_ctx ctx) (add_device ctx id path pfx bus)
    (λ r h, at_ctx ctx h ∧ added h_devices r h).
Proof.
  unfold add_device. skip. destruct a as [dfd|]; [|by apply tri_none]. skip.
  apply tri_skip; [apply always_modify|apply respects_modify; done|]. intros _.
  apply tri_fresh; [by intros h []|by apply at_ctx_bump|skip; by apply tri_none|]. intros device.
  skip. match goal with |- context [match ?x with Some _ => _ | None => _ end] => destruct x end;
    [|apply tri_none; tauto].
  skip. allocated.
  match goal with |- context [device_parse_type ?x] =>
    pose proof (device_parse_type_lists x) as Hl; destruct (device_parse_type x) as [rc d] end.
  destruct (rc <? 0); [apply tri_none; tauto|]. destruct Hl as (H1 & H2 & H3 & H4).
  by apply link_device_tri.
Qed.
End callbacks.

(** ** Enumerating, and initialising on first use *)

Lemma after_last_entry dir name : entry_path (dir +:+ "/" +:+ name).
Proof.
  unfold entry_path. induction dir as [|c dir [t IH]].
  - change ("" +:+ "/" +:+ name) with (String slash name). simpl.
    destruct (after_last slash name); eauto.
  - rewrite append_cons. simpl. rewrite IH. eauto.
Qed.

Section enumerate.
Context {F : Type} `{Kernel F} (flt : Prop).
Notation M := (prog (world F)).

Lemma device_parse_tri I base pfx bus keep
    (add_dev : Z → string → string → string → M (option positive)) :
  (∀ id path, entry_path path → tri flt I (add_dev id path pfx bus) (λ _, I)) →
  tri flt I (device_parse base pfx bus keep add_dev) (λ _, I).
Proof.
  intros Hadd. unfold device_parse, __sysfs_device_parse. skip.
  apply tri_skip; [apply a_call|apply r_scandir; apply _|]. intros [names|]; [|by apply tri_ret].
  generalize 0. induction (base.filter _ names) as [|n d IH]; intros errs; simpl; [by apply tri_ret|].
  apply tri_bind with (λ _, I); [|intros [k|]; [apply IH|by apply tri_ret]].
  unfold device_parse_entry. destruct (sscanf_name_id n) as [rc id].
  destruct (rc <? 0); [by apply tri_ret|]. destruct (strchr_in n "!"); [by apply tri_ret|].
  skip. destruct a; [|by apply tri_ret].
  eapply tri_bind; [apply Hadd, after_last_entry|]. intros r. by apply tri_ret.
Qed.

Lemma set_filename_prefix_skip {B} P s (k : unit → M B) Q :
  tri flt P (k ()) Q → tri flt P (set_filename_prefix s ≫= k) Q.
Proof. intros Hk. eapply tri_skip; [apply always_modify|by apply respects_modify|by intros []]. Qed.

Lemma groups_init_tri device :
  tri flt (at_device device) (groups_init device) (λ _, at_device device).
Proof.
  unfold groups_init. apply tri_deref; [by intros h []|]. intros d.
  destruct (negb _); [apply tri_ret; tauto|].
  apply tri_upd_device; [by intros h (_ & _ & Hd)|]. apply set_filename_prefix_skip. skip.
  eapply tri_bind; [|intros z; apply tri_ret; intros h Hh; exact Hh].
  eapply tri_pre, device_parse_tri.
  - intros h (h0 & (_ & Ht & Hd) & ->).
    split; [by apply tree_alter_device|by apply alter_is_Some].
  - intros id path Hp. by eapply tri_fst, add_group_tri.
Qed.

(** [device->group], when it is set, is a group. *)
Definition group_alive (device : positive) (h : heap) : Prop :=
  ∀ d p, h_devices h !! device = Some d → d_group d = Some p → is_Some (h_groups h !! p).

(** The flag of the first group, which makes the second call do nothing. *)
Lemma once_tri device d (flag : accfg_group → Z) f :
  (∀ x, g_device (f x) = g_device x ∧ g_group_path (f x) = g_group_path x ∧
        g_buf_len (f x) = g_buf_len x) →
  tri flt (λ h, h_devices h !! device = Some d ∧ group_alive device h ∧ at_device device h)
    (match d_group d with
     | Some group =>
         g ← get_group group;
         if negb (flag g =? 0) then mret true else upd_group group f;; mret false
     | None => mret false
     end : M bool) (λ _, at_device device).
Proof.
  intros Hf. destruct (d_group d) as [p|] eqn:Hp; [|apply tri_ret; by intros h (_ & _ & Hh)].
  apply tri_deref; [intros h (Hd & Ha & _); by apply (Ha d)|]. intros g.
  destruct (negb _); [apply tri_ret; by intros h (_ & _ & _ & Hh)|].
  eapply tri_bind with (λ _, at_device device); [|intros []; by apply tri_ret].
  apply tri_deref; [intros h [Hg _]; by rewrite Hg|]. intros g'. apply tri_on_heap.
  intros h (_ & _ & _ & _ & Ht & Hd). split; [by apply tree_alter_group|done].
Qed.

Lemma engines_init_tri device :
  tri flt (λ h, group_alive device h ∧ at_device device h) (engines_init device)
    (λ _, at_device device).
Proof.
  unfold engines_init. apply tri_deref; [by intros h (_ & _ & Hd)|]. intros d.
  apply tri_bind with (λ _, at_device device); [by apply once_tri|].
  intros []; [by apply tri_ret|]. apply set_filename_prefix_skip. skip.
  eapply tri_bind with (λ _, at_device device); [|intros z; by apply tri_ret].
  apply device_parse_tri. intros id path Hpath. by eapply tri_fst, add_engine_tri.
Qed.

Lemma wqs_init_tri device :
  flt →
  tri flt (λ h, group_alive device h ∧ at_device device h) (wqs_init device)
    (λ _, at_device device).
Proof.
  intros Hflt. unfold wqs_init. apply tri_deref; [by intros h (_ & _ & Hd)|]. intros d.
  apply tri_bind with (λ _, at_device device); [by apply once_tri|].
  intros []; [by apply tri_ret|]. apply set_filename_prefix_skip. skip.
  eapply tri_bind with (λ _, at_device device); [|intros z; by apply tri_ret].
  apply device_parse_tri. intros id path Hpath. by eapply tri_fst, add_wq_tri.
Qed.
End enumerate.

(** ** Walking a list *)

Lemma list_next_mid l1 p l2 : NoDup (l1 ++ p :: l2)%list → list_next (l1 ++ p :: l2)%list p = head l2.
Proof.
  induction l1 as [|q l1 IH]; simpl; [by rewrite decide_True|].
  intros [Hq Hnd]%NoDup_cons. rewrite decide_False; [by apply IH|].
  intros ->. apply Hq, elem_of_app. right. by left.
Qed.

Section walk.
Context {F : Type}.
Notation M := (prog (world F)).

(** A walk with a body that keeps an invariant ends: one step per element. *)
Lemma foreach_tri {A} flt (I : heap → Prop) l next (body : positive → M (option A)) :
  NoDup l →
  (∀ p, p ∈ l → tri flt I (body p) (λ _, I)) →
  (∀ p, p ∈ l → tri flt I (next p) (λ r h, r = list_next l p ∧ I h)) →
  tri flt I (foreach (S (length l)) (list_top l) next body) (λ _, I).
Proof.
  intros Hnd Hbody Hnext.
  enough (∀ (l2 l1 : list positive), l = (l1 ++ l2)%list →
    tri flt I (foreach (S (length l2)) (list_top l2) next body) (λ _, I)) as Hw by by apply (Hw l []).
  induction l2 as [|p l2 IH]; intros l1 ->; [by apply tri_ret|].
  assert (p ∈ (l1 ++ p :: l2)%list) as Hp by (apply elem_of_app; right; by left).
  change (foreach (S (length (p :: l2))) (list_top (p :: l2)) next body) with
    (r ← body p; match r with
                 | Some a => mret (Some a)
                 | None => y ← next p; foreach (S (length l2)) y next body
                 end).
  apply tri_bind with (λ _, I); [by apply Hbody|]. intros [a|]; [by apply tri_ret|].
  apply tri_bind with (λ r h, r = list_next (l1 ++ p :: l2)%list p ∧ I h); [by apply Hnext|].
  intros y. apply tri_pure. intros ->. rewrite list_next_mid by done.
  apply (IH (l1 ++ [p])%list). by rewrite <- (assoc app).
Qed.

(** A search with a test that only reads answers the first element that passes. *)
Lemma foreach_find (w : world F) l next (f : positive → bool) body :
  NoDup l →
  (∀ p, p ∈ l → body p w = Done (found (f p) p) w) →
  (∀ p, p ∈ l → next p w = Done (list_next l p) w) →
  foreach (S (length l)) (list_top l) next body w = Done (List.find f l) w.
Proof.
  intros Hnd Hbody Hnext.
  enough (∀ (l2 l1 : list positive), l = (l1 ++ l2)%list →
    foreach (S (length l2)) (list_top l2) next body w = Done (List.find f l2) w) as Hw
    by by apply (Hw l []).
  induction l2 as [|p l2 IH]; intros l1 ->; [done|].
  assert (p ∈ (l1 ++ p :: l2)%list) as Hp by (apply elem_of_app; right; by left).
  change (foreach (S (length (p :: l2))) (list_top (p :: l2)) next body) with
    (r ← body p; match r with
                 | Some a => mret (Some a)
                 | None => y ← next p; foreach (S (length l2)) y next body
                 end).
  unfold mbind, prog_bind. rewrite Hbody by done. simpl List.find. destruct (f p); [done|]. unfold found. cbv beta iota.
  rewrite Hnext, list_next_mid by done. apply (IH (l1 ++ [p])%list). by rewrite <- (assoc app).
Qed.
End walk.

(** ** The devices of a context *)

(** The contexts are the same. *)
Definition ctxs {F} (w : world F) : gmap positive accfg_ctx := h_ctxs (hp w).
#[export] Instance os_ctxs F : OsFrame (on (ctxs (F := F))).
Proof. split; [apply _|done..]. Qed.
#[export] Instance fd_ctxs F : FdFrame (on (ctxs (F := F))).
Proof. done. Qed.
#[export] Instance tr_ctxs F : TrFrame (on (ctxs (F := F))).
Proof. done. Qed.

Lemma tri_wp {F A} P (m : prog (world F) A) Q w :
  tri False P m Q → P (hp w) → wp m (λ a w', Q a (hp w')) w.
Proof. intros Hm HP. specialize (Hm w HP). unfold wp. by destruct (m w). Qed.

(** The two halves of [devices_init]: every device of every bus, then the groups of each. *)
Definition find_devices {F} `{Kernel F} (ctx : positive) : prog (world F) unit :=
  for_each accfg_bus_types (λ bus_type,
    sprintf_buf PATH_MAX ("/sys/bus/" +:+ bus_type +:+ "/devices")%string;;
    for_each accfg_basenames (λ accel_name,
      set_filename_prefix accel_name;;
      pfx ← gets filename_prefix;
      device_parse ("/sys/bus/" +:+ bus_type +:+ "/devices")%string accel_name bus_type
        (filter_file_name_prefix pfx) (add_device ctx);;
      mret ())).
Lemma devices_init_eq {F} `{Kernel F} ctx :
  devices_init (F := F) ctx = (c ← get_ctx ctx;
    if negb (c_devices_init c =? 0) then mret ()
    else
      upd_ctx ctx (λ c, c <| c_devices_init := 1 |>);;
      find_devices ctx;;
      c ← get_ctx ctx;
      foreach (S (length (c_devices c))) (list_top (c_devices c)) accfg_device_get_next
        (λ device, groups_init device;; mret (@None unit));;
      mret ()).
Proof. done. Qed.

Section devices.
Context {F : Type} `{Kernel F}.
Notation M := (prog (world F)).

Lemma ctxs_upd_device p f : respects (on ctxs) (upd_device (F := F) p f).
Proof. unfold upd_device, on_heap. frame. by apply respects_modify. Qed.
#[local] Hint Resolve ctxs_upd_device : frame.
Lemma ctxs_fresh : respects (on ctxs) (fresh (F := F)).
Proof. unfold fresh, on_heap. frame. by apply respects_modify. Qed.
#[local] Hint Resolve ctxs_fresh : frame.
Lemma ctxs_add_group parent id path pfx bus : respects (on ctxs) (add_group (F := F) parent id path pfx bus).
Proof. unfold add_group, on_heap. frame. by apply respects_modify. Qed.
#[local] Hint Resolve ctxs_add_group : frame.

Lemma r_device_parse (R : relation (world F)) `{!OsFrame R} base pfx bus keep
    (add_dev : Z → string → string → string → M (option positive)) :
  (∀ id path, respects R (add_dev id path pfx bus)) →
  respects R (device_parse base pfx bus keep add_dev).
Proof.
  intros Hadd. unfold device_parse, __sysfs_device_parse. frame.
  generalize 0. induction (base.filter _ _) as [|n d IH]; intros errs; simpl; [frame|].
  unfold device_parse_entry. frame.
Qed.

Lemma ctxs_groups_init device : respects (on ctxs) (groups_init (F := F) device).
Proof.
  unfold groups_init, set_filename_prefix. frame; [by apply respects_modify|].
  apply r_device_parse; [apply _|frame].
Qed.

Definition devices_are (ctx : positive) (l : list positive) (h : heap) : Prop :=
  at_ctx ctx h ∧ ∃ c, h_ctxs h !! ctx = Some c ∧ c_devices c = l.

Lemma devices_are_device ctx l h p :
  devices_are ctx l h → p ∈ l → ∃ d, h_devices h !! p = Some d ∧ d_ctx d = ctx.
Proof. intros ([Ht _] & c & Hc & <-) Hp. by apply (ok_ctx _ Ht ctx c Hc). Qed.

Lemma groups_init_devices flt ctx l p :
  p ∈ l → tri flt (devices_are ctx l) (groups_init p) (λ _, devices_are ctx l).
Proof.
  intros Hp w Hl. destruct (devices_are_device _ _ _ _ Hl Hp) as (d & Hd & _).
  pose proof (groups_init_tri flt p w) as Hg.
  pose proof (ctxs_groups_init p w) as Hc. destruct Hl as ([Ht [c0 Hx]] & c & Hcc & Hl).
  destruct (groups_init p w) as [u w'| |]; [|apply Hg; split; [done|by rewrite Hd]..].
  specialize (Hc u w' eq_refl). unfold on, ctxs in Hc.
  destruct Hg as [Ht' _]; [split; [done|by rewrite Hd]|].
  split; [split; [done|]|exists c]; by rewrite Hc.
Qed.

Lemma device_next_tri flt ctx l p :
  p ∈ l → tri (F := F) flt (devices_are ctx l) (accfg_device_get_next p)
    (λ r h, r = list_next l p ∧ devices_are ctx l h).
Proof.
  intros Hp w Hl. destruct (devices_are_device _ _ _ _ Hl Hp) as (d & Hd & Hctx).
  unfold accfg_device_get_next, get_device, get_ctx, deref, gets, mbind, prog_bind, must.
  rewrite Hd. cbn. rewrite Hctx. destruct Hl as (Hat & c & Hc & Hl). rewrite Hc. cbn.
  rewrite Hl. split; [done|]. split; [done|eauto].
Qed.

Lemma tri_sprintf {B} flt P cap s (k : Z → M B) Q :
  strlen s < cap → (∀ n, tri flt P (k n) Q) → tri flt P (sprintf_buf cap s ≫= k) Q.
Proof.
  intros Hs Hk. unfold sprintf_buf. destruct (Z.ltb_spec (strlen s) cap); [|lia].
  intros w HP. by apply Hk.
Qed.

Lemma find_devices_tri flt ctx : tri flt (at_ctx ctx) (find_devices ctx) (λ _, at_ctx ctx).
Proof.
  unfold find_devices. apply tri_for_each. intros bus Hbus. apply tri_sprintf.
  { by apply list_elem_of_In in Hbus as [<-|[<-|[]]]. }
  intros _. apply tri_for_each. intros name _. apply set_filename_prefix_skip. skip.
  eapply tri_bind with (λ _, at_ctx ctx); [|intros z; by apply tri_ret].
  apply device_parse_tri. intros id path _. eapply tri_fst, add_device_tri.
Qed.

Lemma devices_init_tri flt ctx :
  tri flt (at_ctx ctx) (devices_init ctx) (λ _, at_ctx ctx).
Proof.
  rewrite devices_init_eq. apply tri_deref; [by intros h []|]. intros c.
  destruct (negb _); [apply tri_ret; by intros h [_ Hh]|].
  apply tri_upd_ctx; [by intros h (_ & _ & Hc)|].
  eapply tri_pre with (at_ctx ctx).
  { intros h (h0 & (_ & Ht & Hc) & ->). split; [by apply tree_alter_ctx|by apply alter_is_Some]. }
  eapply tri_bind; [apply find_devices_tri|]. intros []. apply tri_deref; [by intros h []|]. intros x.
  eapply tri_pre with (devices_are ctx (c_devices x)).
  { intros h [Hx Hh]. split; [done|eauto]. }
  apply (tri_know _ (NoDup (c_devices x))).
  { intros h ([Ht _] & y & Hy & <-). by apply (ok_ctx _ Ht ctx y). }
  intros Hnd. apply tri_bind with (λ _, devices_are ctx (c_devices x)); [|intros r; apply tri_ret; by intros h [Hh _]].
  apply (foreach_tri flt (devices_are ctx (c_devices x))); [done| |].
  - intros p Hp. eapply tri_bind; [by apply groups_init_devices|]. intros u. by apply tri_ret.
  - intros p Hp. by apply device_next_tri.
Qed.
End devices.

(** ** Claims *)

Section claims.
Context {F : Type} `{Kernel F}.
Notation M := (prog (world F)).

(** C7: Enumerating the devices of a context never reaches undefined behaviour and keeps the
    tree: whatever the directories and attributes hold and whatever allocation fails, afterwards
    every object is in exactly one list, its owner's, every owner is alive, and every path has a
    name and a buffer with room for any attribute below it. *)
Theorem devices_init_spec ctx (w : world F) :
  at_ctx ctx (hp w) → wp (devices_init ctx) (λ _ w', at_ctx ctx (hp w')) w.
Proof. intros Hat. exact (tri_wp _ _ _ w (devices_init_tri False ctx) Hat). Qed.

(** Looking the engines up for the first time keeps the tree and is free of undefined
    behaviour when [device->group], which it dereferences, is a group or NULL. *)
Theorem engines_init_spec device (w : world F) :
  at_device device (hp w) → group_alive device (hp w) →
  wp (engines_init device) (λ _ w', at_device device (hp w')) w.
Proof. intros Hd Hg. exact (tri_wp _ _ _ w (engines_init_tri False device) (conj Hg Hd)). Qed.

(** Looking the work queues up keeps the tree on every run that ends, and never ends the
    process; the other runs reach undefined behaviour, the NULL type of a queue whose attribute
    cannot be read (the first argument of [tri] allows it). *)
Theorem wqs_init_spec device :
  tri (F := F) True (λ h, at_device device h ∧ group_alive device h) (wqs_init device)
    (λ _, at_device device).
Proof. eapply tri_pre, (wqs_init_tri True device I). by intros h [Hd Hg]. Qed.

(** *** Look-ups *)

Definition group_has_id (h : heap) (id : Z) (p : positive) : bool :=
  match h_groups h !! p with Some g => g_id g =? id | None => false end.
Definition engine_has_id (h : heap) (id : Z) (p : positive) : bool :=
  match h_engines h !! p with Some e => e_id e =? id | None => false end.
Definition wq_has_id (h : heap) (id : Z) (p : positive) : bool :=
  match h_wqs h !! p with Some w => w_id w =? id | None => false end.
Definition device_has_id (h : heap) (id : Z) (p : positive) : bool :=
  match h_devices h !! p with Some d => s32 (d_id d) =? id | None => false end.

Lemma run_deref {A} (m : heap → gmap positive A) p a (w : world F) :
  m (hp w) !! p = Some a → deref m p w = Done a w.
Proof. intros Hp. unfold deref, gets, mbind, prog_bind, must. by rewrite Hp. Qed.


(** Looking a group up by its number always answers: the first group of the device, in the
    order they were found, that has the number, or NULL when none has, the groups being
    enumerated first; the tree is kept. *)
Theorem accfg_device_group_get_by_id_spec device id (w : world F) :
  at_device device (hp w) →
  wp (accfg_device_group_get_by_id device id)
    (λ r w', at_device device (hp w') ∧ ∃ d, h_devices (hp w') !! device = Some d ∧
       r = List.find (group_has_id (hp w') id) (d_groups d)) w.
Proof.
  intros Hat. unfold accfg_device_group_get_by_id, accfg_group_foreach, accfg_group_get_first.
  apply wp_bind, wp_bind. eapply wp_mono, (tri_wp _ _ _ w (groups_init_tri False device) Hat).
  intros _ w1 [Ht [d Hd]]. apply wp_bind. eapply wp_deref; [done|]. apply wp_ret, wp_bind.
  eapply wp_deref; [done|]. destruct (ok_device _ Ht _ _ Hd) as (_ & [Hnd Hm] & _).
  unfold wp. erewrite foreach_find with (f := group_has_id (hp w1) id); [|done|..].
  - split; [split; [done|by rewrite Hd]|eauto].
  - intros p (g & Hg & _)%Hm. unfold accfg_group_get_id, get_group, mbind, prog_bind, group_has_id.
    rewrite (run_deref _ _ _ _ Hg). by rewrite Hg.
  - intros p (g & Hg & Ho)%Hm. unfold accfg_group_get_next, get_group, get_device, mbind, prog_bind.
    rewrite (run_deref _ _ _ _ Hg), Ho. by rewrite (run_deref _ _ _ _ Hd).
Qed.

(** Looking an engine up by its number, the group of the device being a group or NULL, always
    answers the first engine of the device that has the number, or NULL, and keeps the tree. *)
Theorem accfg_device_engine_get_by_id_spec device id (w : world F) :
  at_device device (hp w) → group_alive device (hp w) →
  wp (accfg_device_engine_get_by_id device id)
    (λ r w', at_device device (hp w') ∧ ∃ d, h_devices (hp w') !! device = Some d ∧
       r = List.find (engine_has_id (hp w') id) (d_engines d)) w.
Proof.
  intros Hat Hg. unfold accfg_device_engine_get_by_id, accfg_engine_foreach, accfg_engine_get_first.
  apply wp_bind, wp_bind. eapply wp_mono, (tri_wp _ _ _ w (engines_init_tri False device) (conj Hg Hat)).
  intros _ w1 [Ht [d Hd]]. apply wp_bind. eapply wp_deref; [done|]. apply wp_ret, wp_bind.
  eapply wp_deref; [done|]. destruct (ok_device _ Ht _ _ Hd) as (_ & _ & _ & [Hnd Hm]).
  unfold wp. erewrite foreach_find with (f := engine_has_id (hp w1) id); [|done|..].
  - split; [split; [done|by rewrite Hd]|eauto].
  - intros p (e & He & _)%Hm. unfold accfg_engine_get_id, get_engine, mbind, prog_bind, engine_has_id.
    rewrite (run_deref _ _ _ _ He). by rewrite He.
  - intros p (e & He & Ho)%Hm. unfold accfg_engine_get_next, get_engine, get_device, mbind, prog_bind.
    rewrite (run_deref _ _ _ _ He), Ho. by rewrite (run_deref _ _ _ _ Hd).
Qed.

(** Looking a work queue up by its number on a device whose queues were read before reads
    nothing again: it leaves the world as it is and answers the first queue of the device that
    has the number, or NULL. *)
Theorem accfg_device_wq_get_by_id_spec device id d group g (w : world F) :
  tree_ok (hp w) → h_devices (hp w) !! device = Some d → d_group d = Some group →
  h_groups (hp w) !! group = Some g → g_wqs_init g ≠ 0 →
  accfg_device_wq_get_by_id device id w =
  Done (List.find (wq_has_id (hp w) id) (d_wqs d)) w.
Proof.
  intros Ht Hd Hdg Hg Hinit.
  unfold accfg_device_wq_get_by_id, accfg_wq_foreach, accfg_wq_get_first, wqs_init, mbind, prog_bind.
  unfold get_device, get_group. rewrite (run_deref _ _ _ _ Hd), Hdg, (run_deref _ _ _ _ Hg).
  destruct (Z.eqb_spec (g_wqs_init g) 0) as [|_]; [done|]. cbn [negb].
  unfold mret, prog_ret. rewrite !(run_deref _ _ _ _ Hd).
  destruct (ok_device _ Ht _ _ Hd) as (_ & _ & [Hnd Hm] & _).
  apply foreach_find; [done|..].
  - intros p (q & Hq & _)%Hm. unfold accfg_wq_get_id, get_wq, mbind, prog_bind, wq_has_id.
    rewrite (run_deref _ _ _ _ Hq). by rewrite Hq.
  - intros p (q & Hq & Ho)%Hm. unfold accfg_wq_get_next, get_wq, get_device, mbind, prog_bind.
    rewrite (run_deref _ _ _ _ Hq), Ho. by rewrite (run_deref _ _ _ _ Hd).
Qed.

(** Looking a device up by its number always answers: the first device of the context that
    has the number, or NULL, the devices and their groups being enumerated first; the tree is kept. *)
Theorem accfg_ctx_device_get_by_id_spec ctx id (w : world F) :
  at_ctx ctx (hp w) →
  wp (accfg_ctx_device_get_by_id ctx id)
    (λ r w', at_ctx ctx (hp w') ∧ ∃ c, h_ctxs (hp w') !! ctx = Some c ∧
       r = List.find (device_has_id (hp w') id) (c_devices c)) w.
Proof.
  intros Hat. unfold accfg_ctx_device_get_by_id, accfg_device_foreach, accfg_device_get_first.
  apply wp_bind, wp_bind. eapply wp_mono, (tri_wp _ _ _ w (devices_init_tri False ctx) Hat).
  intros _ w1 [Ht [c Hc]]. apply wp_bind. eapply wp_deref; [done|]. apply wp_ret, wp_bind.
  eapply wp_deref; [done|]. destruct (ok_ctx _ Ht _ _ Hc) as [Hnd Hm].
  unfold wp. erewrite foreach_find with (f := device_has_id (hp w1) id); [|done|..].
  - split; [split; [done|by rewrite Hc]|eauto].
  - intros p (d & Hd & _)%Hm. unfold accfg_device_get_id, get_device, mbind, prog_bind, device_has_id.
    rewrite (run_deref _ _ _ _ Hd). by rewrite Hd.
  - intros p (d & Hd & Ho)%Hm. unfold accfg_device_get_next, get_ctx, get_device, mbind, prog_bind.
    rewrite (run_deref _ _ _ _ Hd), Ho. by rewrite (run_deref _ _ _ _ Hc).
Qed.
End claims.

(** ** Instances *)

(** After [accfg_new], and after the devices and groups were enumerated too. *)
Definition new_world : world sim :=
  match accfg_new (sim_world demo_sim) with Done _ w => w | _ => sim_world demo_sim end.
Definition grouped_world : world sim :=
  match accfg_device_get_first 1 new_world with Done _ w => w | _ => new_world end.
#[global] Opaque new_world grouped_world.

Definition here {A} (m : gmap positive A) (p : positive) : bool :=
  match m !! p with Some _ => true | None => false end.
Lemma here_spec {A} (m : gmap positive A) p : here m p = true → is_Some (m !! p).
Proof. unfold here. by destruct (m !! p). Qed.

Definition group_alive_b (device : positive) (h : heap) : bool :=
  match h_devices h !! device ≫= d_group with Some p => here (h_groups h) p | None => true end.
Lemma group_alive_b_spec device h : group_alive_b device h = true → group_alive device h.
Proof.
  unfold group_alive_b. intros Hb d p Hd Hp. rewrite Hd in Hb. simpl in Hb. rewrite Hp in Hb.
  by apply here_spec.
Qed.

Lemma at_ctx_b ctx h : tree_b h && here (h_ctxs h) ctx = true → at_ctx ctx h.
Proof. intros [Ht Hc]%andb_true_iff. split; [by apply tree_b_spec|by apply here_spec]. Qed.
Lemma at_device_b device h : tree_b h && here (h_devices h) device = true → at_device device h.
Proof. intros [Ht Hc]%andb_true_iff. split; [by apply tree_b_spec|by apply here_spec]. Qed.

Lemma new_at_ctx : at_ctx 1 (hp new_world).
Proof. apply at_ctx_b. vm_compute. reflexivity. Qed.
Lemma grouped_at_device : at_device 2 (hp grouped_world).
Proof. apply at_device_b. vm_compute. reflexivity. Qed.
Lemma grouped_alive : group_alive 2 (hp grouped_world).
Proof. apply group_alive_b_spec. vm_compute. reflexivity. Qed.

Lemma devices_init_spec_witness :
  at_ctx 1 (hp new_world) ∧ wp (devices_init 1) (λ _ w', at_ctx 1 (hp w')) new_world.
Proof. split; [exact new_at_ctx|exact (devices_init_spec 1 new_world new_at_ctx)]. Defined.

Lemma engines_init_spec_witness :
  group_alive 2 (hp grouped_world) ∧
  wp (engines_init 2) (λ _ w', at_device 2 (hp w')) grouped_world.
Proof.
  split; [exact grouped_alive|exact (engines_init_spec 2 grouped_world grouped_at_device grouped_alive)].
Defined.

Lemma accfg_device_group_get_by_id_spec_witness :
  (∃ w', accfg_device_group_get_by_id 2 0 grouped_world = Done (Some 3%positive) w') ∧
  wp (accfg_device_group_get_by_id 2 0)
    (λ r w', at_device 2 (hp w') ∧ ∃ d, h_devices (hp w') !! 2%positive = Some d ∧
       r = List.find (group_has_id (hp w') 0) (d_groups d)) grouped_world.
Proof.
  split; [apply runs_to_Done; vm_compute; reflexivity|].
  exact (accfg_device_group_get_by_id_spec 2 0 grouped_world grouped_at_device).
Defined.

Lemma accfg_device_engine_get_by_id_spec_witness :
  (∃ w', accfg_device_engine_get_by_id 2 0 grouped_world = Done (Some 4%positive) w') ∧
  wp (accfg_device_engine_get_by_id 2 0)
    (λ r w', at_device 2 (hp w') ∧ ∃ d, h_devices (hp w') !! 2%positive = Some d ∧
       r = List.find (engine_has_id (hp w') 0) (d_engines d)) grouped_world.
Proof.
  split; [apply runs_to_Done; vm_compute; reflexivity|].
  exact (accfg_device_engine_get_by_id_spec 2 0 grouped_world grouped_at_device grouped_alive).
Defined.

Lemma demo_queues_read : ∃ d g, h_devices (hp demo_world) !! 2%positive = Some d ∧
  d_group d = Some 3%positive ∧ h_groups (hp demo_world) !! 3%positive = Some g ∧ g_wqs_init g ≠ 0.
Proof.
  assert (match h_devices (hp demo_world) !! 2%positive, h_groups (hp demo_world) !! 3%positive with
          | Some d, Some g => bool_decide (d_group d = Some 3%positive) && negb (g_wqs_init g =? 0)
          | _, _ => false
          end = true) as Hb by (vm_compute; reflexivity).
  destruct (h_devices (hp demo_world) !! 2%positive) as [d|]; [|discriminate Hb].
  destruct (h_groups (hp demo_world) !! 3%positive) as [g|]; [|discriminate Hb].
  apply andb_true_iff in Hb as [Hd%bool_decide_eq_true Hg]. exists d, g.
  destruct (Z.eqb_spec (g_wqs_init g) 0); [discriminate Hg|]. auto.
Qed.

Lemma accfg_device_wq_get_by_id_spec_witness :
  (∃ w', accfg_device_wq_get_by_id 2 1 demo_world = Done (Some 5%positive) w') ∧
  ∃ d, accfg_device_wq_get_by_id 2 1 demo_world =
    Done (List.find (wq_has_id (hp demo_world) 1) (d_wqs d)) demo_world.
Proof.
  split; [apply runs_to_Done; vm_compute; reflexivity|].
  destruct demo_queues_read as (d & g & Hd & Hdg & Hg & Hi). exists d.
  exact (accfg_device_wq_get_by_id_spec 2 1 d 3 g demo_world demo_tree_ok Hd Hdg Hg Hi).
Defined.

Lemma accfg_ctx_device_get_by_id_spec_witness :
  (∃ w', accfg_ctx_device_get_by_id 1 0 new_world = Done (Some 2%positive) w') ∧
  wp (accfg_ctx_device_get_by_id 1 0)
    (λ r w', at_ctx 1 (hp w') ∧ ∃ c, h_ctxs (hp w') !! 1%positive = Some c ∧
       r = List.find (device_has_id (hp w') 0) (c_devices c)) new_world.
Proof.
  split; [apply runs_to_Done; vm_compute; reflexivity|].
  exact (accfg_ctx_device_get_by_id_spec 1 0 new_world new_at_ctx).
Defined.
