(* ===== verification/TreeFree.v ===== *)
(** * libaccfg.c: contexts, their reference count, and what releasing one frees

    Creating a context; the reference count; [free_context] frees exactly the
    objects of the context, each once, and leaves a tree. *)

From S2P Require Import Prelude CString Prog Types SimKernel Sysfs Param Tree Demo.
From S2P Require Import SysfsFacts ParamFacts TreeFacts TreeInit.
Local Open Scope string_scope.
Local Open Scope Z_scope.

(** ** The objects of other owners *)

Definition others {A} (owner : A → positive) (d : positive) (m : gmap positive A) : gmap positive A :=
  base.filter (λ kv, owner kv.2 ≠ d) m.

Lemma others_lookup {A} owner d (m : gmap positive A) p x :
  others owner d m !! p = Some x ↔ m !! p = Some x ∧ owner x ≠ d.
Proof. unfold others. apply map_lookup_filter_Some. Qed.

Lemma others_None {A} owner d (m : gmap positive A) p : m !! p = None → others owner d m !! p = None.
Proof.
  intros Hp. destruct (others owner d m !! p) as [x|] eqn:Hx; [|done].
  apply others_lookup in Hx as [Hx _]. congruence.
Qed.

Lemma others_delete {A} owner d (m : gmap positive A) p x :
  m !! p = Some x → owner x = d → others owner d (delete p m) = others owner d m.
Proof.
  intros Hp Ho. apply map_eq. intros q. apply option_eq. intros y.
  rewrite !others_lookup, lookup_delete_Some. split; [tauto|]. intros [Hq Hy].
  split; [|done]. split; [congruence|done].
Qed.

Lemma others_nil {A} owner d (m : gmap positive A) : members [] m owner d → others owner d m = m.
Proof.
  intros [_ Hm]. apply map_eq. intros q. apply option_eq. intros y. rewrite others_lookup.
  split; [tauto|]. intros Hq. split; [done|]. intros Ho.
  apply (not_elem_of_nil q), Hm. eauto.
Qed.

(** Members of one owner are not touched by dropping another's. *)
Lemma members_others {A} (m : gmap positive A) owner d e l :
  e ≠ d → members l m owner e → members l (others owner d m) owner e.
Proof.
  intros Hne [Hnd Hm]. split; [done|]. intros q. rewrite Hm. setoid_rewrite others_lookup.
  split; [|naive_solver]. intros (x & Hx & Ho). exists x. split; [split; [done|congruence]|done].
Qed.

Lemma list_del_absent p l : p ∉ l → list_del p l = l.
Proof.
  unfold list_del. induction l as [|q l IH]; [done|]. intros [Hq Hl]%not_elem_of_cons.
  rewrite filter_cons_True by done. by rewrite IH.
Qed.

Lemma list_del_cons p l : NoDup (p :: l) → list_del p (p :: l) = l.
Proof.
  intros [Hp Hnd]%NoDup_cons. unfold list_del. rewrite filter_cons_False by tauto.
  by apply list_del_absent.
Qed.

(** ** Releasing one device *)

Definition empty_groups (d : positive) (h : heap) : heap :=
  h <| h_devices ::= alter (λ x, x <| d_groups := [] |>) d |> <| h_groups ::= others g_device d |>.
Definition empty_wqs (d : positive) (h : heap) : heap :=
  h <| h_devices ::= alter (λ x, x <| d_wqs := [] |>) d |> <| h_wqs ::= others w_device d |>.
Definition empty_engines (d : positive) (h : heap) : heap :=
  h <| h_devices ::= alter (λ x, x <| d_engines := [] |>) d |> <| h_engines ::= others e_device d |>.

(** The heap without a device and what hangs on it. *)
Definition drop_device (ctx d : positive) (h : heap) : heap :=
  h <| h_ctxs ::= alter (λ c, c <| c_devices ::= list_del d |>) ctx |>
    <| h_devices ::= delete d |>
    <| h_groups ::= others g_device d |>
    <| h_wqs ::= others w_device d |>
    <| h_engines ::= others e_device d |>.

Section release.
Context {F : Type} `{Kernel F}.
Implicit Types w : world F.

(** [look] rewrites with the object a pointer leads to. *)
Ltac look H := rewrite (run_deref _ _ _ _ H); cbn beta iota.

Lemma free_group_run p g d x w :
  h_groups (hp w) !! p = Some g → g_device g = d → h_devices (hp w) !! d = Some x →
  free_group p w = Done () (w <| hp ::= λ h, h
    <| h_devices ::= alter (λ d, d <| d_groups ::= list_del p |>) d |> <| h_groups ::= delete p |> |>).
Proof.
  intros Hg <- Hd. unfold free_group, upd_device, on_heap, get_group, get_device, mbind, prog_bind.
  look Hg. look Hd. done.
Qed.

Lemma free_wq_run p q d x w :
  h_wqs (hp w) !! p = Some q → w_device q = d → h_devices (hp w) !! d = Some x →
  free_wq p w = Done () (w <| hp ::= λ h, h
    <| h_devices ::= alter (λ d, d <| d_wqs ::= list_del p |>) d |> <| h_wqs ::= delete p |> |>).
Proof.
  intros Hg <- Hd. unfold free_wq, upd_device, on_heap, get_wq, get_device, mbind, prog_bind.
  look Hg. look Hd. done.
Qed.

Lemma free_engine_run p e d x w :
  h_engines (hp w) !! p = Some e → e_device e = d → h_devices (hp w) !! d = Some x →
  free_engine p w = Done () (w <| hp ::= λ h, h
    <| h_devices ::= alter (λ d, d <| d_engines ::= list_del p |>) d |> <| h_engines ::= delete p |> |>).
Proof.
  intros Hg <- Hd. unfold free_engine, upd_device, on_heap, get_engine, get_device, mbind, prog_bind.
  look Hg. look Hd. done.
Qed.

Lemma hp_same w f : f (hp w) = hp w → w = w <| hp ::= f |>.
Proof. intros Hf. destruct w. simpl in *. by rewrite Hf. Qed.

Lemma Done_hp w f g1 g2 :
  f (hp w) = g2 (g1 (hp w)) → Done () (w <| hp ::= g1 |> <| hp ::= g2 |>) = Done () (w <| hp ::= f |>).
Proof. intros Hf. destruct w. simpl in *. by rewrite Hf. Qed.

Lemma free_groups_run l : ∀ w d x,
  h_devices (hp w) !! d = Some x → d_groups x = l → members l (h_groups (hp w)) g_device d →
  for_each l free_group w = Done () (w <| hp ::= empty_groups d |>).
Proof.
  induction l as [|p l IH]; intros w d x Hd Hl Hm.
  - simpl. unfold mret, prog_ret. f_equal. apply hp_same. destruct (hp w). unfold empty_groups.
    simpl in *. rewrite others_nil by done. f_equal. apply alter_id. intros y Hy.
    rewrite Hd in Hy. injection Hy as <-. destruct x. simpl in *. by subst.
  - destruct (proj2 Hm p) as [(g & Hg & Ho) _]; [by left|]. simpl. unfold mbind at 1, prog_bind.
    rewrite (free_group_run p g d x w) by done.
    pose proof (members_delete _ _ _ _ p Hm) as Hm'. rewrite list_del_cons in Hm' by apply Hm.
    rewrite (IH _ d (x <| d_groups ::= list_del p |>)).
    + apply Done_hp. unfold empty_groups. destruct (hp w); simpl in *.
      rewrite (others_delete _ _ _ _ g), alter_alter_eq by done. done.
    + simpl. rewrite lookup_alter_eq, Hd. done.
    + simpl. rewrite Hl, list_del_cons by apply Hm. done.
    + done.
Qed.
Lemma free_wqs_run l : ∀ w d x,
  h_devices (hp w) !! d = Some x → d_wqs x = l → members l (h_wqs (hp w)) w_device d →
  for_each l free_wq w = Done () (w <| hp ::= empty_wqs d |>).
Proof.
  induction l as [|p l IH]; intros w d x Hd Hl Hm.
  - simpl. unfold mret, prog_ret. f_equal. apply hp_same. destruct (hp w). unfold empty_wqs.
    simpl in *. rewrite others_nil by done. f_equal. apply alter_id. intros y Hy.
    rewrite Hd in Hy. injection Hy as <-. destruct x. simpl in *. by subst.
  - destruct (proj2 Hm p) as [(q & Hq & Ho) _]; [by left|]. simpl. unfold mbind at 1, prog_bind.
    rewrite (free_wq_run p q d x w) by done.
    pose proof (members_delete _ _ _ _ p Hm) as Hm'. rewrite list_del_cons in Hm' by apply Hm.
    rewrite (IH _ d (x <| d_wqs ::= list_del p |>)).
    + apply Done_hp. unfold empty_wqs. destruct (hp w); simpl in *.
      rewrite (others_delete _ _ _ _ q), alter_alter_eq by done. done.
    + simpl. rewrite lookup_alter_eq, Hd. done.
    + simpl. rewrite Hl, list_del_cons by apply Hm. done.
    + done.
Qed.

Lemma free_engines_run l : ∀ w d x,
  h_devices (hp w) !! d = Some x → d_engines x = l → members l (h_engines (hp w)) e_device d →
  for_each l free_engine w = Done () (w <| hp ::= empty_engines d |>).
Proof.
  induction l as [|p l IH]; intros w d x Hd Hl Hm.
  - simpl. unfold mret, prog_ret. f_equal. apply hp_same. destruct (hp w). unfold empty_engines.
    simpl in *. rewrite others_nil by done. f_equal. apply alter_id. intros y Hy.
    rewrite Hd in Hy. injection Hy as <-. destruct x. simpl in *. by subst.
  - destruct (proj2 Hm p) as [(e & He & Ho) _]; [by left|]. simpl. unfold mbind at 1, prog_bind.
    rewrite (free_engine_run p e d x w) by done.
    pose proof (members_delete _ _ _ _ p Hm) as Hm'. rewrite list_del_cons in Hm' by apply Hm.
    rewrite (IH _ d (x <| d_engines ::= list_del p |>)).
    + apply Done_hp. unfold empty_engines. destruct (hp w); simpl in *.
      rewrite (others_delete _ _ _ _ e), alter_alter_eq by done. done.
    + simpl. rewrite lookup_alter_eq, Hd. done.
    + simpl. rewrite Hl, list_del_cons by apply Hm. done.
    + done.
Qed.

(** One device: its groups, queues and engines, then itself. *)
Lemma free_device_run ctx c d x w :
  tree_ok (hp w) → h_devices (hp w) !! d = Some x → h_ctxs (hp w) !! ctx = Some c →
  free_device d (Some ctx) w = Done () (w <| hp ::= drop_device ctx d |>).
Proof.
  intros Ht Hd Hc. destruct (ok_device _ Ht _ _ Hd) as (_ & Hg & Hw & He).
  unfold free_device, get_device, mbind, prog_bind. look Hd.
  rewrite (free_groups_run _ w d x) by done.
  set (w1 := w <| hp ::= empty_groups d |>).
  assert (h_devices (hp w1) !! d = Some (x <| d_groups := [] |>)) as Hd1.
  { simpl. by rewrite lookup_alter_eq, Hd. }
  look Hd1. rewrite (free_wqs_run _ w1 d (x <| d_groups := [] |>)) by done.
  set (w2 := w1 <| hp ::= empty_wqs d |>).
  assert (h_devices (hp w2) !! d = Some (x <| d_groups := [] |> <| d_wqs := [] |>)) as Hd2.
  { simpl. by rewrite !lookup_alter_eq, Hd. }
  look Hd2. rewrite (free_engines_run _ w2 d (x <| d_groups := [] |> <| d_wqs := [] |>)) by done.
  unfold upd_ctx, on_heap, get_ctx, mbind, prog_bind.
  rewrite (run_deref h_ctxs ctx c) by done. cbn beta iota. unfold modify. f_equal.
  unfold w2, w1. destruct w as [a1 a2 a3 a4 [] a5 a6]. simpl in *. f_equal.
  unfold drop_device. simpl. f_equal. rewrite !alter_alter_eq. apply delete_alter_eq.
Qed.
End release.

(** ** Releasing a context *)

Lemma tree_drop_device ctx d x h :
  h_devices h !! d = Some x → d_ctx x = ctx → tree_ok h → tree_ok (drop_device ctx d h).
Proof.
  intros Hx Hown [Hc Hd Hg Hw He Hn]. split; unfold drop_device; simpl.
  - intros q y (z & Hz & ->)%alter_dec. specialize (Hc q z Hz).
    destruct (decide (ctx = q)) as [<-|]; [by apply members_delete|].
    apply (members_delete_ne _ _ _ _ _ x); [done|congruence|done].
  - intros e y [Hne He']%lookup_delete_Some. destruct (Hd e y He') as (H1 & H2 & H3 & H4).
    split; [by apply alter_is_Some|]. by split; [|split]; apply members_others.
  - intros p y [Hy Ho]%others_lookup. destruct (Hg p y Hy). by rewrite lookup_delete_ne.
  - intros p y [Hy Ho]%others_lookup. destruct (Hw p y Hy). by rewrite lookup_delete_ne.
  - intros p y [Hy Ho]%others_lookup. destruct (He p y Hy). by rewrite lookup_delete_ne.
  - intros p Hp. destruct (Hn p Hp) as (N1 & N2 & N3 & N4 & N5).
    split; [by apply alter_None|]. split; [by rewrite lookup_delete_None; right|].
    split; [|split]; by apply others_None.
Qed.

(** The heap without the devices [l] of a context and without the context. *)
Definition drop_devices (ctx : positive) (l : list positive) (h : heap) : heap :=
  foldl (λ h d, drop_device ctx d h) h l.

Section context.
Context {F : Type} `{Kernel F}.
Implicit Types w : world F.

Lemma free_devices_run l : ∀ ctx w,
  tree_ok (hp w) → (∃ c, h_ctxs (hp w) !! ctx = Some c ∧ c_devices c = l) →
  for_each l (λ d, free_device d (Some ctx)) w = Done () (w <| hp ::= drop_devices ctx l |>) ∧
  tree_ok (drop_devices ctx l (hp w)).
Proof.
  induction l as [|d l IH]; intros ctx w Ht (c & Hc & Hl); simpl.
  - split; [|done]. by destruct w.
  - destruct (ok_ctx _ Ht _ _ Hc) as [Hnd Hm]. rewrite Hl in *.
    destruct (proj1 (Hm d)) as (x & Hx & Hown); [by left|].
    unfold mbind, prog_bind. rewrite (free_device_run ctx c d x) by done.
    destruct (IH ctx (w <| hp ::= drop_device ctx d |>)) as [-> Ht'].
    + by apply (tree_drop_device ctx d x).
    + exists (c <| c_devices ::= list_del d |>). simpl. rewrite lookup_alter_eq, Hc.
      split; [done|]. simpl. by rewrite Hl, list_del_cons.
    + done.
Qed.

(** What is left: the contexts but this one, and what does not hang on its devices. *)
Definition kept_by {A} (owner : A → positive) (l : list positive) (m m' : gmap positive A) : Prop :=
  ∀ p x, m' !! p = Some x ↔ m !! p = Some x ∧ owner x ∉ l.

Lemma kept_by_nil {A} owner (m : gmap positive A) : kept_by owner [] m m.
Proof. intros p x. split; [|tauto]. intros Hx. split; [done|apply not_elem_of_nil]. Qed.

Lemma kept_by_cons {A} owner d l (m m' : gmap positive A) :
  kept_by owner l (others owner d m) m' → kept_by owner (d :: l) m m'.
Proof.
  intros Hk p x. rewrite (Hk p x), others_lookup, not_elem_of_cons. naive_solver.
Qed.

Lemma drop_devices_kept l : ∀ ctx h,
  let h' := drop_devices ctx l h in
  kept_by g_device l (h_groups h) (h_groups h') ∧ kept_by w_device l (h_wqs h) (h_wqs h') ∧
  kept_by e_device l (h_engines h) (h_engines h') ∧
  (∀ p x, h_devices h' !! p = Some x ↔ h_devices h !! p = Some x ∧ p ∉ l) ∧
  delete ctx (h_ctxs h') = delete ctx (h_ctxs h) ∧ h_next h' = h_next h.
Proof.
  induction l as [|d l IH]; intros ctx h; simpl.
  { do 3 (split; [apply kept_by_nil|]). split; [|done]. intros p x. split; [|tauto].
    intros Hx. split; [done|apply not_elem_of_nil]. }
  destruct (IH ctx (drop_device ctx d h)) as (Hg & Hw & He & Hd & Hc & Hn).
  do 3 (split; [by apply kept_by_cons|]). split; [|split; [|done]].
  - intros p x. rewrite (Hd p x). simpl. rewrite lookup_delete_Some, not_elem_of_cons. naive_solver.
  - rewrite Hc. simpl. apply delete_alter_eq.
Qed.
End context.

Lemma tree_delete_ctx ctx l h0 h :
  h = drop_devices ctx l h0 → members l (h_devices h0) d_ctx ctx →
  tree_ok h → tree_ok (h <| h_ctxs ::= delete ctx |>).
Proof.
  intros -> [_ Hm] Ht. destruct (drop_devices_kept l ctx h0) as (_ & _ & _ & Hk & _).
  destruct Ht as [Hc Hd Hg Hw He Hn]. split; simpl.
  - intros q y [_ Hy]%lookup_delete_Some. by apply Hc.
  - intros d x Hx. destruct (Hd d x Hx) as [H1 H2]. split; [|done].
    rewrite lookup_delete_ne; [done|]. intros Heq. apply Hk in Hx as [Hx Hnl].
    apply Hnl, Hm. by exists x.
  - done.
  - done.
  - done.
  - intros p Hp. destruct (Hn p Hp) as [N1 N2]. split; [|done]. rewrite lookup_delete_None. by right.
Qed.

(** ** Claims *)

Section claims.
Context {F : Type} `{Kernel F}.

Lemma a_log_init owner env : always (log_init (F := F) owner env).
Proof. unfold log_init, log_priority. always. Qed.
Lemma r_log_init (R : relation (world F)) `{!OsFrame R} owner env : respects R (log_init owner env).
Proof. unfold log_init, log_priority. frame. Qed.

(** The context [accfg_new] makes, what the environment sets apart. *)
Definition fresh_ctx (c : accfg_ctx) : Prop :=
  c_owner c = "libaccfg" ∧ c_refcount c = 1 ∧ c_devices_init c = 0 ∧ c_devices c = [] ∧
  c_timeout c = 5000 ∧ c_error_ctx c = None.

Definition new_post (h0 : heap) (r : Z * option positive) (h : heap) : Prop :=
  tree_ok h ∧ h_devices h = h_devices h0 ∧
  match r.2 with
  | None => r.1 = - ENOMEM ∧ h_ctxs h = h_ctxs h0
  | Some p => r.1 = 0 ∧ h_ctxs h0 !! p = None ∧
      ∃ c, fresh_ctx c ∧ h_ctxs h = <[p := c]> (h_ctxs h0)
  end.

Lemma log_init_owner owner env (w : world F) r w' : log_init owner env w = Done r w' → r.1.2 = owner.
Proof.
  unfold log_init. intros (e & w1 & _ & Hr)%bind_Done. destruct e as [e|].
  - apply bind_Done in Hr as (p & w2 & _ & Hr). by injection Hr as <- _.
  - by injection Hr as <- _.
Qed.

Lemma accfg_new_tri h0 :
  tri (F := F) False (λ h, tree_ok h ∧ h_ctxs h = h_ctxs h0 ∧ h_devices h = h_devices h0)
    accfg_new (new_post h0).
Proof.
  unfold accfg_new. apply tri_fresh.
  { by intros h (? & _). }
  { intros h (Ht & Hc & Hd). split; [by apply tree_bump|done]. }
  { apply tri_ret. by intros h (Ht & Hc & Hd). }
  intros ctx. apply tri_bind with (λ r h, r.1.2 = "libaccfg" ∧ unused ctx h ∧ tree_ok h ∧
    h_ctxs h = h_ctxs h0 ∧ h_devices h = h_devices h0).
  { intros w HP. destruct (a_log_init "libaccfg" "ACCFG_LOG" w) as (r & w' & Hr).
    pose proof (r_log_init (on hp) _ _ _ _ _ Hr) as Hh. unfold on in Hh. rewrite Hr, Hh.
    split; [by eapply log_init_owner|done]. }
  intros [[fn owner] prio]. apply tri_pure. intros Ho. simpl in Ho. subst owner. skip.
  apply tri_on_heap_bind.
  apply tri_skip; [always|frame; apply _|intros env].
  apply tri_bind with (λ _, new_post h0 (0, Some ctx)); [|intros u; by apply tri_ret].
  assert (tri (F := F) False (λ h, ∃ h1, (unused ctx h1 ∧ tree_ok h1 ∧ h_ctxs h1 = h_ctxs h0 ∧
    h_devices h1 = h_devices h0) ∧ h = h1 <| h_ctxs ::= insert ctx
      (Ctx fn "libaccfg" prio 1 0 [] 5000 (negb a) None) |>) (mret ()) (λ _, new_post h0 (0, Some ctx))) as Hend.
  { apply tri_ret. intros h (h1 & (Hu & Ht & Hc & Hd) & ->). split; [by apply tree_insert_ctx|].
    split; [done|]. split; [done|]. rewrite <- Hc. split; [apply Hu|]. eexists. split; [|reflexivity]. done. }
  destruct env as [e|]; [|done]. skip. unfold endptr_is_null. by rewrite andb_false_r.
Qed.

(** Creating a context either runs out of memory, -ENOMEM with nothing created, or
    returns 0 and a context at an address unused before: reference count 1, no devices yet, no
    saved error, and the timeout 5000 whatever ACCFG_TIMEOUT holds.  Other contexts and the
    devices are as before, and the tree invariant is kept. *)
Theorem accfg_new_spec (w : world F) :
  tree_ok (hp w) →
  wp accfg_new (λ r w', tree_ok (hp w') ∧ h_devices (hp w') = h_devices (hp w) ∧
    match r.2 with
    | None => r.1 = - ENOMEM ∧ h_ctxs (hp w') = h_ctxs (hp w)
    | Some p => r.1 = 0 ∧ h_ctxs (hp w) !! p = None ∧
        ∃ c, (c_owner c = "libaccfg" ∧ c_refcount c = 1 ∧ c_devices_init c = 0 ∧
              c_devices c = [] ∧ c_timeout c = 5000 ∧ c_error_ctx c = None) ∧
             h_ctxs (hp w') = <[p := c]> (h_ctxs (hp w))
    end) w.
Proof. intros Ht. exact (tri_wp _ _ _ w (accfg_new_tri (hp w)) (conj Ht (conj eq_refl eq_refl))). Qed.

(** The first step of giving up a reference. *)
Lemma unref_step ctx c (w : world F) :
  h_ctxs (hp w) !! ctx = Some c →
  let w1 := w <| hp ::= λ h, h <| h_ctxs ::= alter (λ x, x <| c_refcount ::= λ n, n - 1 |>) ctx |> |> in
  h_ctxs (hp w1) !! ctx = Some (c <| c_refcount ::= λ n, n - 1 |>) ∧
  accfg_unref (Some ctx) w = if 1 <? c_refcount c then Done None w1 else (free_context ctx;; mret None) w1.
Proof.
  intros Hc w1. assert (h_ctxs (hp w1) !! ctx = Some (c <| c_refcount ::= λ n, n - 1 |>)) as Hc1
    by by simpl; rewrite lookup_alter_eq, Hc.
  split; [done|].
  assert (accfg_unref (Some ctx) w = (c ← get_ctx ctx;
    if 0 <? c_refcount c then mret None else free_context ctx;; mret None) w1) as ->.
  { unfold accfg_unref, upd_ctx, get_ctx, mbind, prog_bind. by rewrite (run_deref _ _ _ _ Hc). }
  unfold get_ctx. unfold mbind at 1, prog_bind at 1. rewrite (run_deref _ _ _ _ Hc1). simpl.
  by destruct (Z.ltb_spec 0 (c_refcount c - 1)), (Z.ltb_spec 1 (c_refcount c)); try lia.
Qed.

(** The last reference frees what belongs to the context. *)
Lemma unref_last ctx c (w : world F) :
  tree_ok (hp w) → h_ctxs (hp w) !! ctx = Some c → (1 <? c_refcount c) = false →
  ∃ h', accfg_unref (Some ctx) w = Done None (w <| hp := h' |>) ∧ tree_ok h' ∧
    h_ctxs h' = delete ctx (h_ctxs (hp w)) ∧
    (∀ p d, h_devices h' !! p = Some d ↔ h_devices (hp w) !! p = Some d ∧ d_ctx d ≠ ctx) ∧
    (∀ p g, h_groups h' !! p = Some g ↔ h_groups (hp w) !! p = Some g ∧ g_device g ∉ c_devices c) ∧
    (∀ p q, h_wqs h' !! p = Some q ↔ h_wqs (hp w) !! p = Some q ∧ w_device q ∉ c_devices c) ∧
    (∀ p e, h_engines h' !! p = Some e ↔ h_engines (hp w) !! p = Some e ∧ e_device e ∉ c_devices c).
Proof.
  intros Ht Hc Hlast. destruct (unref_step ctx c w Hc) as [Hc1 Hrun1]. rewrite Hlast in Hrun1. rewrite Hrun1. clear Hrun1.
  set (w1 := w <| hp ::= _ |>) in *. set (h1 := hp w1).
  assert (tree_ok h1) as Ht1 by by apply tree_alter_ctx.
  exists (drop_devices ctx (c_devices c) h1 <| h_ctxs ::= delete ctx |>).
  destruct (free_devices_run (c_devices c) ctx w1) as [Hrun Ht2]; [done|by eexists|].
  destruct (drop_devices_kept (c_devices c) ctx h1) as (Hg & Hw & He & Hd & Hcs & Hn).
  destruct (ok_ctx _ Ht _ _ Hc) as [_ Hm].
  split; [|split; [|split]].
  - unfold free_context, get_ctx, mbind, prog_bind. rewrite (run_deref _ _ _ _ Hc1).
    cbn beta iota. change (c_devices (c <| c_refcount ::= _ |>)) with (c_devices c).
    rewrite Hrun. reflexivity.
  - apply (tree_delete_ctx ctx (c_devices c) h1); [done|by apply (ok_ctx _ Ht)|exact Ht2].
  - simpl. rewrite Hcs. apply delete_alter_eq.
  - split; [|done]. intros p d. rewrite (Hd p d). split; intros [Hp Hne]; (split; [done|]).
    + intros <-. apply Hne, Hm. eauto.
    + intros (y & Hy & <-)%Hm. simpl in Hp. congruence.
Qed.

(** C6: Giving up a reference always returns NULL and touches nothing outside the library's memory.
    While references remain only the count changes.  The last one frees the context, the devices
    of it, and the groups, work queues and engines of those devices, and nothing else: no object
    is freed twice or used after it was freed, and what is left is a tree again. *)
Theorem accfg_unref_spec ctx c (w : world F) :
  tree_ok (hp w) → h_ctxs (hp w) !! ctx = Some c →
  ∃ h', accfg_unref (Some ctx) w = Done None (w <| hp := h' |>) ∧ tree_ok h' ∧
    if 1 <? c_refcount c
    then h' = hp w <| h_ctxs ::= alter (λ x, x <| c_refcount ::= λ n, n - 1 |>) ctx |>
    else h_ctxs h' = delete ctx (h_ctxs (hp w)) ∧
      (∀ p d, h_devices h' !! p = Some d ↔ h_devices (hp w) !! p = Some d ∧ d_ctx d ≠ ctx) ∧
      (∀ p g, h_groups h' !! p = Some g ↔ h_groups (hp w) !! p = Some g ∧ g_device g ∉ c_devices c) ∧
      (∀ p q, h_wqs h' !! p = Some q ↔ h_wqs (hp w) !! p = Some q ∧ w_device q ∉ c_devices c) ∧
      (∀ p e, h_engines h' !! p = Some e ↔ h_engines (hp w) !! p = Some e ∧ e_device e ∉ c_devices c).
Proof.
  intros Ht Hc. destruct (1 <? c_refcount c) eqn:Hmore; [|by apply unref_last].
  destruct (unref_step ctx c w Hc) as [_ Hrun]. rewrite Hmore in Hrun. eexists. split; [exact Hrun|].
  split; [by apply tree_alter_ctx|done].
Qed.
End claims.

(** ** Instances *)

Lemma empty_tree_sim : tree_ok (hp (sim_world demo_sim)).
Proof. exact empty_tree_ok. Qed.

Lemma accfg_new_spec_witness :
  (∃ w', accfg_new (sim_world demo_sim) = Done (0, Some 1%positive) w') ∧
  wp accfg_new (λ r w', tree_ok (hp w') ∧ h_devices (hp w') = h_devices (hp (sim_world demo_sim)) ∧
    match r.2 with
    | None => r.1 = - ENOMEM ∧ h_ctxs (hp w') = h_ctxs (hp (sim_world demo_sim))
    | Some p => r.1 = 0 ∧ h_ctxs (hp (sim_world demo_sim)) !! p = None ∧
        ∃ c, (c_owner c = "libaccfg" ∧ c_refcount c = 1 ∧ c_devices_init c = 0 ∧
              c_devices c = [] ∧ c_timeout c = 5000 ∧ c_error_ctx c = None) ∧
             h_ctxs (hp w') = <[p := c]> (h_ctxs (hp (sim_world demo_sim)))
    end) (sim_world demo_sim).
Proof.
  split; [apply runs_to_Done; vm_compute; reflexivity|].
  exact (accfg_new_spec (sim_world demo_sim) empty_tree_sim).
Defined.

Lemma demo_ctx : ∃ c, h_ctxs (hp demo_world) !! 1%positive = Some c ∧ c_refcount c = 1 ∧
  c_devices c = [2%positive].
Proof.
  assert (match h_ctxs (hp demo_world) !! 1%positive with
          | Some c => (c_refcount c =? 1) && bool_decide (c_devices c = [2%positive])
          | None => false
          end = true) as Hb by (vm_compute; reflexivity).
  destruct (h_ctxs (hp demo_world) !! 1%positive) as [c|]; [|discriminate Hb].
  apply andb_true_iff in Hb as [Hr%Z.eqb_eq Hd%bool_decide_eq_true]. eauto.
Qed.

(** The only reference of the context is given up: its device and group are gone. *)
Lemma accfg_unref_spec_witness :
  ∃ h', accfg_unref (Some 1%positive) demo_world = Done None (demo_world <| hp := h' |>) ∧
    tree_ok h' ∧ h_ctxs h' !! 1%positive = None ∧ h_devices h' !! 2%positive = None.
Proof.
  destruct demo_ctx as (c & Hc & Hr & Hd).
  destruct (accfg_unref_spec 1 c demo_world demo_tree_ok Hc) as (h' & Hrun & Ht & Hcase).
  rewrite Hr in Hcase. exists h'. split; [exact Hrun|]. split; [exact Ht|].
  destruct Hcase as (Hcs & Hdev & _). split; [rewrite Hcs; apply lookup_delete_eq|].
  destruct (h_devices h' !! 2%positive) as [d|] eqn:Hd'; [|reflexivity].
  exfalso. apply Hdev in Hd' as [Hd' Hne]. apply Hne.
  destruct (proj1 (proj2 (ok_ctx _ demo_tree_ok _ _ Hc) 2%positive)) as (x & Hx & Ho).
  { rewrite Hd. left. }
  rewrite Hd' in Hx. injection Hx as ->. exact Ho.
Defined.
