(* ===== verification/FilterFacts.v ===== *)
(** * util/filter.c and accfg/enable.c: names and commands

    What the name scanners accept and where they overrun their buffers, which
    object a name finds, and what the enable and disable commands report. *)

From S2P Require Import Prelude CString Prog Types SimKernel Sysfs Param Tree Demo Device Wq Filter Enable.
From S2P Require Import SysfsFacts ParamFacts DeviceFacts WqFacts TreeFacts TreeInit.
Local Open Scope string_scope.
Local Open Scope Z_scope.

(** ** Scanning names *)

Lemma islower_digit d : 0 <= d < 10 → islower (digit_char d) = false.
Proof.
  intros Hd. assert (d ∈ [0; 1; 2; 3; 4; 5; 6; 7; 8; 9]) as Hin.
  { rewrite !elem_of_cons. lia. }
  repeat (apply elem_of_cons in Hin as [->|Hin]; [done|]). by apply elem_of_nil in Hin.
Qed.

(** A word of lower-case letters before a number. *)
Lemma span_word type id :
  chars type (λ c, islower c = true) → 0 <= id → span islower (type +:+ print_u id) = (type, print_u id).
Proof.
  intros Ht Hid. rewrite span_chars by done. rewrite span_false; [by rewrite append_empty_r|].
  unfold print_u, print_base.
  destruct (print_digits_head 10 ltac:(lia) (S (Z.to_nat (Z.log2 id))) id "")
    as (d & s & -> & Hd & _); [done|lia|]. by apply islower_digit.
Qed.

Lemma scan_print_u id : 0 <= id < 2 ^ 32 → scan_conv strtoull 10 (print_u id) = ConvOk id "".
Proof.
  intros Hid. unfold print_u. rewrite <- (append_empty_r (print_base 10 id)).
  apply scan_conv_print; [unfold base_reads; lia|unfold ULLONG_MAX; lia|done].
Qed.

Section scan.
Context {F : Type}.

(** Reading a name like dsa0, a word of lower-case letters and a number, gives back the word
    and the number when the word fits its buffer of 64 bytes; a word of 64 letters or more is
    written past the end of the buffer. *)
Theorem scan_device_type_id_spec type id (w : world F) :
  type ≠ "" → chars type (λ c, islower c = true) → 0 <= id < 2 ^ 32 →
  scan_device_type_id (type +:+ print_u id) w =
  if strlen type <? MAX_DEV_LEN then Done (inr (type, id)) w else Fault.
Proof.
  intros Hne Ht Hid. unfold scan_device_type_id. rewrite span_word by (done || lia).
  destruct type as [|c type]; [done|]. unfold scan_into.
  destruct (strlen (String c type) <? MAX_DEV_LEN); [|done].
  rewrite scan_print_u by done. by rewrite u32_id.
Qed.

(** Reading a name like dsa0/wq0.1 gives back what is before the slash and what is after it,
    up to white space; a part of 64 characters or more is written past the end of its buffer. *)
Theorem scan_parent_child_names_spec p c (w : world F) :
  p ≠ "" → c ≠ "" → chars p (λ x, x ≠ slash) → chars c (λ x, isspace x = false) →
  scan_parent_child_names (p +:+ "/" +:+ c) w =
  if (strlen p <? MAX_DEV_LEN) && (strlen c <? MAX_DEV_LEN) then Done (inr (p, c)) w else Fault.
Proof.
  intros Hp Hc Hps Hcs. unfold scan_parent_child_names, scan_into.
  rewrite span_chars.
  2: { eapply Forall_impl; [exact Hps|]. intros x Hx. unfold not_slash.
       destruct (Ascii.eqb_spec x slash); done. }
  rewrite (span_false not_slash ("/" +:+ c)) by done. cbn [fst snd]. rewrite append_empty_r.
  destruct p as [|x p]; [done|]. destruct (strlen (String x p) <? MAX_DEV_LEN); [|done].
  change ("/" +:+ c) with (String slash c). cbn -[span strlen].
  destruct c as [|y c]; [done|]. pose proof (Forall_inv Hcs) as Hy.
  rewrite (span_false isspace (String y c)) by done. cbn [snd].
  assert (span not_space (String y c) = (String y c, "")) as ->.
  { rewrite <- (append_empty_r (String y c)) at 1. rewrite span_chars; [simpl; by rewrite append_empty_r|].
    eapply Forall_impl; [exact Hcs|]. intros z Hz. unfold not_space. by rewrite Hz. }
  by destruct (strlen (String y c) <? MAX_DEV_LEN).
Qed.
End scan.

(** ** Finding a device by its name *)

Definition device_name_is (h : heap) (name : string) (p : positive) : bool :=
  match h_devices h !! p ≫= λ d, after_last slash (d_device_path d) with
  | Some n => strcmp_eq name n
  | None => false
  end.

(** The paths of the devices of a context end in a name. *)
Definition devices_named (l : list positive) (h : heap) : Prop :=
  ∀ p d, p ∈ l → h_devices h !! p = Some d → is_Some (after_last slash (d_device_path d)).

Section find.
Context {F : Type} `{Kernel F}.

Lemma devices_enumerated ctx c (w : world F) :
  h_ctxs (hp w) !! ctx = Some c → c_devices_init c ≠ 0 →
  accfg_device_get_first ctx w = Done (list_top (c_devices c)) w.
Proof.
  intros Hc Hi. unfold accfg_device_get_first, devices_init, get_ctx, mbind, prog_bind.
  rewrite (run_deref _ _ _ _ Hc). destruct (Z.eqb_spec (c_devices_init c) 0); [done|].
  unfold mret, prog_ret. cbn [negb]. cbv beta iota. by rewrite (run_deref _ _ _ _ Hc).
Qed.

(** C10: Looking for a device by a name of the form letters and number, in a context whose devices
    were enumerated and have names: when the letters contain the name of a known type, the first
    device of the context's list whose name is the whole argument is found, or -EINVAL when there is
    none; when they do not, -EINVAL.  Nothing is written and nothing in memory changes.  The
    letters fit the buffer they are scanned into, and the number an unsigned int. *)
Theorem parse_device_name_spec ctx c type id (w : world F) :
  tree_ok (hp w) → h_ctxs (hp w) !! ctx = Some c → c_devices_init c ≠ 0 →
  devices_named (c_devices c) (hp w) →
  type ≠ "" → chars type (λ c, islower c = true) → 0 <= id < 2 ^ 32 → strlen type < MAX_DEV_LEN →
  parse_device_name ctx (type +:+ print_u id) w =
  Done (if accfg_device_type_validate type =? 0 then inl (- EINVAL)
        else match List.find (device_name_is (hp w) (type +:+ print_u id)) (c_devices c) with
             | Some p => inr p
             | None => inl (- EINVAL)
             end) w.
Proof.
  intros Ht Hc Hi Hn Hne Hlow Hid Hlen. unfold parse_device_name, mbind at 1, prog_bind at 1.
  assert (scan_device_type_id (type +:+ print_u id) w = Done (inr (type, id)) w) as ->.
  { unfold scan_device_type_id. rewrite span_word by (done || lia). destruct type as [|x type]; [done|].
    unfold scan_into. destruct (Z.ltb_spec (strlen (String x type)) MAX_DEV_LEN); [|lia].
    rewrite scan_print_u by done. by rewrite u32_id. }
  destruct (accfg_device_type_validate type =? 0); [done|]. unfold mbind at 1, prog_bind at 1.
  destruct (ok_ctx _ Ht _ _ Hc) as [Hnd Hm].
  assert (accfg_device_foreach ctx (named (type +:+ print_u id) accfg_device_get_devname) w =
    Done (List.find (device_name_is (hp w) (type +:+ print_u id)) (c_devices c)) w) as ->; [|done].
  unfold accfg_device_foreach, mbind at 1, prog_bind at 1.
  rewrite (devices_enumerated ctx c) by done. unfold mbind at 1, prog_bind at 1, get_ctx.
  rewrite (run_deref _ _ _ _ Hc). apply foreach_find; [done|..].
  - intros p Hp. destruct (proj1 (Hm p) Hp) as (d & Hd & _). destruct (Hn p d Hp Hd) as [n Hname].
    unfold named, accfg_device_get_devname, get_device, device_name_is, mbind, prog_bind.
    rewrite (run_deref _ _ _ _ Hd), Hd. unfold devpath_to_devname. simpl. by rewrite Hname.
  - intros p Hp. destruct (proj1 (Hm p) Hp) as (d & Hd & Ho).
    unfold accfg_device_get_next, get_ctx, get_device, mbind, prog_bind.
    rewrite (run_deref _ _ _ _ Hd), Ho. by rewrite (run_deref _ _ _ _ Hc).
Qed.
End find.

(** ** The enable and disable commands *)

(** The runs for the arguments one after the other, with their outcomes. *)
Inductive runs {S} (one : string → prog S (option Z)) : list string → list (option Z) → S → S → Prop :=
  | runs_nil s : runs one [] [] s s
  | runs_cons arg argv o outs s s1 s2 :
      one arg s = Done o s1 → runs one argv outs s1 s2 → runs one (arg :: argv) (o :: outs) s s2.

(** The last result there was, [rc] before the first one. *)
Definition last_result (rc : Z) (outs : list (option Z)) : Z :=
  foldl (λ rc o, default rc o) rc outs.

Section commands.
Context {F : Type} `{Kernel F}.
Notation M := (prog (world F)).

Lemma action_loop_runs (one : string → M (option Z)) argv : ∀ rc0 n0 w rc n w',
  0 <= n0 → action_loop one argv rc0 n0 w = Done (rc, n) w' →
  ∃ outs, runs one argv outs w w' ∧ rc = last_result rc0 outs ∧
    n0 <= n ∧ (n = n0 ↔ Some 0 ∉ outs).
Proof.
  induction argv as [|arg argv IH]; intros rc0 n0 w rc n w' Hn0 Hrun; simpl in Hrun.
  { injection Hrun as <- <- <-. exists []. split; [constructor|]. split; [done|]. split; [lia|].
    split; [intros _; apply not_elem_of_nil|done]. }
  apply bind_Done in Hrun as (o & w1 & Ho & Hrun). destruct o as [r|].
  - apply IH in Hrun as (outs & Hruns & -> & Hle & Hiff); [|destruct (r =? 0); lia].
    exists (Some r :: outs). split; [by econstructor|]. split; [done|].
    rewrite not_elem_of_cons. destruct (Z.eqb_spec r 0) as [->|Hr]; (split; [lia|]).
    + split; [lia|]. intros [Hne _]. done.
    + rewrite Hiff. split; [intros Ho'; split; [congruence|done]|tauto].
  - apply IH in Hrun as (outs & Hruns & -> & Hle & Hiff); [|done].
    exists (None :: outs). split; [by econstructor|]. split; [done|]. split; [done|].
    rewrite not_elem_of_cons, Hiff. split; [done|tauto].
Qed.

(** The enable and disable commands for devices return 0 exactly when for some argument the
    whole sequence succeeded: the device was found, the control worked, and the state read
    after it was the one wanted.  Otherwise they return the result for the last device found,
    or -EINVAL when no argument named one. *)
Theorem device_action_result force argv action ctx (w : world F) rc w' :
  device_action force argv action ctx w = Done rc w' →
  ∃ outs, runs (device_action_one force ctx action) (all_args argv) outs w w' ∧
    rc = if bool_decide (Some 0 ∈ outs) then 0 else last_result (- EINVAL) outs.
Proof.
  unfold device_action. destruct argv as [|a argv]; [done|].
  intros ([rc1 n] & w1 & Hloop & Hret)%bind_Done.
  apply action_loop_runs in Hloop as (outs & Hruns & -> & Hle & Hiff); [|done].
  injection Hret as <- <-. exists outs. split; [done|].
  destruct (Z.eqb_spec n 0) as [Hn|Hn]; simpl.
  - apply Hiff in Hn. by rewrite bool_decide_eq_false_2.
  - rewrite bool_decide_eq_true_2; [done|]. destruct (decide (Some 0 ∈ outs)); [done|].
    by destruct Hn; apply Hiff.
Qed.

(** The word "all", which the commands look for to stand for every device, stands for none:
    wherever it is among the arguments the command touches nothing and fails. *)
Theorem device_action_all force argv action ctx (w : world F) :
  "all" ∈ argv → device_action force argv action ctx w = Done (- EINVAL) w.
Proof.
  intros Hall. unfold device_action, all_args. destruct argv as [|a argv]; [by apply elem_of_nil in Hall|].
  assert (existsb (λ a, strcmp_eq a "all") (a :: argv) = true) as ->; [|done].
  apply existsb_exists. exists "all". split; [by apply list_elem_of_In|done].
Qed.

(** C36: After the write that enables or disables a device the code reads its state again: the
    action answers 0 when it is the state wanted, and ENXIO (a positive number) when it is
    not; the command's exit status is 0 in both cases, so that a device whose state did not
    change is reported as a success. *)
Theorem cmd_enable_device_unverified force ctx name device action (w w1 w2 w3 : world F) s :
  name ≠ "all" → parse_device_name ctx name w = Done (inr device) w1 →
  match action with
  | DEV_ACTION_ENABLE => action_enable_device device
  | DEV_ACTION_DISABLE => action_disable_device force device
  end w1 = Done 0 w2 →
  accfg_device_get_state (Some device) w2 = Done s w3 →
  let wanted := match action with
    | DEV_ACTION_ENABLE => ACCFG_DEVICE_ENABLED
    | DEV_ACTION_DISABLE => ACCFG_DEVICE_DISABLED
    end in
  device_action force [name] action ctx w = Done (if bool_decide (s = wanted) then 0 else ENXIO) w3 ∧
  match action with
  | DEV_ACTION_ENABLE => cmd_enable_device force [name] ctx
  | DEV_ACTION_DISABLE => cmd_disable_device force [name] ctx
  end w = Done 0 w3.
Proof.
  intros Hname Hparse Hact Hstate wanted.
  assert (device_action force [name] action ctx w = Done (if bool_decide (s = wanted) then 0 else ENXIO) w3) as Hrun.
  { unfold device_action, all_args. simpl existsb. unfold strcmp_eq.
    destruct (String.eqb_spec name "all"); [done|]. cbn [orb].
    unfold action_loop, device_action_one, mbind, prog_bind. rewrite Hparse.
    destruct action; cbn [dev_action_switch]; rewrite Hact; cbn [Z.eqb]; rewrite Hstate;
      unfold state_wanted; subst wanted; by destruct (bool_decide _). }
  split; [exact Hrun|].
  destruct action; unfold cmd_enable_device, cmd_disable_device, mbind, prog_bind; rewrite Hrun;
    by destruct (bool_decide _).
Qed.
End commands.

(** ** Instances *)

Definition word_b (f : ascii → bool) (s : string) : bool := forallb f (String.list_ascii_of_string s).
Lemma word_b_spec f s (P : ascii → Prop) : (∀ c, f c = true → P c) → word_b f s = true → chars s P.
Proof.
  unfold word_b, chars. rewrite forallb_forall, Forall_forall. intros Hf Hs c Hc.
  by apply Hf, Hs, list_elem_of_In.
Qed.

Lemma dsa_lower : chars "dsa" (λ c, islower c = true).
Proof. by apply (word_b_spec islower). Qed.

Lemma scan_device_type_id_spec_witness :
  scan_device_type_id "dsa3" (sim_world empty_sim) = Done (inr ("dsa", 3)) (sim_world empty_sim).
Proof.
  apply (scan_device_type_id_spec "dsa" 3 (sim_world empty_sim)); [discriminate|exact dsa_lower|lia].
Defined.

Lemma scan_parent_child_names_spec_witness :
  scan_parent_child_names "dsa0/wq0.1" (sim_world empty_sim) =
  Done (inr ("dsa0", "wq0.1")) (sim_world empty_sim).
Proof.
  apply (scan_parent_child_names_spec "dsa0" "wq0.1" (sim_world empty_sim)); [discriminate..| |].
  - apply (word_b_spec (λ c, negb (Ascii.eqb c slash))); [|reflexivity].
    intros c Hc. by apply Ascii.eqb_neq, negb_true_iff.
  - apply (word_b_spec (λ c, negb (isspace c))); [|reflexivity]. intros c Hc. by apply negb_true_iff.
Defined.

Lemma demo_devices : ∃ c, h_ctxs (hp demo_world) !! 1%positive = Some c ∧ c_devices_init c ≠ 0 ∧
  devices_named (c_devices c) (hp demo_world) ∧
  List.find (device_name_is (hp demo_world) "dsa0") (c_devices c) = Some 2%positive.
Proof.
  assert (match h_ctxs (hp demo_world) !! 1%positive with
          | Some c => negb (c_devices_init c =? 0) && bool_decide (c_devices c = [2%positive])
          | None => false
          end = true) as Hb by (vm_compute; reflexivity).
  destruct (h_ctxs (hp demo_world) !! 1%positive) as [c|]; [|discriminate Hb].
  apply andb_true_iff in Hb as [Hi Hd%bool_decide_eq_true]. exists c. split; [done|].
  split; [by intros Hz; rewrite Hz in Hi|]. rewrite Hd. split.
  - intros p d ->%list_elem_of_singleton Hp.
    assert (match h_devices (hp demo_world) !! 2%positive with
            | Some d => match after_last slash (d_device_path d) with Some _ => true | None => false end
            | None => false
            end = true) as Hn by (vm_compute; reflexivity).
    rewrite Hp in Hn. by destruct (after_last slash (d_device_path d)).
  - vm_compute. reflexivity.
Qed.

Lemma parse_device_name_spec_witness :
  parse_device_name 1 "dsa0" demo_world = Done (inr 2%positive) demo_world.
Proof.
  destruct demo_devices as (c & Hc & Hi & Hn & Hf).
  pose proof (parse_device_name_spec 1 c "dsa" 0 demo_world demo_tree_ok Hc Hi Hn) as Hp.
  change ("dsa" +:+ print_u 0) with "dsa0" in Hp. rewrite Hf in Hp.
  apply Hp; [discriminate|exact dsa_lower|lia|reflexivity].
Defined.

Lemma device_action_result_witness :
  ∃ w' outs, device_action false ["dsa0"; "dsa7"] DEV_ACTION_ENABLE 1 demo_world = Done 0 w' ∧
    runs (device_action_one false 1 DEV_ACTION_ENABLE) (all_args ["dsa0"; "dsa7"]) outs demo_world w' ∧
    0 = if bool_decide (Some 0 ∈ outs) then 0 else last_result (- EINVAL) outs.
Proof.
  assert (runs_to (device_action false ["dsa0"; "dsa7"] DEV_ACTION_ENABLE 1) demo_world 0 = true) as Hb
    by (vm_compute; reflexivity).
  apply runs_to_Done in Hb as (w' & Hrun).
  destruct (device_action_result false _ _ 1 demo_world 0 w' Hrun) as (outs & Hruns & Hrc).
  exists w', outs. split; [exact Hrun|]. split; [exact Hruns|exact Hrc].
Defined.

Lemma device_action_all_witness :
  device_action false ["dsa0"; "all"] DEV_ACTION_ENABLE 1 demo_world = Done (- EINVAL) demo_world.
Proof. apply (device_action_all false _ DEV_ACTION_ENABLE 1 demo_world). right. left. Defined.

(** A driver that accepts the write that binds the device, and does not enable it. *)
Definition stuck_world : world sim :=
  after demo_setup (sim_world (demo_sim <| sim_rules := [] |>)).
Definition stuck1 : world sim := after (parse_device_name 1 "dsa0") stuck_world.
Definition stuck2 : world sim := after (action_enable_device 2) stuck1.
Definition stuck3 : world sim := after (accfg_device_get_state (Some 2%positive)) stuck2.
Lemma stuck_parse : parse_device_name 1 "dsa0" stuck_world = Done (inr 2%positive) stuck1.
Proof. unfold stuck1. apply (runs_after _ stuck_world). vm_compute. reflexivity. Qed.
Lemma stuck_enable : action_enable_device 2 stuck1 = Done 0 stuck2.
Proof. unfold stuck2. apply (runs_after _ stuck1). vm_compute. reflexivity. Qed.
Lemma stuck_state : accfg_device_get_state (Some 2%positive) stuck2 = Done ACCFG_DEVICE_DISABLED stuck3.
Proof. unfold stuck3. apply (runs_after _ stuck2). vm_compute. reflexivity. Qed.
#[global] Opaque stuck_world stuck1 stuck2 stuck3.

Lemma cmd_enable_device_unverified_witness :
  device_action false ["dsa0"] DEV_ACTION_ENABLE 1 stuck_world = Done ENXIO stuck3 ∧
  cmd_enable_device false ["dsa0"] 1 stuck_world = Done 0 stuck3.
Proof.
  apply (cmd_enable_device_unverified false 1 "dsa0" 2 DEV_ACTION_ENABLE stuck_world stuck1 stuck2 stuck3
    ACCFG_DEVICE_DISABLED); [discriminate|exact stuck_parse|exact stuck_enable|exact stuck_state].
Defined.
