(* ===== verification/ListFacts.v ===== *)
(** * Theorems about listings: util/json.c, accfg/list.c

    [jt] is the logic of this file: from json-c's memory with a property, a run ends
    with another, and leaves the library's objects as they were, saved errors apart;
    its argument says when undefined behaviour is admitted. *)

From S2P Require Import Prelude CString Prog Types SimKernel Sysfs Param Tree Demo Device Wq Filter.
From S2P Require Import SysfsFacts ParamFacts DeviceFacts WqFacts ConfigAttr Json Commands JsonStore JsonUtil Listing Config ListCmd.
Local Open Scope string_scope.
Local Open Scope Z_scope.

(** ** The logic *)

Section logic.
Context {F : Type} `{KernelLaws F} {S : Type} `{JsonOutLaws S} (flt : Prop) (w0 : world F) (s0 : S).
Notation M := (prog (world F)).
Notation J := (prog (jstate F S)).

(** A call of the library that leaves its objects alone. *)
Definition still {A} (m : M A) (φ : A → Prop) : Prop := ∀ w, objs w = objs w0 →
  match m w with Done a w' => objs w' = objs w0 ∧ φ a | Exited _ _ => False | Fault => flt end.

Definition jtw {A} (P : jstate F S → Prop) (m : J A) (Q : A → jstate F S → Prop) : Prop :=
  ∀ j, objs (j_world j) = objs w0 → P j →
  match m j with
  | Done a j' => objs (j_world j') = objs w0 ∧ Q a j'
  | Exited _ _ => False
  | Fault => flt
  end.
Definition jt {A} (P : S → Prop) (m : J A) (Q : A → S → Prop) : Prop :=
  jtw (λ j, P (j_store j)) m (λ a j, Q a (j_store j)).

Lemma still_always {A} (m : M A) : always m → respects (on objs) m → still m (λ _, True).
Proof.
  intros Ha Hr w Hw. destruct (Ha w) as (a & w' & Hrun). rewrite Hrun.
  split; [|done]. rewrite <- Hw. by apply Hr in Hrun.
Qed.
Lemma still_wp {A} (m : M A) (φ : A → Prop) :
  (∀ w, objs w = objs w0 → wp m (λ a w', objs w' = objs w ∧ φ a) w) → still m φ.
Proof.
  intros Hm w Hw. specialize (Hm w Hw). unfold wp in Hm. destruct (m w); [|done..].
  destruct Hm as [-> ?]. by rewrite Hw.
Qed.
Lemma still_bind {A B} (m : M A) (k : A → M B) φ ψ :
  still m φ → (∀ a, φ a → still (k a) ψ) → still (m ≫= k) ψ.
Proof.
  intros Hm Hk w Hw. specialize (Hm w Hw). unfold mbind, prog_bind.
  destruct (m w) as [a w'| |]; [|done..]. destruct Hm. by apply Hk.
Qed.
Lemma still_ret {A} (a : A) (φ : A → Prop) : φ a → still (mret a) φ.
Proof. by intros Ha w Hw. Qed.
Lemma still_deref {A} (m : heap → gmap positive A) p x :
  (∀ h, m (erase_heap h) = m h) → m (hp w0) !! p = Some x → still (deref m p) (λ y, y = x).
Proof.
  intros Hm Hp w Hw. unfold deref, gets, must, mbind, prog_bind.
  assert (erase_heap (hp w) = erase_heap (hp w0)) as Hh by apply (f_equal (λ t, t.1.1) Hw).
  by rewrite <- Hm, Hh, Hm, Hp.
Qed.
Lemma still_get_wq p x : h_wqs (hp w0) !! p = Some x → still (get_wq p) (λ y, y = x).
Proof. by apply still_deref. Qed.
Lemma still_get_device p x : h_devices (hp w0) !! p = Some x → still (get_device p) (λ y, y = x).
Proof. by apply still_deref. Qed.
Lemma still_get_group p x : h_groups (hp w0) !! p = Some x → still (get_group p) (λ y, y = x).
Proof. by apply still_deref. Qed.

Lemma jt_ret {A} (a : A) (P : S → Prop) Q : (∀ s, P s → Q a s) → jt P (mret a) Q.
Proof. intros Ha j Hj HP. split; [done|]. by apply Ha. Qed.
Lemma jt_bind {A B} P (m : J A) (k : A → J B) Q R :
  jt P m Q → (∀ a, jt (Q a) (k a) R) → jt P (m ≫= k) R.
Proof.
  intros Hm Hk j Hj HP. specialize (Hm j Hj HP). unfold mbind, prog_bind.
  destruct (m j) as [a j'| |]; [|done..]. destruct Hm. by apply Hk.
Qed.
Lemma jtw_bind {A B} P (m : J A) (k : A → J B) Q R :
  jtw P m Q → (∀ a, jtw (Q a) (k a) R) → jtw P (m ≫= k) R.
Proof.
  intros Hm Hk j Hj HP. specialize (Hm j Hj HP). unfold mbind, prog_bind.
  destruct (m j) as [a j'| |]; [|done..]. destruct Hm. by apply Hk.
Qed.
Lemma jtw_weaken {A} (P P' : jstate F S → Prop) (m : J A) (Q Q' : A → jstate F S → Prop) :
  (∀ j, P' j → P j) → (∀ a j, Q a j → Q' a j) → jtw P m Q → jtw P' m Q'.
Proof.
  intros HP HQ Hm j Hj Hj'. specialize (Hm j Hj (HP _ Hj')). destruct (m j) as [a j'| |]; [|done..].
  destruct Hm as [? Ha]. split; [done|]. by apply HQ.
Qed.
(** A call of the library, run in [w0] itself. *)
Lemma jtw_lib_run {A B} P (m : M A) a (k : A → J B) Q :
  m w0 = Done a w0 → jtw (λ j, P j ∧ j_world j = w0) (k a) Q →
  jtw (λ j, P j ∧ j_world j = w0) (lib m ≫= k) Q.
Proof.
  intros Hm Hk j Hj [HP Hw]. specialize (Hk j Hj (conj HP Hw)).
  unfold lib, zoom, mbind, prog_bind. destruct j as [w s out]. simpl in *. subst w. rewrite Hm. exact Hk.
Qed.
(** A call of json-c leaves the world alone. *)
Lemma jt_world {A} w1 P (m : J A) Q :
  (∀ j, match m j with Done _ j' => j_world j' = j_world j | _ => True end) → jt P m Q →
  jtw (λ j, P (j_store j) ∧ j_world j = w1) m (λ a j, Q a (j_store j) ∧ j_world j = w1).
Proof.
  intros Hsame Hm j Hj [HP Hw]. specialize (Hm j Hj HP). specialize (Hsame j).
  destruct (m j) as [a j'| |]; [|done..]. destruct Hm. split_and!; [done..|]. congruence.
Qed.
Definition same_world : relation (jstate F S) := λ j j', j_world j' = j_world j.
#[export] Instance same_world_pre : PreOrder same_world.
Proof. split; [done|]. intros j1 j2 j3. unfold same_world. congruence. Qed.
Lemma same_world_lib {A} (m : M A) : respects eq m → respects same_world (lib m).
Proof.
  intros Hm j a j' Hrun. unfold lib, zoom in Hrun. destruct (m (j_world j)) as [b w| |] eqn:Hw; [|done..].
  injection Hrun as <- <-. apply Hm in Hw. by subst w.
Qed.
Lemma same_world_new n : respects same_world (json_new n).
Proof. intros j a j' Hrun. unfold json_new in Hrun. destruct (js_new _ _). by injection Hrun as <- <-. Qed.
Lemma same_world_do f : respects same_world (json_do f).
Proof. intros j a j' Hrun. unfold json_do in Hrun. destruct (f _); [|done]. by injection Hrun as <- <-. Qed.
Lemma jt_world_of {A} w1 P (m : J A) Q : respects same_world m → jt P m Q →
  jtw (λ j, P (j_store j) ∧ j_world j = w1) m (λ a j, Q a (j_store j) ∧ j_world j = w1).
Proof. intros Hw. apply jt_world. intros j. destruct (m j) as [a j'| |] eqn:Hm; [by apply Hw in Hm|done..]. Qed.
Lemma jt_mono {A} (P P' : S → Prop) (m : J A) (Q Q' : A → S → Prop) :
  (∀ s, P' s → P s) → (∀ a s, Q a s → Q' a s) → jt P m Q → jt P' m Q'.
Proof.
  intros HP HQ Hm j Hj Hj'. specialize (Hm j Hj (HP _ Hj')). destruct (m j) as [a j'| |]; [|done..].
  destruct Hm as [? Ha]. split; [done|]. by apply HQ.
Qed.
Lemma jt_lib {A} P (m : M A) φ : still m φ → jt P (lib m) (λ a s, φ a ∧ P s).
Proof.
  intros Hm j Hj HP. specialize (Hm _ Hj). unfold lib, zoom. destruct (m (j_world j)) as [a w| |]; [|done..].
  simpl. by destruct Hm.
Qed.
(** A call of the library whose result is known. *)
Lemma jt_lib_bind {A B} P (m : M A) φ (k : A → J B) R :
  still m φ → (∀ a, φ a → jt P (k a) R) → jt P (lib m ≫= k) R.
Proof.
  intros Hm Hk. eapply jt_bind; [by apply jt_lib|]. intros a j Hj [Ha HP]. by apply Hk.
Qed.
Lemma jt_pure {A} (φ : Prop) P (m : J A) Q : (φ → jt P m Q) → jt (λ s, φ ∧ P s) m Q.
Proof. intros Hm j Hj [Hφ HP]. by apply Hm. Qed.

(** ** An object being built

    [built s]: the object [o] has members with different names among [ks], each an
    object of which [ok] holds; and those of [ks] that it needs, unless memory ran
    out.  Memory came from [s0]. *)

Definition members_ok (ok : string → node → Prop) (o : positive) (ks : list string) (need : string → Prop)
    (full : Prop) (s : S) : Prop :=
  ∃ l, js_node s o = Some (NObject l) ∧ NoDup l.*1 ∧
    (∀ k v, (k, v) ∈ l → k ∈ ks ∧ v ≠ o ∧ ∃ n, js_node s v = Some n ∧ ok k n) ∧
    (∀ k, k ∈ ks → need k → k ∈ l.*1 ∨ full).
Definition built ok need o ks (s : S) : Prop := rtc js_step s0 s ∧ members_ok ok o ks need (js_short s0) s.
Notation mem_full := (js_short s0).

Section built.
Variables (ok : string → node → Prop) (need : string → Prop) (o : positive).
Implicit Types ks : list string.
Notation built := (built ok need o).

Lemma built_weaken ks k s : (need k → mem_full) → built ks s → built (ks ++ [k]) s.
Proof.
  intros Hfull (Hr & l & Ho & Hd & Hl & Hn). split; [done|]. exists l. split_and!; [done..| |].
  - intros k' v Hin. destruct (Hl _ _ Hin) as (Hk & Hv). split; [|done]. set_solver.
  - intros k' [Hin| ->%list_elem_of_singleton]%elem_of_app Hk'; [by apply Hn|]. right. by apply Hfull.
Qed.

(** Nothing but new objects, or what is not seen, changed. *)
Lemma built_same ks s s' : js_step s s' → built ks s →
  (∀ r, is_Some (js_node s r) → js_node s' r = js_node s r) → built ks s'.
Proof.
  intros Hst (Hr & l & Ho & Hd & Hl & Hn) Hsame. split; [by eapply rtc_r|].
  exists l. split_and!; [by rewrite Hsame; [|eexists]|done| |done].
  intros k v Hin. destruct (Hl _ _ Hin) as (Hk & Hv & n & Hn' & Hok). split_and!; [done..|].
  exists n. by rewrite Hsame; [|eexists].
Qed.

(** A new object leaves the one being built as it is. *)
Lemma jt_new ks n :
  jt (built ks) (json_new n) (λ r s, match r with
    | Some v => built ks s ∧ v ≠ o ∧ js_node s v = Some n
    | None => mem_full ∧ built ks s end).
Proof.
  intros j Hj Hb. unfold json_new. pose proof (step_new n (j_store j)) as Hst.
  destruct (js_new n (j_store j)) as [[v|] s'] eqn:Hn; simpl in *; (split; [done|]).
  - apply js_new_spec in Hn as (Hfresh & Hv & Honly). split_and!; [|destruct Hb as (_ & l & Ho & _); congruence|done].
    eapply built_same; [done..|]. intros r [n' Hr]. apply Honly. congruence.
  - destruct (Hb) as [Hr _]. split; [left; by eexists _, _, _|]. eapply built_same; [done..|].
    intros r _. by apply (js_new_null _ _ _ Hn).
Qed.

(** A new member. *)
Lemma jt_add ks k v n :
  k ∉ ks → v ≠ o → ok k n →
  jt (λ s, built ks s ∧ js_node s v = Some n) (json_object_object_add o k v)
    (λ _ s, built (ks ++ [k]) s ∧ js_node s v = Some n).
Proof.
  intros Hk Hvo Hok j Hj [(Hr & l & Ho & Hd & Hl & Hneed) Hv]. unfold json_object_object_add, json_do.
  assert (k ∉ l.*1) as Hkl.
  { intros [[k' v'] [-> Hin]]%list_elem_of_fmap. by apply Hk, (Hl _ _ Hin). }
  destruct (js_object_add_result o k v l (j_store j)) as (s' & Hs & Honly & Ho'); [done|by eexists|done|].
  rewrite Hs. simpl. split; [done|]. split; [|by rewrite Honly].
  destruct Ho' as [Ho'|Ho'].
  2: { apply built_weaken; [intros _; right; by eexists o, k, v, l, _, s'|].
       apply (built_same _ (j_store j)); [by eapply step_object_add|by split; [|exists l]|].
       intros r _. destruct (decide (r = o)) as [->|Hr']; [congruence|by apply Honly]. }
  split; [by eapply rtc_r, step_object_add|].
  exists (l ++ [(k, v)])%list. rewrite fmap_app. split_and!; [done| | |].
  - apply NoDup_app. split_and!; [done| |apply NoDup_singleton].
    intros k' Hk' ->%list_elem_of_singleton. done.
  - intros k' v' [Hin|[= -> ->]%list_elem_of_singleton]%elem_of_app.
    + destruct (Hl _ _ Hin) as (Hk' & Hv' & n' & Hn' & Hok'). split_and!; [set_solver|done|].
      exists n'. by rewrite Honly.
    + split_and!; [set_solver|done|]. exists n. by rewrite Honly.
  - intros k' [Hin| ->%list_elem_of_singleton]%elem_of_app Hk'; [|left; set_solver].
    destruct (Hneed _ Hin Hk'); [left; set_solver|by right].
Qed.

Lemma jt_ex {X A} (P : X → S → Prop) (m : J A) Q :
  (∀ x, jt (P x) m Q) → jt (λ s, ∃ x, P x s) m Q.
Proof. intros Hm j Hj [x HP]. by apply (Hm x). Qed.

(** The start: an object without members. *)
Lemma built_new s : js_new (NObject []) s0 = (Some o, s) → built [] s.
Proof.
  intros Hnew. pose proof (step_new (NObject []) s0) as Hst. rewrite Hnew in Hst.
  apply js_new_spec in Hnew as (_ & Ho & _). split; [by apply rtc_once|]. exists [].
  split_and!; [done|constructor|by intros k v []%elem_of_nil|by intros k []%elem_of_nil].
Qed.

(** A call that makes an object for the member [k]; a step of a list that adds it. *)
Definition makes ks k (new : J (option positive)) : Prop :=
  jt (built ks) new (λ r s, match r with
    | Some v => ∃ n, (ok k n ∧ v ≠ o) ∧ built ks s ∧ js_node s v = Some n
    | None => mem_full ∧ built ks s end).
Definition adds ks ks' (m : J bool) : Prop :=
  jt (built ks) m (λ b s, (b = false → mem_full) ∧ built ks' s).
Definition ends ks ks' (m : J bool) : Prop :=
  jt (built ks) m (λ b s, if b then built ks' s else mem_full).

Lemma makes_new ks k n : ok k n → makes ks k (json_new n).
Proof.
  intros Hok. eapply jt_mono; [intros s Hs; exact Hs| |apply jt_new].
  intros [v|] s; [|done]. intros (Hs & Hne & Hn). by exists n.
Qed.
Lemma makes_lib {A} ks k (m : M A) φ (new : A → J (option positive)) :
  still m φ → (∀ a, φ a → makes ks k (new a)) → makes ks k (a ← lib m; new a).
Proof. apply jt_lib_bind. Qed.
Lemma makes_string ks k t : ok k (NString t) → makes ks k (json_object_new_string (Some t)).
Proof. intros Hok. by apply makes_new. Qed.
Lemma makes_serialized ks k i f : ok k (NInt (s64 i)) → makes ks k (new_serialized i f).
Proof.
  intros Hok. unfold new_serialized. pose proof (makes_new ks k _ Hok) as Hm. unfold makes in Hm. eapply jt_bind; [exact Hm|].
  intros [v|]; [|apply jt_ret; done]. destruct f as [f|]; [|by apply jt_ret].
  apply jt_ex. intros n. apply jt_pure. intros [Hn Hne].
  eapply jt_bind with (λ _ s, ∃ n, (ok k n ∧ v ≠ o) ∧ built ks s ∧ js_node s v = Some n);
    [|intros []; by apply jt_ret].
  intros j Hj [Hb Hv]. unfold json_object_set_serializer, json_do.
  destruct (js_set_serializer_spec v f (j_store j)) as (s' & Hs & Hsame); [by eexists|]. rewrite Hs. simpl.
  split; [done|]. exists n. split_and!; [done..| |by rewrite Hsame].
  eapply built_same; [by eapply step_serializer|done|]. intros r _. apply Hsame.
Qed.

Lemma adds_member ks k new : k ∉ ks → makes ks k new → adds ks (ks ++ [k]) (member o k new).
Proof.
  intros Hk Hnew. unfold makes in Hnew. eapply jt_bind; [exact Hnew|]. intros [v|].
  - apply jt_ex. intros n. apply jt_pure. intros [Hn Hne].
    eapply jt_bind; [by apply jt_add|]. intros []. by apply jt_ret; intros s [Hs _].
  - apply jt_ret. intros s [Hfull Hs]. split; [done|]. by apply built_weaken.
Qed.
Lemma adds_nothing ks k : (need k → mem_full) → adds ks (ks ++ [k]) (mret true).
Proof. intros Hk. apply jt_ret. intros s Hs. split; [done|]. by apply built_weaken. Qed.
Lemma adds_try ks k new : k ∉ ks → makes ks k new → adds ks (ks ++ [k]) (try_member o k new).
Proof.
  intros Hk Hnew. pose proof (adds_member ks k new Hk Hnew) as Hm. unfold adds in Hm.
  eapply jt_bind; [exact Hm|]. intros b. apply jt_ret. by intros s [_ Hs].
Qed.
Lemma adds_when ks k b m :
  (b = false → ¬ need k) → (b = true → adds ks (ks ++ [k]) m) → adds ks (ks ++ [k]) (when b m).
Proof. destruct b; intros Hk Hm; [by apply Hm|]. apply adds_nothing. intros Hk'. by destruct (Hk eq_refl). Qed.
Lemma adds_lib {A} ks ks' (m : M A) φ (k : A → J bool) :
  still m φ → (∀ a, φ a → adds ks ks' (k a)) → adds ks ks' (a ← lib m; k a).
Proof. apply jt_lib_bind. Qed.

(** An [int] that is shown when it is not negative. *)
Lemma adds_ge0 ks k (v : M Z) φ :
  k ∉ ks → still v φ → (∀ a, φ a → 0 <= s32 a → ok k (NInt (s32 a))) → (∀ a, φ a → need k → 0 <= s32 a) →
  adds ks (ks ++ [k]) (member_ge0 o k v) ∧ adds ks (ks ++ [k]) (try_member_ge0 o k v).
Proof.
  intros Hk Hv Hok Hneed.
  assert (∀ a, s32 (s32 a) = s32 a) as Hs by (intros a; wrap_lia).
  split; (eapply adds_lib; [exact Hv|]); intros a Ha;
    (apply adds_when; [intros Hlt%Z.leb_gt Hn; specialize (Hneed _ Ha Hn); lia|]); intros Hge%Z.leb_le;
    [apply adds_member|apply adds_try]; [done| |done|]; apply makes_new; rewrite Hs; by apply Hok.
Qed.
Lemma ends_nil ks : ends ks ks (steps []).
Proof. by apply jt_ret. Qed.
Lemma steps_cons P ks1 ks' m l :
  jtw P m (λ (b : bool) j, if b then built ks1 (j_store j) else mem_full) → ends ks1 ks' (steps l) →
  jtw P (steps (m :: l)) (λ (b : bool) j, if b then built ks' (j_store j) else mem_full).
Proof. intros Hm Hl. eapply jtw_bind; [exact Hm|]. intros []; [exact Hl|]. by intros j Hj Hf. Qed.
Lemma steps_app_run l1 l2 (j : jstate F S) :
  steps (l1 ++ l2) j = (b ← steps l1; if b : bool then steps l2 else mret false) j.
Proof.
  revert j. induction l1 as [|m l1 IH]; intros j; [done|]. cbn [steps app]. unfold mbind, prog_bind in *.
  destruct (m j) as [[] j'| |]; [apply IH|done..].
Qed.
Lemma steps_app P R Q l1 l2 :
  jtw P (steps l1) (λ (b : bool) j, if b then R j else mem_full) →
  jtw R (steps l2) (λ (b : bool) j, if b then Q j else mem_full) →
  jtw P (steps (l1 ++ l2)) (λ (b : bool) j, if b then Q j else mem_full).
Proof.
  intros Hl1 Hl2 j Hj HP. rewrite steps_app_run. eapply (jtw_bind P); [exact Hl1| |done..].
  intros []; [exact Hl2|]. by intros j' Hj' Hf.
Qed.
Lemma adds_ends P ks1 m :
  jtw P m (λ b j, (b = false → mem_full) ∧ built ks1 (j_store j)) →
  jtw P m (λ (b : bool) j, if b then built ks1 (j_store j) else mem_full).
Proof. apply jtw_weaken; [done|]. intros [] j [Hf Hb]; [done|by apply Hf]. Qed.
Lemma ends_cons ks ks1 ks' m l : adds ks ks1 m → ends ks1 ks' (steps l) → ends ks ks' (steps (m :: l)).
Proof. intros Hm. apply steps_cons. by apply adds_ends. Qed.

(** The end: the object, or nothing for want of memory. *)
Lemma jtw_or_put P Q m :
  (mem_full → flt) → jtw P m (λ (b : bool) j, if b then Q j else mem_full) →
  jtw P (or_put o m) (λ (r : option positive) j, match r with Some p => p = o ∧ Q j | None => mem_full end).
Proof.
  intros Hflt Hm. eapply jtw_bind; [exact Hm|]. intros []; [by intros j Hj Hb|].
  intros j Hj Hfull. unfold json_object_put, json_do, mbind, prog_bind.
  destruct (js_put o (j_store j)); simpl; [done|by apply Hflt].
Qed.
End built.
End logic.

(** Membership of literal strings, by evaluation. *)
Ltac key := refine (bool_decide_unpack _ _); vm_compute; exact I.

Lemma one_of_in k l (ks : list string) : existsb (String.eqb k) l = true → Forall (λ k, k ∈ ks) l → k ∈ ks.
Proof.
  intros (k' & Hin & ->%String.eqb_eq)%existsb_exists. apply list_elem_of_In in Hin.
  rewrite Forall_forall. by auto.
Qed.

(** ** Queues: what save-config writes, load-config reads *)

(** [load-config] has a function for the attribute that takes such an object. *)
Definition loads {F} (table : list (set_table_entry (world F))) (k : string) (n : node) : Prop :=
  ∃ e, find_entry k table = Some e ∧
  match te_set e, n with
  | set_int_func _, NInt z => - 2 ^ 31 <= z < 2 ^ 31
  | set_long_func _, NInt _ => True
  | set_str_func _, NString _ => True
  | _, _ => False
  end.

(** The members of a queue's object, from the structure; the name again in the place of
    a mode that could not be read. *)
Inductive saved_wq (name : string) (x : accfg_wq) : string → node → Prop :=
  | sv_dev : saved_wq name x "dev" (NString name)
  | sv_mode t : t ∈ ["shared"; "dedicated"; name] → saved_wq name x "mode" (NString t)
  | sv_size : saved_wq name x "size" (NInt (w_size x))
  | sv_group_id : 0 <= w_group_id x → saved_wq name x "group_id" (NInt (w_group_id x))
  | sv_priority : 0 <= w_priority x → saved_wq name x "priority" (NInt (w_priority x))
  | sv_block_on_fault : saved_wq name x "block_on_fault" (NInt (w_block_on_fault x))
  | sv_max_batch_size : saved_wq name x "max_batch_size" (NInt (s32 (w_max_batch_size x)))
  | sv_max_transfer_size : saved_wq name x "max_transfer_size" (NInt (s64 (w_max_transfer_size x)))
  | sv_type : saved_wq name x "type" (NString (wq_type_str (w_type x)))
  | sv_name t : w_name x = Some t → saved_wq name x "name" (NString t)
  | sv_driver_name t : w_driver_name x = Some t → saved_wq name x "driver_name" (NString t)
  | sv_threshold : saved_wq name x "threshold" (NInt (s32 (w_threshold x)))
  | sv_prs_disable : 0 <= w_prs_disable x → saved_wq name x "prs_disable" (NInt (w_prs_disable x))
  | sv_ats_disable : saved_wq name x "ats_disable" (NInt (w_ats_disable x))
  | sv_op_config t : saved_wq name x "op_config" (NString t).

Definition int_range (z : Z) : Prop := - 2 ^ 31 <= z < 2 ^ 31.
Definition wq_ints (x : accfg_wq) : Prop :=
  int_range (w_size x) ∧ int_range (w_group_id x) ∧ int_range (w_priority x) ∧
  int_range (w_block_on_fault x) ∧ int_range (w_prs_disable x) ∧ int_range (w_ats_disable x).

Definition wq_keys : list string :=
  ["dev"; "mode"; "size"; "group_id"; "priority"; "block_on_fault"; "max_batch_size"; "max_transfer_size";
   "cdev_minor"; "type"; "name"; "driver_name"; "threshold"; "prs_disable"; "ats_disable"; "op_config"].

(** What the mode is shown as. *)
Definition mode_text (name : string) (m : Z) : string :=
  if m =? ACCFG_WQ_SHARED then "shared" else if m =? ACCFG_WQ_DEDICATED then "dedicated" else name.

(** The members, given the mode [m] and the operations [oc] that were read. *)
Definition wq_member (name : string) (x : accfg_wq) (m : Z) (oc : Z * list Z) (k : string) (n : node) : Prop :=
  saved_wq name x k n ∧ (k = "mode" → n = NString (mode_text name m)) ∧
  (k = "op_config" → oc.1 = 0 ∧ n = NString (String.concat "," (map print_08x oc.2))).

(** The members that are always there. *)
Definition wq_needs (x : accfg_wq) (k : string) : Prop :=
  if existsb (String.eqb k) ["dev"; "mode"; "block_on_fault"; "max_batch_size"; "max_transfer_size"; "type"; "name";
                             "threshold"; "ats_disable"] then True
  else if String.eqb k "size" then w_size x ≠ -1
  else if String.eqb k "group_id" then 0 <= w_group_id x
  else if String.eqb k "priority" then 0 <= w_priority x
  else if String.eqb k "prs_disable" then 0 <= w_prs_disable x
  else if String.eqb k "driver_name" then is_Some (w_driver_name x)
  else False.

Definition wq_must (x : accfg_wq) (oc : Z * list Z) (k : string) : Prop :=
  wq_needs x k ∨ k = "op_config" ∧ oc.1 = 0.

Lemma saved_wq_loads {F} `{Kernel F} name x k n :
  wq_ints x → saved_wq name x k n → k = "dev" ∨ loads (F := F) wq_table k n.
Proof.
  intros (H1 & H2 & H3 & H4 & H5 & H6) [];
    first [by left | right; eexists; split; [reflexivity|]; simpl; first [exact I|done|wrap_lia]].
Qed.

Lemma wq_ok_objs {F} wq x d c name (w w' : world F) :
  objs w' = objs w → wq_ok wq x d c name (hp w) → ∃ c', wq_ok wq x d c' name (hp w').
Proof.
  intros Ho (Hw & Hd & Hc & Hrest). pose proof (f_equal (λ t, t.1.1) Ho) as Hh. simpl in Hh.
  assert (h_wqs (hp w') = h_wqs (hp w)) as Hw' by apply (f_equal h_wqs Hh).
  assert (h_devices (hp w') = h_devices (hp w)) as Hd' by apply (f_equal h_devices Hh).
  pose proof (f_equal (λ h, h_ctxs h !! d_ctx d) Hh) as Hc'. simpl in Hc'. rewrite !lookup_fmap, Hc in Hc'.
  destruct (h_ctxs (hp w') !! d_ctx d) as [c'|] eqn:Hc2; [|done].
  exists c'. unfold wq_ok. by rewrite Hw', Hd', Hc2.
Qed.

Section wq.
Context {F : Type} `{KernelLaws F} {S : Type} `{JsonOutLaws S} (flt : Prop) (w0 : world F) (s0 : S).
Variables (wq : positive) (x : accfg_wq) (d : accfg_device) (c : accfg_ctx) (name : string).
Hypothesis Hok : wq_ok wq x d c name (hp w0).
Hypothesis Hints : wq_ints x.
Hypothesis Hname : w_name x = None → flt.
(** The mode and the operations, read after the state. *)
Variables (m : Z) (oc : Z * list Z) (w2 w3 : world F).
Hypothesis Hmode : ∀ m' w', accfg_wq_get_mode wq w0 = Done m' w' → m' = m ∧ w' = w2.
Hypothesis Hoc : accfg_wq_get_op_config (Some wq) w2 = Done oc w3.
Hypothesis Hw3 : objs w3 = objs w0.
Notation M := (prog (world F)).
Notation J := (prog (jstate F S)).
Notation still := (still flt w0).
Notation adds := (adds flt w0 s0 (wq_member name x m oc) (wq_must x oc)).
Notation makes := (makes flt w0 s0 (wq_member name x m oc) (wq_must x oc)).
Notation ends := (ends flt w0 s0 (wq_member name x m oc) (wq_must x oc)).

Lemma still_wq : still (get_wq wq) (λ y, y = x).
Proof. apply still_get_wq, Hok. Qed.
Lemma still_dev : still (get_device (w_device x)) (λ y, y = d).
Proof. apply still_get_device, Hok. Qed.

Lemma still_get {A} (f : accfg_wq → A) : still (y ← get_wq wq; mret (f y)) (λ v, v = f x).
Proof. eapply still_bind; [apply still_wq|]. intros y ->. by apply still_ret. Qed.

Lemma still_field f : still (accfg_wq_get_field f wq) (λ v, v = s32 (wq_field_get f x)).
Proof. apply (still_get (λ y, s32 (wq_field_get f y))). Qed.
Lemma still_name : still (accfg_wq_get_devname wq) (λ n, n = name).
Proof.
  eapply still_bind; [apply still_wq|]. intros y ->. unfold devpath_to_devname.
  destruct Hok as (_ & _ & _ & _ & -> & _). by apply still_ret.
Qed.
Lemma still_op_config : still (accfg_wq_get_op_config (Some wq)) (λ _, True).
Proof.
  eapply still_bind; [apply still_wq|]. intros y ->. eapply still_bind; [apply still_dev|]. intros y ->.
  apply still_always; [always|frame].
Qed.

Ltac unneeded := let H := fresh in intros [H|[H _]]; [unfold wq_needs in H; simpl in H; tauto|discriminate].
Ltac plain := split_and!; [by constructor|discriminate|discriminate].
Ltac plainly := intros [Hneed|[Hneed _]]; [|discriminate].

(** A number that is shown when it is not negative, and one that always is. *)
Ltac shown := eapply adds_ge0; [key|apply still_field| |]; simpl; intros a ->;
  rewrite !s32_id by wrap_lia; [intros; plain|by plainly].
Ltac number := apply adds_try; [key|]; unfold new_int;
  eapply makes_lib; [apply still_field || apply (still_get w_max_batch_size)|]; simpl; intros a ->; apply makes_new.

(** The members that come from the structure alone. *)
Definition wq_plain (o : positive) (flags : Z) : list (J bool) := take 13 (wq_members wq o flags).

Lemma wq_plain_end o flags : has_flag flags UTIL_JSON_SAVE = true →
  ends o ["dev"; "mode"] (take 15 wq_keys) (steps (wq_plain o flags)).
Proof.
  intros Hflags. destruct Hints as (R1 & R2 & R3 & R4 & R5 & R6). unfold int_range in *.
  unfold wq_plain, wq_members. rewrite Hflags. cbn [take].
  eapply ends_cons.
  { eapply adds_lib; [apply (still_get (λ y, u64 (w_size y)))|]. intros a ->. apply adds_when with (k := "size").
    - intros Hlt%Z.ltb_ge. plainly. unfold wq_needs in Hneed. simpl in Hneed. wrap_lia.
    - intros _. apply adds_try; [key|]. apply makes_serialized.
      replace (s64 (u64 (w_size x))) with (w_size x) by wrap_lia. plain. }
  eapply ends_cons; [shown|]. eapply ends_cons; [shown|].
  assert (∀ v, s32 (s32 v) = s32 v) as Hs by (intros v; wrap_lia).
  eapply ends_cons; [number; rewrite !s32_id by wrap_lia; plain|].
  eapply ends_cons; [number; plain|].
  eapply ends_cons; [apply adds_try; [key|]; eapply makes_lib; [apply (still_get w_max_transfer_size)|]; intros v ->; apply makes_new; plain|].
  eapply ends_cons; [apply adds_nothing with (k := "cdev_minor"); unneeded|].
  eapply ends_cons.
  { apply adds_try; [key|]. eapply makes_lib; [apply (still_get w_type)|]. intros t ->. apply makes_string. plain. }
  eapply ends_cons.
  { apply adds_try; [key|]. eapply makes_lib; [apply (still_get w_name)|].
    intros n ->. destruct (w_name x) as [t|] eqn:Ht; [apply makes_string; plain|].
    intros j Hj _. by apply Hname. }
  eapply ends_cons.
  { eapply adds_lib; [apply (still_get w_driver_name)|]. intros n ->.
    destruct (w_driver_name x) as [n|] eqn:Hn.
    - apply adds_try; [key|]. apply makes_string. plain.
    - apply adds_nothing with (k := "driver_name"). plainly. unfold wq_needs in Hneed. simpl in Hneed.
      rewrite Hn in Hneed. by destruct Hneed. }
  eapply ends_cons; [number; rewrite Hs; plain|]. eapply ends_cons; [shown|].
  eapply ends_cons; [number; rewrite !s32_id by wrap_lia; plain|].
  apply ends_nil.
Qed.

#[local] Hint Resolve same_world_new same_world_do : frame.
Lemma wq_plain_world o flags : has_flag flags UTIL_JSON_SAVE = true →
  respects same_world (steps (wq_plain o flags)).
Proof.
  intros Hflags. unfold wq_plain, wq_members. rewrite Hflags. cbn [take steps].
  assert (∀ A (f : accfg_wq → A), respects same_world (lib (S := S) (y ← get_wq (F := F) wq; mret (f y)))) as Hget.
  { intros A f. apply same_world_lib. unfold get_wq, deref. frame. }
  assert (∀ f, respects same_world (lib (S := S) (accfg_wq_get_field (F := F) f wq))) as Hfield
    by (intros f; apply Hget).
  unfold accfg_wq_get_size, accfg_wq_get_max_batch_size, accfg_wq_get_max_transfer_size, accfg_wq_get_type,
    accfg_wq_get_type_name, accfg_wq_get_driver_name, accfg_wq_get_group_id, accfg_wq_get_priority,
    accfg_wq_get_block_on_fault, accfg_wq_get_threshold, accfg_wq_get_prs_disable, accfg_wq_get_ats_disable,
    try_member_ge0, try_member, member, when, new_int, util_json_object_size, new_serialized, json_object_new_int,
    json_object_new_int64, json_object_new_string, json_object_object_add, json_object_set_serializer.
  frame.
Qed.

Lemma get_mode_ends (w w' : world F) e : accfg_wq_get_mode wq w ≠ Exited e w'.
Proof.
  unfold accfg_wq_get_mode, get_wq, get_device, deref, gets, must, mbind, prog_bind.
  destruct (h_wqs _ !! _) as [y|]; [|done]. simpl. destruct (h_devices _ !! _); [|done]. simpl.
  destruct (a_open O_PATH (w_wq_path y) w) as ([dfd|] & w1 & ->); [|done].
  destruct (a_get_str dfd "mode" w1) as ([m1|] & w4 & ->); done.
Qed.
Lemma get_mode_objs : respects (on objs) (accfg_wq_get_mode (F := F) wq).
Proof. unfold accfg_wq_get_mode. frame. Qed.

Section named.
Variable o : positive.
Notation ok := (wq_member name x m oc).
Notation B := (built s0 ok (wq_must x oc) o).

(** The object that will be the mode's, with a text already there. *)
Definition mode_object (t : string) (r : option positive) (s : S) : Prop :=
  B ["dev"] s ∧ match r with
  | Some v => v ≠ o ∧ js_node s v = Some (NString t)
  | None => js_short s0
  end.

Lemma mode_step w r (b : bool) t t' :
  jtw flt w0 (λ j, mode_object t' r (j_store j) ∧ j_world j = w)
    (if b then json_object_new_string (Some t) else mret r)
    (λ r j, mode_object (if b then t else t') r (j_store j) ∧ j_world j = w).
Proof.
  apply (jt_world_of flt w0 w (mode_object t' r) _ (mode_object (if b then t else t'))).
  { destruct b; [apply same_world_new|by intros j a j' [= _ <-]]. }
  destruct b; [|by apply jt_ret].
  eapply jt_mono; [| |apply (jt_new _ _ s0 ok (wq_must x oc) o ["dev"] (NString t))].
  - by intros s [Hb _].
  - intros [v|] s; by intros (? & ?).
Qed.

Lemma add_mode w r :
  jtw flt w0 (λ j, mode_object (mode_text name m) r (j_store j) ∧ j_world j = w)
    (match r with Some v => json_object_object_add o "mode" v;; mret true | None => mret false end)
    (λ (b : bool) j, if b then B ["dev"; "mode"] (j_store j) ∧ j_world j = w else js_short s0).
Proof.
  destruct r as [v|].
  - eapply jtw_bind with (λ _ j, B ["dev"; "mode"] (j_store j) ∧ j_world j = w);
      [|intros [] j Hj HP; by split].
    apply (jt_world_of flt w0 w (mode_object (mode_text name m) (Some v)) _ (λ _, B ["dev"; "mode"]));
      [apply same_world_do|].
    intros j Hj (Hb & Hne & Hn).
    assert (ok "mode" (NString (mode_text name m))) as Hok'.
    { split_and!; [|done|discriminate]. constructor. unfold mode_text. repeat case_match; set_solver. }
    pose proof (jt_add flt w0 s0 ok (wq_must x oc) o ["dev"] "mode" v _ ltac:(key) Hne Hok' j Hj (conj Hb Hn)) as Hadd.
    destruct (json_object_object_add _ _ _ _); [|done..]. by destruct Hadd as (? & ? & _).
  - intros j Hj [[Hb Hf] _]. by split.
Qed.

(** The name's object, made and added in the world [w0]. *)
Definition dev_object (v : positive) (s : S) : Prop := v ≠ o ∧ js_node s v = Some (NString name).

Lemma make_dev :
  jtw flt w0 (λ j, B [] (j_store j) ∧ j_world j = w0) (json_object_new_string (Some name))
    (λ r j, match r with
       | Some v => B [] (j_store j) ∧ dev_object v (j_store j)
       | None => js_short s0 ∧ B [] (j_store j)
       end ∧ j_world j = w0).
Proof.
  apply (jt_world_of _ _ _ (B []) _ (λ r s, match r with
    Some v => B [] s ∧ dev_object v s | None => js_short s0 ∧ B [] s end)); [apply same_world_new|].
  apply jt_new.
Qed.

Lemma add_dev v :
  jtw flt w0 (λ j, (B [] (j_store j) ∧ dev_object v (j_store j)) ∧ j_world j = w0)
    (json_object_object_add o "dev" v) (λ _ j, mode_object name (Some v) (j_store j) ∧ j_world j = w0).
Proof.
  apply (jt_world_of _ _ _ (λ s, B [] s ∧ dev_object v s) _ (λ _ s, mode_object name (Some v) s));
    [apply same_world_do|].
  intros j Hj (Hb & Hne & Hn).
  assert (ok "dev" (NString name)) as Hok' by (split_and!; [constructor|discriminate|discriminate]).
  pose proof (jt_add flt w0 s0 ok (wq_must x oc) o [] "dev" v _ ltac:(key) Hne Hok' j Hj (conj Hb Hn)) as Hadd.
  destruct (json_object_object_add _ _ _ _); [|done..]. by destruct Hadd as (? & ? & ?).
Qed.

Lemma get_dev_run : accfg_wq_get_devname wq w0 = Done name w0.
Proof.
  destruct Hok as (Hw & _ & _ & _ & Hn & _).
  unfold accfg_wq_get_devname, get_wq, deref, gets, must, mbind, prog_bind. rewrite Hw. simpl.
  unfold devpath_to_devname. by rewrite Hn.
Qed.

(** The mode is read in the world the state was read in. *)
Definition mode_read : Prop := accfg_wq_get_mode wq w0 = Done m w2.

Lemma wq_named_end :
  (accfg_wq_get_mode wq w0 = Fault → flt) →
  jtw flt w0 (λ j, B [] (j_store j) ∧ j_world j = w0) (wq_named wq o)
    (λ (b : bool) j, if b then mode_read ∧ B ["dev"; "mode"] (j_store j) ∧ j_world j = w2 else js_short s0).
Proof.
  intros Hflt. unfold wq_named. eapply jtw_lib_run; [apply get_dev_run|].
  eapply jtw_bind; [apply make_dev|]. intros [v|]; [|by intros j Hj [[Hf Hb] _]].
  eapply jtw_bind; [apply add_dev|].
  intros []. eapply jtw_bind with (λ m' j, (mode_read ∧ m' = m) ∧ mode_object name (Some v) (j_store j) ∧ j_world j = w2).
  { intros j Hj [Hv Hw]. unfold lib, zoom. rewrite Hw.
    destruct (accfg_wq_get_mode wq w0) as [m' w'|e w'|] eqn:Hm; simpl.
    - destruct (Hmode _ _ eq_refl) as [-> ->]. by split; [apply get_mode_objs in Hm|].
    - by apply get_mode_ends in Hm.
    - by apply Hflt. }
  intros m'. intros j Hj [[Hread ->] HP]. revert j Hj HP.
  change (jtw flt w0 (λ j, mode_object name (Some v) (j_store j) ∧ j_world j = w2)
    (jobj ← if m =? 0 then json_object_new_string (Some "shared") else mret (Some v);
     jobj ← if m =? 1 then json_object_new_string (Some "dedicated") else mret jobj;
     match jobj with None => mret false | Some o' => json_object_object_add o "mode" o';; mret true end)
    (λ (b : bool) j, if b then mode_read ∧ B ["dev"; "mode"] (j_store j) ∧ j_world j = w2 else js_short s0)).
  eapply jtw_bind; [apply mode_step|]. intros r. eapply jtw_bind; [apply mode_step|]. intros r'.
  eapply jtw_weaken; [| |apply add_mode].
  - intros j [Hr Hw]. split; [|exact Hw]. unfold mode_text, ACCFG_WQ_SHARED, ACCFG_WQ_DEDICATED.
    destruct (Z.eqb_spec m 0) as [->|]; exact Hr.
  - intros [] j; [by intros [? ?]|done].
Qed.

(** The operations are read in the world the mode was read in. *)
Lemma op_config_end ks : "op_config" ∉ ks →
  jtw flt w0 (λ j, B ks (j_store j) ∧ j_world j = w2)
    (member_bits o "op_config" (accfg_wq_get_op_config (Some wq)) (λ _, true))
    (λ b j, (b = false → js_short s0) ∧ B (ks ++ ["op_config"]) (j_store j)).
Proof.
  intros Hk. eapply jtw_bind with (λ r j, r = oc ∧ B ks (j_store j)).
  { intros j Hj [Hb Hw]. unfold lib, zoom. rewrite Hw, Hoc. simpl. done. }
  intros oc' j Hj [-> Hb]. destruct oc as [rc bits] eqn:Hoc'. simpl. rewrite andb_true_r.
  assert (adds o ks (ks ++ ["op_config"]) (when (rc =? 0) (member o "op_config" (util_bitmask_to_string bits)))) as Ha.
  { apply adds_when.
    - intros Hrc%Z.eqb_neq [Hn|[_ Hn]]; [unfold wq_needs in Hn; simpl in Hn; tauto|]. by rewrite Hoc' in Hn.
    - intros Hrc%Z.eqb_eq. apply adds_member; [done|]. apply makes_string. split_and!; [constructor|discriminate|].
      by rewrite Hoc'. }
  unfold adds in Ha. rewrite Hoc' in Ha. by apply Ha.
Qed.

Lemma wq_steps_end flags : has_flag flags UTIL_JSON_SAVE = true → (accfg_wq_get_mode wq w0 = Fault → flt) →
  jtw flt w0 (λ j, B [] (j_store j) ∧ j_world j = w0) (steps (wq_named wq o :: wq_members wq o flags))
    (λ (b : bool) j, if b then mode_read ∧ B wq_keys (j_store j) else js_short s0).
Proof.
  intros Hflags Hflt. eapply jtw_bind; [by apply wq_named_end|]. intros []; [|by intros j Hj Hf].
  intros j Hj [Hread HP]. revert j Hj HP.
  change (jtw flt w0 (λ j, B ["dev"; "mode"] (j_store j) ∧ j_world j = w2)
    (steps (wq_plain o flags ++ [member_bits o "op_config" (accfg_wq_get_op_config (Some wq)) (λ _, true)]))
    (λ (b : bool) j, if b then mode_read ∧ B wq_keys (j_store j) else js_short s0)).
  eapply steps_app with (R := λ j, B (take 15 wq_keys) (j_store j) ∧ j_world j = w2).
  - eapply jtw_weaken; [intros j Hj; exact Hj| |apply (jt_world_of flt w0 w2 (B ["dev"; "mode"]) _
      (λ (b : bool) s, if b then B (take 15 wq_keys) s else js_short s0));
      [by apply wq_plain_world|by apply wq_plain_end]].
    intros [] j [Hb Hw]; [by split|exact Hb].
  - eapply jtw_bind; [apply adds_ends, op_config_end; key|]. intros [] j Hj HP; by split.
Qed.
End named.
End wq.

Lemma wq_needs_key x k : wq_needs x k → k ∈ wq_keys.
Proof.
  unfold wq_needs. destruct (existsb _ _) eqn:Hk.
  - intros _. eapply one_of_in; [exact Hk|]. repeat constructor; key.
  - repeat match goal with |- context [String.eqb k ?s] => destruct (String.eqb_spec k s) as [->|] end;
      intros; first [done|key].
Qed.

Section saved.
Context {F : Type} `{KernelLaws F} {S : Type} `{JsonOutLaws S}.
Notation J := (prog (jstate F S)).

(** The object of a queue holds what it must, and nothing load-config would not take. *)
Definition wq_saved (name : string) (x : accfg_wq) (m : Z) (oc : Z * list Z) (s0 s : S) (o : positive) : Prop :=
  ∃ l, js_node s o = Some (NObject l) ∧ NoDup l.*1 ∧
    (∀ k v, (k, v) ∈ l → ∃ n, js_node s v = Some n ∧ wq_member name x m oc k n ∧
      (k = "dev" ∨ loads (F := F) wq_table k n)) ∧
    (∀ k, wq_must x oc k → k ∈ l.*1 ∨ js_short s0).

Lemma built_saved name x m oc s0 s o : wq_ints x →
  built s0 (wq_member name x m oc) (wq_must x oc) o wq_keys s → wq_saved name x m oc s0 s o.
Proof.
  intros Hints (_ & l & Ho & Hd & Hl & Hn). exists l. split_and!; [done..| |].
  - intros k v Hin. destruct (Hl _ _ Hin) as (_ & _ & n & Hv & Hs). exists n. split_and!; [done..|].
    destruct Hs as [Hs _]. by eapply saved_wq_loads.
  - intros k Hk. apply Hn; [|done]. destruct Hk as [Hk|[-> _]]; [by eapply wq_needs_key|key].
Qed.

Lemma get_op_config_run wq x d c name (w : world F) :
  wq_ok wq x d c name (hp w) → ∃ oc w', accfg_wq_get_op_config (Some wq) w = Done oc w' ∧ objs w' = objs w.
Proof.
  intros Hok. pose proof (still_op_config False w wq x d c name Hok w eq_refl) as Hrun.
  destruct (accfg_wq_get_op_config _ w) as [oc w'| |]; [|done..]. destruct Hrun. by exists oc, w'.
Qed.

#[local] Arguments accfg_wq_get_op_config : simpl never.

(** C17: what save-config writes of a work queue is what load-config reads: every member of its
    object but the name is an attribute load-config has a function for, of the type
    that function takes, with the value the library holds.  The mode is "shared" or
    "dedicated" as it was just read, and the operations are there when they could be
    read, with their eight words.  No attribute is left out unless memory runs out,
    for an object of json-c or for an entry of one.  A queue that is not shown is the
    only other result; undefined behaviour comes from a mode that cannot be read, from a queue
    without a name, or on the way out when there is no memory.  The queue is one the
    library built ([wq_ok]), with int members in the range of int. *)
Theorem util_wq_to_json_saved wq x d c name flags (j : jstate F S) :
  wq_ok wq x d c name (hp (j_world j)) → wq_ints x →
  has_flag flags UTIL_JSON_SAVE = true →
  ∃ st w1, accfg_wq_get_state wq (j_world j) = Done st w1 ∧
  match util_wq_to_json wq flags j with
  | Done (Some o) j' => ∃ m w2 oc w3,
      accfg_wq_get_mode wq w1 = Done m w2 ∧ accfg_wq_get_op_config (Some wq) w2 = Done oc w3 ∧
      wq_saved name x m oc (j_store j) (j_store j') o
  | Done None _ => js_short (j_store j) ∨
      st ≠ ACCFG_WQ_ENABLED ∧ st ≠ ACCFG_WQ_LOCKED ∧ has_flag flags UTIL_JSON_IDLE = false
  | Exited _ _ => False
  | Fault => js_short (j_store j) ∨ accfg_wq_get_mode wq w1 = Fault ∨ w_name x = None
  end.
Proof.
  intros Hok Hints Hflags. pose proof (wp_get_state _ _ _ _ _ _ Hok) as Hst.
  apply wp_Done in Hst as (st & w1 & Hst & Hobjs & _). exists st, w1. split; [done|].
  unfold util_wq_to_json, mbind, prog_bind, json_object_new_object, json_new.
  destruct j as [w s out]. simpl in *.
  destruct (js_new (NObject []) s) as [[o|] s1] eqn:Hnew; simpl in *; [|left; left; by eexists _, _, _].
  unfold lib at 1, zoom. simpl. rewrite Hst. simpl.
  destruct (_ && _ && _) eqn:Hidle.
  { apply js_new_spec in Hnew as (_ & Ho & _).
    unfold json_object_put, json_do. simpl. destruct (js_put_spec o s1 Ho) as [s2 ->]. simpl. right.
    apply andb_true_iff in Hidle as [[H1' H2']%andb_true_iff H3'].
    apply negb_true_iff, bool_decide_eq_false in H1', H2'. by apply negb_true_iff in H3'. }
  destruct (wq_ok_objs _ _ _ _ _ _ _ Hobjs Hok) as [c' Hok'].
  set (r := match accfg_wq_get_mode wq w1 with Done m w2 => (m, w2) | _ => (0, w1) end).
  assert (∀ m' w', accfg_wq_get_mode wq w1 = Done m' w' → m' = r.1 ∧ w' = r.2) as Hmode
    by (intros m' w' Hm; unfold r; by rewrite Hm).
  assert (objs r.2 = objs w1) as Hr.
  { unfold r. destruct (accfg_wq_get_mode wq w1) as [m' w'| |] eqn:Hm; [|done..].
    by apply get_mode_objs in Hm. }
  destruct (wq_ok_objs _ _ _ _ _ _ _ Hr Hok') as [c'' Hok''].
  destruct (get_op_config_run _ _ _ _ _ _ Hok'') as (oc & w3 & Hoc & Hw3).
  assert (jtw (js_short s ∨ accfg_wq_get_mode wq w1 = Fault ∨ w_name x = None) w1 (λ j, built s (wq_member name x r.1 oc) (wq_must x oc) o [] (j_store j) ∧ j_world j = w1)
    (or_put o (steps (wq_named wq o :: wq_members wq o flags ++
      (if has_flag flags UTIL_JSON_SAVE then [] else wq_listed wq o st))))
    (λ (p : option positive) j, match p with
       | Some p => p = o ∧ mode_read w1 wq r.1 r.2 ∧ built s (wq_member name x r.1 oc) (wq_must x oc) o wq_keys (j_store j)
       | None => js_short s end)) as Hrun.
  { rewrite Hflags, app_nil_r. apply jtw_or_put; [by left|]. eapply wq_steps_end; [exact Hok'|done| | |exact Hoc| |done|].
    - by right; right.
    - exact Hmode.
    - by rewrite Hw3.
    - by right; left. }
  specialize (Hrun (JState w1 s1 out) eq_refl (conj (built_new _ _ _ _ _ Hnew) eq_refl)).
  set (run := or_put o _ _) in Hrun. match goal with |- match ?t with _ => _ end => change t with run end.
  destruct run as [[p|] j'|e j'|]; [|by left; destruct Hrun|done|exact Hrun].
  destruct Hrun as (_ & -> & Hread & Hb). exists r.1, r.2, oc, w3. split_and!; [done..|].
  by apply built_saved.
Qed.
End saved.

(** ** Groups: what save-config leaves out *)

Inductive saved_group (name : string) (iax : bool) (g : accfg_group) : string → node → Prop :=
  | sg_dev : saved_group name iax g "dev" (NString name)
  | sg_reserved : iax = false →
      saved_group name iax g "read_buffers_reserved" (NInt (s32 (g_read_buffers_reserved g)))
  | sg_limit : iax = false →
      saved_group name iax g "use_read_buffer_limit" (NInt (s32 (g_use_read_buffer_limit g)))
  | sg_allowed : iax = false →
      saved_group name iax g "read_buffers_allowed" (NInt (s32 (g_read_buffers_allowed g)))
  | sg_desc : 0 <= s32 (g_desc_progress_limit g) →
      saved_group name iax g "desc_progress_limit" (NInt (s32 (g_desc_progress_limit g)))
  | sg_batch : 0 <= s32 (g_batch_progress_limit g) →
      saved_group name iax g "batch_progress_limit" (NInt (s32 (g_batch_progress_limit g))).

Definition group_needs (iax : bool) (g : accfg_group) (k : string) : Prop :=
  if String.eqb k "dev" then True
  else if existsb (String.eqb k) ["read_buffers_reserved"; "use_read_buffer_limit"; "read_buffers_allowed"] then iax = false
  else if String.eqb k "desc_progress_limit" then 0 <= s32 (g_desc_progress_limit g)
  else if String.eqb k "batch_progress_limit" then 0 <= s32 (g_batch_progress_limit g)
  else False.
Definition group_keys : list string :=
  ["dev"; "read_buffers_reserved"; "use_read_buffer_limit"; "read_buffers_allowed"; "desc_progress_limit";
   "batch_progress_limit"].

Lemma saved_group_loads {F} `{Kernel F} name iax g k n :
  saved_group name iax g k n → k = "dev" ∨ loads (F := F) group_table k n.
Proof.
  assert (∀ v, - 2 ^ 31 <= s32 v < 2 ^ 31) as Hr by apply s32_range.
  intros []; first [by left | right; eexists; split; [reflexivity|]; simpl; apply Hr].
Qed.

Section group.
Context {F : Type} `{KernelLaws F} {S : Type} `{JsonOutLaws S} (flt : Prop) (w0 : world F) (s0 : S).
Variables (group : positive) (g : accfg_group) (d : accfg_device) (name : string).
Hypothesis Hg : h_groups (hp w0) !! group = Some g.
Hypothesis Hd : h_devices (hp w0) !! g_device g = Some d.
Hypothesis Hname : after_last slash (g_group_path g) = Some name.
Notation iax := (d_type d =? ACCFG_DEVICE_IAX).
Notation ends_of := ends.
Notation ends o := (ends flt w0 s0 (saved_group name iax g) (group_needs iax g) o).
Notation adds o := (adds flt w0 s0 (saved_group name iax g) (group_needs iax g) o).

Lemma still_group_field f : still flt w0 (accfg_group_get_field f group) (λ v, v = s32 (group_field_get f g)).
Proof. eapply still_bind; [by apply still_get_group|]. intros y ->. by apply still_ret. Qed.

Lemma group_buffers_end o :
  ends_of flt w0 s0 (saved_group name false g) (group_needs false g) o
    ["dev"] ["dev"; "read_buffers_reserved"; "use_read_buffer_limit"; "read_buffers_allowed"]
    (steps (group_buffers group o)).
Proof.
  assert (∀ v, s32 (s32 v) = s32 v) as Hs by (intros v; wrap_lia).
  do 3 (eapply ends_cons; [apply adds_member; [key|]; unfold new_int; eapply makes_lib; [apply still_group_field|];
    intros v ->; apply makes_new; rewrite Hs; by constructor|]).
  apply ends_nil.
Qed.

Lemma group_limits_end o :
  ends o ["dev"; "read_buffers_reserved"; "use_read_buffer_limit"; "read_buffers_allowed"] group_keys
    (steps (group_limits group o)).
Proof.
  assert (∀ v, s32 (s32 v) = s32 v) as Hs by (intros v; wrap_lia).
  do 2 (eapply ends_cons; [eapply adds_ge0; [key|apply still_group_field|intros v -> Hv; rewrite Hs in Hv |- *; by constructor|
    intros v -> Hv; by rewrite Hs]|]).
  apply ends_nil.
Qed.

Lemma group_middle_end o :
  ends o ["dev"] ["dev"; "read_buffers_reserved"; "use_read_buffer_limit"; "read_buffers_allowed"]
    (type ← lib (accfg_device_get_type (g_device g));
     if negb (type =? ACCFG_DEVICE_IAX) then steps (group_buffers group o) else mret true).
Proof.
  unfold ends. eapply jt_lib_bind with (φ := λ t, t = d_type d).
  { eapply still_bind; [by apply still_get_device|]. intros y ->. by apply still_ret. }
  intros t ->. destruct iax eqn:Ht; simpl.
  - apply jt_ret. intros s Hb. apply (built_weaken _ _ _ _ ["dev"] "read_buffers_reserved") in Hb; [|done].
    apply (built_weaken _ _ _ _ _ "use_read_buffer_limit") in Hb; [|done].
    by apply (built_weaken _ _ _ _ _ "read_buffers_allowed") in Hb.
  - apply group_buffers_end.
Qed.

Lemma still_group_name : still flt w0 (accfg_group_get_devname group) (λ n, n = name).
Proof.
  eapply still_bind; [by apply still_get_group|]. intros y ->. unfold devpath_to_devname.
  rewrite Hname. by apply still_ret.
Qed.

Lemma group_steps_end o :
  ends o [] group_keys (steps (group_members group (g_device g) o)).
Proof.
  eapply ends_cons.
  { apply adds_member; [key|]. eapply makes_lib; [apply still_group_name|]. intros n ->.
    apply makes_string. constructor. }
  eapply steps_cons; [apply group_middle_end|]. eapply steps_cons; [apply group_limits_end|]. apply ends_nil.
Qed.
End group.

Lemma group_needs_key b g k : group_needs b g k → k ∈ group_keys.
Proof.
  unfold group_needs. destruct (String.eqb_spec k "dev") as [->|]; [intros; key|].
  destruct (existsb _ _) eqn:Hk.
  - intros _. eapply one_of_in; [exact Hk|]. repeat constructor; key.
  - repeat match goal with |- context [String.eqb k ?s] => destruct (String.eqb_spec k s) as [->|] end;
      intros; first [done|key].
Qed.

(** The object of a group, as list.c makes it. *)
Definition group_saved {F S} `{Kernel F} `{JsonOut S} (name : string) (iax : bool) (g : accfg_group)
    (s0 s : S) (o : positive) : Prop :=
  ∃ l, js_node s o = Some (NObject l) ∧ NoDup l.*1 ∧ l.*1 ⊆ group_keys ∧
    (∀ k v, (k, v) ∈ l → ∃ n, js_node s v = Some n ∧ saved_group name iax g k n ∧
      (k = "dev" ∨ loads (F := F) group_table k n)) ∧
    (∀ k, group_needs iax g k → k ∈ l.*1 ∨ js_short s0).

#[local] Arguments steps : simpl never.

(** C19: what list and save-config show of a group that has a name: its name and, of its attributes, the read
    buffers (on an IAX device none of them, on another all three) and the progress
    limits that are set, with the values the library holds; one of these is left out,
    or the whole group, only for want of memory, for an object of json-c or for an
    entry of one.  The traffic classes, which load-config has functions for,
    are never among them: a configuration that is saved and loaded loses them. *)
Theorem group_to_json_saved {F} `{KernelLaws F} {S} `{JsonOutLaws S} group g d name (l : lstate F S) :
  let w0 := j_world (l_json l) in let s0 := j_store (l_json l) in
  h_groups (hp w0) !! group = Some g → h_devices (hp w0) !! g_device g = Some d →
  after_last slash (g_group_path g) = Some name →
  (∀ k, k ∈ ["traffic_class_a"; "traffic_class_b"] → is_Some (find_entry k (group_table (F := F))) ∧ k ∉ group_keys) ∧
  match group_to_json group l with
  | Done (Some o) l' => group_saved (F := F) name (d_type d =? ACCFG_DEVICE_IAX) g s0 (j_store (l_json l')) o
  | Exited _ _ => False
  | _ => js_short s0
  end.
Proof.
  intros w0 s0 Hg Hd Hname. split.
  { apply Forall_forall. repeat constructor; first [by eexists|key]. }
  destruct l as [[w s out] a f]. simpl in *. subst w0 s0.
  assert (accfg_group_get_device group w = Done (g_device g) w) as Hdev.
  { unfold accfg_group_get_device, get_group, deref, gets, must, mbind, prog_bind. by rewrite Hg. }
  unfold group_to_json, mbind, prog_bind, json_object_new_object, in_world, json, lib, zoom, json_new. simpl.
  destruct (js_new (NObject []) s) as [[o|] s1] eqn:Hnew; simpl in *; rewrite Hdev; simpl; [|left; by eexists _, _, _].
  pose proof (group_steps_end (js_short s) w s _ _ _ _ Hg Hd Hname o (JState w s1 out) eq_refl
    (built_new _ _ _ _ _ Hnew)) as Hrun.
  destruct (steps _ _) as [[|] j'|e j'|]; [| |by destruct Hrun|done].
  - destruct Hrun as (_ & _ & l & Hl). exists l. destruct Hl as (Hl & Hnd & Hm & Hn). split_and!; [done..| | |].
    + intros k [[k' v] [-> Hin]]%list_elem_of_fmap. by apply (Hm _ _ Hin).
    + intros k v Hin. destruct (Hm _ _ Hin) as (_ & _ & n & Hv & Hs). exists n. split_and!; [done..|].
      by eapply saved_group_loads.
    + intros k Hk. apply Hn; [by eapply group_needs_key|done].
  - destruct Hrun as [_ Hf]. unfold fail, json_object_put, json_do, modify. simpl.
    by destruct (js_put o (j_store j')).
Qed.

(** ** Instances *)

Definition demo_json : jstate sim jstore := JState demo_world js_empty "".

Lemma demo_wq_ints : ∃ x d c, wq_ok 4 x d c "wq0.0" (hp demo_world) ∧ wq_ints x.
Proof.
  eexists _, _, _. split.
  { split; [vm_compute; reflexivity|]. split; [vm_compute; reflexivity|].
    split; [vm_compute; reflexivity|]. split; [vm_compute; reflexivity|].
    split; [vm_compute; reflexivity|]. by vm_compute. }
  split; vm_compute; done.
Qed.

Lemma util_wq_to_json_saved_witness :
  (∃ j', util_wq_to_json 4 9 demo_json = Done (Some 1%positive) j') ∧
  ∃ x st w1, accfg_wq_get_state 4 demo_world = Done st w1 ∧
  match util_wq_to_json 4 9 demo_json with
  | Done (Some o) j' => ∃ m w2 oc w3,
      accfg_wq_get_mode 4 w1 = Done m w2 ∧ accfg_wq_get_op_config (Some 4%positive) w2 = Done oc w3 ∧
      wq_saved (F := sim) "wq0.0" x m oc (js_empty : jstore) (j_store j') o
  | Done None _ => js_short (js_empty : jstore) ∨
      st ≠ ACCFG_WQ_ENABLED ∧ st ≠ ACCFG_WQ_LOCKED ∧ has_flag 9 UTIL_JSON_IDLE = false
  | Exited _ _ => False
  | Fault => js_short (js_empty : jstore) ∨ accfg_wq_get_mode 4 w1 = Fault ∨ w_name x = None
  end.
Proof.
  split; [apply runs_to_Done; vm_compute; reflexivity|].
  destruct demo_wq_ints as (x & d & c & Hok & Hints). exists x.
  pose proof (util_wq_to_json_saved 4 x d c "wq0.0" 9 demo_json Hok Hints eq_refl) as Hsaved.
  change (j_world demo_json) with demo_world in Hsaved. change (j_store demo_json) with (js_empty : jstore) in Hsaved.
  exact Hsaved.
Defined.

Definition demo_listing : lstate sim jstore := LState demo_json (ListArg None None [] 0 0 0) false.

Lemma group_to_json_saved_witness :
  (∃ l', group_to_json 3 demo_listing = Done (Some 1%positive) l') ∧
  ∃ g d,
  (∀ k, k ∈ ["traffic_class_a"; "traffic_class_b"] → is_Some (find_entry k (group_table (F := sim))) ∧ k ∉ group_keys) ∧
  match group_to_json 3 demo_listing with
  | Done (Some o) l' => group_saved (F := sim) "group0.0" (d_type d =? ACCFG_DEVICE_IAX) g (js_empty : jstore) (j_store (l_json l')) o
  | Exited _ _ => False
  | _ => js_short (js_empty : jstore)
  end.
Proof.
  split; [apply runs_to_Done; vm_compute; reflexivity|].
  assert (∃ g d, h_groups (hp demo_world) !! 3%positive = Some g ∧ h_devices (hp demo_world) !! g_device g = Some d ∧
    after_last slash (g_group_path g) = Some "group0.0") as (g & d & Hg & Hd & Hn).
  { eexists _, _. split; [vm_compute; reflexivity|]. split; vm_compute; reflexivity. }
  exists g, d. pose proof (group_to_json_saved 3 g d "group0.0" demo_listing) as Hsaved.
  change (j_world (l_json demo_listing)) with demo_world in Hsaved.
  change (j_store (l_json demo_listing)) with (js_empty : jstore) in Hsaved.
  exact (Hsaved Hg Hd Hn).
Defined.
