(* ===== verification/SlotFacts.v ===== *)
(** * Theorems about listings: which arrays an object joins

    The slots of a container ([slots_ok]): one array for each group at most, all
    different, and a group's object has no member yet that a new array would
    replace.  [content] is the elements of a slot's array. *)

From S2P Require Import Prelude CString Prog Types SimKernel Sysfs Param Tree Demo Device Wq Filter.
From S2P Require Import Json Commands JsonStore JsonUtil Listing ListCmd.
Local Open Scope Z_scope.

Class SlotLaws (sl : slots) : Prop := {
  sl_set_arrays i a c : sl_arrays sl (sl_set sl i a c) = <[i := a]> (sl_arrays sl c);
  sl_set_ids i a c : jc_jgroup_id (sl_set sl i a c) = jc_jgroup_id c;
  sl_set_assigned i a c : jc_jgroup_assigned (sl_set sl i a c) = jc_jgroup_assigned c;
}.
#[export] Instance wq_slot_laws : SlotLaws wq_slots.
Proof. done. Qed.
#[export] Instance engine_slot_laws : SlotLaws engine_slots.
Proof. done. Qed.

Section slots.
Context {F : Type} `{Kernel F} {S : Type} `{JsonOutLaws S} `{!JsonRoom S} (sl : slots) `{!SlotLaws sl} (key : string).
Notation L := (prog (lstate F S)).
Implicit Types (c : accfg_json_container) (s : S) (l : lstate F S).

Record slots_ok c s : Prop := {
  so_arrays : length (sl_arrays sl c) = length (jc_jgroup_id c);
  so_assigned : length (jc_jgroup_assigned c) = length (jc_jgroup_id c);
  so_node i p : sl_arrays sl c !! i = Some (Some p) → ∃ m, js_node s p = Some (NArray m);
  so_inj i i' p : sl_arrays sl c !! i = Some (Some p) → sl_arrays sl c !! i' = Some (Some p) → i = i';
  so_new i o : sl_arrays sl c !! i = Some None → jc_jgroup_assigned c !! i = Some (Some o) →
    ∃ m, js_node s o = Some (NObject m) ∧ key ∉ m.*1;
  so_groups i i' o : jc_jgroup_assigned c !! i = Some (Some o) → jc_jgroup_assigned c !! i' = Some (Some o) → i = i';
}.

Definition content c s (i : nat) : list (option positive) :=
  match sl_arrays sl c !! i with
  | Some (Some p) => match js_node s p with Some (NArray m) => m | _ => [] end
  | _ => []
  end.

Definition store_of l : S := j_store (l_json l).
Definition container_of l (jc : nat) : option accfg_json_container := lf_jdev_list (l_arg l) !! jc.

(** What a run that puts objects into slots keeps: the world, the other containers, the
    ids and the groups' objects; objects stay objects. *)
Record kept (jc : nat) c c' l l' : Prop := {
  kp_world : j_world (l_json l') = j_world (l_json l);
  kp_container : container_of l' jc = Some c';
  kp_others i : i ≠ jc → container_of l' i = container_of l i;
  kp_ids : jc_jgroup_id c' = jc_jgroup_id c;
  kp_steps : rtc js_step (store_of l) (store_of l');
  kp_live r : is_Some (js_node (store_of l) r) → is_Some (js_node (store_of l') r);
}.

(** A new array in the slot [i], known to the group [o]. *)
Lemma slots_new c i o p s s' :
  slots_ok c s → sl_arrays sl c !! i = Some None → jc_jgroup_assigned c !! i = Some o →
  js_node s p = None → js_node s' p = Some (NArray []) →
  (∀ r, r ≠ p → Some r ≠ o → js_node s' r = js_node s r) →
  let c' := sl_set sl i (Some p) c in
  slots_ok c' s' ∧ sl_arrays sl c' !! i = Some (Some p) ∧ ∀ k, content c' s' k = content c s k.
Proof.
  intros Hok Ha Ho Hfresh Hp Hsame c'. subst c'.
  assert (i < length (sl_arrays sl c))%nat as Hlt by by eapply lookup_lt_Some.
  assert (∀ k q, sl_arrays sl c !! k = Some (Some q) → q ≠ p ∧ js_node s' q = js_node s q) as Hold.
  { intros k q Hq. destruct (so_node _ _ Hok _ _ Hq) as [m Hm]. split; [congruence|]. apply Hsame; [congruence|].
    intros <-. destruct (so_new _ _ Hok _ _ Ha Ho) as (m' & Hm' & _). congruence. }
  assert (∀ k, k ≠ i → <[i := Some p]> (sl_arrays sl c) !! k = sl_arrays sl c !! k) as Hne
    by (intros k Hk; by apply list_lookup_insert_ne).
  split_and!.
  - split; rewrite ?sl_set_arrays, ?sl_set_ids, ?sl_set_assigned, ?length_insert; try apply Hok.
    + intros k q Hq. destruct (decide (k = i)) as [->|Hk].
      * rewrite list_lookup_insert_eq in Hq by done. injection Hq as <-. eauto.
      * rewrite Hne in Hq by done. destruct (Hold _ _ Hq) as [_ ->]. by eapply so_node.
    + intros k k' q Hq Hq'. destruct (decide (k = i)) as [->|Hk], (decide (k' = i)) as [->|Hk']; [done| | |].
      * rewrite list_lookup_insert_eq in Hq by done. rewrite Hne in Hq' by done.
        destruct (Hold _ _ Hq') as [? _]. congruence.
      * rewrite list_lookup_insert_eq in Hq' by done. rewrite Hne in Hq by done.
        destruct (Hold _ _ Hq) as [? _]. congruence.
      * rewrite Hne in Hq, Hq' by done. by eapply so_inj.
    + intros k g Hk Hg. destruct (decide (k = i)) as [->|Hki]; [by rewrite list_lookup_insert_eq in Hk|].
      rewrite Hne in Hk by done. destruct (so_new _ _ Hok _ _ Hk Hg) as (m & Hm & Hkey). exists m. split; [|done].
      rewrite Hsame; [done|congruence|]. intros <-. apply Hki. by eapply so_groups.
  - rewrite sl_set_arrays. by apply list_lookup_insert_eq.
  - intros k. unfold content. rewrite sl_set_arrays. destruct (decide (k = i)) as [->|Hk].
    + rewrite list_lookup_insert_eq by done. by rewrite Ha, Hp.
    + rewrite Hne by done. destruct (sl_arrays sl c !! k) as [[q|]|] eqn:Hq; [|done..].
      by destruct (Hold _ _ Hq) as [_ ->].
Qed.

(** The array of a slot, made if there is none: [slots_ok] again, with the contents as
    they were. *)
Lemma ensure_slot jc c i o l :
  container_of l jc = Some c → slots_ok c (store_of l) → jc_jgroup_assigned c !! i = Some o →
  ∃ a, sl_arrays sl c !! i = Some a ∧
  match ensure_array a (λ p, upd_container jc (sl_set sl i (Some p))) (add_if key o) l with
  | Done (Some p) l' => ∃ c', kept jc c c' l l' ∧ slots_ok c' (store_of l') ∧
      sl_arrays sl c' !! i = Some (Some p) ∧ ∀ k, content c' (store_of l') k = content c (store_of l) k
  | Done None l' => ∃ n s', js_new n (store_of l) = (None, s')
  | _ => False
  end.
Proof.
  intros Hc Hok Ho.
  assert (∃ a, sl_arrays sl c !! i = Some a) as [a Ha].
  { apply lookup_lt_is_Some. rewrite (so_arrays _ _ Hok), <- (so_assigned _ _ Hok). by eapply lookup_lt_Some. }
  exists a. split; [done|]. destruct a as [p|]; simpl.
  { exists c. split_and!; [|done..]. by split. }
  pose proof (step_new (NArray []) (store_of l)) as Hstep.
  unfold json_object_new_array, json_new, json, zoom, upd_container, upd_arg, modify, mbind, prog_bind.
  destruct l as [[w s out] g f]. simpl. unfold store_of, container_of in *. simpl in *.
  destruct (js_new (NArray []) s) as [[p|] s1] eqn:Hnew; simpl in *; [|by eexists _, _].
  apply js_new_spec in Hnew as (Hfresh & Hp & Honly).
  assert (∃ s2, (∀ r, is_Some (js_node s r) → is_Some (js_node s2 r)) ∧ js_node s2 p = Some (NArray []) ∧
    (∀ r, r ≠ p → Some r ≠ o → js_node s2 r = js_node s r) ∧
    match o with Some q => js_object_add q key p s1 = Some s2 | None => s2 = s1 end ∧ rtc js_step s s2)
    as (s2 & Hlive & Hp2 & Hsame & Hadd & Hsteps).
  { destruct o as [q|].
    - destruct (so_new _ _ Hok _ _ Ha Ho) as (m & Hm & Hkey).
      destruct (js_object_add_spec q key p m s1) as (s2 & Hs2 & Hq & Honly2);
        [rewrite Honly; congruence|by eexists|done|].
      exists s2. split_and!; [| |intros r Hr Hrq; rewrite Honly2, Honly; congruence|done|
        by eapply rtc_l, rtc_once, step_object_add].
      + intros r [n Hr]. destruct (decide (r = q)) as [->|]; [by eexists|].
        rewrite Honly2, Honly by congruence. by eexists.
      + rewrite Honly2 by congruence. done.
    - exists s1. split_and!; [|done|intros r Hr _; by apply Honly|done|by apply rtc_once].
      intros r [n Hr]. rewrite Honly by congruence. by eexists. }
  destruct (slots_new _ _ _ _ _ _ Hok Ha Ho Hfresh Hp2 Hsame) as (Hok' & Hi & Hcont).
  assert (kept jc c (sl_set sl i (Some p) c) (LState (JState w s out) g f)
    (LState (JState w s2 out) (g <| lf_jdev_list ::= alter (sl_set sl i (Some p)) jc |>) f)) as Hkept.
  { split; unfold container_of; simpl; [done| | |apply sl_set_ids|done..].
    - by rewrite list_lookup_alter_eq, Hc.
    - intros k Hk. by rewrite list_lookup_alter_ne by done. }
  destruct o as [q|]; simpl.
  - unfold json, zoom, json_object_object_add, json_do. simpl. rewrite Hadd. simpl. by eexists.
  - subst s2. simpl. by eexists.
Qed.

Lemma kept_trans jc c c1 c2 l l1 l2 : kept jc c c1 l l1 → kept jc c1 c2 l1 l2 → kept jc c c2 l l2.
Proof.
  intros [A1 A2 A3 A4 A5 A6] [G1 G2 G3 G4 G5 G6]. split; [congruence|done| |congruence|by etrans|by auto].
  intros i Hi. by rewrite G3, A3.
Qed.

(** An element more in one array. *)
Lemma array_added c i p m v s s' :
  slots_ok c s → sl_arrays sl c !! i = Some (Some p) → js_node s p = Some (NArray m) →
  js_node s' p = Some (NArray (m ++ [v])) → js_only p s s' →
  slots_ok c s' ∧ ∀ k, content c s' k = content c s k ++ (if decide (k = i) then [v] else []).
Proof.
  intros Hok Hi Hm Hp Honly.
  assert (∀ k q, sl_arrays sl c !! k = Some (Some q) → k ≠ i → js_node s' q = js_node s q) as Hold.
  { intros k q Hq Hk. apply Honly. intros ->. by apply Hk, (so_inj _ _ Hok _ _ p). }
  split.
  - split; try apply Hok.
    + intros k q Hq. destruct (decide (k = i)) as [->|Hk]; [|rewrite (Hold k) by done; by eapply so_node].
      rewrite Hi in Hq. injection Hq as <-. by eexists.
    + intros k g Hk Hg. destruct (so_new _ _ Hok _ _ Hk Hg) as (mg & Hmg & Hkey). exists mg.
      rewrite Honly by congruence. done.
  - intros k. unfold content. destruct (decide (k = i)) as [->|Hk].
    + by rewrite Hi, Hm, Hp.
    + rewrite app_nil_r. destruct (sl_arrays sl c !! k) as [[q|]|] eqn:Hq; [by rewrite (Hold k)|done..].
Qed.

Lemma put_in_slot_run jc c i id gid obj l :
  container_of l jc = Some c → slots_ok c (store_of l) → jc_jgroup_id c !! i = Some id →
  is_Some (js_node (store_of l) obj) →
  match put_in_slot sl (add_if key) jc i gid obj l with
  | Done (Some b) l' => b = (gid =? id) ∧ ∃ c', kept jc c c' l l' ∧ slots_ok c' (store_of l') ∧
      ∀ k, content c' (store_of l') k =
        content c (store_of l) k ++ (if decide (k = i) then if b then [Some obj] else [] else [])
  | Done None l' => ∃ n s', js_new n (store_of l) = (None, s')
  | _ => False
  end.
Proof.
  intros Hc Hok Hid Hobj. unfold put_in_slot, get_container, arg, gets, mbind, prog_bind.
  change (lf_jdev_list (l_arg l) !! jc) with (container_of l jc). rewrite Hc. simpl. rewrite Hid. simpl.
  destruct (gid =? id); simpl.
  2: { split; [done|]. exists c. split_and!; [by split|done|]. intros k. by destruct (decide _); rewrite app_nil_r. }
  assert (∃ o, jc_jgroup_assigned c !! i = Some o) as [o Ho].
  { apply lookup_lt_is_Some. rewrite (so_assigned _ _ Hok). by eapply lookup_lt_Some. }
  rewrite Ho. simpl. destruct (ensure_slot _ _ _ _ _ Hc Hok Ho) as (a & Ha & Hen). rewrite Ha. simpl.
  destruct (ensure_array _ _ _ _) as [[p|] l1| |]; [|done..].
  destruct Hen as (c1 & Hk & Hok1 & Hp & Hcont). destruct (so_node _ _ Hok1 _ _ Hp) as [m Hm].
  destruct (js_array_add_spec p (Some obj) m (store_of l1)) as (s2 & Hs2 & Hp2 & Honly);
    [done|by eapply kp_live|].
  destruct l1 as [[w1 s1 out1] g1 f1]. unfold store_of in *. simpl in *.
  unfold json, zoom, json_object_array_add, json_do. simpl. rewrite Hs2. simpl. split; [done|].
  destruct (array_added _ _ _ _ _ _ _ Hok1 Hp Hm Hp2 Honly) as [Hok2 Hadd].
  exists c1. split_and!; [|done|].
  - eapply kept_trans; [exact Hk|]. split; simpl; [done|apply Hk|done..| |].
    + by eapply rtc_once, step_array_add.
    + unfold store_of. simpl. intros r [n Hr]. destruct (decide (r = p)) as [->|]; [by eexists|].
      rewrite Honly by done. by eexists.
  - intros k. rewrite Hadd, Hcont. by destruct (decide _).
Qed.

Lemma in_world_run {A} (m : prog (world F) A) a l :
  m (j_world (l_json l)) = Done a (j_world (l_json l)) → in_world (S := S) m l = Done a l.
Proof.
  intros Hm. destruct l as [[w s out] g f]. unfold in_world, json, zoom, lib, zoom. simpl in *. by rewrite Hm.
Qed.

Notation joins c gid i := (decide (jc_jgroup_id c !! i = Some gid)).

Lemma put_in_slots_run jc gid obj get_group_id idx c b0 l :
  get_group_id (j_world (l_json l)) = Done gid (j_world (l_json l)) →
  container_of l jc = Some c → slots_ok c (store_of l) → is_Some (js_node (store_of l) obj) →
  NoDup idx → Forall (λ i, i < length (jc_jgroup_id c))%nat idx →
  match put_in_slots sl (add_if key) jc get_group_id obj idx b0 l with
  | Done (Some b) l' => b = b0 || existsb (λ i, bool_decide (jc_jgroup_id c !! i = Some gid)) idx ∧
      ∃ c', kept jc c c' l l' ∧ slots_ok c' (store_of l') ∧ ∀ k, content c' (store_of l') k =
        content c (store_of l) k ++ (if decide (k ∈ idx) then if joins c gid k then [Some obj] else [] else [])
  | Done None _ => js_full (store_of l)
  | _ => False
  end.
Proof.
  intros Hget Hc Hok Hobj Hd Hlt. revert c b0 l Hget Hc Hok Hobj Hlt.
  induction Hd as [|i idx Hi Hd IH]; intros c b0 l Hget Hc Hok Hobj Hlt; cbn [put_in_slots existsb].
  { split; [by rewrite orb_false_r|]. exists c. split_and!; [by split|done|]. intros k.
    by rewrite decide_False, app_nil_r by apply not_elem_of_nil. }
  apply Forall_cons in Hlt as [Hlt0 Hlt]. apply lookup_lt_is_Some in Hlt0 as [id Hid].
  erewrite bind_run by by apply in_world_run. cbv beta.
  pose proof (put_in_slot_run jc c i id gid obj l Hc Hok Hid Hobj) as Hrun. unfold mbind, prog_bind.
  destruct (put_in_slot _ _ _ _ _ _ _) as [[b|] l1| |]; [|destruct Hrun as (n & s' & Hn); by exists n, (store_of l), s'|done..].
  destruct Hrun as (-> & c1 & Hk & Hok1 & Hcont).
  specialize (IH c1 (b0 || (gid =? id)) l1). rewrite (kp_world _ _ _ _ _ Hk), (kp_ids _ _ _ _ _ Hk) in IH.
  specialize (IH Hget (kp_container _ _ _ _ _ Hk) Hok1 (kp_live _ _ _ _ _ Hk _ Hobj) Hlt).
  assert (bool_decide (jc_jgroup_id c !! i = Some gid) = (gid =? id)) as Hb.
  { rewrite Hid. destruct (Z.eqb_spec gid id) as [->|Hne]; [by apply bool_decide_eq_true|].
    apply bool_decide_eq_false. congruence. }
  destruct (put_in_slots _ _ _ _ _ _ _ _) as [[b|] l2| |]; [| |done..].
  2: { destruct IH as (n & s & s' & Hs & Hn). exists n, s, s'. split; [|done]. etrans; [by apply Hk|done]. }
  destruct IH as (-> & c2 & Hk2 & Hok2 & Hcont2). split; [by rewrite Hb, orb_assoc|].
  exists c2. split_and!; [by eapply kept_trans|done|]. intros k. rewrite Hcont2, Hcont, <- app_assoc. f_equal.
  destruct (decide (k = i)) as [->|Hki].
  - rewrite decide_False by done. rewrite (decide_True (P := i ∈ i :: idx)) by apply list_elem_of_here.
    rewrite app_nil_r, Hid. destruct (Z.eqb_spec gid id) as [->|Hne]; [by rewrite decide_True|].
    by rewrite decide_False by congruence.
  - simpl. destruct (decide (k ∈ idx)) as [Hin|Hin].
    + rewrite (decide_True (P := k ∈ i :: idx)) by by apply list_elem_of_further. done.
    + rewrite (decide_False (P := k ∈ i :: idx)); [done|]. by intros [->|]%elem_of_cons.
Qed.

(** C20: an object joins the array of every slot whose id is that of its group, once, at the
    end, and no other array; a slot without an array gets one.  So it is in one array
    when the ids are different and in several, with the one reference it was born
    with, when they are not: slots that no group filled have the id 0.  The container is one of [slots_ok],
    the array or object that is there finds memory for an entry ([JsonRoom]), and without memory for an
    array the answer is the one of failure. *)
Theorem put_in_slots_spec jc gid obj get_group_id c l :
  get_group_id (j_world (l_json l)) = Done gid (j_world (l_json l)) →
  container_of l jc = Some c → slots_ok c (store_of l) → is_Some (js_node (store_of l) obj) →
  match put_in_slots sl (add_if key) jc get_group_id obj (slot_range (Z.of_nat (length (jc_jgroup_id c)))) false l with
  | Done (Some b) l' => b = bool_decide (gid ∈ jc_jgroup_id c) ∧
      ∃ c', kept jc c c' l l' ∧ slots_ok c' (store_of l') ∧ ∀ k, content c' (store_of l') k =
        content c (store_of l) k ++ (if joins c gid k then [Some obj] else [])
  | Done None _ => js_full (store_of l)
  | _ => False
  end.
Proof.
  intros Hget Hc Hok Hobj. unfold slot_range. rewrite Nat2Z.id.
  pose proof (put_in_slots_run jc gid obj get_group_id (seq 0 (length (jc_jgroup_id c))) c false l Hget Hc Hok Hobj
    (NoDup_seq _ _)) as Hrun.
  assert (∀ k gid', jc_jgroup_id c !! k = Some gid' → k ∈ seq 0 (length (jc_jgroup_id c))) as Hin.
  { intros k gid' Hk. apply elem_of_seq. apply lookup_lt_Some in Hk. lia. }
  assert (Forall (λ i, i < length (jc_jgroup_id c))%nat (seq 0 (length (jc_jgroup_id c)))) as Hlt
    by (apply Forall_forall; intros k Hk%elem_of_seq; lia).
  specialize (Hrun Hlt). destruct (put_in_slots _ _ _ _ _ _ _ _) as [[b|] l'| |]; [|done..].
  destruct Hrun as (-> & c' & Hk & Hok' & Hcont). split.
  - simpl. destruct (existsb _ _) eqn:Hex; symmetry.
    + apply existsb_exists in Hex as (i & _ & Hi%bool_decide_eq_true). apply bool_decide_eq_true.
      by eapply list_elem_of_lookup_2.
    + apply bool_decide_eq_false. intros [i Hi]%list_elem_of_lookup_1.
      apply not_true_iff_false in Hex. apply Hex, existsb_exists. exists i. split; [|by apply bool_decide_eq_true].
      by eapply list_elem_of_In, Hin.
  - exists c'. split_and!; [done..|]. intros k. rewrite Hcont. f_equal.
    destruct (decide (jc_jgroup_id c !! k = Some gid)) as [Hj|]; [|by destruct (decide _)].
    by rewrite decide_True by by eapply Hin.
Qed.
End slots.

(** ** Instances *)

(** Two slots, both with the id 0, the second one never filled; 1 is the object of the
    group, 2 that of a queue of the group 0. *)
Definition two_slots : accfg_json_container :=
  Container None [Some 1%positive; None] [None; None] None [None; None] None [0; 0] 0 "dsa0".
Definition two_store : jstore := Store (list_to_map [(1%positive, Cell (NObject []) 1 None);
  (2%positive, Cell (NObject []) 1 None)]) 3 10.
Definition two_state : lstate sim jstore :=
  LState (JState demo_world two_store "") (ListArg None None [two_slots] 0 0 0) false.
Definition put_twice : prog (lstate sim jstore) (option bool) :=
  put_in_slots wq_slots (add_if "grouped_workqueues") 0 (accfg_wq_get_group_id 4) 2 (slot_range 2) false.

Lemma two_slots_ok : slots_ok wq_slots "grouped_workqueues" two_slots two_store.
Proof.
  split; [done|done|..].
  - intros [|[|i]] p; discriminate.
  - intros [|[|i]] i' p; discriminate.
  - intros [|[|i]] o Ho; [|intros [=]..]. intros [= <-]. exists []. split; [done|]. apply not_elem_of_nil.
  - intros [|[|i]] [|[|i']] o; try discriminate; done.
Qed.

Lemma demo_wq_group : accfg_wq_get_group_id 4 demo_world = Done 0 demo_world.
Proof.
  assert (∃ x, h_wqs (hp demo_world) !! 4%positive = Some x ∧ w_group_id x = 0) as (x & Hx & Hg)
    by (eexists; split; [vm_compute; reflexivity|reflexivity]).
  unfold accfg_wq_get_group_id, accfg_wq_get_field, get_wq, deref, gets, must, mbind, prog_bind.
  rewrite Hx. cbn. by rewrite Hg.
Qed.

Lemma put_in_slots_spec_witness :
  runs_to put_twice two_state (Some true) = true ∧
  match put_twice two_state with
  | Done (Some b) l' => b = bool_decide (0 ∈ jc_jgroup_id two_slots) ∧
      ∃ c', kept 0 two_slots c' two_state l' ∧ slots_ok wq_slots "grouped_workqueues" c' (store_of l') ∧
      ∀ k, content wq_slots c' (store_of l') k =
        content wq_slots two_slots two_store k ++ (if decide (jc_jgroup_id two_slots !! k = Some 0) then [Some 2%positive] else [])
  | Done None _ => js_full two_store
  | _ => False
  end.
Proof.
  split; [vm_compute; reflexivity|].
  apply (put_in_slots_spec wq_slots "grouped_workqueues" 0 0 2 (accfg_wq_get_group_id 4) two_slots two_state).
  - exact demo_wq_group.
  - reflexivity.
  - exact two_slots_ok.
  - vm_compute. eexists. reflexivity.
Defined.
