(* ===== verification/LoadFacts.v ===== *)
(** * accfg/config.c: what a configuration file does

    The parse of a document ends, its size being fuel enough; what one
    member of an object does to a group; what an active queue does to the rest of a
    document; activation; the parameters of default queues. *)

From S2P Require Import Prelude CString Prog ParseOptions Types SimKernel Sysfs Param Tree Demo Device Wq Filter ConfigAttr Json Commands Config.
From S2P Require Import SysfsFacts ParamFacts DeviceFacts WqFacts TreeFacts TreeInit.
Local Open Scope Z_scope.

(** ** The fuel of the parse *)

Section fuel.
Context {F : Type} `{Kernel F} {J : Type} `{JsonLaws J}.
Notation C := (prog (cstate F)).

Lemma bind_ext {A B} (m m' : C A) (k k' : A → C B) s :
  m s = m' s → (∀ a s', k a s' = k' a s') → (m ≫= k) s = (m' ≫= k') s.
Proof. intros Hm Hk. unfold mbind, prog_bind. rewrite Hm. destruct (m' s); auto. Qed.

(** How much fuel a call needs: the member of an object is smaller than it. *)
Definition need (j : J) (key : option string) : nat :=
  match key with None => json_size j | Some _ => pred (json_size j) end.

(** Two pairs of functions that agree on the documents smaller than [n]. *)
Record agree (n : nat) (p p' : option J → C Z) (a a' : option J → option string → C Z) : Prop := {
  agree_parse j s : (json_size j < n)%nat → p (Some j) s = p' (Some j) s;
  agree_null s : (0 < n)%nat → p None s = p' None s;
  agree_array j key s : (need j key < n)%nat → a (Some j) key s = a' (Some j) key s;
}.

Lemma parse_members_ext n p p' a a' ctx iter j s :
  agree n p p' a a' → (json_size j <= n)%nat → (0 < n)%nat → (∀ s', p None s' = Fault) →
  parse_members p a ctx iter (Some j) s = parse_members p' a' ctx iter (Some j) s.
Proof.
  intros Ha Hj Hn Hnull. revert j Hj s.
  induction iter as [|[key val] iter IH]; intros j Hj s; simpl; [done|].
  assert (∀ s, (rc ← configure_json_value ctx val (Some key);
      if negb (rc =? 0) then mret (-1) else parse_members p a ctx iter (Some j)) s =
    (rc ← configure_json_value ctx val (Some key);
      if negb (rc =? 0) then mret (-1) else parse_members p' a' ctx iter (Some j)) s) as Hconf.
  { intros s0. apply bind_ext; [done|]. intros rc s'. destruct (negb _); [done|by apply IH]. }
  destruct (json_object_get_type val); try apply Hconf; [by apply IH| |].
  - destruct (json_object_object_get_ex (Some j) key) as [[v|]|] eqn:Hget; [| |done].
    + pose proof (get_ex_size _ _ _ _ Hget eq_refl).
      apply bind_ext; [apply Ha; lia|]. intros _ s'. apply IH. lia.
    + unfold mbind, prog_bind. by rewrite <- (agree_null _ _ _ _ _ Ha), Hnull.
  - apply bind_ext; [apply Ha; simpl; lia|]. intros rc s'. destruct (negb _); [done|by apply IH].
Qed.

Lemma parse_elements_ext n p p' a a' ctx l s :
  agree n p p' a a' → (∀ j, Some j ∈ l → (json_size j < n)%nat) →
  parse_elements p a ctx l s = parse_elements p' a' ctx l s.
Proof.
  intros Ha. revert s. induction l as [|[j|] l IH]; intros s Hl; simpl; [done| |done].
  assert (json_size j < n)%nat as Hj by (apply Hl; by left).
  apply bind_ext; [|intros rc s'; destruct (negb _); [done|apply IH; intros; apply Hl; by right]].
  destruct (json_type_of j); try done; apply Ha; simpl; lia.
Qed.

Lemma size_pos (j : J) l : json_members j = Some l → (0 < json_size j)%nat.
Proof. intros Hl. apply json_size_members in Hl. lia. Qed.

(** Any two amounts that are enough give the same run, whatever the call without fuel does. *)
Lemma fuel_agree out out' ctx n m :
  (n <= m)%nat → agree n (json_parse_from out n ctx) (json_parse_from out' m ctx)
    (json_parse_array_from out n ctx) (json_parse_array_from out' m ctx).
Proof.
  revert m. induction n as [|n IH]; intros [|m] Hm; try (split; intros; simpl in *; lia || done).
  assert (agree n (json_parse_from out n ctx) (json_parse_from out' m ctx)
    (json_parse_array_from out n ctx) (json_parse_array_from out' m ctx)) as Ha by (apply IH; lia).
  split.
  - intros j s Hj. simpl. destruct (json_members j) as [iter|] eqn:Hit; [|done].
    pose proof (size_pos _ _ Hit) as Hpos. apply bind_ext; [done|]. intros l s'.
    apply parse_members_ext with n; [done|lia..|]. intros s0. destruct n; [lia|done].
  - done.
  - intros j key s Hj. simpl.
    assert (∀ v : J, (json_size v < S n)%nat →
      (l ← must (json_elements v); match l with
        | [] => mret (-1) | _ => parse_elements (json_parse_from out n ctx) (json_parse_array_from out n ctx) ctx l end) s =
      (l ← must (json_elements v); match l with
        | [] => mret (-1) | _ => parse_elements (json_parse_from out' m ctx) (json_parse_array_from out' m ctx) ctx l end) s) as He.
    { intros v Hv. destruct (json_elements v) as [l|] eqn:Hl; [|done].
      pose proof (json_size_elements _ _ Hl) as Hlt.
      unfold mbind, prog_bind, must, mret, prog_ret. destruct l as [|o l']; [done|].
      apply parse_elements_ext with n; [done|]. intros j' Hin.
      pose proof (sizes_elem _ _ _ eq_refl Hin). lia. }
    destruct key as [key|]; simpl in Hj.
    + destruct (json_object_object_get_ex (Some j) key) as [[v|]|] eqn:Hget; [|done..].
      pose proof (get_ex_size _ _ _ _ Hget eq_refl). apply He. lia.
    + apply He. lia.
Qed.

(** C14: Reading a configuration terminates.  The mutually recursive parse calls itself to a depth
    bounded by the size of the document: with that much fuel, however deeply the document is nested and
    whatever the devices answer, no call runs out of it.  That is, the run is the same whatever a call
    without fuel would do, [out] (a result, an exit or undefined behaviour), and it is the one
    that loading a file makes.  A parse that went on for ever would be [out] at every fuel. *)
Theorem json_parse_array_fuel out ctx (j : J) n (s : cstate F) :
  (json_size j < n)%nat →
  json_parse_array_from out n ctx (Some j) None s = json_parse_array (S (json_size j)) ctx (Some j) None s.
Proof.
  intros Hn. symmetry. apply (fuel_agree fault out ctx (S (json_size j)) n); [lia|simpl; lia].
Qed.
End fuel.

(** ** One attribute of a group *)

(** The members of a group that a document can name, and when one is written. *)
Definition group_keys : list (string * group_field) :=
  [("tokens_reserved", G_read_buffers_reserved); ("read_buffers_reserved", G_read_buffers_reserved);
   ("use_token_limit", G_use_read_buffer_limit); ("use_read_buffer_limit", G_use_read_buffer_limit);
   ("tokens_allowed", G_read_buffers_allowed); ("read_buffers_allowed", G_read_buffers_allowed);
   ("traffic_class_a", G_traffic_class_a); ("traffic_class_b", G_traffic_class_b);
   ("desc_progress_limit", G_desc_progress_limit);
   ("batch_progress_limit", G_batch_progress_limit)]%string.
Definition group_key (key : string) : option group_field :=
  snd <$> List.find (λ k, String.eqb key k.1) group_keys.

(** The members that an IAX device does not have. *)
Definition buffer_field (f : group_field) : bool :=
  match f with
  | G_read_buffers_reserved | G_read_buffers_allowed | G_use_read_buffer_limit => true
  | _ => false
  end.

(** Whether a value that is not negative is written. *)
Definition group_takes (f : group_field) (g : accfg_group) (d : accfg_device) (val : Z) : bool :=
  match f with
  | G_read_buffers_reserved | G_read_buffers_allowed => true
  | G_use_read_buffer_limit => negb (d_read_buffer_limit d =? 0)
  | G_traffic_class_a | G_traffic_class_b => ACCFG_DEVICE_VERSION_2 <=? d_version d
  | G_desc_progress_limit => (val <=? 3) && (0 <=? s32 (g_desc_progress_limit g))
  | G_batch_progress_limit => (val <=? 3) && (0 <=? s32 (g_batch_progress_limit g))
  end.
Definition group_writes (f : group_field) (g : accfg_group) (d : accfg_device) (val : Z) : bool :=
  negb ((d_type d =? ACCFG_DEVICE_IAX) && buffer_field f) && group_takes f g d val.

(** Reads of objects that are there. *)
Ltac wp_run := repeat match goal with
  | |- wp (mret _) _ _ => apply wp_ret
  | |- wp (_ ≫= _) _ _ => apply wp_bind
  | |- wp (_ _) _ _ => eapply wp_deref; [eassumption|]
  end.

(** A key against the names of a table, one after the other. *)
Ltac by_key key :=
  repeat match goal with
    | |- context [String.eqb key ?n] =>
        case_eq (String.eqb key n); [intros ->%String.eqb_eq; (done || by intros [= <-])|intros _]
    end; done.

Section group.
Context {F : Type} `{KernelLaws F} {J : Type} `{JsonLaws J}.
Notation M := (prog (world F)).

Definition group_writable (f : group_field) : positive → Z → M bool :=
  match f with
  | G_read_buffers_reserved | G_read_buffers_allowed => is_group_read_buffer_attribs_writable
  | G_use_read_buffer_limit => is_group_read_buffer_limit_writable
  | G_traffic_class_a | G_traffic_class_b => is_group_traffic_class_writable
  | G_desc_progress_limit => is_group_desc_progress_limit_writable
  | G_batch_progress_limit => is_group_batch_progress_limit_writable
  end.

Lemma group_entry key :
  find_entry key (group_table (F := F)) =
  (λ f, SetEntry key (set_int_func (accfg_group_set_field f)) (Some (group_writable f))) <$> group_key key.
Proof.
  unfold find_entry, group_key, group_table, group_keys, strcmp_eq. cbn [List.find te_name fst].
  by_key key.
Qed.

Lemma filter_entry {S} (table : list (set_table_entry S)) key :
  attribute_filter table key = match find_entry key table with Some _ => true | None => false end.
Proof.
  unfold attribute_filter, find_entry. induction table as [|e table IH]; [done|]. simpl.
  by destruct (strcmp_eq key (te_name e)).
Qed.

Lemma wp_read_number (conv : J → Z * option Z) j val e Q (w : world F) :
  conv j = (val, e) → Q val (w <| errno := default 0 e |>) → wp (read_number conv j) Q w.
Proof. intros Hc HQ. unfold read_number. rewrite Hc. by destruct e. Qed.

(** The keys an IAX device ignores are those of the buffers. *)
Lemma iax_key key f :
  group_key key = Some f →
  existsb (strcmp_eq key) iax_ignored = buffer_field f.
Proof.
  unfold group_key, group_keys. cbn [List.find fst]. by_key key.
Qed.

Lemma wp_group_writable f group g d val (w : world F) Q :
  h_groups (hp w) !! group = Some g → h_devices (hp w) !! g_device g = Some d → 0 <= val →
  Q (group_takes f g d val) w → wp (group_writable f group val) Q w.
Proof.
  intros Hg Hd Hv HQ. assert ((val =? -1) = false) as Hv1 by lia. assert ((val <? 0) = false) as Hv2 by lia.
  destruct f; simpl in HQ |- *; unfold is_group_read_buffer_attribs_writable,
    is_group_read_buffer_limit_writable, is_group_traffic_class_writable,
    is_group_desc_progress_limit_writable, is_group_batch_progress_limit_writable,
    accfg_group_get_desc_progress_limit, accfg_group_get_batch_progress_limit,
    accfg_group_get_field, accfg_group_get_device, accfg_device_get_version, accfg_device_get_read_buffer_limit.
  all: rewrite ?Hv1, ?Hv2; try exact HQ.
  1: by wp_run.
  1-2: wp_run; by rewrite andb_true_r, <- Z.leb_antisym.
  all: rewrite Z.leb_antisym in HQ; destruct (3 <? val); cbn [orb negb andb] in HQ |- *; [exact HQ|];
    wp_run; by rewrite <- Z.leb_antisym.
Qed.

(** Group values out of range, and those the group or the device does not take.  The setter starts
    with the [errno] of the conversion. *)
Definition group_outcome (group : positive) (g : accfg_group) (d : accfg_device) (key : string)
    (val : Z) (e : option Z) (w : world F) (rc : Z) (w' : world F) : Prop :=
  match group_key key with
  | None => rc = 0 ∧ w' = w
  | Some f =>
      if (val =? 0) && (default 0 e =? EINVAL) || (val <? 0) then
        rc = - EINVAL ∧ lib w' = lib w ∧ trace w' = trace w ∧ nfds w' = nfds w
      else if group_writes f g d val then
        group_set_post f group val g (w <| errno := default 0 e |>) rc w'
      else rc = 0 ∧ lib w' = lib w ∧ trace w' = trace w ∧ nfds w' = nfds w
  end.

(** C13: A member of a group's object in a configuration file.  A key that is no attribute does
    nothing and succeeds.  A value that is no number, or negative, is refused with [-EINVAL] before
    anything is written.  An attribute that the device or the group does not have, or a limit above
    3, is skipped with success and no write.  Any other value goes to the setter of its field: when
    the attribute's file opens, the value is written to it in decimal, in one write, and the
    result is 0 exactly when the write counts as done ([errno] was cleared or set by the conversion
    just before), with the member holding the value; otherwise the result is the [errno] left,
    negated. *)
Theorem group_json_set_val_spec group g d key j val e (w : world F) :
  group_ok group g (hp w) → h_devices (hp w) !! g_device g = Some d →
  json_object_get_int j = (val, e) →
  wp (group_json_set_val (Some group) (Some j) (Some key)) (group_outcome group g d key val e w) w.
Proof.
  intros Hok Hd Hj. destruct (Hok) as (Hg & _).
  destruct (json_get_int_range _ _ _ Hj) as [Hrange He].
  unfold group_json_set_val, group_outcome. apply wp_bind, wp_bind. unfold accfg_group_get_device.
  apply wp_bind. eapply wp_deref; [done|]. apply wp_ret, wp_ret.
  unfold group_attribute_filter. rewrite filter_entry, group_entry.
  destruct (group_key key) as [f|] eqn:Hkey; cbn [fmap option_fmap option_map negb te_set]; [|by apply wp_ret].
  apply wp_bind. eapply wp_read_number; [done|]. apply wp_bind, wp_bind, wp_ret, wp_ret. cbn [errno].
  destruct (_ || _) eqn:Hbad; [by apply wp_ret|].
  apply orb_false_iff in Hbad as [_ Hneg].
  apply wp_bind, wp_ret, wp_bind. unfold accfg_device_get_type. apply wp_bind.
  eapply wp_deref; [done|]. apply wp_ret. cbn [te_name]. rewrite (iax_key _ _ Hkey). unfold group_writes.
  destruct ((d_type d =? ACCFG_DEVICE_IAX) && buffer_field f); cbn [negb andb]; [by apply wp_ret|].
  apply wp_bind. unfold refused. cbn [te_is_writable]. rewrite s32_id by lia. apply wp_bind.
  eapply wp_group_writable; [done..|lia|]. apply wp_ret.
  destruct (group_takes f g d val); simpl; [|by apply wp_ret].
  unfold set_with. apply wp_bind.
  eapply wp_mono, wp_group_set_field; [|done|lia|simpl; destruct e; simpl; lia].
  intros rc w' Hpost. by destruct (Z.eqb_spec rc 0) as [->|Hrc]; apply wp_ret.
Qed.
End group.

(** ** An active queue in a document *)

Definition scalar (t : json_type) : bool :=
  match t with json_type_boolean | json_type_double | json_type_int | json_type_string => true | _ => false end.

(** The variables when no object is chosen, the parent kept. *)
Definition no_object (st : statics) : statics :=
  st <| st_dev := None |> <| st_group := None |> <| st_wq := None |> <| st_engine := None |>.

(** The first step of a run. *)
Ltac run tac := erewrite bind_run; [|tac]; cbv beta iota.

Section active.
Context {F : Type} `{Kernel F} {J : Type} `{JsonC J}.
Notation C := (prog (cstate F)).

Lemma in_lib_run {A B} (m : prog (world F) A) (k : A → C B) c a w :
  m (c_world c) = Done a w → (in_lib m ≫= k) c = k a (c <| c_world := w |>).
Proof. intros Hm. unfold in_lib, mbind, prog_bind. by rewrite Hm. Qed.

Lemma static_run {A B} (f : statics → A) (k : A → C B) c a :
  f (c_statics c) = a → (static f ≫= k) c = k a c.
Proof. by intros <-. Qed.

Lemma configure_accel_none types ctx s (c : cstate F) :
  forallb (λ t, negb (strstr_in s t)) types = true → configure_accel types ctx s c = Done None c.
Proof.
  induction types as [|t types IH]; simpl; [done|]. intros [Ht Hts]%andb_true_iff.
  destruct (strstr_in s t); [done|]. by apply IH.
Qed.

Lemma choose_active_wq ctx v name parent id0 id q st (c : cstate F) w1 w2 :
  json_object_get_string v = Some name →
  forallb (λ t, negb (strstr_in name t)) accel_types = true →
  strstr_in name "wq"%string = true → sscanf_d_d (from 2 name) = Some (id0, id) →
  st_parent (c_statics c) = Some parent →
  accfg_device_wq_get_by_id parent id (c_world c) = Done (Some q) w1 →
  accfg_wq_get_state q w1 = Done st w2 → st = ACCFG_WQ_ENABLED ∨ st = ACCFG_WQ_LOCKED →
  choose_object ctx v c = Done 0 (CState w2 (no_object (c_statics c))).
Proof.
  intros Hs Hacc Hwq Hscan Hp Hget Hst Hact. unfold choose_object. rewrite Hs.
  run ltac:(done). run ltac:(by apply configure_accel_none).
  erewrite (static_run st_parent); [|exact Hp]; cbv beta iota.
  unfold configure_child at 1. rewrite Hwq. change (strlen "wq") with 2. rewrite Hscan.
  erewrite in_lib_run; [|exact Hget]; cbv beta iota.
  run ltac:(done).
  assert (configure_wq q (CState w1 (no_object (c_statics c) <| st_wq := Some q |>)) =
    Done (Some 0) (CState w2 (no_object (c_statics c)))) as Hc.
  { unfold configure_wq. erewrite in_lib_run; [|exact Hst]; cbv beta iota. rewrite decide_True by done. done. }
  unfold mbind, prog_bind. by setoid_rewrite Hc.
Qed.

(** ** Where the parse of a document is *)

(** Members that leave the variable [jobj] alone. *)
Definition no_object_member (iter : list (string * option J)) : Prop :=
  Forall (λ m, json_object_get_type m.2 ≠ json_type_object) iter.

Lemma parse_members_app parse parse_array ctx iter iter' jobj (c c1 : cstate F) :
  no_object_member iter → parse_members parse parse_array ctx iter jobj c = Done 0 c1 →
  parse_members parse parse_array ctx (iter ++ iter') jobj c = parse_members parse parse_array ctx iter' jobj c1.
Proof.
  intros Hno. revert c. induction Hno as [|[k v] iter Hk Hno IH]; intros c Hrun; [by injection Hrun as ->|].
  simpl in *. destruct (json_object_get_type v); try done; try (by apply IH).
  all: apply bind_Done in Hrun as (rc & c2 & H1 & H2); erewrite bind_run by exact H1;
    destruct (negb (rc =? 0)); [done|by apply IH].
Qed.

Lemma parse_elements_app parse parse_array ctx l l' (c c1 : cstate F) :
  parse_elements parse parse_array ctx l c = Done 0 c1 →
  parse_elements parse parse_array ctx (l ++ l') c = parse_elements parse parse_array ctx l' c1.
Proof.
  revert c. induction l as [|[j|] l IH]; intros c Hrun; [by injection Hrun as ->| |done].
  simpl in *. apply bind_Done in Hrun as (rc & c2 & H1 & H2). erewrite bind_run by exact H1.
  destruct (negb (rc =? 0)); [done|by apply IH].
Qed.

(** The parse of the array [v] from [c] gets, in state [c'], to the members [rest] of the object [j],
    at any depth: what comes before them went well. *)
Inductive reaches (ctx : option positive) :
    nat → J → cstate F → nat → J → list (string * option J) → cstate F → Prop :=
  | reach_object n v pre j post mpre rest c c1 c2 :
      json_elements v = Some (pre ++ Some j :: post)%list → json_type_of j = json_type_object →
      parse_elements (json_parse (S n) ctx) (json_parse_array (S n) ctx) ctx pre c = Done 0 c1 →
      json_members j = Some (mpre ++ rest)%list → no_object_member mpre →
      parse_members (json_parse n ctx) (json_parse_array n ctx) ctx mpre (Some j) c1 = Done 0 c2 →
      reaches ctx (S (S n)) v c n j rest c2
  | reach_inside n v m j k a rest m' j' rest' c c1 c2 :
      reaches ctx n v c m j ((k, Some a) :: rest) c1 →
      json_type_of a = json_type_array → json_object_object_get_ex (Some j) k = Some (Some a) →
      reaches ctx m a c1 m' j' rest' c2 → reaches ctx n v c m' j' rest' c2.

(** A failure is the failure of everything around it. *)
Lemma reaches_fails ctx n v c m j rest c2 (P : cstate F → Prop) :
  reaches ctx n v c m j rest c2 →
  (∃ c', parse_members (json_parse m ctx) (json_parse_array m ctx) ctx rest (Some j) c2 = Done (-1) c' ∧ P c') →
  ∃ c', json_parse_array n ctx (Some v) None c = Done (-1) c' ∧ P c'.
Proof.
  induction 1 as [n v pre j post mpre rest c c1 c2 Hel Hty Hpre Hmem Hno Hmpre
    |n v m j k a rest m' j' rest' c c1 c2 _ IH Hty Hget Hin IHin]; intros Hfail.
  - destruct Hfail as (c' & Hrun & HP). exists c'. split; [|done].
    simpl json_parse_array_from. rewrite Hel. erewrite bind_run; [|done].
    assert (parse_elements (json_parse (S n) ctx) (json_parse_array (S n) ctx) ctx (pre ++ Some j :: post) c =
      Done (-1) c') as Hgoal; [|by destruct pre].
    erewrite parse_elements_app by exact Hpre. simpl parse_elements. rewrite Hty.
    erewrite bind_run; [|simpl; rewrite Hmem; erewrite bind_run by done; erewrite parse_members_app by done; exact Hrun].
    done.
  - apply IH. destruct (IHin Hfail) as (c' & Hrun & HP). exists c'. split; [|done]. simpl. rewrite Hty.
    assert (json_parse_array m ctx (Some j) (Some k) c1 = Done (-1) c') as Hk.
    { destruct m as [|m]; [done|]. simpl in *. by rewrite Hget. }
    by erewrite bind_run by exact Hk.
Qed.

(** C15: A configuration file that names a work queue which is enabled or locked stops there.  When the
    parse of the file, [v], is at a member "dev" with the queue's name ([reaches], at any depth,
    everything before having gone well), a device has been chosen, and the member after it is a
    plain value, the queue is reported as skipped and its name accepted, but the next member finds
    no object chosen and fails, so that the parse of the whole file answers -1 whatever follows in
    it; nothing is written after the queue's state is read. *)
Theorem active_wq_aborts ctx n m (v : J) j dev name parent id0 id q st key x iter (c c1 : cstate F) w1 w2 :
  reaches (Some ctx) n v c m j (("dev"%string, Some dev) :: (key, Some x) :: iter) c1 →
  scalar (json_type_of dev) = true → json_object_get_string dev = Some name →
  forallb (λ t, negb (strstr_in name t)) accel_types = true →
  strstr_in name "wq"%string = true → sscanf_d_d (from 2 name) = Some (id0, id) →
  st_parent (c_statics c1) = Some parent →
  accfg_device_wq_get_by_id parent id (c_world c1) = Done (Some q) w1 →
  accfg_wq_get_state q w1 = Done st w2 → st = ACCFG_WQ_ENABLED ∨ st = ACCFG_WQ_LOCKED →
  key ≠ "dev"%string → scalar (json_type_of x) = true →
  ∃ c', json_parse_array n (Some ctx) (Some v) None c = Done (-1) c' ∧ c_world c' = w2.
Proof.
  intros Hreach Hv Hs Hacc Hwq Hscan Hp Hget Hst Hact Hkey Hx. apply (reaches_fails _ _ _ _ _ _ _ _ _ Hreach).
  assert (∀ parse parse_array key v iter rc (c c1 : cstate F),
    configure_json_value (Some ctx) (Some v) (Some key) c = Done rc c1 → scalar (json_type_of v) = true →
    parse_members parse parse_array (Some ctx) ((key, Some v) :: iter) (Some j) c =
    (if negb (rc =? 0) then mret (-1) else parse_members parse parse_array (Some ctx) iter (Some j)) c1) as Hstep.
  { intros parse parse_array key0 v0 iter0 rc c0 c2 Hc Hsc. simpl.
    destruct (json_type_of v0); try done; by erewrite bind_run. }
  erewrite Hstep; [|by eapply choose_active_wq|done]. cbn [Z.eqb negb].
  set (c2 := CState w2 (no_object (c_statics c1))).
  assert (∃ c3, configure_json_value (Some ctx) (Some x) (Some key) c2 = Done (- EINVAL) c3 ∧ c_world c3 = w2)
    as (c3 & Hc3 & Hw3).
  { unfold configure_json_value, strcmp_eq. rewrite (proj2 (String.eqb_neq key "dev") Hkey).
    unfold set_attribute. erewrite (static_run st_parent); [|exact Hp]; cbv beta iota.
    run ltac:(done).
    destruct (_ && _); erewrite bind_run; try done; eexists; split; done. }
  erewrite Hstep; [|done..]. exists c3. done.
Qed.
End active.

(** ** An object in an object *)

Section nested.
Context {F : Type} `{Kernel F} {J : Type} `{JsonC J}.
Notation C := (prog (cstate F)).

(** An object nested directly in an object breaks the parse: the nested object takes the place of the one that is walked, so that the next object-valued member is looked up in it; when the nested object has a scalar of that name, its members are taken, and the process runs into undefined behaviour. *)
Theorem nested_object_fault ctx j a b o1 o2 v iter n (c c1 : cstate F) rc :
  json_members j = Some ((a, Some o1) :: (b, Some o2) :: iter) →
  json_type_of o1 = json_type_object → json_type_of o2 = json_type_object →
  json_object_object_get_ex (Some o1) b = Some (Some v) → json_members v = None →
  json_parse n (Some ctx) (Some o1) c = Done rc c1 →
  json_parse (S n) (Some ctx) (Some j) c = Fault.
Proof.
  intros Hj H1 H2 Hget Hv Hrun. simpl. rewrite Hj. run ltac:(done). simpl. rewrite H1.
  unfold json_object_object_get_ex at 1. simpl. rewrite Hj. simpl. rewrite String.eqb_refl. simpl.
  run ltac:(exact Hrun). rewrite H2, Hget.
  destruct n as [|n]; [done|]. unfold mbind, prog_bind. simpl. rewrite Hv. done.
Qed.
End nested.

(** ** The size of default queues *)

Section defaults.
Context {F : Type} `{Kernel F}.
Notation C := (prog (cstate F)).

(** The share of a queue: the C quotient, where it is defined. *)
Lemma get_wq_size_run dev d (w : world F) :
  h_devices (hp w) !! dev = Some d →
  get_wq_size dev w =
  if (s32 (d_max_work_queues d) =? 0) ||
     (s32 (d_max_work_queues_size d) =? - 2 ^ 31) && (s32 (d_max_work_queues d) =? -1) then Fault
  else Done (Z.quot (s32 (d_max_work_queues_size d)) (s32 (d_max_work_queues d))) w.
Proof.
  intros Hd. unfold get_wq_size, accfg_device_get_max_work_queues_size, accfg_device_get_max_work_queues.
  run ltac:(run ltac:(by apply run_deref); done). run ltac:(run ltac:(by apply run_deref); done).
  rewrite !s32_u32. by destruct (_ || _).
Qed.

(** The quotient against its operands, with its sign. *)
Lemma share_spec t n :
  - 2 ^ 31 <= t < 2 ^ 31 → - 2 ^ 31 <= n < 2 ^ 31 → n ≠ 0 → ¬ (t = - 2 ^ 31 ∧ n = -1) →
  let size := u32 (Z.quot t n) in
  (0 <= t → 0 < n → size * n <= t < (size + 1) * n) ∧
  (Z.abs n <= Z.abs t → ((t <? 0) ≠ (n <? 0)) → 2 ^ 31 <= size) ∧
  if Z.abs t <? Z.abs n then size = 0 else 0 < size.
Proof.
  intros Ht Hn Hn0 Hover size. subst size. pose proof (Z.quot_rem' t n) as Hq.
  pose proof (Z.quot_small_iff t n Hn0) as H0.
  assert (Z.abs (t ÷ n) * Z.abs n <= Z.abs t) as Hb.
  { rewrite <- Z.quot_abs by done. rewrite Z.mul_comm. apply Z.mul_quot_le; lia. }
  assert (- 2 ^ 31 <= t ÷ n <= 2 ^ 31) as Hr by nia.
  assert ((t <? 0) = (n <? 0) → 0 <= t ÷ n) as Hpos.
  { destruct (Z.ltb_spec t 0), (Z.ltb_spec n 0); try done; intros _.
    - rewrite <- Z.quot_opp_opp by done. apply Z.quot_pos; lia.
    - apply Z.quot_pos; lia. }
  assert ((t <? 0) ≠ (n <? 0) → t ÷ n <= 0) as Hneg.
  { destruct (Z.ltb_spec t 0), (Z.ltb_spec n 0); try done; intros _.
    - rewrite <- (Z.opp_involutive t), Z.quot_opp_l by done.
      pose proof (Z.quot_pos (- t) n ltac:(lia) ltac:(lia)). lia.
    - rewrite <- (Z.opp_involutive n), Z.quot_opp_r by lia.
      pose proof (Z.quot_pos t (- n) ltac:(lia) ltac:(lia)). lia. }
  split; [|split].
  - intros Ht0 Hn1. pose proof (Z.rem_bound_pos_pos t n ltac:(lia) ltac:(lia)).
    pose proof (Z.quot_pos t n Ht0 Hn1). rewrite u32_id by lia. nia.
  - intros Hle Hs%Hneg. assert (t ÷ n ≠ 0) as Hq0 by (intros ?%H0; lia). clear -Hs Hq0 Hr. wrap_lia.
  - destruct (Z.ltb_spec (Z.abs t) (Z.abs n)) as [Hlt|Hle]; [by rewrite (proj2 H0 Hlt)|].
    assert (t ÷ n ≠ 0) as Hq0 by (intros ?%H0; lia). clear -Hq0 Hr. wrap_lia.
Qed.

Lemma wp_in_lib {A B} (m : prog (world F) A) a (k : A → C B) Q (c : cstate F) :
  m (c_world c) = Done a (c_world c) → wp (k a) Q c → wp (in_lib m ≫= k) Q c.
Proof. intros Hm Hk. unfold wp. rewrite (in_lib_run _ _ _ _ _ Hm). by destruct c. Qed.

(** C16: The size that config-default gives the queues of a device: an equal share of the device's
    total size, rounded down, so that all of them together never ask for more than there is, with
    the threshold set to the size; a device with more queues than entries is refused with [-ENOSPC].
    For a device that shows no queues the size is divided by zero.  An attribute that could not be read is -1:
    one of the two being negative, the quotient is negative or 0, and as the member is unsigned a
    negative one passes the test as a size of at least 2^31, with result 0. *)
Theorem config_default_wq_set_on_dev_spec dev d i cd (c : cstate F) :
  h_devices (hp (c_world c)) !! dev = Some d → get_conf_def_wq_param (d_type d) = Some i →
  conf_def_wq_params (c_statics c) !! i = Some cd →
  let n := s32 (d_max_work_queues d) in let total := s32 (d_max_work_queues_size d) in
  if (n =? 0) || (total =? - 2 ^ 31) && (n =? -1) then config_default_wq_set_on_dev dev c = Fault
  else
    wp (config_default_wq_set_on_dev dev) (λ rc c', c_world c' = c_world c ∧ ∃ p,
      conf_def_wq_params (c_statics c') !! i = Some (cd <| cd_param := p |>) ∧
      (0 <= total → 0 < n → wp_wq_size p * n <= total < (wp_wq_size p + 1) * n) ∧
      (Z.abs n <= Z.abs total → (total <? 0) ≠ (n <? 0) → 2 ^ 31 <= wp_wq_size p) ∧
      if Z.abs total <? Z.abs n then rc = - ENOSPC ∧ wp_wq_size p = 0
      else rc = 0 ∧ 0 < wp_wq_size p ∧ wp_threshold p = wp_wq_size p) c.
Proof.
  intros Hd Hi Hcd n total.
  assert (accfg_device_get_type dev (c_world c) = Done (d_type d) (c_world c)) as Hty.
  { unfold accfg_device_get_type. run ltac:(by apply run_deref). done. }
  pose proof (get_wq_size_run dev d (c_world c) Hd) as Hsz. fold n total in Hsz.
  destruct ((n =? 0) || (total =? - 2 ^ 31) && (n =? -1)) eqn:Hbad.
  { unfold config_default_wq_set_on_dev. erewrite in_lib_run; [|exact Hty]; cbv beta iota.
    rewrite Hi. assert (c <| c_world := c_world c |> = c) as -> by by destruct c.
    unfold mbind, prog_bind, in_lib. by rewrite Hsz. }
  destruct (share_spec total n ltac:(apply s32_range) ltac:(apply s32_range) ltac:(lia) ltac:(lia)) as (Hshare & Hneg & Hcase).
  unfold config_default_wq_set_on_dev. eapply wp_in_lib; [exact Hty|]. rewrite Hi.
  eapply wp_in_lib; [exact Hsz|]. set (size := u32 (Z.quot total n)) in *.
  set (c1 := c <| c_statics ::= λ st, st <| conf_def_wq_params ::= alter (λ x, x <| cd_param ::= λ w, w <| wp_wq_size := size |> |>) i |> |>).
  assert (conf_def_wq_params (c_statics c1) !! i = Some (cd <| cd_param ::= λ w, w <| wp_wq_size := size |> |>)) as Hc1.
  { simpl. by rewrite list_lookup_alter_eq, Hcd. }
  apply wp_bind. match goal with |- wp _ ?Q _ => change (Q () c1) end. cbv beta.
  apply wp_bind, wp_bind. match goal with |- wp (static _) ?Q _ => change (Q (conf_def_wq_params (c_statics c1)) c1) end. cbv beta.
  rewrite Hc1. apply wp_ret. cbn [cd_param upd eta_conf_def_wq_param]. simpl wp_wq_size.
  destruct (Z.abs total <? Z.abs n).
  - rewrite (proj2 (Z.leb_le size 0)) by lia.
    apply wp_ret. split; [done|]. eexists. split; [exact Hc1|]. by simpl.
  - rewrite (proj2 (Z.leb_gt size 0)) by lia.
    apply wp_bind, wp_ret. split; [done|]. eexists. split; [simpl; by rewrite list_lookup_alter_eq, list_lookup_alter_eq, Hcd|].
    by simpl.
Qed.
End defaults.

(** ** Instances *)

Definition load_state : cstate sim := CState demo_world (initial_statics <| st_parent := Some 2%positive |>).
Definition scalars (l : list (string * jtext)) : jtext := JObject ((λ '(k, v), (k, Some v)) <$> l).
Definition wq_doc : jtext := scalars [("dev", JString "wq0.1"); ("size", JInt 4)]%string.
Definition nested_doc : jtext :=
  scalars [("a", scalars [("b", JInt 1)]); ("b", scalars [])]%string.

(** More fuel than there are values: the run is the same. *)
Definition wq_docs : jtext := JArray [Some wq_doc].
Lemma json_parse_array_fuel_witness :
  runs_to (json_parse_array 5 (Some 1%positive) (Some wq_docs) None) load_state (-1) = true ∧
  json_parse_array_from (mret 7) 40 (Some 1%positive) (Some wq_docs) None load_state =
  json_parse_array (S (json_size wq_docs)) (Some 1%positive) (Some wq_docs) None load_state.
Proof.
  split; [vm_compute; reflexivity|].
  apply (json_parse_array_fuel (mret 7) (Some 1%positive) wq_docs 40 load_state). vm_compute. lia.
Defined.

Lemma group_json_set_val_spec_witness : ∃ g d,
  runs_to (group_json_set_val (Some 3%positive) (Some (JInt (-1))) (Some "tokens_reserved"%string)) demo_world
    (- EINVAL) = true ∧
  wp (group_json_set_val (Some 3%positive) (Some (JInt 50)) (Some "tokens_allowed"%string))
    (group_outcome 3 g d "tokens_allowed" 50 None demo_world) demo_world.
Proof.
  destruct demo_group_ok as [g Hg].
  assert (∃ d, h_devices (hp demo_world) !! g_device g = Some d) as [d Hd].
  { destruct Hg as (_ & (d & c & Hd & _) & _). by exists d. }
  exists g, d. split; [vm_compute; reflexivity|].
  apply (group_json_set_val_spec 3 g d "tokens_allowed" (JInt 50) 50 None demo_world Hg Hd). reflexivity.
Defined.

(** wq0.1 is enabled: it is the queue 5 of the device 2, in a file whose first object is the device's. *)
Definition wq_file : jtext :=
  JArray [Some (JObject [("dev", Some (JString "dsa0")); ("groups", Some (JArray [Some wq_doc]))])]%string.
Lemma active_wq_aborts_witness : ∃ c1 c' : cstate sim,
  json_parse_array 4 (Some 1%positive) (Some wq_file) None (CState demo_world initial_statics) = Done (-1) c' ∧
  c_world c' = after (accfg_wq_get_state 5) (after (accfg_device_wq_get_by_id 2 1) (c_world c1)).
Proof.
  set (c := CState demo_world initial_statics).
  set (name := Some (JString "dsa0")).
  set (choose := configure_json_value (F := sim) (Some 1%positive) name (Some "dev"%string)).
  assert (runs_to choose c 0 = true) as Hch by (vm_compute; reflexivity).
  assert (st_parent (c_statics (after choose c)) = Some 2%positive) as Hp by (vm_compute; reflexivity).
  assert (runs_to (accfg_device_wq_get_by_id 2 1) (c_world (after choose c)) (Some 5%positive) = true) as H1
    by (vm_compute; reflexivity).
  assert (runs_to (accfg_wq_get_state 5) (after (accfg_device_wq_get_by_id 2 1) (c_world (after choose c)))
    ACCFG_WQ_ENABLED = true) as H2 by (vm_compute; reflexivity).
  pose proof (runs_after _ _ _ Hch) as Hc1. revert Hp H1 H2 Hc1. generalize (after choose c). intros c1 Hp H1 H2 Hc1.
  exists c1.
  assert (reaches (Some 1%positive) 4 wq_file c 0 wq_doc [("dev", Some (JString "wq0.1")); ("size", Some (JInt 4))]%string c1)
    as Hr.
  { eapply reach_inside with (m := 2%nat) (k := "groups"%string) (a := JArray [Some wq_doc]) (rest := []).
    - eapply (reach_object _ 2 _ [] _ [] [("dev", name)]%string); [reflexivity|reflexivity|reflexivity|reflexivity| |].
      + by repeat constructor.
      + cbn [parse_members json_object_get_type name json_type_of jtext_json jtext_type]. fold name.
        by rewrite (bind_run _ _ _ _ _ Hc1).
    - reflexivity.
    - reflexivity.
    - eapply (reach_object _ 0 _ [] _ [] []); [reflexivity|reflexivity|reflexivity|reflexivity|constructor|reflexivity]. }
  exact (@active_wq_aborts sim sim_kernel jtext jtext_json 1 4 0 wq_file wq_doc (JString "wq0.1") "wq0.1" 2 0 1 5 ACCFG_WQ_ENABLED
    "size" (JInt 4) [] c c1 _ _ Hr ltac:(reflexivity) ltac:(reflexivity) ltac:(vm_compute; reflexivity) ltac:(vm_compute; reflexivity)
    ltac:(vm_compute; reflexivity) Hp (runs_after _ _ _ H1) (runs_after _ _ _ H2) (or_introl eq_refl)
    ltac:(done) ltac:(reflexivity)).
Defined.

Definition nested_inner : prog (cstate sim) Z :=
  json_parse 2 (Some 1%positive) (Some (scalars [("b", JInt 1)]%string)).
Lemma nested_object_fault_witness :
  runs_to nested_inner load_state (-1) = true ∧
  json_parse 3 (Some 1%positive) (Some nested_doc) load_state = Fault.
Proof.
  assert (runs_to nested_inner load_state (-1) = true) as Hrun by (vm_compute; reflexivity).
  split; [exact Hrun|].
  exact (@nested_object_fault sim sim_kernel jtext jtext_json 1 nested_doc "a" "b" (scalars [("b", JInt 1)]%string)
    (scalars []) (JInt 1) [] 2 load_state _ (-1) ltac:(reflexivity) ltac:(reflexivity) ltac:(reflexivity)
    ltac:(reflexivity) ltac:(reflexivity) (runs_after _ _ _ Hrun)).
Defined.

Lemma config_default_wq_set_on_dev_spec_witness :
  wp (config_default_wq_set_on_dev 2) (λ rc c', rc = 0 ∧ ∃ p,
      conf_def_wq_params (c_statics c') !! 0%nat = Some (ConfDef p false) ∧ wp_wq_size p = 16) load_state.
Proof.
  assert (∃ d, h_devices (hp demo_world) !! 2%positive = Some d ∧ d_type d = 0 ∧
    s32 (d_max_work_queues d) = 8 ∧ s32 (d_max_work_queues_size d) = 128) as (d & Hd & Ht & Hn & Htot).
  { eexists. split; [vm_compute; reflexivity|]. done. }
  pose proof (config_default_wq_set_on_dev_spec 2 d 0 (ConfDef zero_wq_parameters false) load_state Hd
    ltac:(by rewrite Ht) eq_refl) as Hspec.
  cbv zeta in Hspec. rewrite Hn, Htot in Hspec. eapply wp_mono; [|exact Hspec].
  intros rc c' (_ & p & Hp & Hsize & _ & Hrc & _). split; [done|]. exists p. split; [exact Hp|lia].
Defined.
