(* ===== verification/Skeleton.v ===== *)
(** * The library at work on a tree that is already there

    The skeleton of the library's memory is what no setter changes: which objects
    there are, their owners, lists, paths and buffers.  A call is [safe] at a skeleton
    when it ends, whatever the files hold and whatever allocation fails, with a
    result of which a predicate holds, and the same skeleton.  The rules prove it of
    the calls a configuration file makes. *)

From S2P Require Import Prelude CString Prog Types Sysfs Param Tree Device Wq.
From S2P Require Import SysfsFacts ParamFacts DeviceFacts WqFacts TreeFacts TreeInit.
Local Open Scope Z_scope.

(** ** Skeletons *)

Definition skel_ctx (c : accfg_ctx) : accfg_ctx := c <| c_error_ctx := None |>.
Definition skel_device (d : accfg_device) : accfg_device :=
  d <| d_read_buffer_limit := 0 |> <| d_event_log_size := 0 |>.
Definition skel_group (g : accfg_group) : accfg_group :=
  g <| g_read_buffers_reserved := 0 |> <| g_read_buffers_allowed := 0 |>
    <| g_use_read_buffer_limit := 0 |> <| g_traffic_class_a := 0 |> <| g_traffic_class_b := 0 |>
    <| g_desc_progress_limit := 0 |> <| g_batch_progress_limit := 0 |>.
Definition skel_wq (w : accfg_wq) : accfg_wq :=
  w <| w_group_id := 0 |> <| w_size := 0 |> <| w_priority := 0 |> <| w_block_on_fault := 0 |>
    <| w_threshold := 0 |> <| w_mode := None |> <| w_name := None |> <| w_driver_name := None |>
    <| w_type := ACCFG_WQT_NONE |> <| w_max_batch_size := 0 |> <| w_max_transfer_size := 0 |>
    <| w_ats_disable := 0 |> <| w_prs_disable := 0 |>.
Definition skel_engine (e : accfg_engine) : accfg_engine := e <| e_group_id := 0 |>.
Definition skel (h : heap) : heap :=
  Heap (skel_ctx <$> h_ctxs h) (skel_device <$> h_devices h) (skel_group <$> h_groups h)
    (skel_wq <$> h_wqs h) (skel_engine <$> h_engines h) (h_next h).

Lemma fmap_alter_skel {A B} (sk : A → B) (f : A → A) (m : gmap positive A) p :
  (∀ x, sk (f x) = sk x) → sk <$> alter f p m = sk <$> m.
Proof.
  intros Hf. apply map_eq. intros i. rewrite !lookup_fmap.
  destruct (decide (i = p)) as [->|]; [|by rewrite lookup_alter_ne].
  rewrite lookup_alter_eq. destruct (m !! p); simpl; [by rewrite Hf|done].
Qed.

Lemma fmap_skel_inv {A} (sk : A → A) (m s : gmap positive A) p x :
  sk <$> m = s → s !! p = Some x → ∃ y, m !! p = Some y ∧ sk y = x.
Proof. intros <-. rewrite lookup_fmap. destruct (m !! p) as [y|]; [|done]. intros [= <-]. eauto. Qed.

(** ** A tree whose devices were enumerated, and one that was enumerated to its leaves *)

Record steady (ctx : positive) (s : heap) : Prop := {
  rd_tree : tree_ok s;
  rd_ctx : ∃ c, h_ctxs s !! ctx = Some c ∧ c_devices_init c ≠ 0;
  rd_device d x : h_devices s !! d = Some x →
    d_group_init x ≠ 0 ∧
    d_buf_len x = strlen (d_device_path x) + MAX_BUF_LEN ∧ d_buf_len x < 2 ^ 31 ∧
    (∃ name, after_last slash (d_device_path x) = Some name ∧ strlen name <= 1000) ∧
    strlen (d_bus_type_str x) <= 1000;
}.

Record ready (ctx : positive) (s : heap) : Prop := {
  rd_steady :> steady ctx s;
  rd_group d x : h_devices s !! d = Some x →
    ∃ g y, d_group x = Some g ∧ h_groups s !! g = Some y ∧ g_wqs_init y ≠ 0 ∧ g_engines_init y ≠ 0;
}.

(** An object of the skeleton, or NULL. *)
Definition here_or_null {A} (s : heap) (m : heap → gmap positive A) (r : option positive) : Prop :=
  match r with Some p => is_Some (m s !! p) | None => True end.

(** The errors that were saved point at objects. *)
Definition err_ok (s : heap) (e : accfg_error_ctx) : Prop :=
  0 <= ec_cmd_status e < 2 ^ 32 ∧ here_or_null s h_devices (ec_device e) ∧ here_or_null s h_groups (ec_group e) ∧
  here_or_null s h_wqs (ec_wq e) ∧ here_or_null s h_engines (ec_engine e).
Definition errs_ok (s h : heap) : Prop :=
  ∀ p c e, h_ctxs h !! p = Some c → c_error_ctx c = Some e → err_ok s e.
Definition fits (s h : heap) : Prop := skel h = s ∧ errs_ok s h.

Section safe.
Context {F : Type} `{KernelLaws F} (flt : Prop) (s : heap).
Notation M := (prog (world F)).

Definition safe {A} (m : M A) (φ : A → Prop) : Prop := ∀ w, fits s (hp w) →
  match m w with Done a w' => fits s (hp w') ∧ φ a | Exited _ _ => False | Fault => flt end.

Lemma safe_ret {A} (a : A) (φ : A → Prop) : φ a → safe (mret a) φ.
Proof. by intros Ha w Hw. Qed.

Lemma safe_bind {A B} (m : M A) (k : A → M B) φ ψ :
  safe m φ → (∀ a, φ a → safe (k a) ψ) → safe (m ≫= k) ψ.
Proof.
  intros Hm Hk w Hw. specialize (Hm w Hw). unfold mbind, prog_bind.
  destruct (m w) as [a w'| |]; [|done..]. destruct Hm. by apply Hk.
Qed.

Lemma safe_mono {A} (m : M A) (φ ψ : A → Prop) : (∀ a, φ a → ψ a) → safe m φ → safe m ψ.
Proof. intros Hφ Hm w Hw. specialize (Hm w Hw). destruct (m w); naive_solver. Qed.

(** A call that leaves the memory alone. *)
Lemma safe_still {A} (m : M A) : always m → respects (on hp) m → safe m (λ _, True).
Proof.
  intros Ha Hr w Hw. destruct (Ha w) as (a & w' & Hrun). rewrite Hrun.
  split; [|done]. apply Hr in Hrun. unfold on in Hrun. by rewrite Hrun.
Qed.

Lemma safe_fault {A} (m : M A) φ : flt → (∀ w, m w = Fault) → safe m φ.
Proof. intros Hf Hm w _. by rewrite Hm. Qed.

Lemma safe_must {A} (o : option A) : flt → safe (must o) (λ _, True).
Proof. intros Hf w Hw. by destruct o. Qed.

Lemma safe_sprintf cap t : strlen t < cap → safe (sprintf_buf cap t) (λ _, True).
Proof. intros Ht w Hw. unfold sprintf_buf. by rewrite (proj2 (Z.ltb_lt _ _) Ht). Qed.

Lemma safe_print_d val :
  - 2 ^ 63 <= val < 2 ^ 64 → safe (sprintf_buf SYSFS_ATTR_SIZE (print_d val)) (λ _, True).
Proof.
  intros Hv. apply safe_sprintf. pose proof (print_d_short val Hv). unfold SYSFS_ATTR_SIZE. lia.
Qed.

(** ** Objects of the skeleton *)

Lemma safe_deref {A} (m : heap → gmap positive A) (sk : A → A) p x :
  (∀ h, sk <$> m h = m (skel h)) → m s !! p = Some x → safe (deref m p) (λ y, sk y = x).
Proof.
  intros Hm Hp w Hf. pose proof (proj1 Hf) as Hw. rewrite <- Hw, <- Hm, lookup_fmap in Hp.
  unfold deref, gets, mbind, prog_bind, must. destruct (m (hp w) !! p) as [y|]; [|done].
  injection Hp as Hp. done.
Qed.

Lemma safe_get_ctx p x : h_ctxs s !! p = Some x →
  safe (get_ctx p) (λ y, c_devices y = c_devices x ∧ c_devices_init y = c_devices_init x ∧
    ∀ e, c_error_ctx y = Some e → err_ok s e).
Proof.
  intros Hp w Hw. pose proof (safe_deref h_ctxs skel_ctx p x (λ _, eq_refl) Hp w Hw) as Hd.
  unfold get_ctx, deref, gets, mbind, prog_bind, must in *. destruct (h_ctxs (hp w) !! p) as [y|] eqn:Hy; [|done].
  destruct Hd as [_ <-]. split; [done|]. split_and!; [done..|]. intros e He. by eapply (proj2 Hw).
Qed.
Lemma safe_get_device p x : h_devices s !! p = Some x →
  safe (get_device p) (λ y, d_ctx y = d_ctx x ∧ d_device_path y = d_device_path x ∧
    d_buf_len y = d_buf_len x ∧ d_bus_type_str y = d_bus_type_str x ∧ d_group y = d_group x ∧
    d_group_init y = d_group_init x ∧ d_groups y = d_groups x ∧ d_wqs y = d_wqs x ∧
    d_engines y = d_engines x).
Proof. intros Hp. eapply safe_mono, (safe_deref _ skel_device); [|done..]. by intros y <-. Qed.
Lemma safe_get_group p x : h_groups s !! p = Some x →
  safe (get_group p) (λ y, g_device y = g_device x ∧ g_group_path y = g_group_path x ∧
    g_buf_len y = g_buf_len x ∧ g_wqs_init y = g_wqs_init x ∧ g_engines_init y = g_engines_init x).
Proof. intros Hp. eapply safe_mono, (safe_deref _ skel_group); [|done..]. by intros y <-. Qed.
Lemma safe_get_wq p x : h_wqs s !! p = Some x →
  safe (get_wq p) (λ y, w_device y = w_device x ∧ w_wq_path y = w_wq_path x ∧ w_buf_len y = w_buf_len x).
Proof. intros Hp. eapply safe_mono, (safe_deref _ skel_wq); [|done..]. by intros y <-. Qed.
Lemma safe_get_engine p x : h_engines s !! p = Some x →
  safe (get_engine p) (λ y, e_device y = e_device x ∧ e_engine_path y = e_engine_path x ∧
    e_buf_len y = e_buf_len x).
Proof. intros Hp. eapply safe_mono, (safe_deref _ skel_engine); [|done..]. by intros y <-. Qed.

(** A change of a tree's attributes. *)
Lemma safe_on_heap g : (∀ h, skel (g h) = skel h) → (∀ h, h_ctxs (g h) = h_ctxs h) →
  safe (on_heap (F := F) g) (λ _, True).
Proof. intros Hg Hc w [Hw He]. split; [|done]. split; simpl; [by rewrite Hg|]. intros p c e. rewrite Hc. apply He. Qed.

Lemma safe_upd {A} (get : M A) g φ :
  safe get φ → (∀ h, skel (g h) = skel h) → (∀ h, h_ctxs (g h) = h_ctxs h) →
  safe (get ;; on_heap g) (λ _, True).
Proof. intros Hget Hg Hc. eapply safe_bind; [done|]. intros a _. by apply safe_on_heap. Qed.

Lemma safe_upd_ctx p f x : h_ctxs s !! p = Some x → (∀ c, skel_ctx (f c) = skel_ctx c) →
  (∀ c e, c_error_ctx (f c) = Some e → c_error_ctx c = Some e ∨ err_ok s e) →
  safe (upd_ctx p f) (λ _, True).
Proof.
  intros Hp Hf He. unfold upd_ctx. eapply safe_bind; [by apply (safe_get_ctx p x)|]. intros a _ w [Hw Herr].
  split; [|done]. split; simpl.
  - rewrite <- Hw. unfold skel. simpl. by rewrite fmap_alter_skel.
  - intros q c e Hc Hce. simpl in Hc. rewrite lookup_alter in Hc. destruct (decide (p = q)) as [->|]; [|by eapply Herr].
    destruct (h_ctxs (hp w) !! q) as [c0|] eqn:Hc0; [|done]. injection Hc as <-.
    destruct (He _ _ Hce) as [Hold|Hnew]; [by eapply Herr|done].
Qed.
Lemma safe_upd_device p f x : h_devices s !! p = Some x → (∀ c, skel_device (f c) = skel_device c) →
  safe (upd_device p f) (λ _, True).
Proof.
  intros Hp Hf. eapply safe_upd; [by apply (safe_get_device p x)| |done]. intros h. unfold skel. simpl. by rewrite fmap_alter_skel.
Qed.
Lemma safe_upd_group p f x : h_groups s !! p = Some x → (∀ c, skel_group (f c) = skel_group c) →
  safe (upd_group p f) (λ _, True).
Proof.
  intros Hp Hf. eapply safe_upd; [by apply (safe_get_group p x)| |done]. intros h. unfold skel. simpl. by rewrite fmap_alter_skel.
Qed.
Lemma safe_upd_wq p f x : h_wqs s !! p = Some x → (∀ c, skel_wq (f c) = skel_wq c) →
  safe (upd_wq p f) (λ _, True).
Proof.
  intros Hp Hf. eapply safe_upd; [by apply (safe_get_wq p x)| |done]. intros h. unfold skel. simpl. by rewrite fmap_alter_skel.
Qed.
Lemma safe_upd_engine p f x : h_engines s !! p = Some x → (∀ c, skel_engine (f c) = skel_engine c) →
  safe (upd_engine p f) (λ _, True).
Proof.
  intros Hp Hf. eapply safe_upd; [by apply (safe_get_engine p x)| |done]. intros h. unfold skel. simpl. by rewrite fmap_alter_skel.
Qed.
End safe.

(** One step of a body.  Members that were read are those of the skeleton; what is
    left are the lengths of paths. *)
Ltac known := repeat match goal with
  | E : d_device_path ?y = _ |- context [d_device_path ?y] => rewrite E
  | E : d_buf_len ?y = _ |- context [d_buf_len ?y] => rewrite E
  | E : d_bus_type_str ?y = _ |- context [d_bus_type_str ?y] => rewrite E
  | E : d_ctx ?y = _ |- context [d_ctx ?y] => rewrite E
  | E : d_group ?y = _ |- context [d_group ?y] => rewrite E
  | E : d_group_init ?y = _ |- context [d_group_init ?y] => rewrite E
  | E : g_device ?y = _ |- context [g_device ?y] => rewrite E
  | E : g_group_path ?y = _ |- context [g_group_path ?y] => rewrite E
  | E : g_buf_len ?y = _ |- context [g_buf_len ?y] => rewrite E
  | E : w_device ?y = _ |- context [w_device ?y] => rewrite E
  | E : w_wq_path ?y = _ |- context [w_wq_path ?y] => rewrite E
  | E : w_buf_len ?y = _ |- context [w_buf_len ?y] => rewrite E
  | E : e_device ?y = _ |- context [e_device ?y] => rewrite E
  | E : e_engine_path ?y = _ |- context [e_engine_path ?y] => rewrite E
  | E : e_buf_len ?y = _ |- context [e_buf_len ?y] => rewrite E
  end.
Ltac path_len := rewrite ?strlen_path, ?strlen_app; unfold MAX_BUF_LEN in *;
  repeat match goal with |- context [strlen (String ?c ?t)] =>
    let v := eval vm_compute in (strlen (String c t)) in change (strlen (String c t)) with v
  end; try lia.

Create HintDb safe discriminated.
#[export] Hint Extern 1 (here_or_null _ _ None) => exact I : safe.
#[export] Hint Extern 1 (here_or_null _ _ (Some _)) => eexists; eassumption : safe.
#[export] Hint Extern 1 (safe _ _ (upd_device _ _) _) => eapply safe_upd_device; [eassumption|done] : safe.
#[export] Hint Extern 1 (safe _ _ (upd_group _ _) _) => eapply safe_upd_group; [eassumption|done] : safe.
#[export] Hint Extern 1 (safe _ _ (upd_wq _ _) _) => eapply safe_upd_wq; [eassumption|done] : safe.
#[export] Hint Extern 1 (safe _ _ (upd_engine _ _) _) => eapply safe_upd_engine; [eassumption|done] : safe.
Ltac safe_call := first
  [ solve [eauto with safe]
  | eapply safe_get_ctx; eassumption | eapply safe_get_device; eassumption
  | eapply safe_get_group; eassumption | eapply safe_get_wq; eassumption
  | eapply safe_get_engine; eassumption
  | apply safe_print_d; lia
  | apply safe_sprintf; solve [path_len]
  | apply safe_still; [solve [always]|solve [frame]] ].
Ltac safe_intro := intros ? ?; cbv beta in *; repeat match goal with H : _ ∧ _ |- _ => destruct H end; known.
Ltac safe_step := lazymatch goal with
  | |- safe _ _ (mret _) _ => apply safe_ret
  | |- safe _ _ (let _ := _ in _) _ => cbv zeta
  | |- safe _ _ (match ?x with _ => _ end) _ => destruct x
  | |- safe _ _ (_ ≫= _) _ => eapply safe_bind; [safe_call|safe_intro]
  | |- safe _ _ _ (λ _, True) => eapply safe_mono; [|safe_call]; intros; exact I
  end.
Ltac safe := repeat safe_step; try done.

Section operations.
Context {F : Type} `{KernelLaws F} (flt : Prop) (s : heap) (ctx : positive) (Hs : steady ctx s).
Notation M := (prog (world F)).
Notation safe := (safe (F := F) flt s).

Lemma owner_ctx d x : h_devices s !! d = Some x → ∃ c, h_ctxs s !! d_ctx x = Some c.
Proof. intros Hd. by destruct (ok_device _ (rd_tree _ _ Hs) _ _ Hd) as [[c Hc] _]; eauto. Qed.

Lemma safe_cmd_status d x : h_devices s !! d = Some x →
  safe (accfg_device_get_cmd_status (Some d)) (λ v, 0 <= v < 2 ^ 32).
Proof.
  intros Hd. unfold accfg_device_get_cmd_status. safe; first [apply u32_range|done].
Qed.
#[local] Hint Resolve safe_cmd_status : safe.

Lemma safe_save_last_error d wq g e x : h_devices s !! d = Some x →
  here_or_null s h_wqs wq → here_or_null s h_groups g → here_or_null s h_engines e →
  safe (save_last_error d wq g e) (λ _, True).
Proof.
  intros Hd Hwq Hg He. destruct (owner_ctx _ _ Hd) as [c Hc]. unfold save_last_error. do 2 safe_step.
  eapply safe_bind with (λ _, True).
  { safe_step; [safe|]. eapply safe_bind with (λ _, True); [safe|]. intros [] _; [|safe].
    eapply safe_upd_ctx; [done..|]. intros c0 e0 [= <-]. by right. }
  intros _ _. do 2 safe_step; [|safe]. safe_step.
  eapply safe_upd_ctx; [done..|]. intros c0 e0 [= <-]. right. split_and!; simpl; first [done|lia|by eexists].
Qed.
#[local] Hint Resolve safe_save_last_error : safe.

Lemma safe_store_attr path buf save commit :
  safe save (λ _, True) → safe commit (λ _, True) → safe (store_attr path buf save commit) (λ _, True).
Proof.
  intros Hsave Hcommit. unfold store_attr. safe_step. safe_step; (eapply safe_bind; [eassumption|]); intros _ _; safe.
Qed.
#[local] Hint Resolve safe_store_attr : safe.

(** *** Devices *)

Lemma safe_device_set_read_buffer_limit d x val : h_devices s !! d = Some x →
  - 2 ^ 31 <= val < 2 ^ 31 → safe (accfg_device_set_read_buffer_limit (Some d) val) (λ _, True).
Proof.
  intros Hd Hv. destruct (rd_device _ _ Hs _ _ Hd) as (_ & Hlen & _).
  unfold accfg_device_set_read_buffer_limit. change (print_s (deprecated_attr _)) with "token_limit"%string.
  do 2 safe_step. safe_step; [safe|]. safe_step.
  eapply safe_bind with (λ _, True); [safe|]. intros [path|] _; safe.
Qed.

Lemma safe_device_set_event_log_size d x val : h_devices s !! d = Some x →
  - 2 ^ 31 <= val < 2 ^ 31 → safe (accfg_device_set_event_log_size (Some d) val) (λ _, True).
Proof.
  intros Hd Hv. destruct (rd_device _ _ Hs _ _ Hd) as (_ & Hlen & _).
  unfold accfg_device_set_event_log_size. safe.
Qed.

Lemma safe_device_get_state d x : h_devices s !! d = Some x →
  safe (accfg_device_get_state (Some d)) (λ _, True).
Proof. intros Hd. unfold accfg_device_get_state. safe. Qed.

Lemma safe_device_get_clients d x : h_devices s !! d = Some x →
  safe (accfg_device_get_clients (Some d)) (λ _, True).
Proof. intros Hd. unfold accfg_device_get_clients. safe. Qed.
#[local] Hint Resolve safe_device_get_clients : safe.

Lemma safe_devpath path name : after_last slash path = Some name →
  safe (devpath_to_devname path) (λ n, n = name).
Proof. unfold devpath_to_devname. intros -> w Hw. done. Qed.

Lemma safe_device_get_devname d x : h_devices s !! d = Some x →
  safe (accfg_device_get_devname d) (λ n, after_last slash (d_device_path x) = Some n).
Proof.
  intros Hd. destruct (rd_device _ _ Hs _ _ Hd) as (_ & _ & _ & (name & Hn & _) & _).
  unfold accfg_device_get_devname. safe_step. eapply safe_mono, safe_devpath; [|done]. by intros ? ->.
Qed.

Lemma safe_device_disable d x force : h_devices s !! d = Some x →
  safe (accfg_device_disable (Some d) force) (λ _, True).
Proof.
  intros Hd. destruct (rd_device _ _ Hs _ _ Hd) as (_ & _ & _ & (name & Hn & Hlen) & Hbus).
  pose proof (safe_device_get_devname _ _ Hd) as Hname.
  unfold accfg_device_disable, accfg_device_control, device_control_path, get_driver_unbind_path.
  eapply safe_bind with (λ _, True).
  - safe_step. eapply safe_bind; [exact Hname|]. intros n Hn'. cbv beta in Hn'.
    rewrite Hn in Hn'. injection Hn' as <-. known. unfold PATH_MAX.
    eapply safe_bind with (λ _, True); [|intros [rc|p] _; safe].
    safe.
  - intros [rc|[path|]] _; [by safe| |by safe]. eapply safe_bind; [exact Hname|]. intros n _. safe.
Qed.

(** *** Groups *)

Lemma group_owner p x : h_groups s !! p = Some x → ∃ d c, h_devices s !! g_device x = Some d ∧
  h_ctxs s !! d_ctx d = Some c ∧ g_buf_len x = strlen (g_group_path x) + MAX_BUF_LEN.
Proof.
  intros Hp. destruct (ok_group _ (rd_tree _ _ Hs) _ _ Hp) as ([d Hd] & Hlen & _).
  destruct (owner_ctx _ _ Hd) as [c Hc]. eauto.
Qed.

Lemma safe_group_set_field f p x val : h_groups s !! p = Some x → - 2 ^ 31 <= val < 2 ^ 31 →
  safe (accfg_group_set_field f p val) (λ _, True).
Proof.
  intros Hp Hv. destruct (group_owner _ _ Hp) as (d & c & Hd & Hc & Hlen).
  destruct (group_name_short f) as [H1 H2].
  assert (∀ g, skel_group (group_field_set f val g) = skel_group g) as Hsk by by destruct f.
  unfold accfg_group_set_field, accfg_group_get_ctx. safe_step.
  eapply safe_bind with (λ _, True); [by safe|]. intros _ _. do 2 safe_step.
  eapply safe_bind with (λ _, True); [by safe|]. intros path _. safe.
Qed.

Lemma safe_group_get_device p x : h_groups s !! p = Some x →
  safe (accfg_group_get_device p) (λ d, d = g_device x).
Proof. intros Hp. unfold accfg_group_get_device. safe. Qed.

(** *** Work queues *)

Lemma wq_owner p x : h_wqs s !! p = Some x → ∃ d c, h_devices s !! w_device x = Some d ∧
  h_ctxs s !! d_ctx d = Some c ∧ w_buf_len x = strlen (w_wq_path x) + MAX_BUF_LEN.
Proof.
  intros Hp. destruct (ok_wq _ (rd_tree _ _ Hs) _ _ Hp) as ([d Hd] & Hlen & _).
  destruct (owner_ctx _ _ Hd) as [c Hc]. eauto.
Qed.

Lemma safe_wq_get_ctx p x : h_wqs s !! p = Some x → safe (accfg_wq_get_ctx p) (λ _, True).
Proof.
  intros Hp. destruct (wq_owner _ _ Hp) as (d & c & Hd & Hc & _). unfold accfg_wq_get_ctx. safe.
Qed.
#[local] Hint Resolve safe_wq_get_ctx : safe.

Lemma safe_configurable d x : h_devices s !! d = Some x →
  safe (accfg_device_get_configurable d) (λ _, True).
Proof. intros Hd. unfold accfg_device_get_configurable. safe. Qed.
#[local] Hint Resolve safe_configurable : safe.

Lemma safe_wq_set_field f p x val : h_wqs s !! p = Some x → - 2 ^ 31 <= val < 2 ^ 31 →
  safe (accfg_wq_set_field f p val) (λ _, True).
Proof.
  intros Hp Hv. destruct (wq_owner _ _ Hp) as (d & c & Hd & Hc & Hlen). pose proof (wq_name_short f).
  assert (∀ w, skel_wq (wq_field_set f val w) = skel_wq w) as Hsk by by destruct f.
  unfold accfg_wq_set_field. safe.
Qed.

Lemma safe_print_u val : 0 <= val < 2 ^ 64 →
  safe (sprintf_buf SYSFS_ATTR_SIZE (print_u val)) (λ _, True).
Proof.
  intros Hv. pose proof (safe_print_d (F := F) flt s val) as Hp. unfold print_d in Hp.
  destruct (Z.ltb_spec val 0); [lia|]. apply Hp. lia.
Qed.

Lemma safe_wq_set_max_transfer_size p x val : h_wqs s !! p = Some x → 0 <= val < 2 ^ 64 →
  safe (accfg_wq_set_max_transfer_size p val) (λ _, True).
Proof.
  intros Hp Hv. destruct (wq_owner _ _ Hp) as (d & c & Hd & Hc & Hlen).
  unfold accfg_wq_set_max_transfer_size. do 3 safe_step.
  eapply safe_bind; [by apply safe_print_u|]. intros _ _. safe.
Qed.

Lemma safe_text val : strlen val < SYSFS_ATTR_SIZE → safe (sprintf_buf SYSFS_ATTR_SIZE val) (λ _, True).
Proof. apply safe_sprintf. Qed.
#[local] Hint Resolve safe_text : safe.

Lemma safe_wq_set_str_field f p x val : h_wqs s !! p = Some x → strlen val < SYSFS_ATTR_SIZE →
  safe (accfg_wq_set_str_field f p val) (λ _, True).
Proof.
  intros Hp Hv. destruct (wq_owner _ _ Hp) as (d & c & Hd & Hc & Hlen).
  assert (strlen (wq_str_field_name f) <= 64) as Hf by by destruct f.
  assert (∀ v w, skel_wq (wq_str_field_set f v w) = skel_wq w) as Hsk by by destruct f.
  unfold accfg_wq_set_str_field. safe.
Qed.

Lemma safe_parse_type t : safe (wq_parse_type (Some t)) (λ _, True).
Proof. unfold wq_parse_type. change (must (Some t)) with (mret (M := M) t). apply safe_still; [always|frame]. Qed.
#[local] Hint Resolve safe_parse_type : safe.

Lemma safe_wq_set_str_type p x val : h_wqs s !! p = Some x → strlen val < SYSFS_ATTR_SIZE →
  safe (accfg_wq_set_str_type p val) (λ _, True).
Proof.
  intros Hp Hv. destruct (wq_owner _ _ Hp) as (d & c & Hd & Hc & Hlen).
  unfold accfg_wq_set_str_type. safe.
Qed.

Lemma safe_wq_set_op_config_str p x val : h_wqs s !! p = Some x →
  safe (accfg_wq_set_op_config_str (Some p) (Some val)) (λ _, True).
Proof.
  intros Hp. destruct (wq_owner _ _ Hp) as (d & c & Hd & Hc & Hlen).
  unfold accfg_wq_set_op_config_str. safe.
Qed.

Lemma safe_wq_get_state p x : h_wqs s !! p = Some x → safe (accfg_wq_get_state p) (λ _, True).
Proof.
  intros Hp. destruct (wq_owner _ _ Hp) as (d & c & Hd & Hc & Hlen). unfold accfg_wq_get_state. safe.
Qed.

(** The text of the mode is dereferenced, readable or not. *)
Lemma safe_wq_get_mode p x : flt → h_wqs s !! p = Some x → safe (accfg_wq_get_mode p) (λ _, True).
Proof.
  intros Hflt Hp. destruct (wq_owner _ _ Hp) as (d & c & Hd & Hc & Hlen). unfold accfg_wq_get_mode.
  do 3 safe_step. safe_step; [|by safe]. safe_step.
  eapply safe_bind with (λ _, True); [by apply safe_must|]. intros m _. safe.
Qed.

Lemma safe_wq_get_field f p x : h_wqs s !! p = Some x → safe (accfg_wq_get_field f p) (λ _, True).
Proof. intros Hp. unfold accfg_wq_get_field. safe. Qed.

Lemma safe_wq_get_device p x : h_wqs s !! p = Some x → safe (accfg_wq_get_device p) (λ d, d = w_device x).
Proof. intros Hp. unfold accfg_wq_get_device. safe. Qed.

(** *** Engines *)

Lemma safe_engine_set_group_id p x val : h_engines s !! p = Some x → - 2 ^ 31 <= val < 2 ^ 31 →
  safe (accfg_engine_set_group_id p val) (λ _, True).
Proof.
  intros Hp Hv. destruct (ok_engine _ (rd_tree _ _ Hs) _ _ Hp) as ([d Hd] & Hlen & _).
  destruct (owner_ctx _ _ Hd) as [c Hc].
  unfold accfg_engine_set_group_id, accfg_engine_get_ctx.
  eapply safe_bind with (λ _, True); [safe|]. intros _ _. safe.
Qed.

(** *** Look-ups: nothing is enumerated again *)

Lemma safe_devices_init : safe (devices_init ctx) (λ _, True).
Proof.
  destruct (rd_ctx _ _ Hs) as (c & Hc & Hi). unfold devices_init. safe_step.
  replace (c_devices_init a) with (c_devices_init c) by congruence. rewrite (proj2 (Z.eqb_neq _ _) Hi). cbn [negb]. cbv iota. safe.
Qed.

Lemma safe_groups_init d x : h_devices s !! d = Some x → safe (groups_init d) (λ _, True).
Proof.
  intros Hd. destruct (rd_device _ _ Hs _ _ Hd) as (Hi & _). unfold groups_init. safe_step.
  rewrite (proj2 (Z.eqb_neq _ _) Hi). cbn [negb]. cbv iota. safe.
Qed.

Lemma safe_wqs_init d x : ready ctx s → h_devices s !! d = Some x → safe (wqs_init d) (λ _, True).
Proof.
  intros Hr Hd. destruct (rd_group _ _ Hr _ _ Hd) as (g & y & Hg & Hy & Hw & _).
  unfold wqs_init. safe_step. eapply safe_bind with (λ r, r = true); [|intros r ->; safe].
  safe_step. replace (g_wqs_init a0) with (g_wqs_init y) by congruence. rewrite (proj2 (Z.eqb_neq _ _) Hw). cbn [negb]. cbv iota. safe.
Qed.

Lemma safe_engines_init d x : ready ctx s → h_devices s !! d = Some x → safe (engines_init d) (λ _, True).
Proof.
  intros Hr Hd. destruct (rd_group _ _ Hr _ _ Hd) as (g & y & Hg & Hy & _ & He).
  unfold engines_init. safe_step. eapply safe_bind with (λ r, r = true); [|intros r ->; safe].
  safe_step. replace (g_engines_init a0) with (g_engines_init y) by congruence. rewrite (proj2 (Z.eqb_neq _ _) He). cbn [negb]. cbv iota. safe.
Qed.

(** A search answers a member of the list. *)
Lemma safe_foreach {A} l next (body : positive → M (option A)) (φ : option A → Prop) :
  NoDup l → φ None →
  (∀ p, p ∈ l → safe (body p) φ) →
  (∀ p, p ∈ l → safe (next p) (λ r, r = list_next l p)) →
  safe (foreach (S (length l)) (list_top l) next body) φ.
Proof.
  intros Hnd Hnone Hbody Hnext.
  enough (∀ (l2 l1 : list positive), l = (l1 ++ l2)%list →
    safe (foreach (S (length l2)) (list_top l2) next body) φ) as Hw by by apply (Hw l []).
  induction l2 as [|p l2 IH]; intros l1 ->; [by apply safe_ret|].
  assert (p ∈ (l1 ++ p :: l2)%list) as Hp by (apply elem_of_app; right; by left).
  change (foreach (S (length (p :: l2))) (list_top (p :: l2)) next body) with
    (r ← body p; match r with
                 | Some a => mret (Some a)
                 | None => y ← next p; foreach (S (length l2)) y next body
                 end).
  eapply safe_bind; [by apply Hbody|]. intros [a|] Ha; [by apply safe_ret|].
  eapply safe_bind; [by apply Hnext|]. intros y ->. rewrite list_next_mid by done.
  apply (IH (l1 ++ [p])%list). by rewrite <- (assoc app).
Qed.

(** What a look-up answers is there. *)
Lemma safe_device_get_by_name name :
  safe (accfg_ctx_device_get_by_name ctx name) (here_or_null s h_devices).
Proof.
  destruct (rd_ctx _ _ Hs) as (c & Hc & _). destruct (ok_ctx _ (rd_tree _ _ Hs) _ _ Hc) as [Hnd Hm].
  unfold accfg_ctx_device_get_by_name, accfg_device_foreach, accfg_device_get_first.
  eapply safe_bind with (λ x, x = list_top (c_devices c)).
  { eapply safe_bind; [apply safe_devices_init|]. intros _ _. safe_step. safe_step. by f_equal. }
  intros x ->. safe_step. replace (c_devices a) with (c_devices c) by congruence.
  apply safe_foreach; [done..| |].
  - intros p (d & Hd & _)%Hm. eapply safe_bind; [by eapply safe_device_get_devname|]. intros n _.
    safe_step. unfold found. destruct (strcmp_eq n name); [by exists d|done].
  - intros p (d & Hd & Hctx)%Hm. unfold accfg_device_get_next. safe_step. safe_step.
    safe_step. by f_equal.
Qed.

Lemma safe_group_get_by_id d x id : h_devices s !! d = Some x →
  safe (accfg_device_group_get_by_id d id) (here_or_null s h_groups).
Proof.
  intros Hd. destruct (ok_device _ (rd_tree _ _ Hs) _ _ Hd) as (_ & [Hnd Hm] & _).
  unfold accfg_device_group_get_by_id, accfg_group_foreach, accfg_group_get_first.
  eapply safe_bind with (λ r, r = list_top (d_groups x)).
  { eapply safe_bind; [by eapply safe_groups_init|]. intros _ _. safe_step. safe_step. by f_equal. }
  intros r ->. safe_step. replace (d_groups a) with (d_groups x) by congruence.
  apply safe_foreach; [done..| |].
  - intros p (g & Hg & _)%Hm. unfold accfg_group_get_id. eapply safe_bind with (λ _, True); [safe|].
    intros i _. safe_step. unfold found. destruct (_ =? _); [by exists g|done].
  - intros p (g & Hg & Ho)%Hm. unfold accfg_group_get_next. safe_step. safe_step.
    safe_step. by f_equal.
Qed.

Lemma safe_wq_get_by_id d x id : ready ctx s → h_devices s !! d = Some x →
  safe (accfg_device_wq_get_by_id d id) (here_or_null s h_wqs).
Proof.
  intros Hr Hd. destruct (ok_device _ (rd_tree _ _ Hs) _ _ Hd) as (_ & _ & [Hnd Hm] & _).
  unfold accfg_device_wq_get_by_id, accfg_wq_foreach, accfg_wq_get_first.
  eapply safe_bind with (λ r, r = list_top (d_wqs x)).
  { eapply safe_bind; [by eapply safe_wqs_init|]. intros _ _. safe_step. safe_step. by f_equal. }
  intros r ->. safe_step. replace (d_wqs a) with (d_wqs x) by congruence.
  apply safe_foreach; [done..| |].
  - intros p (w & Hw & _)%Hm. unfold accfg_wq_get_id. eapply safe_bind with (λ _, True); [safe|].
    intros i _. safe_step. unfold found. destruct (_ =? _); [by exists w|done].
  - intros p (w & Hw & Ho)%Hm. unfold accfg_wq_get_next. safe_step. safe_step.
    safe_step. by f_equal.
Qed.

Lemma safe_engine_get_by_id d x id : ready ctx s → h_devices s !! d = Some x →
  safe (accfg_device_engine_get_by_id d id) (here_or_null s h_engines).
Proof.
  intros Hr Hd. destruct (ok_device _ (rd_tree _ _ Hs) _ _ Hd) as (_ & _ & _ & [Hnd Hm]).
  unfold accfg_device_engine_get_by_id, accfg_engine_foreach, accfg_engine_get_first.
  eapply safe_bind with (λ r, r = list_top (d_engines x)).
  { eapply safe_bind; [by eapply safe_engines_init|]. intros _ _. safe_step. safe_step. by f_equal. }
  intros r ->. safe_step. replace (d_engines a) with (d_engines x) by congruence.
  apply safe_foreach; [done..| |].
  - intros p (e & He & _)%Hm. unfold accfg_engine_get_id. eapply safe_bind with (λ _, True); [safe|].
    intros i _. safe_step. unfold found. destruct (_ =? _); [by exists e|done].
  - intros p (e & He & Ho)%Hm. unfold accfg_engine_get_next. safe_step. safe_step.
    safe_step. by f_equal.
Qed.
End operations.
