(* ===== verification/Reload.v ===== *)
(** * Loading what was saved

    The object save-config writes of a work queue, read back by load-config on the same
    queue: the attributes are written with the values the library holds, and the
    library's memory is what it was but for the member [mode], which nothing reads. *)

From S2P Require Import Prelude CString Prog ParseOptions Types SimKernel Sysfs Param Tree Demo Device Wq Filter ConfigAttr Json JsonStore JsonUtil Commands Config.
From S2P Require Import LoadFacts ListFacts SysfsFacts ParamFacts DeviceFacts WqFacts ConfigFacts TreeFacts TreeInit.
Local Open Scope string_scope.
Local Open Scope Z_scope.

(** ** The same memory, but for the mode of a queue and the saved errors *)

Definition no_mode (x : accfg_wq) : accfg_wq := x <| w_mode := None |>.
Definition forget_mode (wq : positive) (o : heap * Z * string) : heap * Z * string :=
  (o.1.1 <| h_wqs ::= alter no_mode wq |>, o.1.2, o.2).
Definition same {F} (wq : positive) (w w' : world F) : Prop := forget_mode wq (objs w') = forget_mode wq (objs w).

#[export] Instance same_equiv {F} wq : Equivalence (same (F := F) wq).
Proof. split; unfold same; [by intros ?|by intros ? ?|intros ? ? ?; congruence]. Qed.

Lemma same_objs {F} wq (w w' : world F) : objs w' = objs w → same wq w w'.
Proof. unfold same. by intros ->. Qed.
Lemma same_lib {F} wq (w w' : world F) : lib w' = lib w → same wq w w'.
Proof. intros Hl. by apply same_objs, objs_lib. Qed.

(** A change of the queue's record that is none, or one of the mode. *)
Lemma same_alter {F} wq f x (w w' : world F) :
  h_wqs (hp w) !! wq = Some x → no_mode (f x) = no_mode x →
  lib w' = (hp w <| h_wqs ::= alter f wq |>, init_cmd_status w, filename_prefix w) → same wq w w'.
Proof.
  intros Hx Hf Hl. unfold lib in Hl. injection Hl as Hh Hi Hp. unfold same, objs, forget_mode, erase_heap. rewrite Hh, Hi, Hp. simpl.
  do 3 f_equal. apply map_eq. intros q. rewrite !lookup_alter.
  destruct (decide (wq = q)) as [->|]; [|done]. rewrite Hx, decide_True by done. exact (f_equal Some Hf).
Qed.

Lemma same_parts {F} wq (w w' : world F) : same wq w w' →
  alter no_mode wq (h_wqs (hp w')) = alter no_mode wq (h_wqs (hp w)) ∧ h_devices (hp w') = h_devices (hp w) ∧
  erase <$> h_ctxs (hp w') = erase <$> h_ctxs (hp w).
Proof.
  intros Hs. split_and!.
  - exact (f_equal (λ o, h_wqs o.1.1) Hs).
  - exact (f_equal (λ o, h_devices o.1.1) Hs).
  - exact (f_equal (λ o, h_ctxs o.1.1) Hs).
Qed.

Lemma no_mode_eq x y : no_mode x = no_mode y → x = y <| w_mode := w_mode x |>.
Proof. destruct x, y. unfold no_mode. simpl. intros [=]. by subst. Qed.

Lemma same_wq_ok {F} wq x d c name (w w' : world F) :
  same wq w w' → wq_ok wq x d c name (hp w) → ∃ m c', wq_ok wq (x <| w_mode := m |>) d c' name (hp w').
Proof.
  intros (Hwq & Hdev & Hctx)%same_parts (Hw & Hd & Hc & Hrest).
  apply (f_equal (lookup wq)) in Hwq. rewrite !lookup_alter_eq, Hw in Hwq.
  destruct (h_wqs (hp w') !! wq) as [y|] eqn:Hy; [|discriminate Hwq]. apply (inj Some), no_mode_eq in Hwq.
  apply (f_equal (lookup (d_ctx d))) in Hctx. rewrite !lookup_fmap, Hc in Hctx.
  destruct (h_ctxs (hp w') !! d_ctx d) as [c'|] eqn:Hc'; [|discriminate Hctx].
  exists (w_mode y), c'. rewrite <- Hwq. unfold wq_ok. rewrite Hy, Hdev, Hwq. split; [done|]. split; [exact Hd|].
  split; [exact Hc'|exact Hrest].
Qed.

(** ** What a document shows *)

Section reload.
Context {F : Type} `{KernelLaws F} {J : Type} `{JsonLaws J}.
Notation M := (prog (world F)).

(** json-c's reading of the value that was saved. *)
Definition shows (j : J) (n : node) : Prop :=
  match n with
  | NInt z => json_type_of j = json_type_int ∧ json_object_get_int64 j = (z, None) ∧
              (int_range z → json_object_get_int j = (z, None))
  | NString t => json_type_of j = json_type_string ∧ json_object_get_string j = Some t ∧ strlen t < SYSFS_ATTR_SIZE
  | _ => False
  end.

(** The members that are unsigned, in the range of their types. *)
Definition wq_unsigned (x : accfg_wq) : Prop :=
  0 <= w_threshold x < 2 ^ 32 ∧ 0 <= w_max_batch_size x < 2 ^ 32 ∧ 0 <= w_max_transfer_size x < 2 ^ 64.

(** The text an attribute gets. *)
Definition text_of (key : string) (n : node) : string :=
  match n with
  | NInt z => if String.eqb key "max_transfer_size" then print_u (u64 z) else print_d z
  | NString t => t
  | _ => ""
  end.

(** At most one write, of the value, and one when the attempt must not be passed over, unless
    it failed. *)
Definition tried (due : Prop) (path buf : string) (w : world F) (rc : Z) (w' : world F) : Prop :=
  trace w' = trace w ∧ (due → rc < 0) ∨ ∃ r, trace w' = EvWrite path buf r :: trace w.

(** The attributes that are looked at before they are written, and the one that a kernel need
    not have. *)
Definition optional (key : string) : bool :=
  existsb (String.eqb key) ["threshold"; "ats_disable"; "prs_disable"; "driver_name"].

(** After an attempt to set an attribute: the library holds what it held, unless there was no
    memory for the copy of a name. *)
Definition reloaded (wq : positive) (x : accfg_wq) (d : accfg_device) (key : string) (n : node)
    (w : world F) (rc : Z) (w' : world F) : Prop :=
  tried (u32 (d_configurable d) ≠ 0 ∧ optional key = false) (w_wq_path x +:+ "/" +:+ key) (text_of key n) w rc w' ∧
  (same wq w w' ∨ rc = - ENOMEM ∧ (key = "name" ∨ key = "driver_name")).

Lemma tried_written due path buf (w : world F) rc w' r :
  trace w' = EvWrite path buf r :: trace w → tried due path buf w rc w'.
Proof. right. eauto. Qed.
Lemma tried_skip (due : Prop) path buf (w : world F) rc w' : trace w' = trace w → ¬ due → tried due path buf w rc w'.
Proof. by left. Qed.
Lemma tried_failed due path buf (w : world F) rc w' : trace w' = trace w → rc < 0 → tried due path buf w rc w'.
Proof. by left. Qed.
Hint Resolve tried_written tried_skip tried_failed : core.

(** The write of an attribute, whatever [errno] is. *)
Lemma wp_write path buf (w : world F) Q :
  (∀ rc w', lib w' = lib w →
     trace w' = trace w ∧ rc < 0 ∧ 0 < errno w' ∨ (∃ r, trace w' = EvWrite path buf r :: trace w) → Q rc w') →
  wp (__sysfs_write_attr path buf) Q w.
Proof.
  intros HQ. destruct (run_write_attr path buf w) as (rc & w' & Hrun & Hl & _ & Hcase).
  unfold wp, __sysfs_write_attr. rewrite Hrun. apply HQ; [done|].
  destruct (k_open O_WRONLY path (fs w)) as [[[]|e] f] eqn:Hk.
  - right. destruct Hcase as [Ht _]. eauto.
  - left. apply k_open_errno in Hk. destruct Hcase as (-> & Ht & _ & ->). split_and!; [done|lia..].
Qed.

Lemma wp_copy s (w : world F) Q :
  (∀ r w', lib w' = lib w → trace w' = trace w → (r = None ∨ r = Some s) → Q r w') → wp (strdup s) Q w.
Proof.
  intros HQ. unfold wp, strdup, alloc. run. destruct (k_alloc (fs w)) as [[] f]; apply HQ; auto.
Qed.

Section attribute.
Variables (wq : positive) (x : accfg_wq) (d : accfg_device) (c : accfg_ctx) (name : string).

Notation due := (u32 (d_configurable d) ≠ 0).

Lemma wp_fail_saved due path buf (w w1 : world F) (Q : Z → world F → Prop) :
  has_device (w_device x) (hp w) → lib w1 = lib w →
  trace w1 = trace w ∧ 0 < errno w1 ∨ (∃ r, trace w1 = EvWrite path buf r :: trace w) →
  (∀ rc w2, tried due path buf w rc w2 → same wq w w2 → Q rc w2) →
  wp (save_last_error (w_device x) (Some wq) None None;; neg_errno) Q w1.
Proof.
  intros Hdev Hl Ht HQ. apply wp_bind.
  eapply wp_mono, (wp_respects (errno_from 1) _ _ _ (e_save_last_error 1 ltac:(lia) _ _ _ _)), (wp_save _ _ _ _ w); [|done..].
  intros _ w2 ((Ho & Ht2 & _) & He). unfold neg_errno, get_errno. apply wp_bind, wp_ret. apply HQ.
  - unfold errno_from in He. destruct Ht as [[Ht Hp]|[r Ht]]; [apply tried_failed; [congruence|lia]|].
    apply tried_written with (r := r). congruence.
  - transitivity w1; [by apply same_lib|by apply same_objs].
Qed.

Lemma wp_store_same path buf f (w : world F) (Q : Z → world F → Prop) due :
  wq_ok wq x d c name (hp w) → no_mode (f x) = no_mode x →
  (∀ rc w', tried due path buf w rc w' → same wq w w' → Q rc w') →
  wp (store_attr path buf (save_last_error (w_device x) (Some wq) None None) (upd_wq wq f)) Q w.
Proof.
  intros Hok Hf HQ. pose proof Hok as (Hw & _). unfold store_attr. apply wp_bind, wp_write. intros rc w1 Hl Ht.
  destruct (Z.ltb_spec rc 0).
  { eapply wp_fail_saved; [by eapply wq_ok_device|done| |done]. tauto. }
  apply wp_bind, wp_bind. eapply wp_deref; [by rewrite (hp_lib _ _ Hl)|]. apply wp_ret, HQ.
  - destruct Ht as [?|[r Ht]]; [lia|]. by apply tried_written with (r := r).
  - unfold lib in Hl. injection Hl as Hh Hi Hp. eapply same_alter; [done..|]. unfold lib. simpl. by rewrite Hh, Hi, Hp.
Qed.

Lemma wp_set_field_same f (w : world F) (Q : Z → world F → Prop) val :
  wq_ok wq x d c name (hp w) → - 2 ^ 31 <= val < 2 ^ 31 → wq_field_set f val x = x →
  (∀ rc w', tried due (w_wq_path x +:+ "/" +:+ wq_field_name f) (print_d val) w rc w' → same wq w w' → Q rc w') →
  wp (accfg_wq_set_field f wq val) Q w.
Proof.
  intros Hok Hv Hf HQ. pose proof Hok as (Hw & Hd & Hc & Hlen & _).
  unfold accfg_wq_set_field, accfg_wq_get_ctx, accfg_device_get_configurable. pose proof (wq_name_short f).
  apply wp_bind, wp_bind. eapply wp_deref; [done|]. apply wp_bind. eapply wp_deref; [done|].
  apply wp_ret. apply wp_bind. eapply wp_deref; [done|].
  apply wp_bind, wp_sprintf_buf; [rewrite strlen_path; unfold MAX_BUF_LEN in *; lia|].
  apply wp_bind, wp_print_d; [lia|]. apply wp_bind, wp_bind. eapply wp_deref; [done|]. apply wp_ret.
  destruct (Z.eqb_spec (u32 (d_configurable d)) 0); cbn [andb]; [destruct (strcmp_eq _ _)|].
  1: unfold neg_errno, get_errno; apply wp_bind, wp_ret, HQ; [by apply tried_skip; [|tauto]|reflexivity].
  all: eapply wp_store_same; [done|by rewrite Hf|exact HQ].
Qed.

Lemma wp_set_max_transfer_size_same (w : world F) (Q : Z → world F → Prop) :
  wq_ok wq x d c name (hp w) → 0 <= w_max_transfer_size x < 2 ^ 64 →
  (∀ rc w', tried due (w_wq_path x +:+ "/max_transfer_size") (print_u (w_max_transfer_size x)) w rc w' → same wq w w' → Q rc w') →
  wp (accfg_wq_set_max_transfer_size wq (w_max_transfer_size x)) Q w.
Proof.
  intros Hok Hv HQ. pose proof Hok as (Hw & Hd & Hc & Hlen & _).
  unfold accfg_wq_set_max_transfer_size, accfg_wq_get_ctx, accfg_device_get_configurable.
  apply wp_bind, wp_bind. eapply wp_deref; [done|]. apply wp_bind. eapply wp_deref; [done|].
  apply wp_ret. apply wp_bind. eapply wp_deref; [done|].
  apply wp_bind, wp_sprintf_buf.
  { rewrite strlen_app. change (strlen "/max_transfer_size") with 18. unfold MAX_BUF_LEN in *. lia. }
  apply wp_bind, wp_sprintf_buf.
  { pose proof (print_u_short (w_max_transfer_size x) ltac:(lia)). unfold SYSFS_ATTR_SIZE. lia. }
  apply wp_bind, wp_bind. eapply wp_deref; [done|]. apply wp_ret. destruct (Z.eqb_spec (u32 (d_configurable d)) 0).
  - unfold neg_errno, get_errno. apply wp_bind, wp_ret, HQ; [|reflexivity]. apply tried_skip; [done|tauto].
  - eapply wp_store_same; [done| |exact HQ]. by destruct x.
Qed.

Lemma wp_str_copied due f val path buf (w w1 : world F) (Q : Z → world F → Prop) r0 :
  wq_ok wq x d c name (hp w) → no_mode (wq_str_field_set f (Some val) x) = no_mode x →
  lib w1 = lib w → trace w1 = EvWrite path buf r0 :: trace w →
  (∀ rc w', tried due path buf w rc w' →
     same wq w w' ∨ rc = - ENOMEM ∧ (f = WS_name ∨ f = WS_driver_name) → Q rc w') →
  wp (copy ← strdup val; upd_wq wq (wq_str_field_set f copy);;
      mret (match copy with Some _ => 0 | None => - ENOMEM end)) Q w1.
Proof.
  intros (Hw & _) Hf Hl Ht HQ.
  apply wp_bind, wp_copy. intros r w2 Hl2 Ht2 Hr. assert (lib w2 = lib w) as Hlw by congruence.
  apply wp_bind, wp_bind. eapply wp_deref; [by rewrite (hp_lib _ _ Hlw)|]. apply wp_ret.
  assert (∀ v, no_mode (wq_str_field_set f v x) = no_mode x →
    same wq w (w2 <| hp ::= λ h, h <| h_wqs ::= alter (wq_str_field_set f v) wq |> |>)) as Hsame.
  { intros v Hv. unfold lib in Hlw. injection Hlw as Hh Hi Hp. eapply same_alter; [done|exact Hv|].
    unfold lib. simpl. by rewrite Hh, Hi, Hp. }
  apply HQ; [apply tried_written with (r := r0); simpl; congruence|].
  destruct Hr as [-> | ->]; [|left; by apply Hsame].
  destruct f; [left; by apply Hsame|right; auto..].
Qed.

(** The copies of [val] in the member: what it held, except for the mode. *)
Lemma wp_set_str_field_same f val (w : world F) (Q : Z → world F → Prop) :
  wq_ok wq x d c name (hp w) → strlen val < SYSFS_ATTR_SIZE → no_mode (wq_str_field_set f (Some val) x) = no_mode x →
  (∀ rc w', tried (due ∧ f ≠ WS_driver_name) (w_wq_path x +:+ "/" +:+ wq_str_field_name f) val w rc w' →
     same wq w w' ∨ rc = - ENOMEM ∧ (f = WS_name ∨ f = WS_driver_name) → Q rc w') →
  wp (accfg_wq_set_str_field f wq val) Q w.
Proof.
  intros Hok Hval Hf HQ. pose proof Hok as (Hw & Hd & Hc & Hlen & _).
  unfold accfg_wq_set_str_field, accfg_wq_get_ctx, accfg_device_get_configurable. pose proof (wq_str_name_short f).
  apply wp_bind, wp_bind. eapply wp_deref; [done|]. apply wp_bind. eapply wp_deref; [done|].
  apply wp_ret. apply wp_bind. eapply wp_deref; [done|].
  apply wp_bind, wp_sprintf_buf; [rewrite strlen_path; unfold MAX_BUF_LEN in *; lia|].
  apply wp_bind, wp_sprintf_buf; [done|]. apply wp_bind, wp_bind. eapply wp_deref; [done|]. apply wp_ret.
  destruct (Z.eqb_spec (u32 (d_configurable d)) 0); cbn [andb]; [destruct (negb _ && negb _)|].
  1: { unfold neg_errno, get_errno. apply wp_bind, wp_ret, HQ; [by apply tried_skip; [|tauto]|by left]. }
  all: apply wp_bind, wp_write; intros rc w1 Hl Ht; destruct (Z.ltb_spec rc 0).
  all: try (destruct (_ && strcmp_eq _ _) eqn:Hnone;
    [apply wp_ret, HQ; [|left; by apply same_lib];
     destruct Ht as [(? & ? & ?)|[r ?]]; [|by eapply tried_written]; apply tried_skip; [done|];
     intros [_ Hno]; destruct f; [rewrite andb_comm in Hnone..|]; done|]).
  all: try (eapply wp_fail_saved; [by eapply wq_ok_device|done|destruct Ht as [(? & ? & ?)|Ht]; [by left|right; exact Ht]|]; intros rc' w2 H1' H2'; apply HQ; by auto).
  all: destruct Ht as [?|[r0 Ht]]; [lia|]; eapply wp_str_copied; [done|done|exact Hl|exact Ht|exact HQ].
Qed.

Lemma strtok_type t : strtok_colon (wq_type_str t) = Some (wq_type_str t).
Proof. by destruct t. Qed.

Lemma wp_set_type_same (w : world F) (Q : Z → world F → Prop) :
  wq_ok wq x d c name (hp w) →
  (∀ rc w', tried due (w_wq_path x +:+ "/type") (wq_type_str (w_type x)) w rc w' → same wq w w' → Q rc w') →
  wp (accfg_wq_set_str_type wq (wq_type_str (w_type x))) Q w.
Proof.
  intros Hok HQ. pose proof Hok as (Hw & Hd & Hc & Hlen & _). unfold accfg_wq_set_str_type, accfg_wq_get_ctx.
  apply wp_bind, wp_bind. eapply wp_deref; [done|]. apply wp_bind. eapply wp_deref; [done|].
  apply wp_ret. apply wp_bind. eapply wp_deref; [done|]. apply wp_bind, wp_sprintf_buf.
  { rewrite strlen_app. change (strlen "/type") with 5. unfold MAX_BUF_LEN in *. lia. }
  apply wp_bind, wp_sprintf_buf; [by destruct (w_type x)|].
  apply wp_bind, wp_write. intros rc w1 Hl Ht. destruct (Z.ltb_spec rc 0).
  { eapply wp_fail_saved; [by eapply wq_ok_device|done| |done]. tauto. }
  destruct Ht as [?|[r0 Ht]]; [lia|].
  apply wp_bind, wp_copy. intros r w2 Hl2 Ht2 Hr.
  assert (lib w2 = lib w ∧ trace w2 = EvWrite (w_wq_path x +:+ "/type") (wq_type_str (w_type x)) r0 :: trace w) as [Hlw Hwr].
  { split; congruence. }
  destruct Hr as [-> | ->]; [apply wp_ret, HQ; [by eapply tried_written|by apply same_lib]|].
  apply wp_bind. unfold wq_parse_type. apply wp_bind, wp_ret, wp_bind, wp_copy. intros r w3 Hl3 Ht3 Hr.
  assert (lib w3 = lib w ∧ trace w3 = EvWrite (w_wq_path x +:+ "/type") (wq_type_str (w_type x)) r0 :: trace w) as [Hlw3 Hwr3].
  { split; congruence. }
  destruct Hr as [-> | ->]; [apply wp_ret, wp_ret, HQ; [by eapply tried_written|by apply same_lib]|].
  rewrite strtok_type. apply wp_ret.
  assert ((if strcmp_eq (wq_type_str (w_type x)) "kernel" then ACCFG_WQT_KERNEL
           else if strcmp_eq (wq_type_str (w_type x)) "user" then ACCFG_WQT_USER else ACCFG_WQT_NONE) = w_type x) as ->
    by by destruct (w_type x).
  apply wp_bind, wp_bind. eapply wp_deref; [by rewrite (hp_lib _ _ Hlw3)|]. apply wp_ret, HQ; [by eapply tried_written|].
  unfold lib in Hlw3. injection Hlw3 as Hh Hi Hp.
  eapply (same_alter wq (λ x0, x0 <| w_type := w_type x |>)); [done|by destruct x|]. unfold lib. simpl. by rewrite Hh, Hi, Hp.
Qed.

Lemma wp_set_op_config_same t (w : world F) (Q : Z → world F → Prop) :
  wq_ok wq x d c name (hp w) →
  (∀ rc w', tried due (w_wq_path x +:+ "/op_config") t w rc w' → same wq w w' → Q rc w') →
  wp (accfg_wq_set_op_config_str (Some wq) (Some t)) Q w.
Proof.
  intros (Hw & Hd & _) HQ. unfold accfg_wq_set_op_config_str.
  apply wp_bind. eapply wp_deref; [done|]. apply wp_bind. eapply wp_deref; [done|].
  assert (∀ rc w', lib w' = lib w → trace w' = trace w ∧ rc < 0 ∨
    (∃ r, trace w' = EvWrite (w_wq_path x +:+ "/op_config") t r :: trace w) → Q rc w') as HQ'.
  { intros rc w' Hl Ht. apply HQ; [|by apply same_lib]. destruct Ht as [[? ?]|[r ?]]; eauto. }
  assert (String.substring 0 (Z.to_nat (strlen t)) t = t) as Ht by (unfold strlen; rewrite Nat2Z.id; apply substring_all).
  unfold wp, accfg_set_param. run. destruct (k_open O_PATH (w_wq_path x) (fs w)) as [[[]|e] f] eqn:Hk; simpl.
  2: { apply k_open_errno in Hk. apply HQ'; [done|left; split; [done|simpl; lia]]. }
  destruct (k_open O_RDWR _ _) as [[[]|e] f'] eqn:Hk2; simpl.
  2: { apply k_open_errno in Hk2. apply HQ'; [done|left; split; [done|]]. destruct (Z.eqb_spec (- e) 0); [lia|done]. }
  change (w_wq_path x +:+ "/op_config") with (w_wq_path x +:+ "/" +:+ "op_config") in HQ'. rewrite Ht.
  destruct (k_write _ t f') as [[n|e] f'']; simpl; repeat case_match; simplify_eq/=; (apply HQ'; [done|right; eauto]).
Qed.

(** ** One member *)

(** [wp], with undefined behaviour admitted when [flt]. *)
Definition runs {A} (flt : Prop) (m : M A) (Q : A → world F → Prop) (w : world F) : Prop :=
  match m w with Done a w' => Q a w' | Exited _ _ => False | Fault => flt end.
Lemma runs_wp {A} flt (m : M A) Q (w : world F) : wp m Q w → runs flt m Q w.
Proof. unfold wp, runs. by destruct (m w). Qed.
Lemma runs_bind {A B} flt (m : M A) (k : A → M B) Q (w : world F) :
  runs flt m (λ a, runs flt (k a) Q) w → runs flt (m ≫= k) Q w.
Proof. unfold runs, mbind, prog_bind. by destruct (m w). Qed.

(** The checks before a write leave everything as it was. *)
Definition checks (flt : Prop) (m : M bool) : Prop :=
  ∀ w : world F, wq_ok wq x d c name (hp w) → runs flt m (λ _ w', lib w' = lib w ∧ trace w' = trace w) w.

Lemma checks_threshold (flt : Prop) v : flt → checks flt (is_wq_threshold_writable wq v).
Proof.
  intros Hflt w _. assert (respects (on lib) (is_wq_threshold_writable (F := F) wq v)) as Hl.
  { unfold is_wq_threshold_writable, accfg_wq_get_mode. frame. }
  assert (respects (on trace) (is_wq_threshold_writable (F := F) wq v)) as Ht.
  { unfold is_wq_threshold_writable, accfg_wq_get_mode. frame. }
  unfold runs. destruct (is_wq_threshold_writable wq v w) as [b w'|e w'|] eqn:Hrun; [|exfalso|done].
  - split; [by apply Hl in Hrun|by apply Ht in Hrun].
  - unfold is_wq_threshold_writable, mbind, prog_bind in Hrun.
    destruct (accfg_wq_get_mode wq w) eqn:Hm; try done. by apply get_mode_ends in Hm.
Qed.
Lemma checks_range flt val (get : M Z) : (∀ w, wq_ok wq x d c name (hp w) → ∃ v, get w = Done v w) →
  checks flt (if (val <? 0) || (1 <? val) then mret false else v ← get; mret (negb (v <? 0))).
Proof.
  intros Hget w Hok. unfold runs. destruct (_ || _); [done|]. destruct (Hget w Hok) as [v Hv].
  unfold mbind, prog_bind. by rewrite Hv.
Qed.

Lemma get_field_run f (w : world F) : wq_ok wq x d c name (hp w) → ∃ v, accfg_wq_get_field f wq w = Done v w.
Proof.
  intros [Hw _]. eexists. unfold accfg_wq_get_field, get_wq, deref, gets, must, mbind, prog_bind. by rewrite Hw.
Qed.

Lemma wp_set_with {A} (set : positive → A → M Z) v (w : world F) Q :
  wp (set wq v) Q w → wp (set_with set wq v) Q w.
Proof.
  intros Hw. unfold set_with. apply wp_bind. eapply wp_mono, Hw. intros rc w' HQ.
  destruct (Z.eqb_spec rc 0) as [->|]; by apply wp_ret.
Qed.

(** A number: the read, the check, and the write. *)
Lemma runs_number flt (w : world F) (conv : J → Z * option Z) (to : Z → Z) (v : Z) (j : J)
    (e : set_table_entry (world F)) (set : positive → Z → M Z) (Q : Z → world F → Prop) :
  conv j = (v, None) → wq_ok wq x d c name (hp w) →
  (match te_is_writable e with Some g => checks flt (g wq (s32 (to v))) | None => True end) →
  (∀ w', te_is_writable e ≠ None → lib w' = lib w → trace w' = trace w → Q 0 w') →
  (∀ w', lib w' = lib w → trace w' = trace w → wp (set wq (to v)) Q w') →
  runs flt (val ← read_number conv j; bad ← not_a_number val;
            if bad : bool then neg_errno
            else no ← refused e wq (to val); if no : bool then mret 0 else set_with set wq (to val)) Q w.
Proof.
  intros Hj Hok Hg Hskip Hset. apply runs_bind, runs_wp. eapply wp_read_number; [done|]. apply runs_bind.
  unfold runs at 1, not_a_number, get_errno, gets, mbind at 1, prog_bind at 1. cbn [mret prog_ret errno default].
  change (0 =? EINVAL) with false. rewrite andb_false_r. cbn [mret prog_ret]. set (w1 := w <| errno := 0 |>).
  apply runs_bind. unfold refused. destruct (te_is_writable e) as [g|] eqn:He.
  - apply runs_bind. specialize (Hg w1 Hok). unfold runs in *. destruct (g wq _ w1) as [ok w2|e2 w2|]; [|done..].
    destruct Hg as [Hl Ht]. destruct ok; simpl.
    + change (runs flt (set_with set wq (to v)) Q w2). apply runs_wp, wp_set_with, Hset; [by rewrite Hl|by rewrite Ht].
    + apply Hskip; [done|by rewrite Hl|by rewrite Ht].
  - change (runs flt (set_with set wq (to v)) Q w1). by apply runs_wp, wp_set_with, Hset.
Qed.

Notation result key n w := (reloaded wq x d key n w).

Lemma reloaded_from key n (w w1 : world F) rc w' :
  lib w1 = lib w → trace w1 = trace w → reloaded wq x d key n w1 rc w' → reloaded wq x d key n w rc w'.
Proof.
  intros Hl Ht [Hw Hs]. unfold reloaded, tried in *. rewrite Ht in Hw. split; [done|].
  destruct Hs as [Hs|?]; [left|by right]. transitivity w1; [by apply same_lib|done].
Qed.
Lemma reloaded_skip key n (w w' : world F) : optional key = true → lib w' = lib w → trace w' = trace w →
  reloaded wq x d key n w 0 w'.
Proof.
  intros Hk Hl Ht. split; [|left; by apply same_lib]. apply tried_skip; [done|]. rewrite Hk. by intros [_ ?].
Qed.
Lemma wq_ok_lib' (w w' : world F) : lib w' = lib w → wq_ok wq x d c name (hp w) → wq_ok wq x d c name (hp w').
Proof. intros Hl. by rewrite (hp_lib _ _ Hl). Qed.

(** A member that is one of the numbers. *)
Lemma runs_field f flt g v (j : J) (w : world F) :
  let key := wq_field_name f in
  find_entry key wq_table = Some (SetEntry key (set_int_func (accfg_wq_set_field f)) g) →
  (match g with Some g => optional key = true ∧ checks flt (g wq v) | None => True end) →
  shows j (NInt v) → int_range v → wq_field_set f v x = x →
  wq_ok wq x d c name (hp w) → text_of key (NInt v) = print_d v →
  runs flt (wq_json_set_val (Some wq) (Some j) (Some key)) (reloaded wq x d key (NInt v) w) w.
Proof.
  intros key Hfind Hg (_ & _ & Hj) Hv Hf Hok Htext. specialize (Hj Hv). unfold wq_json_set_val, wq_attribute_filter.
  rewrite filter_entry, Hfind. cbn [negb te_set].
  eapply runs_number; [exact Hj|exact Hok|cbn [te_is_writable]..|].
  - destruct g as [g|]; [|done]. rewrite s32_id by exact Hv. tauto.
  - intros w' Hg' Hl Ht. destruct g as [g|]; [destruct Hg; by apply reloaded_skip|done].
  - intros w' Hl Ht. apply wp_set_field_same; [by apply (wq_ok_lib' w)|done|done|].
    intros rc w2 H1' H2'. eapply reloaded_from; [done..|]. split; [|by left]. rewrite Htext.
    destruct H1' as [[? Hd]|?]; [|by right]. left. split; [done|]. intros [? _]. by apply Hd.
Qed.

(** A member that is a string. *)
Lemma runs_string key flt set t (j : J) (w : world F) :
  find_entry key wq_table = Some (SetEntry key (set_str_func set) None) →
  shows j (NString t) → wp (set wq t) (reloaded wq x d key (NString t) w) w →
  runs flt (wq_json_set_val (Some wq) (Some j) (Some key)) (reloaded wq x d key (NString t) w) w.
Proof.
  intros Hfind (_ & Hj & _) Hset. unfold wq_json_set_val, wq_attribute_filter.
  rewrite filter_entry, Hfind. cbn [negb te_set]. unfold set_string. rewrite Hj. by apply runs_wp, wp_set_with.
Qed.

Lemma runs_str_field f flt t (j : J) (w : world F) :
  let key := wq_str_field_name f in
  find_entry key wq_table = Some (SetEntry key (set_str_func (accfg_wq_set_str_field f)) None) →
  shows j (NString t) → no_mode (wq_str_field_set f (Some t) x) = no_mode x → wq_ok wq x d c name (hp w) →
  runs flt (wq_json_set_val (Some wq) (Some j) (Some key)) (reloaded wq x d key (NString t) w) w.
Proof.
  intros key Hfind Hj Hf Hok. pose proof Hj as (_ & _ & Hlen). eapply runs_string; [done..|].
  apply wp_set_str_field_same; [done..|]. intros rc w' Ht Hs. split.
  - destruct Ht as [[? Hd]|?]; [left|by right]. split; [done|]. intros [Hc Ho]. apply Hd. split; [done|].
    by intros ->.
  - destruct Hs as [?|[? [-> | ->]]]; auto.
Qed.

Lemma runs_transfer_size flt (j : J) (w : world F) :
  let n := NInt (s64 (w_max_transfer_size x)) in
  shows j n → 0 <= w_max_transfer_size x < 2 ^ 64 → wq_ok wq x d c name (hp w) →
  runs flt (wq_json_set_val (Some wq) (Some j) (Some "max_transfer_size")) (reloaded wq x d "max_transfer_size" n w) w.
Proof.
  intros n (_ & Hj & _) Hx Hok. unfold wq_json_set_val, wq_attribute_filter. rewrite filter_entry.
  assert (u64 (s64 (w_max_transfer_size x)) = w_max_transfer_size x) as Hu by wrap_lia.
  eapply (runs_number _ _ json_object_get_int64 u64 _ _ (SetEntry "max_transfer_size" _ None)); [exact Hj|exact Hok|done..|].
  intros w' Hl Ht. rewrite Hu. apply wp_set_max_transfer_size_same; [by apply (wq_ok_lib' w)|done|].
  intros rc w2 Hw Hs. eapply reloaded_from; [done..|]. split; [|by left]. unfold text_of, n. simpl. rewrite Hu.
  destruct Hw as [[? Hd]|?]; [left|by right]. split; [done|]. tauto.
Qed.

(** A number of the structure; the check before it is left. *)
Ltac field f := eapply (runs_field f);
  [reflexivity| |assumption|red; wrap_lia|destruct x; simpl in *; try done; f_equal; wrap_lia|assumption|reflexivity].

(** Every saved member of a queue but its name. *)
Lemma runs_saved key n (j : J) (w : world F) :
  saved_wq name x key n → key ≠ "dev" → wq_ints x → wq_unsigned x → shows j n → wq_ok wq x d c name (hp w) →
  runs (key = "threshold") (wq_json_set_val (Some wq) (Some j) (Some key)) (reloaded wq x d key n w) w.
Proof.
  intros Hsv Hdev (R1 & R2 & R3 & R4 & R5 & R6) (U1 & U2 & U3) Hj Hok.
  assert (∀ rc w', tried (u32 (d_configurable d) ≠ 0) (w_wq_path x +:+ "/" +:+ key) (text_of key n) w rc w' →
    same wq w w' → reloaded wq x d key n w rc w') as Hplain.
  { intros rc w' Ht Hs. split; [|by left]. destruct Ht as [[? Hd]|?]; [left|by right]. split; [done|]. tauto. }
  destruct Hsv as [|t Hm| | | | | | | |t Hn|t Hn| | | |t]; [done|..]; unfold int_range in *.
  - by apply (runs_str_field WS_mode).
  - field W_size. exact I.
  - field W_group_id. exact I.
  - field W_priority. exact I.
  - field W_block_on_fault. exact I.
  - field W_max_batch_size. exact I.
  - by apply runs_transfer_size.
  - eapply (runs_string "type"); [done..|]. by apply wp_set_type_same.
  - apply (runs_str_field WS_name); [done..| |done]. destruct x; simpl in *. by subst.
  - apply (runs_str_field WS_driver_name); [done..| |done]. destruct x; simpl in *. by subst.
  - field W_threshold. split; [done|by apply checks_threshold].
  - field W_prs_disable. split; [done|]. apply checks_range, get_field_run.
  - field W_ats_disable. split; [done|]. apply checks_range, get_field_run.
  - eapply (runs_string "op_config"); [done..|]. by apply wp_set_op_config_same.
Qed.
End attribute.

(** ** The members after the name of the queue *)

(** The writes of the members, in their order: [due] members are written unless they are
    optional, and all of them are looked at when [full]. *)
Inductive attempts (path : string) (full due : Prop) : list (string * node) → list event → Prop :=
  | at_end mem : (full → mem = []) → attempts path full due mem []
  | at_write k n r mem es : attempts path full due mem es →
      attempts path full due ((k, n) :: mem) (EvWrite (path +:+ "/" +:+ k) (text_of k n) r :: es)
  | at_skip k n mem es : (due → optional k = true) → attempts path full due mem es →
      attempts path full due ((k, n) :: mem) es.

(** The members of a document, and what they were saved as. *)
Definition shown (m : string * node) (i : string * option J) : Prop :=
  m.1 = i.1 ∧ ∃ v, i.2 = Some v ∧ shows v m.2.

(** The variables when a queue of a device was chosen by a member before. *)
Definition chosen (wq parent : positive) (st : statics) : Prop :=
  st_parent st = Some parent ∧ st_dev st = None ∧ st_group st = None ∧ st_wq st = Some wq ∧
  config_default_file st = false.

Definition after_member (c : cstate F) (o : outcome (world F) Z) : outcome (cstate F) Z :=
  match o with
  | Done rc w => Done (if rc <? 0 then rc else 0) (c <| c_world := w |>)
  | Exited e w => Exited e (c <| c_world := w |>)
  | Fault => Fault
  end.

Lemma configure_member ctx wq parent x name key n (j : J) (c : cstate F) :
  chosen wq parent (c_statics c) → saved_wq name x key n → key ≠ "dev" →
  configure_json_value (Some ctx) (Some j) (Some key) c =
  after_member c (wq_json_set_val (Some wq) (Some j) (Some key) (c_world c)).
Proof.
  intros (Hp & Hd & Hg & Hw & Hf) Hsv Hkey. unfold configure_json_value.
  assert (strcmp_eq key "dev" = false) as -> by by apply String.eqb_neq.
  unfold set_attribute. erewrite static_run by exact Hp. cbv beta iota.
  assert (strstr_in key "token" = false) as -> by by destruct Hsv.
  unfold static, gets, mbind, prog_bind. rewrite andb_false_r. cbn [mret prog_ret].
  unfold id. rewrite Hw, Hf, Hd, Hg. unfold negative_only, in_lib, mbind, prog_bind, after_member.
  by destruct (wq_json_set_val _ _ _ _).
Qed.

Lemma saved_wq_mode name x m key n : saved_wq name x key n → saved_wq name (x <| w_mode := m |>) key n.
Proof. destruct x. cbn. intros []; simpl; by constructor. Qed.

(** One member, when the record of the queue is what was saved but for the mode. *)
Lemma member_loads ctx wq parent x d c0 name key n (j : J) (c : cstate F) :
  chosen wq parent (c_statics c) → saved_wq name x key n → key ≠ "dev" → wq_ints x → wq_unsigned x → shows j n →
  wq_ok wq x d c0 name (hp (c_world c)) →
  match configure_json_value (Some ctx) (Some j) (Some key) c with
  | Done rc c' => ∃ w' rc', c' = c <| c_world := w' |> ∧ reloaded wq x d key n (c_world c) rc' w' ∧
      rc = if rc' <? 0 then rc' else 0
  | Exited _ _ => False
  | Fault => key = "threshold"
  end.
Proof.
  intros Hch Hsv Hkey Hi Hu Hj Hok. erewrite configure_member by done. unfold after_member.
  pose proof (runs_saved wq x d c0 name key n j (c_world c) Hsv Hkey Hi Hu Hj Hok) as Hrun. unfold runs in Hrun.
  destruct (wq_json_set_val _ _ _ _) as [rc w'|e w'|]; [|done..]. eauto.
Qed.

(** What loading the members of a saved queue ends with. *)
Definition loads_back (wq : positive) (x : accfg_wq) (d : accfg_device) (mem : list (string * node))
    (c : cstate F) (o : outcome (cstate F) Z) : Prop :=
  match o with
  | Done rc c' => (rc = 0 ∧ same wq (c_world c) (c_world c') ∨ rc = -1) ∧ c_statics c' = c_statics c ∧
      ∃ es, trace (c_world c') = (reverse es ++ trace (c_world c))%list ∧
            attempts (w_wq_path x) (rc = 0) (rc = 0 ∧ u32 (d_configurable d) ≠ 0) mem es
  | Exited _ _ => False
  | Fault => "threshold" ∈ mem.*1
  end.

(** C18: saving and loading a work queue is a round trip: when the members that save-config
    writes of a queue (the predicate [saved_wq] of the theorem on util_wq_to_json), shown by
    any document, are loaded on that queue, each is written to its own attribute, in
    order, as the text of the value the library holds, and the library's memory stays what it
    was but for the cached mode and the saved errors.  On a device that is configurable no
    member is passed over with success, except the threshold, the two disable flags and
    the driver's name; an end with -1 has made some of these
    writes, from the first member on, and no other.
    Nothing exits; the one undefined behaviour is that of the threshold, when the mode
    cannot be read. *)
Theorem saved_wq_reloads ctx wq parent x d name mem iter jobj parse parse_array (c : cstate F) cx :
  Forall (λ m, saved_wq name x m.1 m.2 ∧ m.1 ≠ "dev") mem → Forall2 shown mem iter →
  chosen wq parent (c_statics c) → wq_ok wq x d cx name (hp (c_world c)) → wq_ints x → wq_unsigned x →
  loads_back wq x d mem c (parse_members parse parse_array (Some ctx) iter jobj c).
Proof.
  intros Hsv Hsh Hch Hok Hi Hu. revert x c cx Hsv Hch Hok Hi Hu.
  induction Hsh as [|[k n] [k' ov] mem iter [Hk (v & Hv & Hj)] Hsh IH]; intros x c cx Hsv Hch Hok Hi Hu.
  { simpl. split; [by left|]. split; [done|]. exists []. split; [done|]. by constructor. }
  simpl in Hk, Hv, Hj. subst k' ov. apply Forall_cons in Hsv as [[Hkn Hdev] Hsv]. simpl in Hkn, Hdev.
  assert (json_object_get_type (Some v) = json_type_int ∨ json_object_get_type (Some v) = json_type_string) as Hty.
  { destruct n; simpl in Hj |- *; tauto. }
  assert (parse_members parse parse_array (Some ctx) ((k, Some v) :: iter) jobj c =
    (rc ← configure_json_value (Some ctx) (Some v) (Some k);
     if negb (rc =? 0) then mret (-1) else parse_members parse parse_array (Some ctx) iter jobj) c) as ->.
  { cbn [parse_members]. by destruct Hty as [-> | ->]. }
  pose proof (member_loads ctx wq parent x d cx name k n v c Hch Hkn Hdev Hi Hu Hj Hok) as Hm.
  unfold mbind, prog_bind. destruct (configure_json_value _ _ _ c) as [rc c1|e c1|]; [|done|set_solver].
  destruct Hm as (w1 & rc1 & -> & [Htr Hs] & ->). destruct (Z.ltb_spec rc1 0) as [Hneg|Hpos].
  - assert ((rc1 =? 0) = false) as -> by lia. simpl. split; [by right|]. split; [done|].
    destruct Htr as [[Ht _]|[r Ht]]; [exists []|exists [EvWrite (w_wq_path x +:+ "/" +:+ k) (text_of k n) r]];
      (split; [exact Ht|]); repeat constructor; done.
  - simpl. destruct Hs as [Hs|[? _]]; [|unfold ENOMEM in *; lia].
    destruct (same_wq_ok wq x d cx name (c_world c) w1 Hs Hok) as (m & cx' & Hok').
    assert (Forall (λ m0, saved_wq name (x <| w_mode := m |>) m0.1 m0.2 ∧ m0.1 ≠ "dev") mem) as Hsv'.
    { eapply Forall_impl; [exact Hsv|]. intros m0 [Hm0 ?]. split; [by apply saved_wq_mode|done]. }
    specialize (IH (x <| w_mode := m |>) (CState w1 (c_statics c)) cx' Hsv' Hch Hok' Hi Hu).
    revert IH. unfold loads_back. destruct (parse_members _ _ _ _ _ _) as [rc c'|e c'|]; [|done|set_solver].
    intros (Hrc & Hst & es & Ht & Hat). split; [|split; [done|]].
    { destruct Hrc as [[-> Hs']|?]; [left; split; [done|by transitivity w1]|by right]. }
    simpl in Ht. destruct Htr as [[Htr Hopt]|[r Htr]].
    + exists es. split; [by rewrite Ht, Htr|]. apply at_skip; [|done]. intros [_ Hdue].
      destruct (optional k); [done|]. assert (rc1 < 0) by by apply Hopt. lia.
    + exists (EvWrite (w_wq_path x +:+ "/" +:+ k) (text_of k n) r :: es). split; [|by apply at_write].
      by rewrite Ht, Htr, reverse_cons, <- app_assoc.
Qed.
End reload.

(** ** An instance *)

Definition demo_members : list (string * node) :=
  [("mode", NString "shared"); ("size", NInt 16); ("group_id", NInt 0); ("max_transfer_size", NInt 2097152);
   ("type", NString "user"); ("name", NString "app"); ("threshold", NInt 8)].
Definition demo_document : list (string * option jtext) :=
  [("mode", Some (JString "shared")); ("size", Some (JInt 16)); ("group_id", Some (JInt 0));
   ("max_transfer_size", Some (JInt 2097152)); ("type", Some (JString "user")); ("name", Some (JString "app"));
   ("threshold", Some (JInt 8))].
Definition chosen_state : cstate sim :=
  CState demo_world (initial_statics <| st_parent := Some 2%positive |> <| st_wq := Some 4%positive |>).
Definition load_members : prog (cstate sim) Z :=
  parse_members (λ _, mret 0) (λ _ _, mret 0) (Some 1%positive) demo_document None.

Lemma demo_queue : ∃ x d cx, wq_ok 4 x d cx "wq0.0" (hp demo_world) ∧ wq_ints x ∧ wq_unsigned x ∧
  w_size x = 16 ∧ w_group_id x = 0 ∧ w_max_transfer_size x = 2097152 ∧ w_type x = ACCFG_WQT_USER ∧
  w_name x = Some "app" ∧ w_threshold x = 8.
Proof.
  eexists _, _, _. split.
  { split; [vm_compute; reflexivity|]. split; [vm_compute; reflexivity|].
    split; [vm_compute; reflexivity|]. split; [vm_compute; reflexivity|].
    split; [vm_compute; reflexivity|]. by vm_compute. }
  split; [split; vm_compute; done|]. split; [split; vm_compute; done|].
  repeat (split; [vm_compute; reflexivity|]). vm_compute. reflexivity.
Qed.

Lemma saved_as name x k n n' : saved_wq name x k n' → n' = n → saved_wq name x k n.
Proof. by intros Hs <-. Qed.

Lemma demo_saved : ∃ x d cx, wq_ok 4 x d cx "wq0.0" (hp demo_world) ∧ wq_ints x ∧ wq_unsigned x ∧
  Forall (λ m, saved_wq "wq0.0" x m.1 m.2 ∧ m.1 ≠ "dev") demo_members.
Proof.
  destruct demo_queue as (x & d & cx & Hok & Hi & Hu & H1 & H2 & H3 & H4 & H5 & H6).
  exists x, d, cx. do 3 (split; [done|]). unfold demo_members.
  repeat apply Forall_cons_2; try apply Forall_nil_2; (split; [|done]); simpl.
  - apply sv_mode. set_solver.
  - eapply saved_as; [apply sv_size|by rewrite H1].
  - eapply saved_as; [apply sv_group_id; lia|by rewrite H2].
  - eapply saved_as; [apply sv_max_transfer_size|by rewrite H3].
  - eapply saved_as; [apply sv_type|by rewrite H4].
  - by apply sv_name.
  - eapply saved_as; [apply sv_threshold|by rewrite H6].
Qed.

Lemma demo_shown : Forall2 shown demo_members demo_document.
Proof. repeat constructor; (eexists; split; [reflexivity|by vm_compute]). Qed.

Lemma saved_wq_reloads_witness :
  runs_to load_members chosen_state 0 = true ∧
  ∃ x d, loads_back 4 x d demo_members chosen_state (load_members chosen_state).
Proof.
  split; [vm_compute; reflexivity|].
  destruct demo_saved as (x & d & cx & Hok & Hi & Hu & Hsv). exists x, d.
  assert (chosen 4 2 (c_statics chosen_state)) as Hch by repeat split.
  pose proof (saved_wq_reloads 1 4 2 x d "wq0.0" demo_members demo_document None (λ _, mret 0) (λ _ _, mret 0)
    chosen_state cx Hsv demo_shown Hch Hok Hi Hu) as Hs.
  exact Hs.
Defined.
