(* ===== verification/LoadSafe.v ===== *)
(** * accfg/config.c: loading a configuration is free of undefined behaviour

    On a tree that was enumerated, the parse of a document of the usual shape ends,
    whatever its keys and values say, whatever the files hold and whatever
    allocation or write fails, and keeps the skeleton of the tree: only attributes
    change.  The rules are those of Skeleton, with the static variables. *)

From S2P Require Import Prelude CString Prog Types SimKernel Sysfs Param Tree Demo Device Wq Filter ConfigAttr Json Commands JsonStore Listing Config.
From S2P Require Import SysfsFacts ParamFacts DeviceFacts WqFacts TreeFacts TreeInit Skeleton LoadFacts.
Local Open Scope Z_scope.

(** ** The shape of a document *)

Section shape.
Context {J : Type} `{JsonC J}.

(** The attribute whose guard reads the mode of the queue. *)
Definition key_b (thr : bool) (key : string) : bool := thr || negb (String.eqb key "threshold").

(** No member of an object is an object, no key is there twice, and every value has
    a text that fits an attribute; [thr] says whether thresholds may be set. *)
Fixpoint doc_b (thr : bool) (n : nat) (j : J) : bool :=
  match n with
  | O => false
  | S n =>
      match json_type_of j with
      | json_type_null => true
      | json_type_array =>
          match json_elements j with
          | Some l => forallb (λ o, match o with Some v => doc_b thr n v | None => true end) l
          | None => true
          end
      | json_type_object =>
          match json_members j with
          | Some l =>
              bool_decide (NoDup l.*1) &&
              forallb (λ m, key_b thr m.1 && match m.2 with
                | Some v => negb (bool_decide (json_type_of v = json_type_object)) && doc_b thr n v
                | None => true
                end) l
          | None => true
          end
      | _ => match json_object_get_string j with Some t => strlen t <? SYSFS_ATTR_SIZE | None => false end
      end
  end.
End shape.

(** ** The static variables point into the tree *)

Record sok (s : heap) (st : statics) : Prop := {
  so_dev : here_or_null s h_devices (st_dev st);
  so_parent : here_or_null s h_devices (st_parent st);
  so_wq : here_or_null s h_wqs (st_wq st);
  so_engine : here_or_null s h_engines (st_engine st);
  so_group : here_or_null s h_groups (st_group st);
  so_conf : length (conf_def_wq_params st) = 2%nat;
}.

Section csafe.
Context {F : Type} `{KernelLaws F} (flt : Prop) (s : heap).
Notation C := (prog (cstate F)).

Definition csafe {A} (m : C A) (φ : A → Prop) : Prop := ∀ c,
  fits s (hp (c_world c)) → sok s (c_statics c) →
  match m c with
  | Done a c' => fits s (hp (c_world c')) ∧ sok s (c_statics c') ∧ φ a
  | Exited _ _ => False
  | Fault => flt
  end.

Lemma csafe_ret {A} (a : A) (φ : A → Prop) : φ a → csafe (mret a) φ.
Proof. by intros Ha c Hc Hst. Qed.

Lemma csafe_bind {A B} (m : C A) (k : A → C B) φ ψ :
  csafe m φ → (∀ a, φ a → csafe (k a) ψ) → csafe (m ≫= k) ψ.
Proof.
  intros Hm Hk c Hc Hst. specialize (Hm c Hc Hst). unfold mbind, prog_bind.
  destruct (m c) as [a c'| |]; [|done..]. destruct Hm as (H1 & H2 & H3). by apply Hk.
Qed.

Lemma csafe_mono {A} (m : C A) (φ ψ : A → Prop) : (∀ a, φ a → ψ a) → csafe m φ → csafe m ψ.
Proof. intros Hφ Hm c Hc Hst. specialize (Hm c Hc Hst). destruct (m c); naive_solver. Qed.

Lemma csafe_lib {A} (m : prog (world F) A) φ : safe flt s m φ → csafe (in_lib m) φ.
Proof.
  intros Hm c Hc Hst. specialize (Hm (c_world c) Hc). unfold in_lib.
  destruct (m (c_world c)) as [a w'| |]; [|done..]. naive_solver.
Qed.

Lemma csafe_static {A} (f : statics → A) : csafe (static f) (λ a, ∃ st, sok s st ∧ a = f st).
Proof. intros c Hc Hst. split_and!; [done..|]. eauto. Qed.

Lemma csafe_set_static g : (∀ st, sok s st → sok s (g st)) → csafe (set_static g) (λ _, True).
Proof. intros Hg c Hc Hst. split_and!; [done| |done]. by apply Hg. Qed.

Lemma csafe_get_conf i : (i < 2)%nat → csafe (get_conf i) (λ _, True).
Proof.
  intros Hi c Hc Hst. unfold get_conf, static, gets, mbind, prog_bind, must.
  destruct (lookup_lt_is_Some_2 (conf_def_wq_params (c_statics c)) i) as [x Hx]; [|by rewrite Hx].
  by rewrite (so_conf _ _ Hst).
Qed.
End csafe.

Ltac cstep := lazymatch goal with
  | |- csafe _ _ (mret _) _ => apply csafe_ret
  | |- csafe _ _ (let _ := _ in _) _ => cbv zeta
  | |- csafe _ _ (static _ ≫= _) _ => eapply csafe_bind; [apply csafe_static|];
      let st := fresh "st" in let Hst := fresh "Hst" in intros ? (st & Hst & ->)
  | |- csafe _ _ (set_static _ ≫= _) _ => eapply csafe_bind; [apply csafe_set_static|]; [|intros [] _]
  | |- csafe _ _ (set_static _) _ => eapply csafe_mono; [|apply csafe_set_static]; [done|]
  end.

Section load.
Context {F : Type} `{KernelLaws F} {J : Type} `{JsonLaws J} (thr : bool) (s : heap) (ctx : positive) (Hs : ready ctx s).
Let Hsteady : steady ctx s := Hs.
Notation C := (prog (cstate F)).
Notation csafe := (csafe (F := F) (thr = true) s).
Notation safe := (safe (F := F) (thr = true) s).

(** ** Choosing an object *)

Lemma csafe_alloc : csafe (in_lib alloc) (λ _, True).
Proof. apply csafe_lib, safe_still; [always|frame]. Qed.

Lemma csafe_activation add p :
  (∀ st, sok s st → sok s (add p st)) → csafe (add_to_activation_list add p) (λ _, True).
Proof.
  intros Hadd. unfold add_to_activation_list. eapply csafe_bind; [apply csafe_alloc|]. intros ok _.
  destruct ok; cbn [negb]; cbv iota; [|by cstep]. cstep; [done|]. by cstep.
Qed.

Lemma csafe_configure_dev name :
  csafe (configure_dev ctx name) (λ r, match r with Some rc => True | None => True end).
Proof.
  unfold configure_dev. cstep. { intros st []. by split. }
  eapply csafe_bind; [by apply csafe_lib, safe_device_get_by_name|]. intros dev Hdev.
  cstep. { intros st []. by split. }
  destruct dev as [d|]; [|by cstep]. destruct Hdev as [x Hx].
  eapply csafe_bind; [by eapply csafe_lib, safe_device_get_state|]. intros dev_state _.
  cstep.
  assert (csafe (enable ← static st_enable;
      rc ← (if enable : bool then add_to_activation_list add_dev d else mret 0);
      if negb (rc =? 0) then mret (Some rc)
      else set_static (λ st, st <| st_parent := Some d |>);; mret None)
    (λ r, match r with Some rc => True | None => True end)) as Hgo.
  { cstep. eapply csafe_bind with (λ _, True).
    { destruct (st_enable _); [|by cstep]. apply csafe_activation. intros st' []. by split. }
    intros rc _. destruct (negb _); [by cstep|]. cstep; [|by cstep]. intros st' []. split; try done. by exists x. }
  destruct (decide _); [|exact Hgo]. destruct (st_forced _).
  - eapply csafe_bind; [by eapply csafe_lib, safe_device_disable|]. intros rc _.
    destruct (negb _); [by cstep|exact Hgo].
  - cstep; [|by cstep]. intros st' []. by split.
Qed.

Lemma csafe_configure_accel types name :
  Forall (λ t, strlen t < MAX_DEV_LEN) types → csafe (configure_accel types ctx name) (λ _, True).
Proof.
  induction 1 as [|t types Ht _ IH]; simpl; [by cstep|]. destruct (strstr_in name t); [|done].
  destruct (_ <? _); [by cstep|]. eapply csafe_bind; [by apply csafe_lib, safe_sprintf|]. intros _ _.
  destruct (scan_conv _ _ _); [|by cstep..]. eapply csafe_mono, csafe_configure_dev. done.
Qed.

Lemma csafe_configure_child {A} parent (m : heap → gmap positive A) kind name get_by_id set found k :
  (∀ id, safe (get_by_id parent id) (here_or_null s m)) →
  (∀ r st, here_or_null s m r → sok s st → sok s (set r st)) →
  (∀ p, is_Some (m s !! p) → csafe (found p) (λ _, True)) →
  csafe k (λ _, True) →
  csafe (configure_child parent kind name get_by_id set found k) (λ _, True).
Proof.
  intros Hget Hset Hfound Hk. unfold configure_child. destruct (strstr_in _ _); [|done].
  destruct (sscanf_d_d _) as [[a id]|]; [|by cstep].
  eapply csafe_bind; [apply csafe_lib, Hget|]. intros r Hr.
  cstep. { intros st. by apply Hset. }
  destruct r as [p|]; [|by cstep]. eapply csafe_bind; [by apply Hfound|]. intros [rc|] _; [by cstep|done].
Qed.

Lemma csafe_configure_wq q : is_Some (h_wqs s !! q) → csafe (configure_wq q) (λ _, True).
Proof.
  intros [x Hx]. unfold configure_wq. eapply csafe_bind; [by eapply csafe_lib, safe_wq_get_state|].
  intros st _. destruct (decide _).
  - cstep; [|by cstep]. intros st' []. by split.
  - cstep. eapply csafe_bind with (λ _, True); [|intros rc _; by cstep].
    destruct (st_enable _); [|by cstep]. apply csafe_activation. intros st' []. by split.
Qed.

Lemma csafe_choose_object v : csafe (choose_object ctx v) (λ _, True).
Proof.
  unfold choose_object. destruct (json_object_get_string v) as [name|]; [|by cstep].
  cstep. { intros st []. by split. }
  eapply csafe_bind; [apply csafe_configure_accel; by repeat constructor|]. intros [rc|] _; [by cstep|].
  cstep. pose proof (so_parent _ _ Hst) as Hp. destruct (st_parent st) as [parent|]; [|by cstep].
  destruct Hp as [x Hx].
  apply csafe_configure_child with (m := h_wqs).
  { intros id. by eapply safe_wq_get_by_id. } { intros r st' Hr []. by split. } { apply csafe_configure_wq. }
  apply csafe_configure_child with (m := h_engines).
  { intros id. by eapply safe_engine_get_by_id. } { intros r st' Hr []. by split. } { intros p _. by cstep. }
  apply csafe_configure_child with (m := h_groups).
  { intros id. by eapply safe_group_get_by_id. } { intros r st' Hr []. by split. } { intros p _. by cstep. }
  by cstep.
Qed.

(** ** Attributes *)

(** A value of a document: a number in range, and a text that fits. *)
Definition value_ok (j : J) : Prop := ∃ t, json_object_get_string j = Some t ∧ strlen t < SYSFS_ATTR_SIZE.

Lemma safe_read_number conv (j : J) : safe (read_number conv j) (λ v, v = (conv j).1).
Proof.
  unfold read_number. intros w Hw. destruct (conv j) as [v [e|]]; simpl; done.
Qed.

Lemma safe_not_a_number v : safe (not_a_number v) (λ _, True).
Proof. apply safe_still; [unfold not_a_number; always|unfold not_a_number; frame]. Qed.

Lemma safe_set_with {A} (set : positive → A → prog (world F) Z) p v :
  safe (set p v) (λ _, True) → safe (set_with set p v) (λ _, True).
Proof. intros Hset. unfold set_with. eapply safe_bind; [done|]. intros rc _. safe. Qed.

Lemma safe_set_string set p j :
  value_ok j → (∀ t, strlen t < SYSFS_ATTR_SIZE → safe (set p t) (λ _, True)) →
  safe (set_string set p j) (λ _, True).
Proof. intros (t & Ht & Hlen) Hset. unfold set_string. rewrite Ht. by apply safe_set_with, Hset. Qed.

Lemma get_int_range (j : J) : - 2 ^ 31 <= (json_object_get_int j).1 < 2 ^ 31.
Proof. destruct (json_object_get_int j) as [v e] eqn:Hj. by apply json_get_int_range in Hj as []. Qed.

(** An entry of a table that may be used with any value. *)
Definition entry_ok (e : set_table_entry (world F)) (p : positive) : Prop :=
  match te_set e with
  | set_int_func set => ∀ v, - 2 ^ 31 <= v < 2 ^ 31 → safe (set p v) (λ _, True)
  | set_long_func set => ∀ v, 0 <= v < 2 ^ 64 → safe (set p v) (λ _, True)
  | set_str_func set => ∀ t, strlen t < SYSFS_ATTR_SIZE → safe (set p t) (λ _, True)
  end ∧
  match te_is_writable e with Some w => ∀ v, safe (w p v) (λ _, True) | None => True end.

Lemma safe_refused e p v : entry_ok e p → safe (refused e p v) (λ _, True).
Proof.
  intros [_ He]. unfold refused. destruct (te_is_writable e); [|safe].
  eapply safe_bind; [apply He|]. intros ok _. safe.
Qed.

Lemma find_entry_ok (table : list (set_table_entry (world F))) key p e :
  Forall (λ e, te_name e = key → entry_ok e p) table → find_entry key table = Some e → entry_ok e p.
Proof.
  intros Ht Hf. apply find_some in Hf as [Hin Hk]. rewrite Forall_forall in Ht.
  apply Ht; [by apply list_elem_of_In|]. symmetry. by apply String.eqb_eq.
Qed.

Lemma device_entries d : is_Some (h_devices s !! d) → Forall (λ e, entry_ok e d) (device_table (F := F)).
Proof.
  intros [x Hx]. repeat (apply Forall_cons; split; [split; [|done]; simpl; intros v Hv|]); [..|constructor];
    by first [eapply safe_device_set_read_buffer_limit | eapply safe_device_set_event_log_size].
Qed.

(** The part that the kinds of object share: a number, and what is done with it. *)
Lemma safe_number j (bad : Z) (k : Z → prog (world F) Z) :
  (∀ v, - 2 ^ 31 <= v < 2 ^ 31 → safe (k v) (λ _, True)) →
  safe (val ← read_number json_object_get_int j; b ← not_a_number val;
    if b : bool then mret bad else k val) (λ _, True).
Proof.
  intros Hk. eapply safe_bind; [apply safe_read_number|]. intros v ->.
  eapply safe_bind; [apply safe_not_a_number|]. intros [] _; [safe|]. apply Hk, get_int_range.
Qed.

Lemma safe_device_json_set_val d j key :
  is_Some (h_devices s !! d) → value_ok j →
  safe (device_json_set_val (Some d) (Some j) (Some key)) (λ _, True).
Proof.
  intros Hd Hj. unfold device_json_set_val. destruct (negb _); [safe|].
  destruct (find_entry key _) as [e|] eqn:He; [|safe].
  assert (entry_ok e d) as [Hset _].
  { eapply find_entry_ok; [|done]. eapply Forall_impl; [by apply device_entries|]. done. }
  destruct (te_set e) as [set|set|set]; [|safe|by apply safe_set_string].
  apply safe_number. intros v Hv. by apply safe_set_with, Hset.
Qed.

Lemma engine_entries p : is_Some (h_engines s !! p) → Forall (λ e, entry_ok e p) (engine_table (F := F)).
Proof.
  intros [x Hx]. constructor; [|constructor]. split; [|done]. intros v Hv. by eapply safe_engine_set_group_id.
Qed.

Lemma safe_engine_json_set_val p j key :
  is_Some (h_engines s !! p) → value_ok j →
  safe (engine_json_set_val (Some p) (Some j) (Some key)) (λ _, True).
Proof.
  intros Hd Hj. unfold engine_json_set_val. destruct (negb _); [safe|].
  destruct (find_entry key _) as [e|] eqn:He; [|safe].
  assert (entry_ok e p) as [Hset _].
  { eapply find_entry_ok; [|done]. eapply Forall_impl; [by apply engine_entries|]. done. }
  destruct (te_set e) as [set|set|set]; [|safe|by apply safe_set_string].
  apply safe_number. intros v Hv. by apply safe_set_with, Hset.
Qed.

Lemma safe_group_get_field f p x : h_groups s !! p = Some x → safe (accfg_group_get_field f p) (λ _, True).
Proof. intros Hp. unfold accfg_group_get_field. safe. Qed.

Lemma safe_group_device p x : h_groups s !! p = Some x →
  safe (accfg_group_get_device p) (λ d, is_Some (h_devices s !! d)).
Proof.
  intros Hp. destruct (ok_group _ (rd_tree _ _ Hs) _ _ Hp) as (Hd & _).
  eapply safe_mono, safe_group_get_device; [|done]. by intros ? ->.
Qed.

Lemma group_entries p : is_Some (h_groups s !! p) → Forall (λ e, entry_ok e p) (group_table (F := F)).
Proof.
  intros [x Hx].
  assert (∀ f v, - 2 ^ 31 <= v < 2 ^ 31 → safe (accfg_group_set_field f p v) (λ _, True)) as Hset
    by by intros; eapply safe_group_set_field.
  assert (∀ f, safe (accfg_group_get_field f p) (λ _, True)) as Hget by by intros; eapply safe_group_get_field.
  assert (∀ v, safe (is_group_read_buffer_limit_writable p v) (λ _, True)) as H1'.
  { intros v. unfold is_group_read_buffer_limit_writable, accfg_device_get_read_buffer_limit.
    eapply safe_bind; [by eapply safe_group_device|]. intros d [y Hy].
    eapply safe_bind with (λ _, True); [safe|]. intros l _. safe. }
  assert (∀ v, safe (is_group_traffic_class_writable p v) (λ _, True)) as H2'.
  { intros v. unfold is_group_traffic_class_writable, accfg_device_get_version.
    eapply safe_bind; [by eapply safe_group_device|]. intros d [y Hy].
    eapply safe_bind with (λ _, True); [safe|]. intros l _. safe. }
  repeat (apply Forall_cons; split; [split; [intros v Hv; by apply Hset|]; intros v; try done|]); [..|constructor].
  all: unfold is_group_desc_progress_limit_writable, is_group_batch_progress_limit_writable;
    destruct (_ || _); [safe|]; (eapply safe_bind; [apply Hget|]); intros l _; safe.
Qed.

Lemma safe_group_json_set_val p j key :
  is_Some (h_groups s !! p) → value_ok j →
  safe (group_json_set_val (Some p) (Some j) (Some key)) (λ _, True).
Proof.
  intros Hp Hj. pose proof Hp as [x Hx]. unfold group_json_set_val.
  eapply safe_bind with (λ d, ∃ q, d = Some q ∧ is_Some (h_devices s !! q)).
  { eapply safe_bind; [by eapply safe_group_device|]. intros d Hd. apply safe_ret. eauto. }
  intros ? (q & -> & [y Hy]). destruct (negb _); [safe|].
  destruct (find_entry key _) as [e|] eqn:He; [|safe].
  assert (entry_ok e p) as Hok.
  { eapply find_entry_ok; [|done]. eapply Forall_impl; [by apply group_entries|]. done. }
  pose proof Hok as [Hset _]. destruct (te_set e) as [set|set|set]; [|safe|by apply safe_set_string].
  eapply safe_bind; [apply safe_read_number|]. intros v ->.
  eapply safe_bind; [apply safe_not_a_number|]. intros b _. destruct (_ || _); [safe|].
  eapply safe_bind with (λ d, d = q); [by apply safe_ret|]. intros ? ->.
  eapply safe_bind with (λ _, True); [unfold accfg_device_get_type; safe|]. intros type _.
  destruct (_ && _); [safe|]. eapply safe_bind; [by apply safe_refused|]. intros [] _; [safe|].
  apply safe_set_with, Hset, get_int_range.
Qed.

(** The threshold is the one attribute whose guard may reach undefined behaviour. *)
Lemma wq_entries p key : is_Some (h_wqs s !! p) → key_b thr key = true →
  Forall (λ e, te_name e = key → entry_ok e p) (wq_table (F := F)).
Proof.
  intros [x Hx] Hkey.
  assert (∀ f v, - 2 ^ 31 <= v < 2 ^ 31 → safe (accfg_wq_set_field f p v) (λ _, True)) as Hset
    by by intros; eapply safe_wq_set_field.
  assert (∀ f t, strlen t < SYSFS_ATTR_SIZE → safe (accfg_wq_set_str_field f p t) (λ _, True)) as Hstr
    by by intros; eapply safe_wq_set_str_field.
  assert (∀ f, safe (accfg_wq_get_field f p) (λ _, True)) as Hget by by intros; eapply safe_wq_get_field.
  repeat (apply Forall_cons; split; [intros Hname; split; [try done; intros v Hv; try (by apply Hset); try (by apply Hstr)|try done]|]);
    [..|constructor]; simpl.
  - by eapply safe_wq_set_str_type.
  - by eapply safe_wq_set_op_config_str.
  - by eapply safe_wq_set_max_transfer_size.
  - intros v. rewrite <- Hname in Hkey. unfold is_wq_threshold_writable.
    assert (thr = true) as Hthr by by unfold key_b in Hkey; destruct thr.
    eapply safe_bind; [by eapply safe_wq_get_mode|]. intros m _. safe.
  - intros v. unfold is_wq_ats_disable_writable. destruct (_ || _); [safe|].
    eapply safe_bind; [apply Hget|]. intros l _. safe.
  - intros v. unfold is_wq_prs_disable_writable. destruct (_ || _); [safe|].
    eapply safe_bind; [apply Hget|]. intros l _. safe.
Qed.

Lemma safe_wq_json_set_val p j key :
  is_Some (h_wqs s !! p) → value_ok j → key_b thr key = true →
  safe (wq_json_set_val (Some p) (Some j) (Some key)) (λ _, True).
Proof.
  intros Hd Hj Hkey. unfold wq_json_set_val. destruct (negb _); [safe|].
  destruct (find_entry key _) as [e|] eqn:He; [|safe]. cbv zeta.
  assert (entry_ok e p) as Hok by by eapply find_entry_ok; [apply wq_entries|].
  pose proof Hok as [Hset _].
  assert (∀ conv (to : Z → Z) set, safe (set p (to (conv j).1)) (λ _, True) →
    safe (val ← read_number conv j; bad ← not_a_number val;
      if bad : bool then neg_errno
      else no ← refused e p (to val); if no : bool then mret 0 else set_with set p (to val)) (λ _, True)) as Hnum.
  { intros conv to set Hs'. eapply safe_bind; [apply safe_read_number|]. intros v ->.
    eapply safe_bind; [apply safe_not_a_number|]. intros [] _; [safe|].
    eapply safe_bind; [by apply safe_refused|]. intros [] _; [safe|]. by apply safe_set_with. }
  destruct (te_set e) as [set|set|set]; [..|by apply safe_set_string].
  - apply (Hnum _ (λ z, z)), Hset, get_int_range.
  - apply (Hnum _ u64), Hset, u64_range.
Qed.

(** ** Default queues from a file *)

Lemma csafe_upd_param i f : csafe (upd_param i f) (λ _, True).
Proof. apply csafe_set_static. intros st []. split; try done. simpl. by rewrite length_alter. Qed.

Lemma csafe_config_default_json q (j : J) key :
  is_Some (h_wqs s !! q) → value_ok j → csafe (config_default_json q j key) (λ _, True).
Proof.
  intros [x Hx] (t & Ht & _). destruct (wq_owner s ctx Hs _ _ Hx) as (d & c & Hd & _).
  unfold config_default_json.
  eapply csafe_bind; [by eapply csafe_lib, safe_wq_get_device|]. intros ? ->.
  eapply csafe_bind with (λ _, True); [apply csafe_lib; unfold accfg_device_get_type; safe|]. intros type _.
  eapply csafe_bind with (λ _, True); [apply csafe_lib; unfold accfg_device_get_type_str; safe|]. intros tstr _.
  destruct (get_conf_def_wq_param type) as [i|]; [|by cstep]. cbv zeta. rewrite Ht.
  assert (∀ f, csafe (let '(v, e) := json_object_get_int j in
    match e with Some e => in_lib (set_errno e) | None => mret () end;; upd_param i (f v)) (λ _, True)) as Hnum.
  { intros f. destruct (json_object_get_int j) as [v e].
    eapply csafe_bind with (λ _, True); [|intros _ _; apply csafe_upd_param].
    destruct e; [apply csafe_lib; safe|by cstep]. }
  destruct (strcmp_eq key "name").
  - eapply csafe_bind with (λ n, n = t); [by apply csafe_ret|]. intros ? ->.
    eapply csafe_bind with (λ _, True); [apply csafe_lib; safe|]. intros n _. apply csafe_upd_param.
  - repeat (destruct (strcmp_eq key _); [apply Hnum|]). by cstep.
Qed.

(** ** One member, and a document *)

Lemma csafe_negative_only m : safe m (λ _, True) → csafe (negative_only m) (λ _, True).
Proof. intros Hm. unfold negative_only. eapply csafe_bind; [by apply csafe_lib|]. intros rc _. by cstep. Qed.

Lemma csafe_set_attribute (j : J) key : value_ok j → key_b thr key = true → csafe (set_attribute j key) (λ _, True).
Proof.
  intros Hj Hkey. unfold set_attribute. cstep. destruct (st_parent st) as [parent|]; [|by cstep].
  cstep. eapply csafe_bind with (λ _, True).
  { destruct (_ && _); [|by cstep]. cstep. intros st1 []. by split. }
  intros _ _. cstep. unfold id. destruct Hst1 as [Hdev _ Hwq Heng Hgrp _].
  assert (csafe (match st_dev st1, st_group st1, st_wq st1, st_engine st1 with
    | Some dev, _, _, _ => negative_only (device_json_set_val (Some dev) (Some j) (Some key))
    | None, Some group, _, _ => negative_only (group_json_set_val (Some group) (Some j) (Some key))
    | None, None, Some wq, _ => negative_only (wq_json_set_val (Some wq) (Some j) (Some key))
    | None, None, None, Some engine => negative_only (engine_json_set_val (Some engine) (Some j) (Some key))
    | None, None, None, None => mret (- EINVAL)
    end) (λ _, True)) as Hset.
  { destruct (st_dev st1); [by apply csafe_negative_only, safe_device_json_set_val|].
    destruct (st_group st1); [by apply csafe_negative_only, safe_group_json_set_val|].
    destruct (st_wq st1); [by apply csafe_negative_only, safe_wq_json_set_val|].
    destruct (st_engine st1); [by apply csafe_negative_only, safe_engine_json_set_val|]. by cstep. }
  destruct (st_wq st1) as [q|]; [|exact Hset]. destruct (config_default_file st1); [|exact Hset].
  eapply csafe_bind; [by apply csafe_config_default_json|]. intros _ _. by cstep.
Qed.

Lemma csafe_configure (j : J) key :
  value_ok j → key_b thr key = true → csafe (configure_json_value (Some ctx) (Some j) (Some key)) (λ _, True).
Proof.
  intros Hj Hkey. unfold configure_json_value.
  destruct (strcmp_eq key "dev"); [apply csafe_choose_object|by apply csafe_set_attribute].
Qed.

Definition parsed (rc : Z) : Prop := rc = 0 ∨ rc = -1.

Lemma doc_scalar n (j : J) : doc_b thr n j = true → scalar (json_type_of j) = true → value_ok j.
Proof.
  destruct n as [|n]; [done|]. simpl. unfold value_ok.
  destruct (json_type_of j), (json_object_get_string j) as [t|]; try done; intros Ht _; exists t; split; done || lia.
Qed.

(** A member of an object is the one its key finds. *)
Lemma get_ex_member (j : J) l key val :
  json_members j = Some l → NoDup l.*1 → (key, val) ∈ l → json_object_object_get_ex (Some j) key = Some val.
Proof.
  intros Hj Hnd Hin. unfold json_object_object_get_ex. simpl. rewrite Hj. clear Hj.
  induction l as [|[k v] l IH]; [by apply elem_of_nil in Hin|]. apply NoDup_cons in Hnd as [Hk Hnd]. simpl.
  apply elem_of_cons in Hin as [[= <- <-]|Hin]; [by rewrite String.eqb_refl|].
  destruct (String.eqb_spec k key) as [->|]; [|by apply IH].
  destruct Hk. apply list_elem_of_fmap. by exists (key, val).
Qed.

Lemma json_parse_csafe m :
  (∀ n (j : J), doc_b thr n j = true → (json_size j < m)%nat → json_type_of j = json_type_object →
    csafe (json_parse m (Some ctx) (Some j)) parsed) ∧
  (∀ n (j v : J) key, doc_b thr n v = true → json_type_of v = json_type_array → (need j key < m)%nat →
    match key with None => j = v | Some k => json_object_object_get_ex (Some j) k = Some (Some v) end →
    csafe (json_parse_array m (Some ctx) (Some j) key) parsed).
Proof.
  induction m as [|m [IHo IHa]]; [split; intros; lia|]. split.
  - intros [|n] j Hdoc Hsize Hty; [done|]. simpl in Hdoc |- *. rewrite Hty in Hdoc.
    destruct (json_object_members j Hty) as [l Hl]. rewrite Hl in Hdoc |- *.
    apply andb_true_iff in Hdoc as [Hnd%bool_decide_eq_true Hall]. pose proof (size_pos _ _ Hl) as Hpos.
    eapply csafe_bind with (λ r, r = l); [by apply csafe_ret|]. intros ? ->.
    assert (∀ iter, (∀ x, x ∈ iter → x ∈ l) →
      csafe (parse_members (json_parse m (Some ctx)) (json_parse_array m (Some ctx)) (Some ctx) iter (Some j)) parsed)
      as Hloop; [|by apply Hloop].
    induction iter as [|[key o] iter IH]; intros Hin; simpl; [cstep; by left|].
    assert ((key, o) ∈ l) as Hmem by (apply Hin; by left).
    assert (csafe (parse_members (json_parse m (Some ctx)) (json_parse_array m (Some ctx)) (Some ctx) iter (Some j)) parsed)
      as Hrest by (apply IH; intros; apply Hin; by right).
    pose proof (proj1 (forallb_forall _ _) Hall (key, o) (proj1 (list_elem_of_In _ _) Hmem)) as Ho.
    simpl in Ho. apply andb_true_iff in Ho as [Hkey Ho].
    assert (∀ mm, csafe mm (λ _, True) → csafe (rc ← mm; if negb (rc =? 0) then mret (-1) else
      parse_members (json_parse m (Some ctx)) (json_parse_array m (Some ctx)) (Some ctx) iter (Some j)) parsed) as Hnext.
    { intros mm Hmm. eapply csafe_bind; [exact Hmm|]. intros rc _. destruct (negb _); [cstep; by right|done]. }
    destruct o as [v|]; [|exact Hrest]. simpl. apply andb_true_iff in Ho as [Hno Hv].
    assert (scalar (json_type_of v) = true → csafe (configure_json_value (Some ctx) (Some v) (Some key)) (λ _, True))
      as Hconf by (intros; apply csafe_configure; [by eapply doc_scalar|done]).
    destruct (json_type_of v) eqn:Htv; try (by apply Hnext, Hconf); [exact Hrest|done|].
    apply Hnext. eapply csafe_mono; [|eapply (IHa n j v (Some key)); [done..|simpl; lia|by eapply get_ex_member]]. done.
  - intros [|n] j v key Hdoc Hty Hsize Hkey; [done|]. simpl in Hdoc |- *. rewrite Hty in Hdoc.
    destruct (json_array_elements v Hty) as [l Hl]. rewrite Hl in Hdoc.
    replace (match key with Some k => json_object_object_get_ex (Some j) k | None => Some (Some j) end)
      with (Some (Some v)) by (destruct key; [done|by rewrite Hkey]).
    simpl. rewrite Hl. eapply csafe_bind with (λ r, r = l); [by apply csafe_ret|]. intros ? ->.
    assert (json_size v <= m)%nat as Hsv.
    { destruct key as [k|]; simpl in Hsize; [|subst; lia].
      pose proof (get_ex_size _ _ _ _ Hkey eq_refl). lia. }
    destruct l as [|o0 l0]; [cstep; by right|]. revert Hl Hdoc. generalize (o0 :: l0). clear o0 l0. intros l Hl Hdoc.
    pose proof (json_size_elements _ _ Hl) as Hlt.
    assert (∀ l', (∀ x, x ∈ l' → x ∈ l) →
      csafe (parse_elements (json_parse m (Some ctx)) (json_parse_array m (Some ctx)) (Some ctx) l') parsed)
      as Hloop; [|by apply Hloop].
    induction l' as [|[x|] l' IH]; intros Hin; simpl; [cstep; by left| |cstep; by right].
    assert (Some x ∈ l) as Hmem by (apply Hin; by left).
    pose proof (proj1 (forallb_forall _ _) Hdoc (Some x) (proj1 (list_elem_of_In _ _) Hmem)) as Hx. simpl in Hx.
    pose proof (sizes_elem _ _ _ eq_refl Hmem) as Hsx.
    eapply csafe_bind with (λ _, True).
    + destruct (json_type_of x) eqn:Htx; try by cstep.
      * eapply csafe_mono; [|eapply (IHo n x); [done|lia|done]]. done.
      * eapply csafe_mono; [|eapply (IHa n x x None); [done..|simpl; lia|done]]. done.
    + intros rc _. destruct (negb _); [cstep; by right|]. apply IH. intros; apply Hin; by right.
Qed.
End load.

(** C12: loading a configuration on an enumerated tree never reaches undefined behaviour, does not depend on the fuel, and ends with 0 or -1: for every document that is an array, with no object directly in an object and no text too long for an attribute, whatever keys and values it holds, whatever the attributes and drivers answer and whatever allocation fails; no object appears, disappears or moves, and the file's pointers and those of the saved error stay valid.  Only a document that sets a threshold may end otherwise: the guard of that attribute dereferences the text of the queue's mode, which is NULL when it cannot be read. *)
Theorem json_parse_array_safe {F} `{KernelLaws F} {J} `{JsonLaws J} thr ctx (j : J) (c : cstate F) :
  let s := skel (hp (c_world c)) in ready ctx s → fits s (hp (c_world c)) → sok s (c_statics c) →
  doc_b thr (S (json_size j)) j = true → json_type_of j = json_type_array →
  match json_parse_array (S (json_size j)) (Some ctx) (Some j) None c with
  | Done rc c' => (rc = 0 ∨ rc = -1) ∧ fits s (hp (c_world c')) ∧ sok s (c_statics c')
  | Exited _ _ => False
  | Fault => thr = true
  end.
Proof.
  intros s Hr Hfit Hst Hdoc Hty.
  pose proof (proj2 (json_parse_csafe thr _ ctx Hr (S (json_size j))) _ j j None Hdoc Hty (Nat.lt_succ_diag_r _) eq_refl
    c Hfit Hst) as Hp.
  destruct (json_parse_array _ _ _ _ _) as [rc c'| |]; [|done..]. by destruct Hp as (H1' & H2' & H3').
Qed.

(** ** An instance *)

Definition ready_b (ctx : positive) (s : heap) : bool :=
  tree_b s &&
  match h_ctxs s !! ctx with Some c => negb (c_devices_init c =? 0) | None => false end &&
  all_b (λ _ x, negb (d_group_init x =? 0) &&
    match d_group x ≫= λ g, h_groups s !! g with
    | Some y => negb (g_wqs_init y =? 0) && negb (g_engines_init y =? 0)
    | None => false
    end &&
    (d_buf_len x =? strlen (d_device_path x) + MAX_BUF_LEN) && (d_buf_len x <? 2 ^ 31) &&
    match after_last slash (d_device_path x) with Some name => strlen name <=? 1000 | None => false end &&
    (strlen (d_bus_type_str x) <=? 1000)) (h_devices s).

Lemma ready_b_spec ctx s : ready_b ctx s = true → ready ctx s.
Proof.
  unfold ready_b. rewrite !andb_true_iff. intros [[Ht Hc] Hd].
  assert (∀ d x, h_devices s !! d = Some x → _) as Hdev by exact (λ d x, all_b_spec _ _ d x Hd).
  split; [split; [by apply tree_b_spec| |]|].
  - destruct (h_ctxs s !! ctx) as [c|]; [|done]. exists c. split; [done|]. by destruct (Z.eqb_spec (c_devices_init c) 0).
  - intros d x Hx%Hdev. cbv beta in Hx. rewrite !andb_true_iff in Hx. destruct Hx as (((((H1 & _) & H3) & H4) & H5) & H6).
    destruct (after_last slash _) as [name|] eqn:Hn; [|done].
    split_and!; [by apply negb_true_iff, Z.eqb_neq in H1|lia..| |lia]. exists name. split; [done|lia].
  - intros d x Hx%Hdev. cbv beta in Hx. rewrite !andb_true_iff in Hx. destruct Hx as (((((_ & H2) & _) & _) & _) & _).
    destruct (d_group x) as [g|] eqn:Hg; [|done]. simpl in H2.
    destruct (h_groups s !! g) as [y|] eqn:Hy; [|done]. apply andb_true_iff in H2 as [H2 H2'].
    exists g, y. split_and!; [done..| |]; by apply negb_true_iff, Z.eqb_neq in H2, H2'.
Qed.

(** No error was saved. *)
Lemma errs_b_spec h : all_b (λ _ c, match c_error_ctx c with Some _ => false | None => true end) (h_ctxs h) = true → fits (skel h) h.
Proof. intros Hb. split; [done|]. intros p c e Hc He. apply (all_b_spec _ _ _ _ Hb) in Hc. by rewrite He in Hc. Qed.

(** Text with apostrophes for quotes. *)
Fixpoint quoted (s : string) : string :=
  match s with
  | EmptyString => EmptyString
  | String c s' => String (if Ascii.eqb c "'" then quote else c) (quoted s')
  end.

Definition demo_text : string := quoted
  "[{'dev':'dsa0','read_buffer_limit':20,'groups':[{'dev':'group0.0','read_buffers_reserved':4,'traffic_class_a':5,'grouped_workqueues':[{'dev':'wq0.0','size':8,'mode':'shared','name':'app2','max_transfer_size':4096}],'grouped_engines':[{'dev':'engine0.0','group_id':1}]}]}]".
Definition demo_doc : jtext :=
  match parse_buffer demo_text with TokEnd (Some j) => j | _ => JBool false end.
Definition demo_state : cstate sim := CState demo_world initial_statics.

Definition load_demo : prog (cstate sim) Z := json_parse_array (S (json_size demo_doc)) (Some 1%positive) (Some demo_doc) None.

Lemma json_parse_array_safe_witness :
  runs_to load_demo demo_state 0 = true ∧
  match load_demo demo_state with
  | Done rc c' =>
      (rc = 0 ∨ rc = -1) ∧ fits (skel (hp demo_world)) (hp (c_world c')) ∧
      sok (skel (hp demo_world)) (c_statics c')
  | Exited _ _ => False
  | Fault => false = true
  end.
Proof.
  split; [vm_compute; reflexivity|].
  apply (json_parse_array_safe false 1%positive demo_doc demo_state); [| |split|..].
  - apply ready_b_spec. vm_compute. reflexivity.
  - apply errs_b_spec. vm_compute. reflexivity.
  - exact I.
  - exact I.
  - exact I.
  - exact I.
  - exact I.
  - reflexivity.
  - vm_compute. reflexivity.
  - vm_compute. reflexivity.
Defined.

(** The whole command on a file: options, walk, reading, parsing, activation. *)
#[export] Instance sim_stdio : Stdio sim := {|
  k_fopen path f := match sim_files f !! path with Some _ => (KOk (), f) | None => (KErr ENOENT, f) end;
  k_fstat path f := match sim_files f !! path with Some d => (KOk (strlen d), f) | None => (KErr ENOENT, f) end;
  k_fread path n f := (String.substring 0 (Z.to_nat n) (default EmptyString (sim_files f !! path)), f);
|}.

(** The device has as many groups as it says: the walk counts on it. *)
Definition file_world : world sim :=
  demo_world <| fs := fs demo_world <| sim_files ::= insert "/etc/a.conf"%string demo_text |> |>
    <| hp ::= λ h, h <| h_devices ::= fmap (λ d, d <| d_max_groups := 1 |>) |> |>.
Definition load_argv : list string := ["load-config"; "-c"; "/etc/a.conf"; "-e"]%string.
Definition load_command : prog (cstate sim) Z :=
  cmd_config (J := jtext) "/etc/accel-config/accel-config.conf" jstore (λ _, true) load_argv 1.

Definition written {F} (c : cstate F) : list (string * string) :=
  rev ((λ e, (ev_path e, ev_data e)) <$> trace (c_world c)).

(** The attributes in the order of the document, then the device and the queue are bound. *)
Lemma load_command_writes :
  match load_command (CState file_world initial_statics) with
  | Done rc c => Some (rc, drop 1 (written c))
  | _ => None
  end = Some (0,
    [("/sys/devices/dsa0/token_limit", "20"); ("/sys/devices/dsa0/group0.0/tokens_reserved", "4");
     ("/sys/devices/dsa0/wq0.0/size", "8"); ("/sys/devices/dsa0/wq0.0/mode", "shared");
     ("/sys/devices/dsa0/wq0.0/name", "app2"); ("/sys/devices/dsa0/wq0.0/max_transfer_size", "4096");
     ("/sys/devices/dsa0/engine0.0/group_id", "1");
     ("/sys/bus/dsa/drivers/idxd/bind", "dsa0"); ("/sys/bus/dsa/drivers/user/bind", "wq0.0")]%string).
Proof. vm_compute. reflexivity. Qed.
