(* ===== verification/KeepFacts.v ===== *)
(** * What every command keeps: the tree, and the references of the contexts

    [Keep] relates the worlds before and after a call that frees nothing: the
    library's memory stays a tree, the contexts and their reference counts are
    the same, and every other object is still there.  [keeps] is [respects Keep] for a program on a larger state, of which
    the world is a part ([HasWorld]). *)

From S2P Require Import Prelude CString Prog Types Sysfs Param Tree Demo Device Wq Filter Enable ConfigAttr Json Commands JsonStore JsonUtil Listing Config ListCmd.
From S2P Require Import SysfsFacts ParamFacts TreeFacts TreeInit.
Local Open Scope Z_scope.

(** ** The relation *)

(** Something of every context. *)
Definition part {F B} (k : accfg_ctx → B) (w : world F) : gmap positive B := k <$> h_ctxs (hp w).
Definition refs {F} : world F → gmap positive Z := part c_refcount.

(** Every object that was there still is. *)
Record heap_grows (h h' : heap) : Prop := HeapGrows {
  grow_devices : dom (h_devices h) ⊆ dom (h_devices h');
  grow_groups : dom (h_groups h) ⊆ dom (h_groups h');
  grow_wqs : dom (h_wqs h) ⊆ dom (h_wqs h');
  grow_engines : dom (h_engines h) ⊆ dom (h_engines h');
}.
Definition Grows {F} (w w' : world F) : Prop := heap_grows (hp w) (hp w').
Definition Keep {F} (w w' : world F) : Prop :=
  (tree_ok (hp w) → tree_ok (hp w')) ∧ refs w' = refs w ∧ Grows w w'.

#[export] Instance heap_grows_preorder : PreOrder heap_grows.
Proof. split; [by split|]. intros h1 h2 h3 [] []. split; by etrans. Qed.
#[export] Instance grows_preorder F : PreOrder (Grows (F := F)).
Proof. split; [intros w; unfold Grows; reflexivity|]. intros w1 w2 w3 H1 H2. unfold Grows in *. by etrans. Qed.
#[export] Instance keep_preorder F : PreOrder (Keep (F := F)).
Proof.
  split; [intros w; by split_and!|]. intros w1 w2 w3 (H1 & H2 & H3) (H4 & H5 & H6).
  split_and!; [auto|congruence|by etrans].
Qed.

(** Calls that leave the heap alone. *)
Lemma keep_same_heap {F} (w w' : world F) : hp w' = hp w → Keep w w'.
Proof. unfold Keep, refs, part, Grows. by intros ->. Qed.
#[export] Instance os_keep F : OsFrame (Keep (F := F)).
Proof. split; [apply _|intros; by apply keep_same_heap..]. Qed.
#[export] Instance fd_keep F : FdFrame (Keep (F := F)).
Proof. intros w n. by apply keep_same_heap. Qed.
#[export] Instance tr_keep F : TrFrame (Keep (F := F)).
Proof. intros w t. by apply keep_same_heap. Qed.
#[export] Instance os_grows F : OsFrame (Grows (F := F)).
Proof. split; [apply _|intros; by split..]. Qed.
#[export] Instance fd_grows F : FdFrame (Grows (F := F)).
Proof. by split. Qed.
#[export] Instance tr_grows F : TrFrame (Grows (F := F)).
Proof. by split. Qed.

(** A heap of which one map is changed at a place or gets one more. *)
Ltac grows := intros; split; simpl; rewrite ?dom_alter_L, ?dom_insert_L; set_solver.

Lemma tree_alter_engine p f h :
  (∀ x, e_device (f x) = e_device x ∧ e_engine_path (f x) = e_engine_path x ∧
        e_buf_len (f x) = e_buf_len x) →
  tree_ok h → tree_ok (h <| h_engines ::= alter f p |>).
Proof.
  intros Hf [Hc Hd Hg Hw He Hn]. split; simpl; try done.
  - intros d x Hx. destruct (Hd d x Hx) as (H1 & H2 & H3 & H4). do 3 (split; [done|]).
    apply members_alter; [intros y; by destruct (Hf y)|done].
  - intros q y (x & Hx & [-> | [-> ->]])%alter_inv; [by apply (He q)|].
    destruct (Hf x) as (-> & -> & ->). by apply (He q).
  - intros q Hq. destruct (Hn q Hq) as (H1 & H2 & H3 & H4 & H5). do 4 (split; [done|]). by apply alter_None.
Qed.

Section keep.
Context {F : Type}.
Notation M := (prog (world F)).

Lemma keep_on_heap f :
  (∀ h, tree_ok h → tree_ok (f h)) → (∀ h, c_refcount <$> h_ctxs (f h) = c_refcount <$> h_ctxs h) →
  (∀ h, heap_grows h (f h)) → respects Keep (on_heap (F := F) f).
Proof. intros Hf Hr Hg. apply respects_modify. intros w. split_and!; [apply Hf|apply Hr|apply Hg]. Qed.

Lemma keep_upd_ctx p f :
  (∀ x, c_devices (f x) = c_devices x ∧ c_refcount (f x) = c_refcount x) → respects Keep (upd_ctx (F := F) p f).
Proof.
  intros Hf. unfold upd_ctx. frame. apply keep_on_heap.
  - intros h. apply tree_alter_ctx. intros x. apply Hf.
  - intros h. simpl. apply map_eq. intros q. rewrite !lookup_fmap, lookup_alter.
    destruct (decide (p = q)) as [->|]; [|done].
    destruct (h_ctxs h !! q); [|done]. simpl. f_equal. apply Hf.
  - grows.
Qed.
Lemma keep_upd_device p f :
  (∀ x, d_ctx (f x) = d_ctx x ∧ d_groups (f x) = d_groups x ∧ d_wqs (f x) = d_wqs x ∧ d_engines (f x) = d_engines x) →
  respects Keep (upd_device (F := F) p f).
Proof. intros Hf. unfold upd_device. frame. apply keep_on_heap; [|done|grows]. intros h. by apply tree_alter_device. Qed.
Lemma keep_upd_group p f :
  (∀ x, g_device (f x) = g_device x ∧ g_group_path (f x) = g_group_path x ∧ g_buf_len (f x) = g_buf_len x) →
  respects Keep (upd_group (F := F) p f).
Proof. intros Hf. unfold upd_group. frame. apply keep_on_heap; [|done|grows]. intros h. by apply tree_alter_group. Qed.
Lemma keep_upd_wq p f :
  (∀ x, w_device (f x) = w_device x ∧ w_wq_path (f x) = w_wq_path x ∧ w_buf_len (f x) = w_buf_len x) →
  respects Keep (upd_wq (F := F) p f).
Proof. intros Hf. unfold upd_wq. frame. apply keep_on_heap; [|done|grows]. intros h. by apply tree_alter_wq. Qed.
Lemma keep_upd_engine p f :
  (∀ x, e_device (f x) = e_device x ∧ e_engine_path (f x) = e_engine_path x ∧ e_buf_len (f x) = e_buf_len x) →
  respects Keep (upd_engine (F := F) p f).
Proof. intros Hf. unfold upd_engine. frame. apply keep_on_heap; [|done|grows]. intros h. by apply tree_alter_engine. Qed.

(** A triple of the tree and a frame of the counts. *)
Lemma keep_tri {A} (P : heap → Prop) (m : M A) (Q : A → heap → Prop) :
  (∀ w a w', m w = Done a w' → tree_ok (hp w) → P (hp w)) → (∀ a h, Q a h → tree_ok h) →
  tri True P m Q → respects (on refs) m → respects Grows m → respects Keep m.
Proof.
  intros HP HQ Hm Hr Hg w a w' Hrun. split; [|split; [by apply Hr in Hrun|by apply Hg in Hrun]].
  intros Ht. specialize (HP _ _ _ Hrun Ht). specialize (Hm w HP). rewrite Hrun in Hm. by eapply HQ.
Qed.

(** Pointers that a function starts by dereferencing. *)
Lemma deref_first {A B} (m : heap → gmap positive A) p (k : A → M B) w b w' :
  (deref m p ≫= k) w = Done b w' → is_Some (m (hp w) !! p).
Proof.
  unfold deref, gets, must, mbind, prog_bind. destruct (m (hp w) !! p); [by eexists|done].
Qed.
End keep.

(** ** Enumeration

    It changes no part of a context but the list of devices and its flag. *)

#[export] Instance os_part F B k : OsFrame (on (part (F := F) (B := B) k)).
Proof. split; [apply _|done..]. Qed.
#[export] Instance fd_part F B k : FdFrame (on (part (F := F) (B := B) k)).
Proof. done. Qed.
#[export] Instance tr_part F B k : TrFrame (on (part (F := F) (B := B) k)).
Proof. done. Qed.

(** A part that is not about the list of devices. *)
Class Apart {B} (k : accfg_ctx → B) : Prop := apart_list x f : k (x <| c_devices ::= f |>) = k x.
#[export] Instance apart_refcount : Apart c_refcount.
Proof. done. Qed.
#[export] Instance apart_error : Apart c_error_ctx.
Proof. done. Qed.
#[export] Instance apart_flag : Apart c_devices_init.
Proof. done. Qed.

Section enumeration.
Context {F : Type} `{Kernel F} {B : Type} (k : accfg_ctx → B) `{!Apart k}.
Notation M := (prog (world F)).
Notation refs := (part k).

Lemma refs_on_heap f : (∀ h, k <$> h_ctxs (f h) = k <$> h_ctxs h) → respects (on refs) (on_heap (F := F) f).
Proof. intros Hf. apply respects_modify. intros w. apply Hf. Qed.
Lemma refs_upd_ctx p f : (∀ x, k (f x) = k x) → respects (on refs) (upd_ctx (F := F) p f).
Proof.
  intros Hf. unfold upd_ctx. frame. apply refs_on_heap. intros h. simpl. apply map_eq. intros q.
  rewrite !lookup_fmap, lookup_alter. destruct (decide (p = q)) as [->|]; [|done].
  destruct (h_ctxs h !! q); [|done]. simpl. by rewrite Hf.
Qed.
Lemma refs_upd_device p f : respects (on refs) (upd_device (F := F) p f).
Proof. unfold upd_device. frame. by apply refs_on_heap. Qed.
Lemma refs_upd_group p f : respects (on refs) (upd_group (F := F) p f).
Proof. unfold upd_group. frame. by apply refs_on_heap. Qed.
Lemma refs_fresh : respects (on refs) (fresh (F := F)).
Proof. unfold fresh. frame. by apply refs_on_heap. Qed.
Lemma refs_prefix s : respects (on refs) (set_filename_prefix (F := F) s).
Proof. by apply respects_modify. Qed.
End enumeration.
#[local] Hint Extern 2 (respects (on (part _)) (on_heap _)) => apply refs_on_heap; done : frame.
#[local] Hint Extern 2 (respects (on (part _)) (upd_ctx _ _)) => apply refs_upd_ctx; intros ?; first [apply apart_list|done] : frame.
#[local] Hint Resolve refs_upd_device refs_upd_group refs_fresh refs_prefix : frame.

Section inits.
Context {F : Type} `{Kernel F} {B : Type} (k : accfg_ctx → B) `{!Apart k}.
Notation M := (prog (world F)).
Notation refs := (part k).

Lemma refs_add_wq parent id path pfx bus : respects (on (part (F := F) k)) (Tree.add_wq parent id path pfx bus).
Proof. unfold Tree.add_wq, wq_parse_type. frame. Qed.
Lemma refs_add_engine parent id path pfx bus : respects (on (part (F := F) k)) (add_engine parent id path pfx bus).
Proof. unfold add_engine. frame. Qed.
Lemma refs_add_device ctx id path pfx bus : respects (on (part (F := F) k)) (add_device ctx id path pfx bus).
Proof. unfold add_device. frame; by apply respects_modify. Qed.
Lemma refs_groups_init device : respects (on (part (F := F) k)) (groups_init device).
Proof. intros w a w' Hrun%ctxs_groups_init. unfold on, part, ctxs in *. congruence. Qed.
#[local] Hint Resolve refs_groups_init : frame.

Lemma r_foreach {T A} (R : relation T) `{!PreOrder R} fuel x next (body : positive → prog T (option A)) :
  (∀ p, respects R (next p)) → (∀ p, respects R (body p)) → respects R (foreach fuel x next body).
Proof.
  intros Hn Hb. revert x. induction fuel as [|n IH]; intros [p|]; simpl; frame; auto.
Qed.

Lemma refs_next p : respects (on (part (F := F) k)) (accfg_device_get_next p).
Proof. unfold accfg_device_get_next. frame. Qed.
Lemma refs_find_devices ctx : respects (on (part (F := F) k)) (find_devices ctx).
Proof. unfold find_devices. frame. apply r_device_parse; [apply _|]. intros. apply refs_add_device. Qed.
#[local] Hint Resolve refs_find_devices : frame.
Lemma refs_devices_init ctx : (∀ x, k (x <| c_devices_init := 1 |>) = k x) → respects (on (part (F := F) k)) (devices_init ctx).
Proof.
  intros Hflag. rewrite devices_init_eq. frame.
  apply r_foreach; [apply _|intros; apply refs_next|frame].
Qed.
Lemma refs_engines_init device : respects (on (part (F := F) k)) (engines_init device).
Proof. unfold engines_init. frame. apply r_device_parse; [apply _|]. intros. apply refs_add_engine. Qed.
Lemma refs_wqs_init device : respects (on (part (F := F) k)) (wqs_init device).
Proof. unfold wqs_init. frame. apply r_device_parse; [apply _|]. intros. apply refs_add_wq. Qed.
End inits.

(** No object goes away in an enumeration. *)
Section growth.
Context {F : Type} `{Kernel F}.
Notation M := (prog (world F)).
Notation grow := (respects (Grows (F := F))).

Lemma grows_on_heap f : (∀ h, heap_grows h (f h)) → grow (on_heap f).
Proof. intros Hf. apply respects_modify. intros w. apply Hf. Qed.
#[local] Hint Extern 2 (respects Grows (on_heap _)) => apply grows_on_heap; grows : frame.
Lemma grows_upd_ctx p f : grow (upd_ctx p f).
Proof. unfold upd_ctx. frame. Qed.
Lemma grows_upd_device p f : grow (upd_device p f).
Proof. unfold upd_device. frame. Qed.
Lemma grows_upd_group p f : grow (upd_group p f).
Proof. unfold upd_group. frame. Qed.
Lemma grows_fresh : grow fresh.
Proof. unfold fresh. frame. Qed.
Lemma grows_prefix s : grow (set_filename_prefix s).
Proof. apply respects_modify. by split. Qed.
#[local] Hint Resolve grows_upd_ctx grows_upd_device grows_upd_group grows_fresh grows_prefix : frame.

Lemma grows_add_wq parent id path pfx bus : grow (Tree.add_wq parent id path pfx bus).
Proof. unfold Tree.add_wq, wq_parse_type. frame. Qed.
Lemma grows_add_engine parent id path pfx bus : grow (add_engine parent id path pfx bus).
Proof. unfold add_engine. frame. Qed.
Lemma grows_add_group parent id path pfx bus : grow (add_group parent id path pfx bus).
Proof. unfold add_group. frame. Qed.
Lemma grows_add_device ctx id path pfx bus : grow (add_device ctx id path pfx bus).
Proof. unfold add_device. frame; apply respects_modify; by split. Qed.
Lemma grows_groups_init device : grow (groups_init device).
Proof. unfold groups_init. frame. apply r_device_parse; [apply _|]. intros. apply grows_add_group. Qed.
#[local] Hint Resolve grows_groups_init : frame.
Lemma grows_next p : grow (accfg_device_get_next p).
Proof. unfold accfg_device_get_next. frame. Qed.
Lemma grows_find_devices ctx : grow (find_devices ctx).
Proof. unfold find_devices. frame. apply r_device_parse; [apply _|]. intros. apply grows_add_device. Qed.
#[local] Hint Resolve grows_find_devices : frame.
Lemma grows_devices_init ctx : grow (devices_init ctx).
Proof. rewrite devices_init_eq. frame. apply r_foreach; [apply _|intros; apply grows_next|frame]. Qed.
Lemma grows_engines_init device : grow (engines_init device).
Proof. unfold engines_init. frame. apply r_device_parse; [apply _|]. intros. apply grows_add_engine. Qed.
Lemma grows_wqs_init device : grow (wqs_init device).
Proof. unfold wqs_init. frame. apply r_device_parse; [apply _|]. intros. apply grows_add_wq. Qed.
End growth.

Section keep_inits.
Context {F : Type} `{Kernel F}.
Notation M := (prog (world F)).

Lemma keep_groups_init device : respects (Keep (F := F)) (groups_init device).
Proof.
  eapply (keep_tri (at_device device)), (grows_groups_init device); [| |apply groups_init_tri|apply (refs_groups_init c_refcount)]; [|by intros _ h []].
  intros w a w' Hrun Ht. split; [done|]. by eapply (deref_first h_devices), Hrun.
Qed.
Lemma keep_devices_init ctx : respects (Keep (F := F)) (devices_init ctx).
Proof.
  eapply (keep_tri (at_ctx ctx)), (grows_devices_init ctx); [| |apply devices_init_tri|by apply (refs_devices_init c_refcount)]; [|by intros _ h []].
  intros w a w' Hrun Ht. split; [done|]. by eapply (deref_first h_ctxs), Hrun.
Qed.

(** The group that [device->group] points at may be gone: the run is then undefined. *)
Lemma once_any device d (flag : accfg_group → Z) f :
  (∀ x, g_device (f x) = g_device x ∧ g_group_path (f x) = g_group_path x ∧ g_buf_len (f x) = g_buf_len x) →
  tri (F := F) True (λ h, h_devices h !! device = Some d ∧ at_device device h)
    (match d_group d with
     | Some group =>
         g ← get_group group;
         if negb (flag g =? 0) then mret true else upd_group group f;; mret false
     | None => mret false
     end : M bool) (λ _, at_device device).
Proof.
  intros Hf. destruct (d_group d) as [p|] eqn:Hp; [|apply tri_ret; by intros h (_ & Hh)].
  apply tri_deref_any; [done|]. intros g.
  destruct (negb _); [apply tri_ret; by intros h (_ & _ & Hh)|].
  eapply tri_bind with (λ _, at_device device); [|intros []; by apply tri_ret].
  apply tri_deref; [intros h [Hg _]; by rewrite Hg|]. intros g'. apply tri_on_heap.
  intros h (_ & _ & _ & Ht & Hd). split; [by apply tree_alter_group|done].
Qed.
Lemma keep_engines_init device : respects (Keep (F := F)) (engines_init device).
Proof.
  eapply (keep_tri (at_device device)) with (Q := λ _, at_device device), (grows_engines_init device); [|by intros _ h []| |apply (refs_engines_init c_refcount)].
  { intros w a w' Hrun Ht. split; [done|]. by eapply (deref_first h_devices), Hrun. }
  unfold engines_init. apply tri_deref; [by intros h (_ & Hd)|]. intros d.
  apply tri_bind with (λ _, at_device device); [by apply once_any|].
  intros []; [by apply tri_ret|]. apply set_filename_prefix_skip. skip.
  eapply tri_bind with (λ _, at_device device); [|intros z; by apply tri_ret].
  apply device_parse_tri. intros id path Hpath. by eapply tri_fst, add_engine_tri.
Qed.
Lemma keep_wqs_init device : respects (Keep (F := F)) (wqs_init device).
Proof.
  eapply (keep_tri (at_device device)) with (Q := λ _, at_device device), (grows_wqs_init device); [|by intros _ h []| |apply (refs_wqs_init c_refcount)].
  { intros w a w' Hrun Ht. split; [done|]. by eapply (deref_first h_devices), Hrun. }
  unfold wqs_init. apply tri_deref; [by intros h (_ & Hd)|]. intros d.
  apply tri_bind with (λ _, at_device device); [by apply once_any|].
  intros []; [by apply tri_ret|]. apply set_filename_prefix_skip. skip.
  eapply tri_bind with (λ _, at_device device); [|intros z; by apply tri_ret].
  apply device_parse_tri. intros id path Hpath. by eapply tri_fst, add_wq_tri.
Qed.
End keep_inits.

(** ** Programs on larger states *)

Class HasWorld (T F : Type) := world_of : T → world F.
Definition keeps {T F A} `{HasWorld T F} (m : prog T A) : Prop :=
  respects (λ t t', Keep (world_of t) (world_of t')) m.

#[export] Instance hw_world F : HasWorld (world F) F := λ w, w.
#[export] Instance hw_jstate F S : HasWorld (jstate F S) F := j_world.
#[export] Instance hw_lstate F S : HasWorld (lstate F S) F := λ l, j_world (l_json l).
#[export] Instance hw_cstate F : HasWorld (cstate F) F := c_world.

Section keeps.
Context {T F : Type} `{HasWorld T F}.
Implicit Types t : T.

#[local] Instance lift_preorder : PreOrder (λ t t' : T, Keep (world_of t) (world_of t')).
Proof. split; [intros t; reflexivity|]. intros t1 t2 t3 H1 H2. by etrans. Qed.

Lemma keeps_ret {A} (a : A) : keeps (T := T) (mret a).
Proof. apply respects_ret; first [apply _|done]. Qed.
Lemma keeps_bind {A B} (m : prog T A) (k : A → prog T B) : keeps m → (∀ a, keeps (k a)) → keeps (m ≫= k).
Proof. apply respects_bind; first [apply _|done]. Qed.
Lemma keeps_get : keeps (T := T) get.
Proof. apply respects_get; first [apply _|done]. Qed.
Lemma keeps_gets {A} (f : T → A) : keeps (gets f).
Proof. apply respects_gets; first [apply _|done]. Qed.
Lemma keeps_fault {A} : keeps (fault : prog T A).
Proof. done. Qed.
Lemma keeps_exit {A} c : keeps (exit c : prog T A).
Proof. done. Qed.
Lemma keeps_must {A} (o : option A) : keeps (must o : prog T A).
Proof. apply respects_must, _. Qed.
Lemma keeps_for_each {A} (l : list A) (body : A → prog T unit) : (∀ a, keeps (body a)) → keeps (for_each l body).
Proof. apply respects_for_each; first [apply _|done]. Qed.
Lemma keeps_modify (f : T → T) : (∀ t, Keep (world_of t) (world_of (f t))) → keeps (modify f).
Proof. intros Hf t a t' [= _ <-]. apply Hf. Qed.
Lemma keeps_foreach {A} fuel x next (body : positive → prog T (option A)) :
  (∀ p, keeps (next p)) → (∀ p, keeps (body p)) → keeps (foreach fuel x next body).
Proof. apply r_foreach; first [apply _|done]. Qed.
Lemma keeps_foreach_acc {A} fuel x next (body : A → positive → prog T (A + A)) a :
  (∀ p, keeps (next p)) → (∀ a p, keeps (body a p)) → keeps (foreach_acc fuel x next body a).
Proof.
  intros Hn Hb. revert x a. induction fuel as [|n IH]; intros [p|] a; simpl; try apply keeps_ret; [done|].
  apply keeps_bind; [apply Hb|]. intros [b|b]; [apply keeps_ret|]. apply keeps_bind; auto.
Qed.
(** A step that leaves the world alone. *)
Lemma keeps_same {A} (m : prog T A) : (∀ t a t', m t = Done a t' → world_of t' = world_of t) → keeps m.
Proof. intros Hm t a t' Hrun. rewrite (Hm _ _ _ Hrun). reflexivity. Qed.
End keeps.

(** A program on a part of the state that has the world. *)
Lemma keeps_zoom {S T F A} `{HasWorld S F, HasWorld T F} (get : T → S) put (m : prog S A) :
  (∀ t, world_of (get t) = world_of t) → (∀ s t, world_of (put s t) = world_of s) → keeps m → keeps (zoom get put m).
Proof.
  intros Hg Hp Hm t a t' Hrun. unfold zoom in Hrun. destruct (m (get t)) as [b s| |] eqn:Hms; [|done..].
  injection Hrun as <- <-. apply Hm in Hms. rewrite Hp, <- Hg. exact Hms.
Qed.
Lemma keeps_world {F A} (m : prog (world F) A) : respects Keep m → keeps m.
Proof. done. Qed.

(** ** Walking a function *)

#[export] Hint Resolve keep_groups_init keep_devices_init keep_engines_init keep_wqs_init : frame.

(** [keep] walks a program down to the functions that are known to keep the tree, unfolding
    the ones that are not. *)
Ltac head_of m := match m with ?f _ => head_of f | _ => m end.
Ltac keep_upd := first [apply keep_upd_ctx|apply keep_upd_device|apply keep_upd_group|apply keep_upd_wq|apply keep_upd_engine];
  solve [done|intros []; done|intros x; match goal with
    | |- context [group_field_set ?f] => by destruct f
    | |- context [wq_field_set ?f] => by destruct f
    | |- context [wq_str_field_set ?f] => by destruct f
    end].
Ltac keep_world :=
  lazymatch goal with
  | |- respects Keep (upd_ctx _ _) => keep_upd
  | |- respects Keep (upd_device _ _) => keep_upd
  | |- respects Keep (upd_group _ _) => keep_upd
  | |- respects Keep (upd_wq _ _) => keep_upd
  | |- respects Keep (upd_engine _ _) => keep_upd
  | |- respects Keep (modify _) => apply respects_modify; intros ?; by apply keep_same_heap
  | |- respects _ (foreach _ _ _ _) => apply r_foreach; [apply _|intros ?..]
  | |- respects _ ?m => first [frame_step | solve [eauto 3 with frame] | let f := head_of m in unfold f]
  | |- PreOrder _ => apply _
  | |- ∀ _, _ => intro
  end.

Section library.
Context {F : Type} `{Kernel F}.

Lemma keep_fresh : respects (Keep (F := F)) fresh.
Proof. unfold fresh. frame. apply keep_on_heap; [|done|grows]. intros h. apply tree_bump. Qed.

Lemma keep_action_loop one argv rc success :
  (∀ a, respects (Keep (F := F)) (one a)) → respects Keep (action_loop one argv rc success).
Proof.
  intros Hone. revert rc success. induction argv as [|a argv IH]; intros rc success; simpl; [by apply respects_ret, _|].
  apply respects_bind; [apply _|done|]. intros [r|]; apply IH.
Qed.
Lemma keep_config_loop {A} (parse : string → prog (world F) (Z + A)) set stop argv :
  (∀ a, respects Keep (parse a)) → (∀ a, respects Keep (set a)) → respects Keep (config_loop parse set stop argv).
Proof.
  intros Hp Hs. induction argv as [|a argv IH]; simpl; [by apply respects_ret, _|].
  apply respects_bind; [apply _|done|]. intros [r|r]; [done|].
  apply respects_bind; [apply _|done|]. intros rc. destruct (stop rc); [by apply respects_ret, _|done].
Qed.
Lemma keep_set_if b (m k : prog (world F) Z) :
  respects Keep m → respects Keep k → respects Keep (set_if b m k).
Proof. intros Hm Hk. unfold set_if. frame. Qed.
Lemma keep_set_str {A} (o : option A) set (k : prog (world F) Z) :
  (∀ a, respects Keep (set a)) → respects Keep k → respects Keep (set_str o set k).
Proof. intros Hm Hk. unfold set_str. frame. Qed.
Lemma keep_after_options ok {A} argv table usage vars (k : list string → ParseOptions.variables → prog (world F) A) :
  (∀ args vars, respects Keep (k args vars)) → respects Keep (after_options ok argv table usage vars k).
Proof.
  intros Hk w a w' Hrun. unfold after_options in Hrun. destruct (ParseOptions.parse_options _ _ _ _ _ _); [|done..].
  apply Hk in Hrun. etrans; [|exact Hrun]. apply keep_same_heap. unfold parser_errno. by destruct (ParseOptions.p_errno _).
Qed.
End library.
#[export] Hint Resolve keep_fresh r_call : frame.
Ltac keep_loops :=
  match goal with
  | |- respects _ (action_loop _ _ _ _) => apply keep_action_loop; intros ?
  | |- respects _ (set_if _ _ _) => apply keep_set_if
  | |- respects _ (set_str _ _ _) => apply keep_set_str; [intros ?|]
  | |- respects _ (config_loop _ _ _ _) => apply keep_config_loop; intros ?
  | |- respects _ (after_options _ _ _ _ _ _) => apply keep_after_options; intros ? ?
  end.
Ltac keep_lib := repeat first [keep_loops|keep_world].

Section commands.
Context {F : Type} `{Kernel F} (ok : Z → bool) (argv : list string) (ctx : positive).

Lemma keep_disable_device : respects Keep (main_disable_device (F := F) ok argv ctx).
Proof. keep_lib. Qed.
Lemma keep_enable_device : respects Keep (main_enable_device (F := F) ok argv ctx).
Proof. keep_lib. Qed.
Lemma keep_disable_wq : respects Keep (main_disable_wq (F := F) ok argv ctx).
Proof. keep_lib. Qed.
Lemma keep_enable_wq : respects Keep (main_enable_wq (F := F) ok argv ctx).
Proof. keep_lib. Qed.
Lemma keep_config_device : respects Keep (main_config_device (F := F) ok argv ctx).
Proof. keep_lib. Qed.
Lemma keep_config_group : respects Keep (main_config_group (F := F) ok argv ctx).
Proof. keep_lib. Qed.
Lemma keep_config_wq : respects Keep (main_config_wq (F := F) ok argv ctx).
Proof. keep_lib. Qed.
Lemma keep_config_engine : respects Keep (main_config_engine (F := F) ok argv ctx).
Proof. keep_lib. Qed.
End commands.

(** ** Listings *)

Section lift.
Context {F S : Type} `{Kernel F} `{JsonOut S}.

Lemma keeps_lib {A} (m : prog (world F) A) : respects Keep m → keeps (JsonUtil.lib (S := S) m).
Proof. intros Hm. by apply keeps_zoom. Qed.
Lemma keeps_json {A} (m : prog (jstate F S) A) : keeps m → keeps (json m).
Proof. intros Hm. by apply keeps_zoom. Qed.
Lemma keeps_in_world {A} (m : prog (world F) A) : respects Keep m → keeps (in_world (S := S) m).
Proof. intros Hm. by apply keeps_json, keeps_lib. Qed.
Lemma keeps_json_new n : keeps (json_new (F := F) (S := S) n).
Proof.
  apply keeps_same. intros j a j' Hrun. unfold json_new in Hrun. destruct (js_new _ _) as [r s].
  by injection Hrun as _ <-.
Qed.
Lemma keeps_json_do f : keeps (json_do (F := F) (S := S) f).
Proof.
  apply keeps_same. intros j a j' Hrun. unfold json_do in Hrun. destruct (f _); [|done]. by injection Hrun as _ <-.
Qed.
Lemma keeps_steps (l : list (prog (jstate F S) bool)) : Forall keeps l → keeps (steps l).
Proof.
  induction 1 as [|m l Hm Hl IH]; simpl; [apply keeps_ret|]. apply keeps_bind; [done|].
  intros [|]; [done|apply keeps_ret].
Qed.
Lemma keeps_printing `{FileOut F} f_out text : keeps (fprintf (F := F) (S := S) f_out text).
Proof. destruct f_out; apply keeps_modify; intros j; [reflexivity|by apply keep_same_heap]. Qed.
Lemma keeps_with_arg {A} (m : prog (lstate F S) A) : keeps m → keeps (with_arg m).
Proof. intros Hm. by apply keeps_zoom. Qed.

Lemma keeps_last_match dev i l jc : keeps (last_match (F := F) (S := S) dev i l jc).
Proof.
  revert i jc. induction l as [|x l IH]; intros i jc; simpl; [apply keeps_ret|]. apply keeps_bind; [|intros []; apply IH].
  apply keeps_in_world. repeat keep_world.
Qed.
Lemma keeps_first_match dev l : keeps (first_match (F := F) (S := S) dev l).
Proof.
  induction l as [|x l IH]; simpl; [apply keeps_ret|]. apply keeps_bind; [|intros []; [apply keeps_ret|apply IH]].
  apply keeps_in_world. repeat keep_world.
Qed.
End lift.

(** [keep_all]: [keep_lib] for a program on a larger state. *)
Create HintDb keep discriminated.
#[export] Hint Resolve keeps_json_new keeps_json_do keeps_printing keeps_last_match keeps_first_match : keep.
Ltac keep_step :=
  lazymatch goal with
  | |- ∀ _, _ => intro
  | |- keeps (mret _) => apply keeps_ret
  | |- keeps (_ ≫= _) => apply keeps_bind
  | |- keeps (gets _) => apply keeps_gets
  | |- keeps get => apply keeps_get
  | |- keeps (must _) => apply keeps_must
  | |- keeps fault => apply keeps_fault
  | |- keeps (exit _) => apply keeps_exit
  | |- keeps (for_each _ _) => apply keeps_for_each
  | |- keeps (foreach _ _ _ _) => apply keeps_foreach
  | |- keeps (foreach_acc _ _ _ _ _) => apply keeps_foreach_acc
  | |- keeps (modify _) => apply keeps_modify; intros ?; reflexivity
  | |- keeps (match ?x with _ => _ end) => destruct x
  | |- keeps (let _ := _ in _) => cbv zeta
  | |- keeps (JsonUtil.lib _) => apply keeps_lib
  | |- keeps (json _) => apply keeps_json
  | |- keeps (in_world _) => apply keeps_in_world
  | |- keeps (with_arg _) => apply keeps_with_arg
  | |- keeps (steps _) => apply keeps_steps
  | |- Forall keeps (_ ++ _) => apply Forall_app_2
  | |- Forall keeps (_ :: _) => apply Forall_cons_2
  | |- Forall keeps [] => apply Forall_nil_2
  | |- Forall keeps (match ?x with _ => _ end) => destruct x
  | |- Forall keeps ?l => let f := head_of l in unfold f
  | |- keeps ?m => first [solve [eauto 2 with keep] | let f := head_of m in unfold f]
  | |- respects Keep _ => progress keep_lib
  end.
Ltac keep_all := repeat keep_step.

Section listings.
Context {F S : Type} `{Kernel F} `{JsonOut S} `{FileOut F}.

Lemma keeps_callocs n sizes : keeps (callocs (F := F) (S := S) n sizes).
Proof. induction sizes as [|x l IH]; simpl; keep_all. Qed.
Lemma keeps_device_json device flags : keeps (util_device_to_json (F := F) (S := S) device flags).
Proof. keep_all. Qed.
Lemma keeps_wq_json wq flags : keeps (util_wq_to_json (F := F) (S := S) wq flags).
Proof. keep_all. Qed.
Lemma keeps_engine_json engine flags : keeps (util_engine_to_json (F := F) (S := S) engine flags).
Proof. keep_all. Qed.
#[local] Hint Resolve keeps_callocs keeps_device_json keeps_wq_json keeps_engine_json : keep.

Lemma keeps_put_in_slots sl into jc get_group_id obj slots in_group :
  (∀ o p, keeps (into o p)) → respects Keep get_group_id →
  keeps (put_in_slots (F := F) (S := S) sl into jc get_group_id obj slots in_group).
Proof.
  intros Hi Hg. revert in_group. induction slots as [|i l IH]; intros b; simpl; [apply keeps_ret|].
  apply keeps_bind; [by apply keeps_in_world|]. intros gid. apply keeps_bind; [keep_all|].
  intros [r|]; [apply IH|apply keeps_ret].
Qed.
Lemma keeps_display_grouped heading arrays ids slots once :
  keeps (display_grouped (F := F) (S := S) heading arrays ids slots once).
Proof. revert once. induction slots as [|i l IH]; intros once; simpl; keep_all. Qed.
#[local] Hint Resolve keeps_display_grouped : keep.
#[local] Hint Extern 1 (keeps (put_in_slots _ _ _ _ _ _ _)) => apply keeps_put_in_slots; [intros ? ?; keep_all|keep_lib] : keep.

Lemma keeps_list_filter_wq idle wq : keeps (list_filter_wq (F := F) (S := S) idle wq).
Proof. keep_all. Qed.
Lemma keeps_list_filter_engine  e : keeps (list_filter_engine (F := F) (S := S) e).
Proof. keep_all. Qed.
Lemma keeps_list_filter_group g : keeps (list_filter_group (F := F) (S := S) g).
Proof. keep_all. Qed.
Lemma keeps_list_filter_device d : keeps (list_filter_device (F := F) (S := S) d).
Proof. keep_all. Qed.
Lemma keeps_config_filter_wq wq : keeps (config_filter_wq (F := F) (S := S) wq).
Proof. keep_all. Qed.
Lemma keeps_config_filter_engine e : keeps (config_filter_engine (F := F) (S := S) e).
Proof. keep_all. Qed.
Lemma keeps_config_filter_group g : keeps (config_filter_group (F := F) (S := S) g).
Proof. keep_all. Qed.
Lemma keeps_config_filter_device d : keeps (config_filter_device (F := F) (S := S) d).
Proof. keep_all. Qed.

Definition callbacks_keep (fctx : util_filter_ctx (lstate F S)) : Prop :=
  (∀ p, keeps (filter_device fctx p)) ∧ (∀ p, keeps (filter_group fctx p)) ∧
  (∀ p, keeps (filter_wq fctx p)) ∧ (∀ p, keeps (filter_engine fctx p)).
Lemma keeps_walk fctx flags ctx param :
  callbacks_keep fctx → keeps (walk_listing (F := F) (S := S) fctx flags ctx param).
Proof.
  intros (Hd & Hg & Hw & He). unfold walk_listing. keep_all; first [apply Hd|apply Hg|apply Hw|apply He].
Qed.
Lemma list_callbacks_keep idle : callbacks_keep (list_callbacks idle).
Proof.
  split_and!; intros p; [apply keeps_list_filter_device|apply keeps_list_filter_group|
    apply keeps_list_filter_wq|apply keeps_list_filter_engine].
Qed.
Lemma config_callbacks_keep : callbacks_keep config_callbacks.
Proof.
  split_and!; intros p; [apply keeps_config_filter_device|apply keeps_config_filter_group|
    apply keeps_config_filter_wq|apply keeps_config_filter_engine].
Qed.

Lemma keeps_options_only {T} `{HasWorld T F} ok prefix argv options u vars :
  keeps (T := T) (options_only ok prefix argv options u vars).
Proof.
  apply keeps_same. intros t a t' Hrun. unfold options_only in Hrun.
  repeat case_match; by simplify_eq.
Qed.
#[local] Hint Resolve keeps_options_only keeps_walk list_callbacks_keep config_callbacks_keep : keep.

Lemma keeps_cmd_list ok argv ctx : keeps (cmd_list (F := F) (S := S) ok argv ctx).
Proof. keep_all. Qed.
Lemma keeps_cmd_save ok file argv ctx : keeps (cmd_save (F := F) (S := S) ok file argv ctx).
Proof. keep_all. Qed.
Lemma keep_silent_walk flags ctx param : respects (Keep (F := F)) (silent_walk S flags ctx param).
Proof.
  intros w a w' Hrun. unfold silent_walk in Hrun.
  pose proof (keeps_walk config_callbacks flags ctx param config_callbacks_keep) as Hk.
  destruct (walk_listing _ _ _ _ _) as [rc l| |] eqn:Hw; [|done..]. injection Hrun as <- <-. by apply Hk in Hw.
Qed.
End listings.
#[export] Hint Resolve keep_silent_walk : frame.
#[export] Hint Resolve keeps_options_only : keep.
