(* ===== verification/KeepConfig.v ===== *)
(** * The commands of accfg/config.c keep the tree

    The entries of the attribute tables, the parse of a document, activation, and
    the default queues: load-config and config-user-default keep what the others do. *)

From S2P Require Import Prelude CString Prog ParseOptions Types Sysfs Param Tree Device Wq Filter Enable ConfigAttr Json Commands JsonStore JsonUtil Listing Config ListCmd.
From S2P Require Import SysfsFacts ParamFacts TreeFacts TreeInit KeepFacts.
Local Open Scope Z_scope.

Section tables.
Context {F : Type} `{Kernel F} {J : Type} `{JsonC J}.
Notation M := (prog (world F)).

(** What the functions of a table's entry do. *)
Definition entry_keeps (e : set_table_entry (world F)) : Prop :=
  match te_set e with
  | set_int_func set | set_long_func set => ∀ p v, respects Keep (set p v)
  | set_str_func set => ∀ p v, respects Keep (set p v)
  end ∧
  match te_is_writable e with Some w => ∀ p v, respects Keep (w p v) | None => True end.

Lemma found_keeps table key e : Forall entry_keeps table → find_entry key table = Some e → entry_keeps e.
Proof.
  intros Ht Hf. apply find_some in Hf as [Hin _]. rewrite Forall_forall in Ht. by apply Ht, list_elem_of_In.
Qed.

Ltac entries := repeat (apply Forall_cons_2; [split; [intros ? ?; keep_lib|first [exact I|intros ? ?; keep_lib]]|]); apply Forall_nil_2.
Lemma device_keeps : Forall entry_keeps device_table.
Proof. entries. Qed.
Lemma group_keeps : Forall entry_keeps group_table.
Proof. entries. Qed.
Lemma wq_keeps : Forall entry_keeps wq_table.
Proof. entries. Qed.
Lemma engine_keeps : Forall entry_keeps engine_table.
Proof. entries. Qed.

Lemma keep_read_number (conv : J → Z * option Z) j : respects (Keep (F := F)) (read_number conv j).
Proof. keep_lib. Qed.
Lemma keep_set_with {A} (set : positive → A → M Z) p v :
  (∀ p v, respects Keep (set p v)) → respects Keep (set_with set p v).
Proof. intros Hs. unfold set_with. frame. Qed.
Lemma keep_refused e p v : entry_keeps e → respects Keep (refused e p v).
Proof. intros [_ Hw]. unfold refused. destruct (te_is_writable e); frame. Qed.

Lemma keep_found table key d (k : set_table_entry (world F) → M Z) :
  Forall entry_keeps table → (∀ e, entry_keeps e → respects Keep (k e)) →
  respects Keep (match find_entry key table with None => mret d | Some e => k e end).
Proof.
  intros Ht Hk. destruct (find_entry _ _) as [e|] eqn:He; [|frame]. by eapply Hk, found_keeps.
Qed.

Ltac found table_keeps :=
  apply keep_found; [exact table_keeps|]; intros e Hk; pose proof Hk as [Hset _]; destruct (te_set e);
  repeat first [solve [auto using keep_refused, keep_read_number] | apply keep_set_with | keep_world].

Lemma keep_device_json_set_val p j k : respects (Keep (F := F)) (device_json_set_val (J := J) p j k).
Proof.
  unfold device_json_set_val. destruct p as [p|], j as [j|], k as [k|]; try by frame.
  destruct (negb _); [frame|]. found device_keeps.
Qed.
Lemma keep_group_json_set_val p j k : respects (Keep (F := F)) (group_json_set_val (J := J) p j k).
Proof.
  unfold group_json_set_val. apply respects_bind; [apply _|keep_lib|]. intros d.
  destruct p as [p|], j as [j|], k as [k|]; try by frame.
  destruct (negb _); [frame|]. found group_keeps.
Qed.
Lemma keep_wq_json_set_val p j k : respects (Keep (F := F)) (wq_json_set_val (J := J) p j k).
Proof.
  unfold wq_json_set_val. destruct p as [p|], j as [j|], k as [k|]; try by frame.
  destruct (negb _); [frame|]. found wq_keeps.
Qed.
Lemma keep_engine_json_set_val p j k : respects (Keep (F := F)) (engine_json_set_val (J := J) p j k).
Proof.
  unfold engine_json_set_val. destruct p as [p|], j as [j|], k as [k|]; try by frame.
  destruct (negb _); [frame|]. found engine_keeps.
Qed.
End tables.
#[export] Hint Resolve keep_device_json_set_val keep_group_json_set_val keep_wq_json_set_val keep_engine_json_set_val : frame.

(** ** Programs on the statics too *)

Section config.
Context {F : Type} `{Kernel F} {J : Type} `{JsonC J}.

Lemma keeps_in_lib {A} (m : prog (world F) A) : respects Keep m → keeps (in_lib m).
Proof.
  intros Hm c a c' Hrun. unfold in_lib in Hrun. destruct (m (c_world c)) as [b w| |] eqn:Hw; [|done..].
  injection Hrun as <- <-. by apply Hm in Hw.
Qed.
Lemma keep_activate_all get_devname enable l k :
  (∀ p, respects Keep (get_devname p)) → (∀ p, respects Keep (enable p)) → respects (Keep (F := F)) k →
  respects Keep (activate_all get_devname enable l k).
Proof.
  intros Hg He Hk. induction l as [|p l IH]; simpl; [done|]. apply respects_bind; [apply _|done|]. intros _.
  apply respects_bind; [apply _|done|]. intros rc. destruct (negb _); [by apply respects_ret, _|done].
Qed.
End config.

Ltac keep_config_step :=
  match goal with
  | |- keeps (in_lib _) => apply keeps_in_lib
  | |- respects _ (activate_all _ _ _ _) => apply keep_activate_all
  | _ => keep_step
  end.
Ltac keep_config := repeat keep_config_step.

Section document.
Context {F : Type} `{Kernel F} {J : Type} `{JsonC J}.
Notation C := (prog (cstate F)).

Lemma keeps_configure_accel types ctx s : keeps (configure_accel (F := F) types ctx s).
Proof. induction types as [|t l IH]; simpl; keep_config. Qed.
#[local] Hint Resolve keeps_configure_accel : keep.
Lemma keeps_configure_child parent kind s get_by_id set found k :
  (∀ p id, respects Keep (get_by_id p id)) → (∀ p, keeps (found p)) → keeps k →
  keeps (configure_child (F := F) parent kind s get_by_id set found k).
Proof. intros Hg Hf Hk. unfold configure_child. keep_config; first [apply Hg|apply Hf|apply Hk]. Qed.
Lemma keeps_configure_json_value ctx j k : keeps (configure_json_value (F := F) (J := J) ctx j k).
Proof. 
  unfold configure_json_value. destruct ctx, j, k; try by apply keeps_ret. destruct (strcmp_eq _ _).
  - unfold choose_object. repeat first [apply keeps_configure_child; [intros ? ?; keep_lib|intros ?|]|keep_config_step].
  - keep_config.
Qed.
#[local] Hint Resolve keeps_configure_json_value : keep.

Lemma keeps_parse_members (parse : option J → C Z) parse_array ctx iter jobj :
  (∀ j, keeps (parse j)) → (∀ j k, keeps (parse_array j k)) →
  keeps (parse_members parse parse_array ctx iter jobj).
Proof.
  intros Hp Ha. revert jobj. induction iter as [|[k v] l IH]; intros jobj; cbn [parse_members]; [apply keeps_ret|].
  destruct (json_object_get_type v); keep_config; auto.
Qed.
Lemma keeps_parse_elements (parse : option J → C Z) parse_array ctx l :
  (∀ j, keeps (parse j)) → (∀ j k, keeps (parse_array j k)) → keeps (parse_elements parse parse_array ctx l).
Proof.
  intros Hp Ha. induction l as [|[v|] l IH]; cbn [parse_elements]; [apply keeps_ret| |apply keeps_ret].
  apply keeps_bind; [|intros rc; by destruct (negb _); [apply keeps_ret|]].
  destruct (json_type_of v); keep_config; auto.
Qed.
Lemma keeps_json_parse fuel ctx :
  (∀ j, keeps (json_parse_from (F := F) (J := J) fault fuel ctx j)) ∧
  (∀ j k, keeps (json_parse_array_from (F := F) (J := J) fault fuel ctx j k)).
Proof.
  induction fuel as [|n [IHo IHa]]; [done|]. split; intros; cbn [json_parse_from json_parse_array_from].
  - apply keeps_bind; [apply keeps_must|]. intros iter. by apply keeps_parse_members.
  - destruct (match k with Some _ => _ | None => _ end); [|apply keeps_ret].
    apply keeps_bind; [apply keeps_must|]. intros [|x l]; [apply keeps_ret|]. by apply keeps_parse_elements.
Qed.
Lemma keeps_json_parse_array fuel ctx j k : keeps (json_parse_array_from (F := F) (J := J) fault fuel ctx j k).
Proof. apply keeps_json_parse. Qed.
End document.
#[export] Hint Resolve keeps_configure_json_value keeps_json_parse_array : keep.

Section commands.
Context {F : Type} `{Kernel F} `{Stdio F} {J : Type} `{JsonC J} {S : Type} `{JsonOut S}.
Notation C := (prog (cstate F)).

Lemma keep_fread f n : respects (Keep (F := F)) (fread f n).
Proof.
  intros w a w' Hrun. unfold fread in Hrun. destruct (k_fread _ _ _) as [d fs']. injection Hrun as _ <-. by apply keep_same_heap.
Qed.
#[local] Hint Resolve keep_fread : frame.
Lemma keeps_read_config_file file : keeps (read_config_file (F := F) file).
Proof. keep_config. Qed.
#[local] Hint Resolve keeps_read_config_file : keep.
Lemma keeps_cmd_config file ok argv ctx : keeps (cmd_config (F := F) (J := J) file S ok argv ctx).
Proof. keep_config. Qed.
Lemma keeps_set_fixed types : keeps (config_default_wq_set_fixed (F := F) types).
Proof. induction types as [|i l IH]; simpl; keep_config; auto. Qed.
#[local] Hint Resolve keeps_set_fixed : keep.
Lemma keeps_cmd_config_default file ok argv ctx : keeps (cmd_config_default (F := F) (J := J) file S ok argv ctx).
Proof. keep_config. Qed.
End commands.
