(* ===== verification/MainFacts.v ===== *)
(** * Theorems about the whole program: accfg/accel-config.c

    Which command main runs, what every command keeps, and what is left of the
    library's memory when main returns. *)

From S2P Require Import Prelude CString Prog Types SimKernel Sysfs Param Tree Demo Device Wq Enable Json Commands JsonStore JsonUtil Listing Config ListCmd Help Main.
From S2P Require Import SysfsFacts ParamFacts TreeFacts TreeInit TreeFree KeepFacts KeepConfig LoadSafe.
Local Open Scope string_scope.
Local Open Scope Z_scope.

#[export] Instance hw_process F S : HasWorld (process F S) F := ps_world.

(** No object of the library is allocated. *)
Definition nothing_left (h : heap) : Prop :=
  h_ctxs h = ∅ ∧ h_devices h = ∅ ∧ h_groups h = ∅ ∧ h_wqs h = ∅ ∧ h_engines h = ∅.

Lemma tree_without_contexts h : tree_ok h → h_ctxs h = ∅ → nothing_left h.
Proof.
  intros [_ Hd Hg Hw He _] Hc.
  assert (h_devices h = ∅) as Hd0.
  { apply map_empty. intros d. destruct (h_devices h !! d) as [x|] eqn:Hx; [|done].
    destruct (Hd _ _ Hx) as ([c Hcx] & _). by rewrite Hc, lookup_empty in Hcx. }
  assert (∀ A (m : gmap positive A) (owner : A → positive),
    (∀ p x, m !! p = Some x → is_Some (h_devices h !! owner x)) → m = ∅) as Hnone.
  { intros A m owner Hm. apply map_empty. intros p. destruct (m !! p) as [x|] eqn:Hx; [|done].
    destruct (Hm _ _ Hx) as [d Hdx]. by rewrite Hd0, lookup_empty in Hdx. }
  split_and!; [done|done|..]; eapply Hnone; intros p x Hx; [by eapply Hg|by eapply Hw|by eapply He].
Qed.

Section main.
Context {F : Type} `{Kernel F} `{Stdio F} `{FileOut F} `{Exec F} {Doc : Type} `{JsonC Doc} {S : Type} `{JsonOut S}.
Variables (realloc_ok : Z → bool) (PREFIX ACCFG_MAN_PATH VERSION ACCFG_CONF_FILE : string).
Notation P := (prog (process F S)).
Notation commands := (commands (F := F) (S := S) (Doc := Doc) realloc_ok ACCFG_CONF_FILE).
Notation main_handle_options := (main_handle_options (F := F) (S := S) realloc_ok PREFIX ACCFG_MAN_PATH VERSION).
Notation main := (main (F := F) (S := S) (Doc := Doc) realloc_ok PREFIX ACCFG_MAN_PATH VERSION ACCFG_CONF_FILE).
Implicit Types p : process F S.

(** ** Dispatch *)

(** main_handle_options returns for a command that exists, and then the second search
    finds the same one: its answer for an unknown command is never given. *)
Lemma options_dispatch cmds argv p u p' :
  main_handle_options argv cmds p = Done u p' →
  p' = p ∧ ∃ argv0 name args fn, argv = argv0 :: name :: args ∧ (name, fn) ∈ cmds ∧
    ∀ ctx q, main_handle_internal_command cmds (name :: args) ctx q = fn (name :: args) ctx q.
Proof.
  unfold Main.main_handle_options. destruct argv as [|argv0 [|name rest]]; [done| |].
  { intros (z & p1 & _ & Hx)%bind_Done. done. }
  destruct (strcmp_eq name "--version" || strcmp_eq name "-v").
  { intros (z & p1 & _ & Hx)%bind_Done. done. }
  destruct (negb (String.prefix "-" name)).
  2: { intros (z & p1 & _ & Hx)%bind_Done. destruct (strcmp_eq name "--list-cmds"); [|done].
       apply bind_Done in Hx as (z' & p2 & _ & Hx). done. }
  induction cmds as [|[cmd fn] cmds IH]; simpl; [done|].
  destruct (String.eqb_spec cmd name) as [->|Hne].
  - unfold strcmp_eq at 1. rewrite String.eqb_refl. intros Hrun.
    assert (p' = p) as ->.
    { destruct rest as [|arg rest]; [by injection Hrun|]. destruct (is_help arg); [|by injection Hrun].
      apply bind_Done in Hrun as (z & p1 & _ & Hx). done. }
    split; [done|]. exists argv0, name, rest, fn. split; [done|]. split; [left|].
    intros ctx q. unfold strcmp_eq. by rewrite String.eqb_refl.
  - unfold strcmp_eq at 1. rewrite (proj2 (String.eqb_neq name cmd)) by congruence.
    intros (-> & a & n & args & fn' & [= -> -> ->] & Hin & Hrun)%IH. split; [done|].
    exists a, n, args, fn'. split; [done|]. split; [by right|]. intros ctx q.
    unfold strcmp_eq at 1. rewrite (proj2 (String.eqb_neq cmd n)) by done. apply Hrun.
Qed.

(** ** What the commands keep *)

Lemma keeps_on_world {A} (m : prog (world F) A) : respects Keep m → keeps (on_world (S := S) m).
Proof. intros Hm. apply keeps_zoom; [done..|]. by apply keeps_lib. Qed.
Lemma keeps_on_json {A} (m : prog (jstate F S) A) : keeps m → keeps (on_json m).
Proof. intros Hm. by apply keeps_zoom. Qed.
Lemma keeps_on_config {A} (m : prog (cstate F) A) : keeps m → keeps (on_config (S := S) m).
Proof. intros Hm. by apply keeps_zoom. Qed.

Lemma command_keeps name fn argv ctx : (name, fn) ∈ commands → keeps (fn argv ctx).
Proof.
  assert (Forall (λ c : cmd_struct (process F S), ∀ argv ctx, keeps (c.2 argv ctx)) commands) as Hall.
  { repeat (apply Forall_cons_2; [intros ? ?|]); [..|apply Forall_nil_2];
      first [apply keeps_on_world|apply keeps_on_config|apply keeps_on_json].
    - apply keeps_cmd_list.
    - apply keeps_cmd_config.
    - apply keeps_cmd_save.
    - apply keep_disable_device.
    - apply keep_enable_device.
    - apply keep_disable_wq.
    - apply keep_enable_wq.
    - apply keep_config_device.
    - apply keep_config_group.
    - apply keep_config_wq.
    - apply keep_config_engine.
    - apply keeps_cmd_config_default. }
  intros Hin. rewrite Forall_forall in Hall. apply (Hall _ Hin).
Qed.

(** C2: Every command keeps the library's memory a tree whatever the command line, the files and
    the driver say and wherever it stops: no device, group, work queue or engine that was there is
    freed, no context is made or freed, and no reference is taken or given up.  A run that ends the
    process or that C leaves undefined is not spoken of. *)
Theorem commands_keep_tree name fn argv ctx p rc p' :
  (name, fn) ∈ commands → fn argv ctx p = Done rc p' → tree_ok (hp (ps_world p)) →
  tree_ok (hp (ps_world p')) ∧ refs (ps_world p') = refs (ps_world p) ∧
  heap_grows (hp (ps_world p)) (hp (ps_world p')).
Proof.
  intros Hin Hrun Ht. destruct (command_keeps _ _ argv ctx Hin _ _ _ Hrun) as (Hk & Hr & Hg).
  split_and!; [by apply Hk|done|exact Hg].
Qed.

(** ** The end of the process *)

Lemma keep_report ctx e : keeps (report_last_error (F := F) (S := S) ctx e).
Proof.
  unfold report_last_error, print_name, printf.
  repeat first [keep_step|apply keeps_on_world|apply keeps_on_json].
Qed.

Lemma run_command_frees cmds argv ctx p status p' :
  (∀ q rc q', main_handle_internal_command cmds argv ctx q = Done rc q' → Keep (ps_world q) (ps_world q')) →
  tree_ok (hp (ps_world p)) → refs (ps_world p) = {[ctx := 1]} →
  run_command cmds argv ctx p = Done status p' →
  nothing_left (hp (ps_world p')) ∧
  ∃ rc p1, main_handle_internal_command cmds argv ctx p = Done rc p1 ∧ status = if rc =? 0 then 0 else EXIT_FAILURE.
Proof.
  intros Hcmd Ht Hr (rc & p1 & Hrun & Hrest)%bind_Done. pose proof (Hcmd _ _ _ Hrun) as (Hk1 & Hr1 & _).
  apply bind_Done in Hrest as (e & p2 & He & Hrest).
  assert (Keep (ps_world p1) (ps_world p2)) as (Hk2 & Hr2 & _)
    by (eapply keeps_on_world, He; unfold accfg_ctx_get_last_error; keep_lib).
  apply bind_Done in Hrest as (u & p3 & Hu & Hrest).
  assert (Keep (ps_world p2) (ps_world p3)) as (Hk3 & Hr3 & _).
  { destruct (_ && _); [by apply keep_report in Hu|]. injection Hu as _ <-. reflexivity. }
  assert (tree_ok (hp (ps_world p3))) as Ht3 by auto.
  assert (refs (ps_world p3) = {[ctx := 1]}) as Hr' by congruence. unfold refs, part in Hr'.
  assert (∃ c, h_ctxs (hp (ps_world p3)) !! ctx = Some c ∧ c_refcount c = 1) as (c & Hc & Hone).
  { pose proof (f_equal (λ m : gmap positive Z, m !! ctx) Hr') as Hx. cbv beta in Hx.
    rewrite lookup_fmap, lookup_singleton_eq in Hx. destruct (h_ctxs _ !! ctx) as [c|]; [|done].
    injection Hx as Hx. by exists c. }
  destruct (unref_last ctx c (ps_world p3) Ht3 Hc) as (h' & Hun & Ht' & Hcs & _); [by rewrite Hone|].
  assert (h_ctxs h' = ∅) as Hempty.
  { rewrite Hcs. apply map_empty. intros q. destruct (decide (q = ctx)) as [->|Hne]; [apply lookup_delete_eq|].
    rewrite lookup_delete_ne by done.
    pose proof (f_equal (λ m : gmap positive Z, m !! q) Hr') as Hx. cbv beta in Hx.
    rewrite lookup_fmap, lookup_singleton_ne in Hx by done. by destruct (h_ctxs _ !! q). }
  apply bind_Done in Hrest as (v & p4 & Hv & Hrest).
  unfold on_world, on_json, JsonUtil.lib, zoom in Hv. unfold ps_world in Hun. rewrite Hun in Hv. injection Hv as _ <-.
  split; [|exists rc, p1; split; [done|]].
  - pose proof (tree_without_contexts _ Ht' Hempty) as Hnone.
    destruct (rc =? 0); [by injection Hrest as _ <-|]. by injection Hrest as _ <-.
  - destruct (rc =? 0); [by injection Hrest as <- _|]. by injection Hrest as <- _.
Qed.

(** A heap without a context stays one until [accfg_new] makes one. *)
Lemma new_refs (w : world F) r w' :
  tree_ok (hp w) → h_ctxs (hp w) = ∅ → accfg_new w = Done r w' →
  tree_ok (hp w') ∧ match r.2 with
    | None => h_ctxs (hp w') = ∅
    | Some ctx => refs w' = {[ctx := 1]}
    end.
Proof.
  intros Ht Hc Hrun. pose proof (tri_wp _ _ _ w (accfg_new_tri (hp w)) (conj Ht (conj eq_refl eq_refl))) as Hwp.
  unfold wp in Hwp. rewrite Hrun in Hwp. destruct Hwp as (Ht' & _ & Hcase). split; [done|].
  destruct r as [rc [ctx|]]; simpl in *; [|by destruct Hcase as [_ ->]].
  destruct Hcase as (_ & _ & c & (_ & Hone & _) & Hcs). unfold refs, part.
  by rewrite Hcs, Hc, insert_empty, map_fmap_singleton, Hone.
Qed.

(** C1: When main returns, every object the library ever made is freed again, whatever the command
    was and however it failed.  Main returns only for a command of the table, the one its second
    argument names, and its status is EXIT_SUCCESS exactly when that command was run, on the context
    the library made, and returned 0: it is EXIT_FAILURE when the driver's module is not there, when the
    library makes no context, and when the command returns another value. *)
Theorem main_frees argv p status p' :
  tree_ok (hp (ps_world p)) → h_ctxs (hp (ps_world p)) = ∅ → main argv p = Done status p' →
  nothing_left (hp (ps_world p')) ∧
  ∃ argv0 name args fn, argv = argv0 :: name :: args ∧ (name, fn) ∈ commands ∧
  match on_world (S := S) (sys_access "/sys/module/idxd") p with
  | Done loaded p1 =>
      if negb loaded then status = EXIT_FAILURE
      else
        match on_world (S := S) accfg_new p1 with
        | Done (_, Some ctx) p2 => ∃ rc p3,
            fn (name :: args) ctx p2 = Done rc p3 ∧ status = if rc =? 0 then 0 else EXIT_FAILURE
        | Done (_, None) _ => status = EXIT_FAILURE
        | _ => False
        end
  | _ => False
  end.
Proof.
  intros Ht Hc (u & p0 & Hopt & Hrest)%bind_Done.
  apply options_dispatch in Hopt as (-> & argv0 & name & args & fn & -> & Hin & Hcmd).
  apply bind_Done in Hrest as (loaded & p1 & Hacc & Hrest). rewrite Hacc.
  assert (hp (ps_world p1) = hp (ps_world p)) as Hp1.
  { assert (respects (on hp) (sys_access (F := F) "/sys/module/idxd")) as Hr by frame.
    unfold on_world, on_json, JsonUtil.lib, zoom in Hacc.
    destruct (sys_access _ _) as [b w| |] eqn:Hw; [|done..]. injection Hacc as _ <-. by apply Hr in Hw. }
  destruct loaded; simpl in Hrest |- *.
  2: { injection Hrest as <- <-. split; [rewrite Hp1; by apply tree_without_contexts|].
       by exists argv0, name, args, fn. }
  apply bind_Done in Hrest as ([rc ctx] & p2 & Hnew & Hrest). rewrite Hnew.
  unfold on_world, on_json, JsonUtil.lib, zoom in Hnew.
  destruct (accfg_new _) as [r w2| |] eqn:Hw; [|done..]. injection Hnew as -> <-.
  apply new_refs in Hw as [Ht2 Hr2]; [|by fold (ps_world p1); rewrite Hp1..]. destruct ctx as [ctx|].
  - change (tail (argv0 :: name :: args)) with (name :: args) in Hrest.
    apply run_command_frees in Hrest as (Hnone & rc' & p3 & Hrun & ->); [|  |done|done].
    + split; [done|]. exists argv0, name, args, fn. split; [done|]. split; [done|].
      rewrite Hcmd in Hrun. by exists rc', p3.
    + intros q rc' q' Hq. rewrite Hcmd in Hq. by eapply command_keeps.
  - injection Hrest as <- <-. split; [by apply tree_without_contexts|]. by exists argv0, name, args, fn.
Qed.
End main.

(** ** Instances *)

#[export] Instance sim_file_out : FileOut sim := {|
  k_create path f := (KOk (), f <| sim_files ::= insert path EmptyString |>);
  k_append path text f := f <| sim_files ::= alter (λ s, s +:+ text) path |>;
|}.
(** There is no program to run. *)
#[export] Instance sim_exec : Exec sim := {|
  k_setenv name value f := (KOk (), f <| sim_env ::= insert name value |>);
  k_exec file args f := (inr ENOENT, f);
|}.

(** The machine of Demo with the driver loaded, and with as many groups as it says. *)
Definition machine : sim := demo_sim
  <| sim_dirs ::= insert "/sys/module/idxd" [] |>
  <| sim_files ::= λ m, insert (DSA +:+ "/max_groups") (nl "1") (insert "/sys/bus/dsa/devices/dsa0/max_groups" (nl "1") m) |>.
Definition at_start (s : sim) : process sim jstore :=
  Process (JState (sim_world s) js_empty "") initial_statics.
Definition accel_config (args : list string) : prog (process sim jstore) Z :=
  main (Doc := jtext) (λ _, true) "/usr" "share/man" "4.0" "/etc/accel-config/accel-config.conf" ("accel-config" :: args).

Definition wq_line : list string := ["config-wq"; "dsa0/wq0.0"; "--wq-size=8"; "-p"; "5"].

Definition demo_process : process sim jstore := Process (JState demo_world js_empty "") initial_statics.
Definition sim_commands : list (cmd_struct (process sim jstore)) := commands (Doc := jtext) (λ _, true) "".
Definition config_wq : list string → positive → prog (process sim jstore) Z := of_world (main_config_wq (λ _, true)).

Lemma commands_keep_tree_witness :
  ∃ p', ("config-wq", config_wq) ∈ sim_commands ∧ config_wq wq_line 1%positive demo_process = Done 0 p' ∧
    tree_ok (hp (ps_world p')) ∧ refs (ps_world p') = refs (ps_world demo_process) ∧
    heap_grows (hp (ps_world demo_process)) (hp (ps_world p')).
Proof.
  assert (("config-wq", config_wq) ∈ sim_commands) as Hin by (do 9 right; left).
  assert (runs_to (config_wq wq_line 1%positive) demo_process 0 = true) as Hrun%runs_after by (vm_compute; reflexivity).
  eexists. split; [exact Hin|]. split; [exact Hrun|].
  exact (commands_keep_tree (λ _, true) "" _ _ wq_line 1%positive demo_process 0 _ Hin Hrun demo_tree_ok).
Defined.

Lemma main_frees_witness :
  ∃ p', accel_config wq_line (at_start machine) = Done 0 p' ∧ nothing_left (hp (ps_world p')).
Proof.
  assert (runs_to (accel_config wq_line) (at_start machine) 0 = true) as Hrun%runs_after by (vm_compute; reflexivity).
  eexists. split; [exact Hrun|].
  pose proof (main_frees (λ _, true) "/usr" "share/man" "4.0" "/etc/accel-config/accel-config.conf"
    ("accel-config" :: wq_line) (at_start machine) 0 _ empty_tree_ok eq_refl Hrun) as [Hnone _].
  exact Hnone.
Defined.

(** *** save-config, then load-config

    The file that is saved on an enabled device, loaded on the same device when it is
    disabled: every attribute that is written gets the text it had, and the traffic
    classes of the group are not written. *)

(** The words of a bit array as the kernel prints them. *)
Definition no_ops : string := String.concat "," (replicate 8 "00000000").
Definition in_state (v : string) : sim := machine <| sim_files ::= λ m,
  attrs DSA [("state", v); ("wq0.0/state", v); ("wq0.1/state", v);
             ("wq0.0/op_config", no_ops); ("wq0.1/op_config", no_ops)] ∪ m |>.
Definition saved_text : string :=
  match accel_config ["save-config"; "-s"; "/etc/saved.conf"] (at_start (in_state "enabled")) with
  | Done 0 p => default "" (sim_files (fs (ps_world p)) !! "/etc/saved.conf")
  | _ => ""
  end.
Definition loaded : process sim jstore → outcome (process sim jstore) Z :=
  accel_config ["load-config"; "-c"; "/etc/saved.conf"].
Definition load_start : sim := in_state "disabled" <| sim_files ::= insert "/etc/saved.conf" saved_text |>.

(** The first write clears the status of the last command. *)
Definition writes_back (p : process sim jstore) : bool :=
  let l := drop 1 (written (CState (ps_world p) initial_statics)) in
  (length l =? 35)%nat &&
  forallb (λ '(path, data), bool_decide (sim_files load_start !! path = Some (nl data))) l &&
  forallb (λ '(path, _), negb (CString.strstr_in path "traffic_class")) l.

Lemma saved_then_loaded :
  match loaded (at_start load_start) with Done rc p => (rc =? 0) && writes_back p | _ => false end = true.
Proof. vm_compute. reflexivity. Qed.

(** A device that has fewer groups than it says: showing one group and the queues is
    undefined, since a queue of group 0 is in the array of every slot that no group filled. *)
Definition four_groups : sim := machine <| sim_files ::= λ m,
  insert (DSA +:+ "/max_groups") (nl "4") (insert "/sys/bus/dsa/devices/dsa0/max_groups" (nl "4") m) |>.
Lemma list_frees_twice :
  accel_config ["list"; "-i"; "-g"; "dsa0/group0.0"; "-Q"] (at_start four_groups) = Fault.
Proof. vm_compute. reflexivity. Qed.
