(* ===== verification/FirstLook.v ===== *)
(** * The first look at the devices

    [devices_init] on a context that was just made: the tree it builds has a [steady]
    skeleton, whatever the directories hold and whatever allocation fails. *)

From S2P Require Import Prelude CString Prog Types SimKernel Sysfs Param Tree.
From S2P Require Import SysfsFacts ParamFacts TreeFacts TreeInit Skeleton KeepFacts.
Local Open Scope string_scope.
Local Open Scope Z_scope.

(** ** What POSIX says of realpath *)

Definition NAME_MAX : Z := 255.
(** The path it answers is shorter than PATH_MAX, absolute, and made of names of at most
    NAME_MAX bytes. *)
Class PathLaws (F : Type) `{Kernel F} : Prop :=
  k_realpath_path path f p f' : k_realpath path f = (KOk p, f') →
    strlen p < PATH_MAX ∧ ∃ name, after_last slash p = Some name ∧ strlen name <= NAME_MAX.

#[export] Instance sim_paths : PathLaws sim.
Proof.
  intros path f p f' Hp. assert (path_fits p = true) as Hf.
  { simpl in Hp. unfold sim_resolve in Hp. destruct (sim_links f !! path) as [q|].
    - destruct (path_fits q) eqn:Hq; [|done]. by injection Hp as <- _.
    - destruct (exists_path path f).1; [|done]. destruct (path_fits path) eqn:Hq; [|done]. by injection Hp as <- _. }
  unfold path_fits in Hf. apply andb_true_iff in Hf as [Hl Hn]. split; [lia|].
  destruct (after_last slash p) as [name|]; [|done]. exists name. unfold NAME_MAX. split; [done|lia].
Qed.

(** ** What enumeration does to devices *)

(** The members of a device that enumeration does not touch, and its flag. *)
Definition dev_part (x : accfg_device) : string * Z * string * Z :=
  (d_device_path x, d_buf_len x, d_bus_type_str x, d_group_init x).
Definition devs {F} (w : world F) : gmap positive (string * Z * string * Z) := dev_part <$> h_devices (hp w).

#[export] Instance os_devs F : OsFrame (on (devs (F := F))).
Proof. split; [apply _|done..]. Qed.
#[export] Instance fd_devs F : FdFrame (on (devs (F := F))).
Proof. done. Qed.
#[export] Instance tr_devs F : TrFrame (on (devs (F := F))).
Proof. done. Qed.

Section devices.
Context {F : Type} `{Kernel F}.
Notation M := (prog (world F)).

Lemma devs_on_heap f : (∀ h, dev_part <$> h_devices (f h) = dev_part <$> h_devices h) →
  respects (on devs) (on_heap (F := F) f).
Proof. intros Hf. apply respects_modify. intros w. apply Hf. Qed.
Lemma devs_upd_device p f : (∀ x, dev_part (f x) = dev_part x) → respects (on devs) (upd_device (F := F) p f).
Proof. intros Hf. unfold upd_device. frame. apply devs_on_heap. intros h. by apply fmap_alter_skel. Qed.
Lemma devs_fresh : respects (on devs) (fresh (F := F)).
Proof. unfold fresh. frame. by apply devs_on_heap. Qed.
Lemma devs_prefix s : respects (on devs) (set_filename_prefix (F := F) s).
Proof. by apply respects_modify. Qed.
#[local] Hint Extern 2 (respects (on devs) (on_heap _)) => apply devs_on_heap; done : frame.
#[local] Hint Extern 2 (respects (on devs) (upd_device _ _)) => apply devs_upd_device; done : frame.
#[local] Hint Resolve devs_fresh devs_prefix : frame.

Lemma devs_add_group parent id path pfx bus : respects (on (devs (F := F))) (add_group parent id path pfx bus).
Proof. unfold add_group. frame. Qed.
#[local] Hint Resolve devs_add_group : frame.

(** Looking for groups sets the flag of the device. *)
Definition flagged : string * Z * string * Z → string * Z * string * Z := λ '(p, n, b, _), (p, n, b, 1).
Lemma devs_groups_init p (w w' : world F) u :
  groups_init p w = Done u w' →
  ∃ x, h_devices (hp w) !! p = Some x ∧ devs w' = if d_group_init x =? 0 then alter flagged p (devs w) else devs w.
Proof.
  unfold groups_init. intros (x & w1 & Hx & Hrun)%bind_Done.
  unfold get_device, deref, gets, must, mbind, prog_bind in Hx.
  destruct (h_devices (hp w) !! p) as [y|] eqn:Hy; [|done]. injection Hx as <- <-. exists y. split; [done|].
  destruct (d_group_init y =? 0); simpl in Hrun; [|by injection Hrun as _ <-].
  apply bind_Done in Hrun as (v & w2 & Hupd & Hrun).
  unfold upd_device, get_device, deref, gets, must, mbind, prog_bind in Hupd. rewrite Hy in Hupd. injection Hupd as <- <-.
  match type of Hrun with ?m _ = _ => assert (respects (on devs) m) as Hr end.
  { frame. apply r_device_parse; [apply _|frame]. }
  apply Hr in Hrun. unfold on in Hrun. rewrite Hrun. unfold devs. simpl. apply map_eq. intros q.
  rewrite lookup_fmap, !lookup_alter, !lookup_fmap. destruct (decide (p = q)) as [->|]; [|done]. by destruct (h_devices (hp w) !! q).
Qed.
End devices.

(** ** The paths of devices *)

Definition path_ok (path bus : string) (buf_len : Z) : Prop :=
  buf_len = strlen path + MAX_BUF_LEN ∧ buf_len < 2 ^ 31 ∧
  (∃ name, after_last slash path = Some name ∧ strlen name <= 1000) ∧ strlen bus <= 1000.
Definition paths_ok {F} (w : world F) : Prop :=
  ∀ q p n b i, devs w !! q = Some (p, n, b, i) → path_ok p b n.

(** [Sane w w']: if the paths were right they still are. *)
Definition Sane {F} (w w' : world F) : Prop := paths_ok w → paths_ok w'.
#[export] Instance os_sane F : OsFrame (Sane (F := F)).
Proof. split; [split; [by intros ? ?|intros ? ? ? H1 H2 ?; by apply H2, H1]|by intros ? ? ?..]. Qed.
#[export] Instance fd_sane F : FdFrame (Sane (F := F)).
Proof. by intros ? ? ?. Qed.
#[export] Instance tr_sane F : TrFrame (Sane (F := F)).
Proof. by intros ? ? ?. Qed.

Section sane.
Context {F : Type} `{Kernel F}.
Notation M := (prog (world F)).

Lemma sane_devs {A} (m : M A) : respects (on devs) m → respects Sane m.
Proof. intros Hm w a w' Hrun Hw q p n b i Hq. apply Hm in Hrun. unfold on in Hrun. rewrite Hrun in Hq. by eapply Hw. Qed.
Lemma sane_upd_ctx p f : respects Sane (upd_ctx (F := F) p f).
Proof. apply sane_devs. unfold upd_ctx. frame. by apply devs_on_heap. Qed.
Lemma sane_fresh : respects (Sane (F := F)) fresh.
Proof. apply sane_devs, devs_fresh. Qed.
Lemma sane_prefix s : respects (Sane (F := F)) (set_filename_prefix s).
Proof. apply sane_devs, devs_prefix. Qed.

(** What a call answers, for the rest. *)
Lemma sane_bind_when {A B} (m : M A) (φ : A → Prop) (k : A → M B) :
  respects Sane m → (∀ w a w', m w = Done a w' → φ a) → (∀ a, φ a → respects Sane (k a)) →
  respects Sane (m ≫= k).
Proof.
  intros Hm Hφ Hk w b w' (a & w1 & H1 & H2)%bind_Done Hw. eapply Hk; [by eapply Hφ|done|]. by eapply Hm.
Qed.

Lemma parse_type_part d : dev_part (device_parse_type d).2 = dev_part d.
Proof. unfold device_parse_type. by destruct (parse_type_from _ _ _ _) as [[]|]. Qed.

Lemma sane_insert device d : path_ok (d_device_path d) (d_bus_type_str d) (d_buf_len d) →
  respects (Sane (F := F)) (on_heap (λ h, h <| h_devices ::= insert device d |>)).
Proof.
  intros Hd. apply respects_modify. intros w Hw q p n b i. unfold devs. simpl.
  rewrite lookup_fmap, lookup_insert. destruct (decide (device = q)) as [->|].
  - simpl. by intros [= <- <- <- <-].
  - intros Hq. apply (Hw q p n b i). unfold devs. by rewrite lookup_fmap.
Qed.

Context `{!PathLaws F}.
#[local] Hint Resolve sane_upd_ctx sane_fresh sane_prefix : frame.

Lemma sane_add_device ctx id path pfx bus :
  strlen bus <= 1000 → respects (Sane (F := F)) (add_device ctx id path pfx bus).
Proof.
  intros Hbus. unfold add_device.
  repeat lazymatch goal with
    | |- respects Sane (sys_realpath _ ≫= _) => fail
    | |- respects Sane (_ ≫= _) => apply respects_bind; [apply _|solve [frame; by apply respects_modify; intros ? ?]|intros ?]
    | |- respects Sane (match ?x with _ => _ end) => destruct x; [try solve [frame]|try solve [frame]]
    end.
  apply sane_bind_when with (λ r, ∀ p, r = Some p →
    strlen p < PATH_MAX ∧ ∃ name, after_last slash p = Some name ∧ strlen name <= NAME_MAX); [frame| |].
  { intros w r w' Hrun q ->. unfold sys_realpath, call in Hrun.
    destruct (k_realpath path (fs w)) as [[q'|e] f] eqn:Hk; [|done]. injection Hrun as -> _. by eapply k_realpath_path. }
  intros r Hr. apply respects_bind; [apply _|frame|intros _]. destruct r as [q|]; [|frame].
  destruct (Hr q eq_refl) as (Hlen & name & Hname & Hn). clear Hr.
  apply respects_bind; [apply _|frame|intros ok]. destruct (negb ok); [frame|]. cbv zeta.
  match goal with |- context [device_parse_type ?x] =>
    pose proof (parse_type_part x) as Hl; destruct (device_parse_type x) as [rc d] end.
  destruct (rc <? 0); [frame|]. injection Hl as H1 H2 H3 H4.
  apply respects_bind; [apply _| |intros _; frame]. apply sane_insert. rewrite H1, H2, H3.
  unfold path_ok, PATH_MAX, NAME_MAX, MAX_BUF_LEN in *. split_and!; [done|lia| |done]. exists name. split; [done|lia].
Qed.

Lemma sane_groups_init p : respects (Sane (F := F)) (groups_init p).
Proof.
  intros w u w' (x & Hx & Hd)%devs_groups_init Hw q pa n b i. rewrite Hd. destruct (d_group_init x =? 0); [|apply Hw].
  rewrite lookup_alter. destruct (decide (p = q)) as [->|]; [|apply Hw].
  destruct (devs w !! q) as [[[[]]]|] eqn:Hq; [|done]. intros [= <- <- <- <-]. by eapply Hw.
Qed.
Lemma sane_find_devices ctx : respects (Sane (F := F)) (find_devices ctx).
Proof.
  unfold find_devices, accfg_bus_types. simpl for_each. frame.
  all: apply r_device_parse; [apply _|]; intros; by apply sane_add_device.
Qed.
End sane.

(** ** The first look at the devices *)

(** A walk to the end, by what is known after each element. *)
Lemma foreach_all {F A} (I : list positive → world F → Prop) l next (body : positive → prog (world F) (option A)) w r w' :
  NoDup l →
  (∀ l1 p l2 w r w', l = (l1 ++ p :: l2)%list → I l1 w → body p w = Done r w' → r = None ∧ I (l1 ++ [p])%list w') →
  (∀ l1 p w r w', p ∈ l → I l1 w → next p w = Done r w' → r = list_next l p ∧ w' = w) →
  I [] w → foreach (S (length l)) (list_top l) next body w = Done r w' → I l w'.
Proof.
  intros Hnd Hbody Hnext.
  enough (∀ (l2 l1 : list positive) w, l = (l1 ++ l2)%list → I l1 w →
    foreach (S (length l2)) (list_top l2) next body w = Done r w' → I l w') as Hw by by intros; eapply (Hw l []).
  induction l2 as [|p l2 IH]; intros l1 w1 Hl HI Hrun; [injection Hrun as _ <-; by rewrite Hl, app_nil_r|].
  assert (p ∈ l) as Hp by (rewrite Hl; apply elem_of_app; right; by left).
  change (foreach (S (length (p :: l2))) (list_top (p :: l2)) next body w1) with
    ((r ← body p; match r with
                 | Some a => mret (Some a)
                 | None => y ← next p; foreach (S (length l2)) y next body
                 end) w1) in Hrun.
  apply bind_Done in Hrun as (a & w2 & Hb & Hrun). destruct (Hbody _ _ _ _ _ _ Hl HI Hb) as [-> HI2].
  apply bind_Done in Hrun as (y & w3 & Hn & Hrun). destruct (Hnext _ _ _ _ _ Hp HI2 Hn) as [-> ->].
  rewrite Hl, list_next_mid in Hrun by (by rewrite <- Hl).
  apply (IH (l1 ++ [p])%list w2); [by rewrite <- (assoc app)|done..].
Qed.

Lemma members_skel {A} (sk : A → A) l (m : gmap positive A) owner p :
  (∀ x, owner (sk x) = owner x) → members l m owner p → members l (sk <$> m) owner p.
Proof.
  intros Ho [Hnd Hm]. split; [done|]. intros q. rewrite Hm, lookup_fmap. split.
  - intros (x & -> & <-). exists (sk x). by split.
  - intros (y & Hy & <-). destruct (m !! q) as [x|]; [|done]. injection Hy as <-. exists x. by rewrite Ho.
Qed.
Lemma tree_skel h : tree_ok h → tree_ok (skel h).
Proof.
  intros [Hc Hd Hg Hw He Hn].
  assert (∀ A (sk : A → A) (m : gmap positive A) p y, (sk <$> m) !! p = Some y → ∃ x, m !! p = Some x ∧ y = sk x) as Hinv.
  { intros A sk m p y. rewrite lookup_fmap. destruct (m !! p) as [x|]; [|done]. intros [= <-]. eauto. }
  assert (∀ A B (sk : A → B) (m : gmap positive A) p, is_Some (m !! p) → is_Some ((sk <$> m) !! p)) as Hsome.
  { intros A B sk m p [x Hx]. rewrite lookup_fmap, Hx. by eexists. }
  split; simpl.
  - intros c x (y & Hy & ->)%Hinv. by apply members_skel, (Hc c y).
  - intros d x (y & Hy & ->)%Hinv. destruct (Hd d y Hy) as (H1 & H2 & H3 & H4). simpl.
    split_and!; [by apply Hsome|by apply members_skel..].
  - intros p x (y & Hy & ->)%Hinv. destruct (Hg p y Hy) as [H1 H2]. split; [by apply Hsome|exact H2].
  - intros p x (y & Hy & ->)%Hinv. destruct (Hw p y Hy) as [H1 H2]. split; [by apply Hsome|exact H2].
  - intros p x (y & Hy & ->)%Hinv. destruct (He p y Hy) as [H1 H2]. split; [by apply Hsome|exact H2].
  - intros p Hp. destruct (Hn p Hp) as (H1 & H2 & H3 & H4 & H5). rewrite !lookup_fmap, H1, H2, H3, H4, H5. done.
Qed.

(** A context that was just made: no device was looked for, and no error saved. *)
Definition newborn {F} (ctx : positive) (w : world F) : Prop :=
  tree_ok (hp w) ∧ (∃ c, h_ctxs (hp w) = {[ctx := c]} ∧ c_devices_init c = 0 ∧ c_error_ctx c = None) ∧
  h_devices (hp w) = ∅.

Section first_look.
Context {F : Type} `{KernelLaws F} `{!PathLaws F}.

(** The groups of every device are looked for. *)
Definition flags_on (l : list positive) (w : world F) : Prop :=
  ∀ p x, p ∈ l → h_devices (hp w) !! p = Some x → d_group_init x ≠ 0.

Lemma groups_init_flags ctx l l1 p w u w' :
  p ∈ l → devices_are ctx l (hp w) → flags_on l1 w → groups_init p w = Done u w' →
  devices_are ctx l (hp w') ∧ flags_on (l1 ++ [p]) w'.
Proof.
  intros Hp Hl Hf Hrun. pose proof (groups_init_devices True ctx l p Hp w Hl) as Hd. rewrite Hrun in Hd. split; [done|].
  apply devs_groups_init in Hrun as (x & Hx & Hdevs). intros q y Hq Hy.
  assert (devs w' !! q = Some (dev_part y)) as Hyq by (unfold devs; by rewrite lookup_fmap, Hy).
  assert (∀ z, devs w !! q = Some z → ∃ y0, h_devices (hp w) !! q = Some y0 ∧ z = dev_part y0) as Hback.
  { intros z. unfold devs. rewrite lookup_fmap. destruct (h_devices (hp w) !! q) as [y0|]; [|done]. intros [= <-]. eauto. }
  rewrite Hdevs in Hyq. apply elem_of_app in Hq. destruct (Z.eqb_spec (d_group_init x) 0) as [Hz|Hz].
  - rewrite lookup_alter in Hyq. destruct (decide (p = q)) as [->|Hne].
    + destruct (devs w !! q) as [[[[]]]|]; [|done]. injection Hyq as _ _ _ <-. done.
    + apply Hback in Hyq as (y0 & Hy0 & Heq). injection Heq as _ _ _ ->. apply (Hf q y0); [|done].
      destruct Hq as [Hq|Hq%list_elem_of_singleton]; [done|congruence].
  - apply Hback in Hyq as (y0 & Hy0 & Heq). injection Heq as _ _ _ ->.
    destruct Hq as [Hq| ->%list_elem_of_singleton]; [by eapply Hf|congruence].
Qed.

Lemma sane_devices_init ctx : respects (Sane (F := F)) (devices_init ctx).
Proof.
  rewrite devices_init_eq. frame; [by apply sane_upd_ctx|by apply sane_find_devices|].
  apply r_foreach; [apply _|intros; unfold accfg_device_get_next; frame|frame; apply sane_groups_init].
Qed.

(** The walk over the devices that were found. *)
Lemma walk_flags ctx c w r w' :
  at_ctx ctx (hp w) → h_ctxs (hp w) !! ctx = Some c →
  foreach (S (length (c_devices c))) (list_top (c_devices c)) accfg_device_get_next
    (λ device, groups_init device;; mret (@None unit)) w = Done r w' →
  h_ctxs (hp w') = h_ctxs (hp w) ∧ flags_on (c_devices c) w'.
Proof.
  intros Hat Hc Hwalk. pose proof (ok_ctx _ (proj1 Hat) _ _ Hc) as [Hnd _].
  apply (foreach_all (λ l1 w1, devices_are ctx (c_devices c) (hp w1) ∧ h_ctxs (hp w1) = h_ctxs (hp w) ∧ flags_on l1 w1)) in Hwalk.
  - by destruct Hwalk.
  - done.
  - intros l1 p l2 w1 r1 w2 Hl (Hare & Hcs & Hf) (u & w3 & Hg & Hr)%bind_Done. injection Hr as <- <-. split; [done|].
    assert (p ∈ c_devices c) as Hp by (rewrite Hl; apply elem_of_app; right; by left).
    destruct (groups_init_flags _ _ _ _ _ _ _ Hp Hare Hf Hg) as [Hare' Hf']. split_and!; [done| |done].
    apply ctxs_groups_init in Hg. unfold on, ctxs in Hg. congruence.
  - intros l1 p w1 r1 w2 Hp (Hare & _ & _) Hrun. pose proof (device_next_tri True ctx (c_devices c) p Hp w1 Hare) as Hn.
    rewrite Hrun in Hn. destruct Hn as [-> _]. split; [done|].
    destruct (devices_are_device _ _ _ _ Hare Hp) as (d & Hd & Hctx). destruct Hare as ([_ [x Hx]] & _).
    unfold accfg_device_get_next, get_device, get_ctx, mbind, prog_bind in Hrun.
    rewrite (run_deref _ _ _ _ Hd), Hctx, (run_deref _ _ _ _ Hx) in Hrun. by injection Hrun.
  - split_and!; [split; [done|eauto]|done|]. by intros ? ? ?%elem_of_nil.
Qed.

(** The flag of the context is set, and those of all its devices. *)
Lemma devices_init_flags ctx c w u w' :
  at_ctx ctx (hp w) → h_ctxs (hp w) !! ctx = Some c → c_devices_init c = 0 → devices_init ctx w = Done u w' →
  ∃ c', h_ctxs (hp w') !! ctx = Some c' ∧ c_devices_init c' ≠ 0 ∧ flags_on (c_devices c') w'.
Proof.
  intros [Ht Hs] Hc Hflag Hinit. rewrite devices_init_eq in Hinit. apply bind_Done in Hinit as (c0 & w0 & Hget & Hinit).
  unfold get_ctx in Hget. rewrite (run_deref _ _ _ _ Hc) in Hget. injection Hget as <- <-. rewrite Hflag in Hinit. simpl in Hinit.
  apply bind_Done in Hinit as (u1 & w1 & Hupd & Hinit). apply bind_Done in Hinit as (u2 & w2 & Hfind & Hinit).
  apply bind_Done in Hinit as (c2 & w3 & Hget & Hinit). apply bind_Done in Hinit as (r & w4 & Hwalk & Hinit).
  injection Hinit as _ <-.
  assert (hp w1 = hp w <| h_ctxs ::= alter (λ c, c <| c_devices_init := 1 |>) ctx |>) as Hw1.
  { unfold upd_ctx, get_ctx, on_heap, modify, mbind, prog_bind in Hupd. rewrite (run_deref _ _ _ _ Hc) in Hupd. by injection Hupd as _ <-. }
  assert (at_ctx ctx (hp w1)) as Hat1.
  { rewrite Hw1. split; [by apply tree_alter_ctx|by apply alter_is_Some]. }
  pose proof (find_devices_tri True ctx w1 Hat1) as Hat2. rewrite Hfind in Hat2.
  assert (part c_devices_init w2 = part c_devices_init w1) as Hflag2 by by eapply refs_find_devices, Hfind.
  destruct (h_ctxs (hp w2) !! ctx) as [c2'|] eqn:Hc2; [|by destruct Hat2 as [_ [x Hx]]; rewrite Hc2 in Hx].
  unfold get_ctx in Hget. rewrite (run_deref _ _ _ _ Hc2) in Hget. injection Hget as <- <-.
  destruct (walk_flags _ _ _ _ _ Hat2 Hc2 Hwalk) as [Hcs Hf]. exists c2'. rewrite Hcs. split_and!; [done| |done].
  pose proof (f_equal (λ m : gmap positive Z, m !! ctx) Hflag2) as Hp. unfold part in Hp. rewrite Hw1 in Hp.
  cbv beta in Hp. simpl in Hp. rewrite !lookup_fmap, Hc2, lookup_alter_eq, Hc in Hp. injection Hp as ->. done.
Qed.
Lemma devices_init_steady ctx w :
  newborn ctx w → ∃ w', devices_init ctx w = Done () w' ∧ steady ctx (skel (hp w')) ∧ fits (skel (hp w')) (hp w').
Proof.
  intros (Ht & (c & Hc & Hflag & Herr) & Hnone).
  assert (at_ctx ctx (hp w)) as Hat by by split; [|rewrite Hc, lookup_singleton_eq].
  pose proof (devices_init_tri False ctx w Hat) as Hrun. destruct (devices_init ctx w) as [[] w'| |] eqn:Hinit; [|done..].
  exists w'. split; [done|]. destruct Hrun as [Ht' _].
  assert (h_ctxs (hp w) !! ctx = Some c) as Hcc by by rewrite Hc, lookup_singleton_eq.
  destruct (devices_init_flags _ _ _ _ _ Hat Hcc Hflag Hinit) as (c' & Hc' & Hflag' & Hf).
  assert (part c_error_ctx w' = part c_error_ctx w) as Herrs by by eapply refs_devices_init, Hinit.
  assert (∀ p x, h_ctxs (hp w') !! p = Some x → p = ctx ∧ c_error_ctx x = None) as Honly.
  { intros p x Hx. pose proof (f_equal (λ m : gmap positive (option accfg_error_ctx), m !! p) Herrs) as Hp. unfold part in Hp. cbv beta in Hp.
    rewrite Hc, map_fmap_singleton, lookup_fmap, Hx, Herr in Hp. simpl in Hp.
    destruct (decide (p = ctx)) as [->|Hne]; [|by rewrite lookup_singleton_ne in Hp].
    rewrite lookup_singleton_eq in Hp. by injection Hp. }
  split; [split|split; [done|]].
  - by apply tree_skel.
  - exists (skel_ctx c'). split; [|done]. simpl. by rewrite lookup_fmap, Hc'.
  - intros d x. simpl. rewrite lookup_fmap. destruct (h_devices (hp w') !! d) as [y|] eqn:Hy; [|done]. intros [= <-].
    destruct (ok_device _ Ht' _ _ Hy) as ([cy Hcy] & _). destruct (Honly _ _ Hcy) as [Hctx _].
    split.
    + apply (Hf d y); [|done]. apply (ok_ctx _ Ht' _ _ Hc'). eauto.
    + assert (paths_ok w) as Hpw by (intros q p n b i; unfold devs; by rewrite Hnone, fmap_empty, lookup_empty).
      apply (sane_devices_init ctx w () w' Hinit Hpw d _ _ _ (d_group_init y)). unfold devs. by rewrite lookup_fmap, Hy.
  - intros p x e Hx He. apply Honly in Hx as [_ Hx]. congruence.
Qed.
End first_look.
