(* ===== verification/DeviceSafe.v ===== *)
(** * The commands on devices and groups are free of undefined behaviour

    enable-device, disable-device, config-device and config-group from the first line
    of main to the last.  The first look at the devices builds a tree whose skeleton
    is [steady], on which the calls of the commands are [safe]; so main always comes to an
    end, whatever the files hold and whatever allocation fails. *)

From S2P Require Import Prelude CString Prog ParseOptions Types SimKernel Sysfs Param Tree Demo Device Wq Filter Enable ConfigAttr Json Commands JsonStore JsonUtil Listing Config ListCmd Help Main.
From S2P Require Import ParseFacts ParseLines SysfsFacts ParamFacts TreeFacts TreeInit TreeFree Skeleton KeepFacts KeepConfig LoadSafe MainFacts FirstLook.
Local Open Scope string_scope.
Local Open Scope Z_scope.

(** ** Names that fit their buffers

    A scan depends on the name only. *)

Section scans.
Context {F : Type}.
Notation M := (prog (world F)).

Lemma span_strlen f t : strlen (span f t).1 + strlen (span f t).2 = strlen t.
Proof.
  induction t as [|c t IH]; [done|]. simpl. destruct (f c); [|simpl; unfold strlen; simpl; lia].
  destruct (span f t) as [a b]. simpl in *. unfold strlen in *. simpl. lia.
Qed.
Lemma span_shorter f t n : strlen t < n → strlen (span f t).1 < n ∧ strlen (span f t).2 < n.
Proof.
  intros Ht. pose proof (span_strlen f t). pose proof (strlen_nonneg (span f t).1). pose proof (strlen_nonneg (span f t).2). lia.
Qed.
Lemma scan_into_run {A} t (k : M A) w : strlen t < MAX_DEV_LEN → (scan_into MAX_DEV_LEN t;; k) w = k w.
Proof. intros Ht. unfold scan_into. by rewrite (proj2 (Z.ltb_lt _ _) Ht). Qed.

Lemma scan_type_id_run name : strlen name < MAX_DEV_LEN → ∃ r, ∀ w : world F, scan_device_type_id name w = Done r w.
Proof.
  intros Hn. destruct (span_shorter islower name _ Hn) as [Ht _]. unfold scan_device_type_id.
  destruct (span islower name) as [[|c t] rest]; [by eexists|]. eexists. intros w. by rewrite scan_into_run.
Qed.

Lemma scan_names_run name : strlen name < MAX_DEV_LEN →
  ∃ r, (∀ w : world F, scan_parent_child_names name w = Done r w) ∧
    match r with inr (p, _) => strlen p < MAX_DEV_LEN | inl _ => True end.
Proof.
  intros Hn. destruct (span_shorter not_slash name _ Hn) as [Hp Hrest]. unfold scan_parent_child_names.
  destruct (span not_slash name) as [[|c t] rest]; [by eexists|]. simpl in Hp, Hrest.
  destruct rest as [|c' rest]; [eexists; split; [intros w; by rewrite scan_into_run|done]|].
  assert (strlen rest < MAX_DEV_LEN) as Hrest' by (unfold strlen in *; simpl in *; lia).
  destruct (span_shorter isspace rest _ Hrest') as [_ Hsp]. destruct (span_shorter not_space _ _ Hsp) as [Hc _].
  destruct (span not_space (span isspace rest).2) as [[|c2 t2] rest2].
  - eexists. split; [intros w; by rewrite scan_into_run|done].
  - eexists. split; [intros w; by rewrite !scan_into_run|done].
Qed.
End scans.

(** ** The calls of the commands, on a steady tree *)

Section operations.
Context {F : Type} `{KernelLaws F} (s : heap) (ctx : positive) (Hs : steady ctx s).
Notation M := (prog (world F)).
Notation safe := (safe (F := F) False s).

#[local] Hint Extern 1 (Skeleton.safe _ _ (save_last_error _ _ _ _) _) =>
  eapply safe_save_last_error; [eassumption|eassumption|exact I|exact I|exact I] : safe.
#[local] Hint Extern 1 (Skeleton.safe _ _ (accfg_device_get_devname _) _) =>
  eapply safe_device_get_devname; eassumption : safe.

Lemma safe_device_is_active d x : h_devices s !! d = Some x → safe (accfg_device_is_active (Some d)) (λ _, True).
Proof. intros Hd. unfold accfg_device_is_active. safe. Qed.

Lemma safe_device_enable d x : h_devices s !! d = Some x → safe (accfg_device_enable (Some d)) (λ _, True).
Proof.
  intros Hd. destruct (rd_device _ _ Hs _ _ Hd) as (_ & _ & _ & (name & Hn & Hlen) & Hbus).
  destruct (owner_ctx _ _ Hs _ _ Hd) as [c Hc].
  pose proof (safe_device_get_devname (F := F) False s ctx Hs _ _ Hd) as Hname.
  unfold accfg_device_enable, accfg_device_control, device_control_path, IDXD_DRIVER, get_driver_bind_path.
  eapply safe_bind with (λ _, True).
  - safe_step. eapply safe_bind with (λ o, strlen (print_s (Some o)) <= 1000).
    { do 2 safe_step. by destruct (c_compat _). }
    intros drv Hdrv. cbv beta in Hdrv. known. eapply safe_bind with (λ _, True); [|intros [rc|p] _; safe].
    eapply safe_bind with (λ _, True); [|intros _ _; safe].
    apply safe_sprintf. unfold PATH_MAX. path_len.
  - intros [rc|[path|]] _; [by safe| |by safe]. eapply safe_bind; [exact Hname|]. intros n _. safe.
Qed.

(** *** Names *)

Lemma safe_run {A} (m : M A) a (φ : A → Prop) : (∀ w, m w = Done a w) → φ a → safe m φ.
Proof. intros Hm Ha w Hw. by rewrite Hm. Qed.

(** A child that is found by its name is one of the list. *)
Lemma safe_named {A} (l : list positive) (m : heap → gmap positive A) name (get_name : positive → M string) next :
  NoDup l → (∀ p, p ∈ l → is_Some (m s !! p)) →
  (∀ p, p ∈ l → safe (get_name p) (λ _, True)) →
  (∀ p, p ∈ l → safe (next p) (λ r, r = list_next l p)) →
  safe (foreach (S (length l)) (list_top l) next (Filter.named name get_name)) (here_or_null s m).
Proof.
  intros Hnd Hin Hname Hnext. apply safe_foreach; [done..| |done].
  intros p Hp. unfold Filter.named. eapply safe_bind; [by apply Hname|]. intros n _. apply safe_ret.
  unfold found. destruct (strcmp_eq name n); [by apply Hin|done].
Qed.

Lemma safe_parse_device_name name : strlen name < MAX_DEV_LEN →
  safe (parse_device_name ctx name) (λ r, match r with inr d => is_Some (h_devices s !! d) | inl _ => True end).
Proof.
  intros Hn. destruct (rd_ctx _ _ Hs) as (c & Hc & _). destruct (ok_ctx _ (rd_tree _ _ Hs) _ _ Hc) as [Hnd Hm].
  unfold parse_device_name. destruct (scan_type_id_run (F := F) name Hn) as [r0 Hr0].
  eapply safe_bind with (λ _, True); [by apply (safe_run _ r0)|]. intros [|[type id]] _; [by apply safe_ret|].
  destruct (_ =? 0); [by apply safe_ret|]. unfold accfg_device_foreach, accfg_device_get_first.
  eapply safe_bind with (here_or_null s h_devices); [|intros [d|] Hd; by apply safe_ret].
  eapply safe_bind with (λ x, x = list_top (c_devices c)).
  { eapply safe_bind; [by eapply safe_devices_init|]. intros _ _. safe_step. safe_step. by f_equal. }
  intros x ->. safe_step. replace (c_devices a) with (c_devices c) by congruence. apply safe_named; [done|..].
  - intros p (d & Hd & _)%Hm. by eexists.
  - intros p (d & Hd & _)%Hm. eapply safe_mono; [|by eapply safe_device_get_devname]. done.
  - intros p (d & Hd & Hctx)%Hm. unfold accfg_device_get_next. safe_step. safe_step. safe_step. by f_equal.
Qed.

Lemma safe_path_name path len : buf_ok path len → safe (devpath_to_devname path) (λ _, True).
Proof. intros [_ [n Hn]]. eapply safe_mono, safe_devpath, Hn. done. Qed.

Lemma safe_group_get_devname p x : h_groups s !! p = Some x → safe (accfg_group_get_devname p) (λ _, True).
Proof.
  intros Hp. destruct (ok_group _ (rd_tree _ _ Hs) _ _ Hp) as [_ Hb]. unfold accfg_group_get_devname.
  safe_step. by eapply safe_path_name.
Qed.

Lemma safe_parse_group_name name : strlen name < MAX_DEV_LEN →
  safe (parse_group_name ctx name) (λ r, match r with inr (_, g) => is_Some (h_groups s !! g) | inl _ => True end).
Proof.
  intros Hn. unfold parse_group_name, parse_child_name. destruct (scan_names_run (F := F) name Hn) as (r0 & Hr0 & Hlen).
  eapply safe_bind; [by apply (safe_run _ r0 (λ r, match r with inr (p, _) => strlen p < MAX_DEV_LEN | inl _ => True end))|].
  intros [rc|[dev_name child]] Hd; [by apply safe_ret|]. eapply safe_bind; [by apply safe_parse_device_name|].
  intros [rc|dev] Hdev; [by apply safe_ret|]. destruct Hdev as [x Hx].
  destruct (ok_device _ (rd_tree _ _ Hs) _ _ Hx) as (_ & [Hnd Hm] & _). unfold accfg_group_foreach, accfg_group_get_first.
  eapply safe_bind with (here_or_null s h_groups); [|intros [g|] Hg; by apply safe_ret].
  eapply safe_bind with (λ r, r = list_top (d_groups x)).
  { eapply safe_bind; [by eapply safe_groups_init|]. intros _ _. safe_step. safe_step. by f_equal. }
  intros r ->. safe_step. replace (d_groups a) with (d_groups x) by congruence. apply safe_named; [done|..].
  - intros p (g & Hg & _)%Hm. by eexists.
  - intros p (g & Hg & _)%Hm. by eapply safe_group_get_devname.
  - intros p (g & Hg & Ho)%Hm. unfold accfg_group_get_next. safe_step. safe_step. safe_step. by f_equal.
Qed.

(** *** What is done with an object *)

Lemma safe_set_if b (m k : M Z) : (b = true → safe m (λ _, True)) → safe k (λ _, True) → safe (set_if b m k) (λ _, True).
Proof.
  intros Hm Hk. unfold set_if. destruct b; [|done]. eapply safe_bind; [by apply Hm|]. intros rc _.
  destruct (rc <? 0); [by apply safe_ret|done].
Qed.

Lemma safe_device_attribs d p : is_Some (h_devices s !! d) → safe (accel_config_parse_device_attribs d p) (λ _, True).
Proof.
  intros [x Hx]. unfold accel_config_parse_device_attribs, DEV_EVL_SIZE_MIN, DEV_EVL_SIZE_MAX.
  destruct (_ && _) eqn:Hbad; [by apply safe_ret|].
  apply safe_set_if; [intros _; eapply safe_device_set_read_buffer_limit; [done..|apply s32_range]|].
  apply safe_set_if; [|by apply safe_ret]. intros Hset. eapply safe_device_set_event_log_size; [done..|lia].
Qed.

Lemma safe_group_attribs g p : is_Some (h_groups s !! g) → safe (accel_config_parse_group_attribs g p) (λ _, True).
Proof.
  intros [x Hx]. destruct (group_owner _ _ Hs _ _ Hx) as (d & c & Hd & _).
  unfold accel_config_parse_group_attribs, accfg_device_get_version.
  eapply safe_bind; [by eapply safe_group_get_device|]. intros ? ->.
  eapply safe_bind with (λ _, True); [safe|]. intros version _.
  destruct (group_params_bad _ _) eqn:Hbad; [by apply safe_ret|]. unfold group_params_bad, INT_MAX in *.
  assert (∀ f v, - 2 ^ 31 <= v < 2 ^ 31 → safe (accfg_group_set_field f g v) (λ _, True)) as Hset
    by by intros; eapply safe_group_set_field.
  repeat first [apply safe_set_if; [intros Hgiven; apply Hset; first [apply s32_range|lia]|]|by apply safe_ret].
Qed.

Lemma safe_dev_action force d action : is_Some (h_devices s !! d) →
  safe (dev_action_switch force d action) (λ _, True).
Proof.
  intros [x Hx]. pose proof (safe_device_get_devname (F := F) False s ctx Hs _ _ Hx) as Hname.
  destruct action; simpl; (eapply safe_bind; [by eapply safe_device_is_active|]); intros active _.
  - destruct (negb _); [|by eapply safe_device_enable]. eapply safe_bind; [exact Hname|]. intros n _. by apply safe_ret.
  - destruct (_ =? _); [|by eapply safe_device_disable]. eapply safe_bind; [exact Hname|]. intros n _. by apply safe_ret.
Qed.

Lemma safe_action_one force action arg : strlen arg < MAX_DEV_LEN → safe (device_action_one force ctx action arg) (λ _, True).
Proof.
  intros Ha. unfold device_action_one. eapply safe_bind; [by apply safe_parse_device_name|].
  intros [rc|d] Hd; [by apply safe_ret|]. eapply safe_bind; [by apply safe_dev_action|]. intros rc _.
  destruct (rc =? 0); [|by apply safe_ret]. destruct Hd as [x Hx].
  eapply safe_bind; [by eapply safe_device_get_state|]. intros st _. by apply safe_ret.
Qed.
End operations.

(** ** From the first call on *)

(** Nothing was looked for yet, or the devices were found. *)
Definition tame {F} (ctx : positive) (w : world F) : Prop := newborn ctx w ∨ ∃ s, steady ctx s ∧ fits s (hp w).

Definition ends {T F A} `{HasWorld T F} (ctx : positive) (m : prog T A) : Prop := ∀ t, tame ctx (world_of t) →
  match m t with
  | Done _ t' => tame ctx (world_of t')
  | Exited c _ => exits c
  | Fault => False
  end.

Section ends.
Context {T F : Type} `{HasWorld T F} (ctx : positive).

Lemma ends_tame_ret {A} (a : A) : ends ctx (mret a : prog T A).
Proof. by intros t Ht. Qed.
Lemma ends_exit {A} c : exits c → ends ctx (exit c : prog T A).
Proof. by intros Hc t Ht. Qed.
Lemma ends_tame_bind {A B} (m : prog T A) (k : A → prog T B) : ends ctx m → (∀ a, ends ctx (k a)) → ends ctx (m ≫= k).
Proof.
  intros Hm Hk t Ht. specialize (Hm t Ht). unfold mbind, prog_bind. destruct (m t) as [a t'| |]; [|done..]. by apply Hk.
Qed.
End ends.

Lemma ends_zoom {S T F A} `{HasWorld S F, HasWorld T F} ctx (get : T → S) put (m : prog S A) :
  (∀ t, world_of (get t) = world_of t) → (∀ s t, world_of (put s t) = world_of s) → ends ctx m → ends ctx (zoom get put m).
Proof.
  intros Hg Hp Hm t Ht. unfold zoom. specialize (Hm (get t)). rewrite Hg in Hm. specialize (Hm Ht).
  destruct (m (get t)) as [a s'|c s'|]; [by rewrite Hp|done..].
Qed.

Section commands.
Context {F : Type} `{KernelLaws F} `{!PathLaws F} (ctx : positive).
Notation M := (prog (world F)).

(** A call that does not depend on the world, or that looks for the devices first. *)
Definition looks {A} (m : M A) : Prop :=
  (∃ a, ∀ w, m w = Done a w) ∨
  (∀ w w1, devices_init ctx w = Done () w1 → devices_init ctx w1 = Done () w1 → m w = m w1).

(** The second look finds nothing to do. *)
Lemma devices_init_again w w1 : newborn ctx w → devices_init ctx w = Done () w1 → devices_init ctx w1 = Done () w1.
Proof.
  intros (Ht & (c & Hc & Hflag & _) & _) Hrun.
  assert (at_ctx ctx (hp w)) as Hat by by split; [|rewrite Hc, lookup_singleton_eq].
  assert (h_ctxs (hp w) !! ctx = Some c) as Hcc by by rewrite Hc, lookup_singleton_eq.
  destruct (devices_init_flags _ _ _ _ _ Hat Hcc Hflag Hrun) as (c' & Hc' & Hflag' & _).
  unfold devices_init, get_ctx. unfold mbind at 1, prog_bind at 1. rewrite (run_deref _ _ _ _ Hc').
  by rewrite (proj2 (Z.eqb_neq _ _) Hflag').
Qed.

Lemma ends_looks {A} (m : M A) : looks m → (∀ s, steady ctx s → safe False s m (λ _, True)) → ends ctx m.
Proof.
  intros Hlook Hsafe w [Hnew|(s & Hs & Hfit)].
  - destruct Hlook as [[a Ha]|Hlook]; [rewrite Ha; by left|].
    destruct (devices_init_steady ctx w Hnew) as (w1 & Hrun & Hs & Hfit).
    rewrite (Hlook w w1 Hrun (devices_init_again w w1 Hnew Hrun)).
    specialize (Hsafe _ Hs w1 Hfit). destruct (m w1) as [a w'| |]; [|done..]. destruct Hsafe as [Hfit' _]. right. eauto.
  - specialize (Hsafe _ Hs w Hfit). destruct (m w) as [a w'| |]; [|done..]. destruct Hsafe as [Hfit' _]. right. eauto.
Qed.

(** A name of a device is read, and then the devices are looked for. *)
Lemma parse_device_name_looks name : strlen name < MAX_DEV_LEN →
  (∃ e, ∀ w : world F, parse_device_name ctx name w = Done (inl e) w) ∨
  (∀ w w1 : world F, devices_init ctx w = Done () w1 → devices_init ctx w1 = Done () w1 →
    parse_device_name ctx name w = parse_device_name ctx name w1).
Proof.
  intros Hn. destruct (scan_type_id_run (F := F) name Hn) as [r Hr]. unfold parse_device_name.
  assert (∀ {B} (k : _ → M B) w, (scan_device_type_id name ≫= k) w = k r w) as Hstep
    by by intros; apply bind_run.
  destruct r as [e|[type id]]; [left; eexists; intros w; by rewrite Hstep|].
  destruct (accfg_device_type_validate type =? 0) eqn:Hv.
  - left. eexists. intros w. rewrite Hstep. by rewrite Hv.
  - right. intros w w1 H1 H2. rewrite !Hstep, Hv. unfold accfg_device_foreach, accfg_device_get_first.
    unfold mbind, prog_bind. by rewrite H1, H2.
Qed.

Lemma looks_named {A} name (k : Z + positive → M A) : strlen name < MAX_DEV_LEN →
  (∀ e, ∃ a, ∀ w, k (inl e) w = Done a w) → looks (parse_device_name ctx name ≫= k).
Proof.
  intros Hn Hk. destruct (parse_device_name_looks name Hn) as [[e He]|Hsame].
  - left. destruct (Hk e) as [a Ha]. exists a. intros w. by rewrite (bind_run _ _ _ _ _ (He w)).
  - right. intros w w1 H1 H2. unfold mbind, prog_bind. by rewrite (Hsame w w1 H1 H2).
Qed.


Lemma ends_action_one force action arg : strlen arg < MAX_DEV_LEN → ends ctx (device_action_one force ctx action arg : M _).
Proof.
  intros Ha. apply ends_looks; [|by intros s Hs; apply (safe_action_one s ctx)]. unfold device_action_one.
  apply looks_named; [done|]. intros e. by eexists.
Qed.

(** One turn of the loop of the config commands. *)
Lemma ends_config_loop {A} (parse : string → M (Z + A)) set stop argv :
  Forall (λ a, strlen a < MAX_DEV_LEN) argv →
  (∀ a, strlen a < MAX_DEV_LEN →
    ends ctx (r ← parse a; match r with inl _ => mret None | inr x => rc ← set x; mret (Some rc) end)) →
  ends ctx (config_loop parse set stop argv).
Proof.
  intros Hargs Hone. induction Hargs as [|a argv Ha _ IH]; simpl; [by apply ends_tame_ret|]. intros w Hw.
  specialize (Hone a Ha w Hw). unfold mbind, prog_bind in Hone |- *.
  destruct (parse a w) as [[e|x] w1| |]; [by apply IH| |done..].
  destruct (set x w1) as [rc w2| |]; [|done..]. destruct (stop rc); [done|by apply IH].
Qed.

Lemma all_args_short argv : Forall (λ a, strlen a < MAX_DEV_LEN) argv → Forall (λ a, strlen a < MAX_DEV_LEN) (all_args argv).
Proof. intros Ha. unfold all_args. destruct (existsb _ _); [by repeat constructor|done]. Qed.

Lemma ends_device_action force argv action : Forall (λ a, strlen a < MAX_DEV_LEN) argv →
  ends ctx (device_action force argv action ctx : M _).
Proof.
  intros Ha. unfold device_action. destruct argv as [|a0 argv0]; [apply ends_exit; by right; right|].
  assert (∀ rc success, ends ctx (action_loop (device_action_one force ctx action) (all_args (a0 :: argv0)) rc success)) as Hloop.
  { induction (all_args_short _ Ha) as [|a argv Hlen _ IH]; intros rc success; simpl; [by apply ends_tame_ret|].
    apply ends_tame_bind; [by apply ends_action_one|]. intros [r|]; apply IH. }
  apply ends_tame_bind; [apply Hloop|]. intros [rc success]. by apply ends_tame_ret.
Qed.

Lemma ends_config_device argv p : Forall (λ a, strlen a < MAX_DEV_LEN) argv → ends ctx (cmd_config_device argv p ctx : M _).
Proof.
  intros Ha. apply ends_config_loop; [by apply all_args_short|]. intros a Hlen. apply ends_looks.
  - apply looks_named; [done|]. intros e. by eexists.
  - intros s Hs. eapply safe_bind; [by apply (safe_parse_device_name s ctx)|]. intros [e|d] Hd; [by apply safe_ret|].
    eapply safe_bind; [by apply (safe_device_attribs s ctx)|]. intros rc _. by apply safe_ret.
Qed.

Lemma ends_config_group argv p : Forall (λ a, strlen a < MAX_DEV_LEN) argv → ends ctx (cmd_config_group argv p ctx : M _).
Proof.
  intros Ha. apply ends_config_loop; [by apply all_args_short|]. intros a Hlen. apply ends_looks.
  - unfold parse_group_name, parse_child_name. destruct (scan_names_run (F := F) a Hlen) as (r & Hr & Hp).
    destruct r as [e|[p_name c_name]].
    + left. eexists. intros w. unfold mbind, prog_bind. by rewrite Hr.
    + destruct (parse_device_name_looks p_name Hp) as [[e He]|Hsame].
      * left. eexists. intros w. unfold mbind, prog_bind. by rewrite Hr, He.
      * right. intros w w1 H1 H2. unfold mbind, prog_bind. by rewrite !Hr, (Hsame w w1 H1 H2).
  - intros s Hs. eapply safe_bind; [by apply (safe_parse_group_name s ctx)|]. intros [e|[d g]] Hg; [by apply safe_ret|].
    eapply safe_bind; [by apply (safe_group_attribs s ctx)|]. intros rc _. by apply safe_ret.
Qed.

(** The commands with their options. *)
Variables (realloc_ok : Z → bool) (alloc_all : ∀ n, realloc_ok n = true ↔ n < 2 ^ 63).
Lemma ends_after_options t vars argv usage (k : list string → variables → M Z) :
  (t, vars) ∈ command_tables → argv ≠ [] → Forall (λ a, strlen a < MAX_DEV_LEN) (tail argv) → Forall short argv →
  (∀ args vars, Forall (λ a, strlen a < MAX_DEV_LEN) args → ends ctx (k args vars)) →
  ends ctx (after_options realloc_ok argv t usage vars k).
Proof.
  intros Ht Hne Hlen Hs Hk w Hw. pose proof (command_options realloc_ok alloc_all t vars argv usage Ht Hne Hs) as Hp.
  unfold after_options. destruct (parse_options _ _ _ _ _ _) as [args p|c p|]; [|done..]. destruct Hp as (_ & _ & Hsub).
  apply Hk; [|unfold parser_errno; by destruct (p_errno p)]. rewrite Forall_forall in Hlen |- *. intros a Ha. by eapply Hlen, sublist_subseteq.
Qed.
End commands.

(** ** The report of the last error, and the end of the process *)

Section main.
Context {F : Type} `{KernelLaws F} `{!PathLaws F} `{Stdio F} `{FileOut F} `{Exec F} {Doc : Type} `{JsonC Doc} {S : Type} `{JsonOut S}.
Variables (realloc_ok : Z → bool) (alloc_all : ∀ n, realloc_ok n = true ↔ n < 2 ^ 63).
Variables (PREFIX ACCFG_MAN_PATH VERSION ACCFG_CONF_FILE : string).
Notation P := (prog (process F S)).
Implicit Types p : process F S.

Definition psafe (s : heap) {A} (m : P A) (φ : A → Prop) : Prop := ∀ p, fits s (hp (ps_world p)) →
  match m p with Done a p' => fits s (hp (ps_world p')) ∧ φ a | _ => False end.

Lemma psafe_ret s {A} (a : A) (φ : A → Prop) : φ a → psafe s (mret a) φ.
Proof. by intros Ha p Hp. Qed.
Lemma psafe_bind s {A B} (m : P A) (k : A → P B) φ ψ : psafe s m φ → (∀ a, φ a → psafe s (k a) ψ) → psafe s (m ≫= k) ψ.
Proof.
  intros Hm Hk p Hp. specialize (Hm p Hp). unfold mbind, prog_bind. destruct (m p) as [a p'| |]; [|done..].
  destruct Hm as [Hp' Ha]. by apply Hk.
Qed.
Lemma psafe_world s {A} (m : prog (world F) A) φ : safe False s m φ → psafe s (on_world m) φ.
Proof.
  intros Hm p Hp. specialize (Hm (ps_world p) Hp). unfold on_world, on_json, JsonUtil.lib, zoom. unfold ps_world in Hm.
  destruct (m _) as [a w'| |]; [|done..]. exact Hm.
Qed.
Lemma psafe_printf s t : psafe s (printf t) (λ _, True).
Proof. intros p Hp. split; [exact Hp|done]. Qed.

Lemma safe_last_error s ctx : steady ctx s → safe (F := F) False s (accfg_ctx_get_last_error ctx) (λ v, 0 <= v < 2 ^ 32).
Proof.
  intros Hs. destruct (rd_ctx _ _ Hs) as (c & Hc & _). unfold accfg_ctx_get_last_error. safe_step. apply safe_ret.
  destruct (c_error_ctx a) as [e|]; [|done].
  match goal with Hx : ∀ e', Some e = Some e' → _ |- _ => by destruct (Hx e eq_refl) end.
Qed.

(** An object of the saved error is there. *)
Lemma psafe_member s ctx {A} (f : accfg_error_ctx → option positive) (m : heap → gmap positive A) :
  steady ctx s → (∀ e, err_ok s e → here_or_null s m (f e)) →
  psafe s (on_world (last_error_member f ctx)) (here_or_null s m).
Proof.
  intros Hs Hf. destruct (rd_ctx _ _ Hs) as (c & Hc & _). apply psafe_world. unfold last_error_member. safe_step.
  apply safe_ret. destruct (c_error_ctx a) as [e|]; [|done]. simpl.
  match goal with Hx : ∀ e', Some e = Some e' → _ |- _ => by apply Hf, Hx end.
Qed.
Lemma psafe_print_name s {A} o prefix (get_name : positive → prog (world F) string) (m : heap → gmap positive A) :
  here_or_null s m o → (∀ q x, m s !! q = Some x → safe (F := F) False s (get_name q) (λ _, True)) →
  psafe s (print_name o prefix get_name) (λ _, True).
Proof.
  intros Ho Hname. destruct o as [q|]; [|by apply psafe_ret]. destruct Ho as [x Hx].
  eapply psafe_bind; [by eapply psafe_world, Hname|]. intros n _. apply psafe_printf.
Qed.

Lemma psafe_report s ctx e : steady ctx s → psafe s (report_last_error ctx e) (λ _, True).
Proof.
  intros Hs. unfold report_last_error. eapply psafe_bind; [apply psafe_printf|]. intros _ _.
  eapply psafe_bind; [by apply (psafe_member s ctx _ h_devices); [|intros ? (?&?&?&?&?)]|]. intros d Hd.
  eapply psafe_bind; [by apply (psafe_member s ctx _ h_groups); [|intros ? (?&?&?&?&?)]|]. intros g Hg.
  eapply psafe_bind; [by apply (psafe_member s ctx _ h_wqs); [|intros ? (?&?&?&?&?)]|]. intros q Hq.
  eapply psafe_bind; [by apply (psafe_member s ctx _ h_engines); [|intros ? (?&?&?&?&?)]|]. intros en Hen.
  eapply psafe_bind; [eapply psafe_print_name; [exact Hd|]|intros _ _].
  { intros p x Hx. eapply safe_mono; [|by eapply safe_device_get_devname]. done. }
  eapply psafe_bind; [eapply psafe_print_name; [exact Hg|]|intros _ _].
  { intros p x Hx. by eapply safe_group_get_devname. }
  eapply psafe_bind; [eapply psafe_print_name; [exact Hq|]|intros _ _].
  { intros p x Hx. destruct (ok_wq _ (rd_tree _ _ Hs) _ _ Hx) as [_ Hb]. unfold accfg_wq_get_devname.
    safe_step. by eapply safe_path_name. }
  eapply psafe_bind; [eapply psafe_print_name; [exact Hen|]|intros _ _].
  { intros p x Hx. destruct (ok_engine _ (rd_tree _ _ Hs) _ _ Hx) as [_ Hb]. unfold accfg_engine_get_devname.
    safe_step. by eapply safe_path_name. }
  eapply psafe_bind with (λ _, True); [|intros t _; apply psafe_printf]. apply psafe_world.
  unfold accfg_ctx_get_last_error_str. eapply safe_bind; [by apply safe_last_error|]. intros v Hv.
  destruct (get_cmd_status_str_spec v Hv) as (r & -> & _). by apply safe_ret.
Qed.

(** What main says of a command's result: nothing when no error was saved. *)
Lemma ends_report ctx rc : ends ctx (last_error ← on_world (accfg_ctx_get_last_error ctx);
  if negb (rc =? 0) && negb (last_error =? 0) then report_last_error ctx last_error else mret () : P unit).
Proof.
  intros p [Hnew|(s & Hs & Hfit)].
  - change (world_of p) with (ps_world p) in Hnew. pose proof Hnew as (_ & (c & Hc & _ & Herr) & _).
    assert (accfg_ctx_get_last_error ctx (ps_world p) = Done 0 (ps_world p)) as Hrun.
    { unfold accfg_ctx_get_last_error, get_ctx. unfold mbind, prog_bind.
      rewrite (run_deref _ _ c) by (by rewrite Hc, lookup_singleton_eq). by rewrite Herr. }
    unfold on_world, on_json, JsonUtil.lib, zoom, mbind, prog_bind. unfold ps_world in Hrun. rewrite Hrun.
    rewrite andb_false_r. by left.
  - assert (psafe s (last_error ← on_world (accfg_ctx_get_last_error ctx);
      if negb (rc =? 0) && negb (last_error =? 0) then report_last_error ctx last_error else mret ()) (λ _, True)) as Hsafe.
    { eapply psafe_bind; [by apply psafe_world, safe_last_error|]. intros e _. destruct (_ && _); [by apply psafe_report|by apply psafe_ret]. }
    specialize (Hsafe p Hfit).
    match goal with |- match ?m with _ => _ end => destruct m as [u p'| |] end; [|done..]. destruct Hsafe as [Hfit' _]. right. eauto.
Qed.

(** The end of main: the context is there, and giving it up returns. *)
Lemma unref_total ctx c (w : world F) :
  tree_ok (hp w) → h_ctxs (hp w) !! ctx = Some c → ∃ r w', accfg_unref (Some ctx) w = Done r w'.
Proof.
  intros Ht Hc. destruct (1 <? c_refcount c) eqn:Hmore.
  - destruct (unref_step ctx c w Hc) as [_ ->]. rewrite Hmore. eauto.
  - destruct (unref_last ctx c w Ht Hc Hmore) as (h' & -> & _). eauto.
Qed.

Lemma run_command_ends cmds argv ctx p :
  ends ctx (main_handle_internal_command cmds argv ctx) →
  (∀ q rc q', main_handle_internal_command cmds argv ctx q = Done rc q' → Keep (ps_world q) (ps_world q')) →
  newborn ctx (ps_world p) → refs (ps_world p) = {[ctx := 1]} →
  match run_command cmds argv ctx p with
  | Done status p' => nothing_left (hp (ps_world p')) ∧ (status = 0 ∨ status = EXIT_FAILURE)
  | Exited c _ => exits c
  | Fault => False
  end.
Proof.
  intros Hends Hkeep Hnew Hrefs. pose proof Hnew as (Ht & _ & _).
  enough (match run_command cmds argv ctx p with Done _ _ => True | Exited c _ => exits c | Fault => False end) as Hend.
  { destruct (run_command cmds argv ctx p) as [status p'|c p'|] eqn:Hrun; [|done..].
    destruct (run_command_frees cmds argv ctx p status p' Hkeep Ht Hrefs Hrun) as (Hnone & rc & _ & _ & ->).
    split; [done|]. destruct (rc =? 0); auto. }
  specialize (Hends p (or_introl Hnew)). specialize (Hkeep p). unfold run_command.
  destruct (main_handle_internal_command cmds argv ctx p) as [rc p1|c p1|] eqn:Hcmd.
  2: { unfold mbind, prog_bind. by rewrite Hcmd. }
  2: done.
  rewrite (bind_run _ _ _ _ _ Hcmd). destruct (Hkeep _ _ eq_refl) as (Hk1 & Hr1 & _).
  pose proof (ends_report ctx rc p1 Hends) as Hrep. unfold mbind at 1, prog_bind at 1 in Hrep. unfold mbind at 1, prog_bind at 1.
  destruct (on_world (accfg_ctx_get_last_error ctx) p1) as [e p2| |] eqn:He; [|done..].
  assert (Keep (ps_world p1) (ps_world p2)) as (Hk2 & Hr2 & _)
    by (eapply keeps_on_world, He; unfold accfg_ctx_get_last_error; keep_lib).
  destruct ((if negb (rc =? 0) && negb (e =? 0) then report_last_error ctx e else mret ()) p2) as [u p3|c p3|] eqn:Hu; cycle 1.
  { unfold mbind at 1, prog_bind at 1. by rewrite Hu. } { done. }
  rewrite (bind_run _ _ _ _ _ Hu).
  assert (Keep (ps_world p2) (ps_world p3)) as (Hk3 & Hr3 & _).
  { destruct (_ && _); [by apply keep_report in Hu|]. injection Hu as _ <-. reflexivity. }
  assert (∃ c, h_ctxs (hp (ps_world p3)) !! ctx = Some c) as [c Hc].
  { assert (refs (ps_world p3) !! ctx = Some 1) as Hx by (rewrite Hr3, Hr2, Hr1, Hrefs; apply lookup_singleton_eq).
    unfold refs, part in Hx. rewrite lookup_fmap in Hx. destruct (h_ctxs _ !! ctx) as [c|]; [eauto|done]. }
  destruct (unref_total ctx c (ps_world p3)) as (r & w4 & Hun); [auto|done|].
  unfold mbind at 1, prog_bind at 1. unfold on_world at 1, on_json at 1, JsonUtil.lib at 1, zoom at 1 2. unfold ps_world in Hun. rewrite Hun.
  by destruct (rc =? 0).
Qed.

Notation commands := (commands (F := F) (S := S) (Doc := Doc) realloc_ok ACCFG_CONF_FILE).
Notation main := (main (F := F) (S := S) (Doc := Doc) realloc_ok PREFIX ACCFG_MAN_PATH VERSION ACCFG_CONF_FILE).

(** The commands on devices and groups, which read no other kind of object. *)
Definition device_commands : list (cmd_struct (process F S)) :=
  [("enable-device", of_world (main_enable_device realloc_ok));
   ("disable-device", of_world (main_disable_device realloc_ok));
   ("config-device", of_world (main_config_device realloc_ok));
   ("config-group", of_world (main_config_group realloc_ok))].

Lemma device_commands_ends name fn ctx args :
  (name, fn) ∈ device_commands → Forall (λ a, strlen a < MAX_DEV_LEN) args → ends ctx (fn (name :: args) ctx).
Proof.
  intros Hin Hargs.
  assert (∀ m : prog (world F) Z, ends ctx m → ends ctx (on_world m : P Z)) as Hworld.
  { intros m Hm. apply ends_zoom; [done..|]. by apply ends_zoom. }
  assert (Forall short args) as Hshort.
  { eapply Forall_impl; [exact Hargs|]. intros a Ha. unfold short, MAX_DEV_LEN in *. lia. }
  unfold device_commands in Hin. rewrite !elem_of_cons in Hin.
  destruct Hin as [[= -> ->]|[[= -> ->]|[[= -> ->]|[[= -> ->]|[]%elem_of_nil]]]]; apply Hworld;
    (apply ends_after_options; [done| |done|exact Hargs|by constructor|]).
  all: try (unfold command_tables; rewrite !elem_of_cons; tauto).
  all: intros args' vars Ha.
  - apply ends_tame_bind; [by apply ends_device_action|]. intros n. by apply ends_tame_ret.
  - apply ends_tame_bind; [by apply ends_device_action|]. intros n. by apply ends_tame_ret.
  - by apply ends_config_device.
  - by apply ends_config_group.
Qed.

(** The two searches find the command, unless help is asked for. *)
Lemma device_commands_found name fn argv0 args p :
  (name, fn) ∈ device_commands → match args with a :: _ => is_help a = false | [] => True end →
  main_handle_options realloc_ok PREFIX ACCFG_MAN_PATH VERSION (argv0 :: name :: args) commands p = Done () p ∧
  ∀ ctx, main_handle_internal_command commands (name :: args) ctx = fn (name :: args) ctx.
Proof.
  intros Hin Hhelp. unfold device_commands in Hin. rewrite !elem_of_cons in Hin.
  destruct Hin as [[= -> ->]|[[= -> ->]|[[= -> ->]|[[= -> ->]|[]%elem_of_nil]]]]; (split; [|done]).
  all: unfold main_handle_options; simpl; destruct args as [|a args]; [done|by rewrite Hhelp].
Qed.

Lemma world_run {A} (m : prog (world F) A) p : always m → ∃ a p', on_world m p = Done a p' ∧ m (ps_world p) = Done a (ps_world p').
Proof.
  intros Hm. destruct (Hm (ps_world p)) as (a & w & Hrun). unfold on_world, on_json, JsonUtil.lib, zoom. unfold ps_world in *.
  rewrite Hrun. by eexists _, _.
Qed.

(** The context main makes. *)
Lemma new_runs p : tree_ok (hp (ps_world p)) → h_ctxs (hp (ps_world p)) = ∅ →
  ∃ r p', on_world accfg_new p = Done r p' ∧ match r.2 with
    | None => nothing_left (hp (ps_world p'))
    | Some ctx => newborn ctx (ps_world p') ∧ refs (ps_world p') = {[ctx := 1]}
    end.
Proof.
  intros Ht Hc. pose proof (accfg_new_tri (hp (ps_world p)) (ps_world p) (conj Ht (conj eq_refl eq_refl))) as Hpost.
  destruct (tree_without_contexts _ Ht Hc) as (_ & Hd & _).
  unfold on_world, on_json, JsonUtil.lib, zoom. unfold ps_world in *.
  destruct (accfg_new _) as [r w'| |]; [|done..]. eexists _, _. split; [done|]. simpl.
  destruct Hpost as (Ht' & Hd' & Hcase). destruct r as [rc [ctx|]]; simpl in *.
  - destruct Hcase as (_ & _ & c & (_ & Hone & Hflag & _ & _ & Herr) & Hcs). rewrite Hc, insert_empty in Hcs.
    split; [|by unfold refs, part; rewrite Hcs, map_fmap_singleton, Hone]. split; [done|]. split; [by exists c|congruence].
  - destruct Hcase as [_ Hcs]. apply tree_without_contexts; [done|congruence].
Qed.

(** C3: A command that enables, disables or configures devices, or configures groups, always comes to
    an end, from the first line of main to the last, whatever the files hold, whatever the drivers answer
    and whichever write or allocation of the library fails: undefined behaviour is never reached, and main returns
    EXIT_SUCCESS or EXIT_FAILURE with every object of the library freed, or the process is ended with a
    status of the options' parser.  The arguments are shorter than the buffers for names, and the first
    does not ask for help; the kernel's realpath answers paths within PATH_MAX and NAME_MAX.  The
    parser's own allocations are assumed to succeed below 2^63 bytes ([alloc_all]): the copy it makes of an
    unknown switch (parse-options.c:421) is used without a test for NULL. *)
Theorem device_commands_end name fn argv0 args p :
  (name, fn) ∈ device_commands → Forall (λ a, strlen a < MAX_DEV_LEN) args →
  match args with a :: _ => is_help a = false | [] => True end →
  tree_ok (hp (ps_world p)) → h_ctxs (hp (ps_world p)) = ∅ →
  match main (argv0 :: name :: args) p with
  | Done status p' => nothing_left (hp (ps_world p')) ∧ (status = 0 ∨ status = EXIT_FAILURE)
  | Exited c _ => exits c
  | Fault => False
  end.
Proof.
  intros Hin Hargs Hhelp Ht Hc. destruct (device_commands_found name fn argv0 args p Hin Hhelp) as [Hopt Hcmd].
  unfold Main.main. rewrite (bind_run _ _ _ _ _ Hopt).
  pose proof (tree_without_contexts _ Ht Hc) as Hnone.
  destruct (world_run _ p (a_access "/sys/module/idxd")) as (b & p1 & Hacc & Hp1).
  pose proof (r_access (on hp) _ _ _ _ Hp1) as Hhp. unfold on in Hhp.
  rewrite (bind_run _ _ _ _ _ Hacc). destruct b; unfold negb; cbv iota; [|split; [by rewrite Hhp|by right]].
  destruct (new_runs p1) as (r & p2 & Hnew & Hpost); [by rewrite Hhp..|]. rewrite (bind_run _ _ _ _ _ Hnew).
  destruct r as [rc [ctx|]]; [|by split; [|right]].
  destruct Hpost as [Hborn Hrefs]. change (tail (argv0 :: name :: args)) with (name :: args).
  assert ((name, fn) ∈ commands) as Hin'.
  { unfold device_commands in Hin. unfold Main.commands. rewrite !elem_of_cons in *. tauto. }
  apply run_command_ends; [| |done..]; rewrite Hcmd; [by apply device_commands_ends|].
  intros q rc' q' Hq. by eapply command_keeps.
Qed.
End main.

(** ** An instance: two devices asked for, one there *)

Definition enable_line : list string := ["dsa0"; "iax7"].
Definition enable_run : prog (process sim jstore) Z :=
  main (Doc := jtext) grants "/usr" "share/man" "4.0" "/etc/a.conf" ("accel-config" :: "enable-device" :: enable_line).

Lemma device_commands_end_witness :
  runs_to enable_run (at_start machine) 0 = true ∧
  match enable_run (at_start machine) with
  | Done status p' => nothing_left (hp (ps_world p')) ∧ (status = 0 ∨ status = EXIT_FAILURE)
  | Exited c _ => exits c
  | Fault => False
  end.
Proof.
  split; [vm_compute; reflexivity|].
  apply (device_commands_end (Doc := jtext) grants grants_all "/usr" "share/man" "4.0" "/etc/a.conf"
    "enable-device" (of_world (main_enable_device grants)) "accel-config" enable_line (at_start machine)).
  - left.
  - by apply (bool_decide_unpack _); vm_compute.
  - reflexivity.
  - exact empty_tree_ok.
  - reflexivity.
Defined.
