(* ===== verification/Bitmap.v ===== *)
(** * util/bitmap.c: bit arrays of 64-bit words

    A [uint64_t *] is the list of its words; an access outside the list is
    undefined behaviour, [None].  [bitmap_set] and [bitmap_clear] walk the same
    words with the same masks and differ in the assignment only, so they share
    [range_loop]. *)

From S2P Require Import Prelude.

(** ** util/bitmap.h and util/size.h *)

(* util/size.h:24-24 BITS_PER_LONG *)
Definition BITS_PER_LONG : Z := 64.
(* util/bitmap.h:14-14 BIT_WORD *)
Definition BIT_WORD (nr : Z) : Z := nr / BITS_PER_LONG.
(* util/bitmap.h:10-10 DIV_ROUND_UP *)
Definition DIV_ROUND_UP (n d : Z) : Z := u64 (n + d - 1) / d.
(* util/bitmap.h:15-16 BITS_TO_LONGS *)
Definition BITS_TO_LONGS (nr : Z) : Z := DIV_ROUND_UP nr (8 * 8).
(* util/bitmap.h:18-18 BITMAP_FIRST_WORD_MASK *)
Definition BITMAP_FIRST_WORD_MASK (start : Z) : Z :=
  u64 (Z.shiftl (2 ^ 64 - 1) (Z.land start (BITS_PER_LONG - 1))).
(* util/bitmap.h:19-19 BITMAP_LAST_WORD_MASK *)
Definition BITMAP_LAST_WORD_MASK (nbits : Z) : Z :=
  Z.shiftr (2 ^ 64 - 1) (Z.land (u32 (- nbits)) (BITS_PER_LONG - 1)).
(* util/util.h:43-45 round_down *)
Definition round_down (x y : Z) : Z := Z.ldiff x (y - 1).

(** ** The operations *)

(* util/bitmap.c:25-28 bitmap_alloc *)
Definition bitmap_alloc (nbits : Z) : list Z :=
  replicate (Z.to_nat (BITS_TO_LONGS nbits)) 0.

Definition word (map : list Z) (p : Z) : option Z :=
  if 0 <=? p then map !! Z.to_nat p else None.

Definition word_upd (f : Z → Z) (map : list Z) (p : Z) : option (list Z) :=
  match word map p with
  | Some w => Some (<[Z.to_nat p := f w]> map)
  | None => None
  end.

(* util/bitmap.c:37-47 bitmap_set *)
Fixpoint range_loop (upd : Z → Z → Z) (fuel : nat) (map : list Z)
    (p len bits mask size : Z) : option (list Z) :=
  match fuel with
  | O => None
  | S fuel' =>
      if 0 <=? len - bits then
        match word_upd (λ w, upd w mask) map p with
        | Some map' =>
            range_loop upd fuel' map' (p + 1) (len - bits) BITS_PER_LONG (2 ^ 64 - 1) size
        | None => None
        end
      else if len =? 0 then Some map
      else word_upd (λ w, upd w (Z.land mask (BITMAP_LAST_WORD_MASK size))) map p
  end.

(** What the two functions share: where they start, and the loop. *)
(* util/bitmap.c:32-47 bitmap_set *)
Definition range_walk (upd : Z → Z → Z) (map : list Z) (start len : Z) : option (list Z) :=
  range_loop upd (S (Z.to_nat len)) map (BIT_WORD start) len
    (BITS_PER_LONG - start mod BITS_PER_LONG)
    (BITMAP_FIRST_WORD_MASK start) (u32 (start + len)).

(* util/bitmap.c:30-48 bitmap_set *)
Definition bitmap_set (map : list Z) (start len : Z) : option (list Z) :=
  range_walk (λ w mask, Z.lor w mask) map start len.

(* util/bitmap.c:50-68 bitmap_clear *)
Definition bitmap_clear (map : list Z) (start len : Z) : option (list Z) :=
  range_walk (λ w mask, Z.land w (u64 (Z.lnot mask))) map start len.

(* util/bitmap.c:75-78 test_bit *)
Definition test_bit (nr : Z) (addr : list Z) : option Z :=
  match word addr (BIT_WORD nr) with
  | Some w => Some (Z.land 1 (Z.shiftr w (Z.land nr (BITS_PER_LONG - 1))))
  | None => None
  end.

(** [__builtin_ffsl]: one plus the index of the least significant set bit, 0 for 0. *)
Fixpoint ctz_pos (p : positive) : Z :=
  match p with
  | xO p' => 1 + ctz_pos p'
  | _ => 0
  end.

Definition builtin_ffsl (x : Z) : Z :=
  match x with
  | Zpos p => 1 + ctz_pos p
  | _ => 0
  end.

(* util/bitmap.c:99-107 _find_next_bit *)
Fixpoint find_loop (fuel : nat) (addr : list Z) (nbits start invert tmp : Z) : option Z :=
  match fuel with
  | O => None
  | S fuel' =>
      if tmp =? 0 then
        let start := start + BITS_PER_LONG in
        if nbits <=? start then Some nbits
        else match word addr (start / BITS_PER_LONG) with
             | Some w => find_loop fuel' addr nbits start invert (Z.lxor w invert)
             | None => None
             end
      else Some (Z.min (start + builtin_ffsl tmp) nbits)
  end.

(* util/bitmap.c:85-108 _find_next_bit *)
Definition _find_next_bit (addr : list Z) (nbits start invert : Z) : option Z :=
  if (nbits =? 0) || (nbits <=? start) then Some nbits
  else match word addr (start / BITS_PER_LONG) with
       | Some w =>
           find_loop (S (length addr)) addr nbits (round_down start BITS_PER_LONG) invert
             (Z.land (Z.lxor w invert) (BITMAP_FIRST_WORD_MASK start))
       | None => None
       end.

(* util/bitmap.c:113-117 find_next_bit *)
Definition find_next_bit (addr : list Z) (size offset : Z) : option Z :=
  _find_next_bit addr size offset 0.

(* util/bitmap.c:119-123 find_next_zero_bit *)
Definition find_next_zero_bit (addr : list Z) (size offset : Z) : option Z :=
  _find_next_bit addr size offset (2 ^ 64 - 1).

(** [small_const_nbits] is false here: [nbits] is the parameter of an external
    function, not a constant expression. *)
(* util/bitmap.c:125-131 bitmap_full *)
Definition bitmap_full (src : list Z) (nbits : Z) : option bool :=
  match find_next_zero_bit src nbits 0 with
  | Some r => Some (r =? nbits)
  | None => None
  end.

(** ** What a bit array means *)

Definition bit (map : list Z) (i : Z) : bool :=
  match word map (i / 64) with
  | Some w => Z.testbit w (i mod 64)
  | None => false
  end.

Definition wf (map : list Z) : Prop := Forall (λ w, 0 <= w < 2 ^ 64) map.

(** ** Masks and single words *)

Lemma land_63 x : Z.land x (BITS_PER_LONG - 1) = x mod 64.
Proof. change (BITS_PER_LONG - 1) with (Z.ones 6). by rewrite Z.land_ones. Qed.

Lemma ones_bit n : 0 <= n → Z.testbit (2 ^ 64 - 1) n = (n <? 64).
Proof.
  intros Hn. change (2 ^ 64 - 1) with (Z.ones 64).
  rewrite Z.testbit_ones by done. by destruct (Z.leb_spec 0 n); [|lia].
Qed.

Lemma first_mask_bit start n :
  0 <= n → Z.testbit (BITMAP_FIRST_WORD_MASK start) n = (start mod 64 <=? n) && (n <? 64).
Proof.
  intros Hn. unfold BITMAP_FIRST_WORD_MASK.
  rewrite testbit_u64, land_63, Z.shiftl_spec by done.
  destruct (Z.leb_spec (start mod 64) n).
  - rewrite ones_bit by lia. destruct (Z.ltb_spec n 64), (Z.ltb_spec (n - start mod 64) 64);
      Z.div_mod_to_equations; lia.
  - rewrite Z.testbit_neg_r by lia. by rewrite andb_false_r.
Qed.

Lemma last_mask_bit size n :
  0 <= n → n < 64 →
  Z.testbit (BITMAP_LAST_WORD_MASK size) n = (size mod 64 =? 0) || (n <? size mod 64).
Proof.
  intros Hn Hn'. unfold BITMAP_LAST_WORD_MASK.
  rewrite land_63, Z.shiftr_spec, ones_bit by (Z.div_mod_to_equations; lia).
  assert (u32 (- size) mod 64 = (- size) mod 64) as ->.
  { unfold u32. apply Z.mod_mod_divide. by exists (2 ^ 26). }
  destruct (Z.eqb_spec (size mod 64) 0), (Z.ltb_spec n (size mod 64)),
    (Z.ltb_spec (n + - size mod 64) 64); simpl; Z.div_mod_to_equations; lia.
Qed.

Lemma word_Some map p : 0 <= p < Z.of_nat (length map) → ∃ w, word map p = Some w.
Proof.
  intros Hp. unfold word. destruct (Z.leb_spec 0 p); [|lia].
  apply lookup_lt_is_Some. lia.
Qed.

Lemma word_upd_bit g map p w :
  word map p = Some w →
  ∃ map', word_upd g map p = Some map' ∧ length map' = length map ∧
    (∀ i, bit map' i = if i / 64 =? p then Z.testbit (g w) (i mod 64) else bit map i) ∧
    (wf map → 0 <= g w < 2 ^ 64 → wf map').
Proof.
  intros Hw. unfold word_upd. rewrite Hw. eexists; split; [done|].
  unfold word in Hw. destruct (Z.leb_spec 0 p); [|done]. repeat split.
  - by rewrite length_insert.
  - intros i. unfold bit, word. destruct (Z.eqb_spec (i / 64) p) as [->|Hne].
    + destruct (Z.leb_spec 0 p); [|lia]. rewrite list_lookup_insert_eq; [done|].
      by apply lookup_lt_Some in Hw.
    + destruct (Z.leb_spec 0 (i / 64)); [|done].
      rewrite list_lookup_insert_ne by lia. done.
  - intros Hwf Hg. by apply Forall_insert.
Qed.

Lemma wf_word map p w : wf map → word map p = Some w → 0 <= w < 2 ^ 64.
Proof.
  unfold word. intros Hwf Hw. destruct (0 <=? p); [|done].
  by eapply (Forall_lookup_1 _ _ _ _ Hwf).
Qed.

Lemma bit_word map p w n :
  word map p = Some w → 0 <= n < 64 → Z.testbit w n = bit map (64 * p + n).
Proof.
  intros Hw Hn. unfold bit.
  assert ((64 * p + n) / 64 = p ∧ (64 * p + n) mod 64 = n) as [-> ->].
  { Z.div_mod_to_equations; lia. }
  by rewrite Hw.
Qed.

(** ** Setting and clearing a range *)

Section range.
Context (upd : Z → Z → Z) (f : bool → bool → bool).
Hypothesis upd_bit : ∀ w m n, 0 <= n < 64 →
  Z.testbit (upd w m) n = f (Z.testbit m n) (Z.testbit w n).
Hypothesis upd_range : ∀ w m, 0 <= w < 2 ^ 64 → 0 <= m < 2 ^ 64 → 0 <= upd w m < 2 ^ 64.
Hypothesis f_false : ∀ b, f false b = b.

Definition range_post (map map' : list Z) (cur len : Z) : Prop :=
  length map' = length map ∧ wf map' ∧
  ∀ i, 0 <= i → bit map' i = f ((cur <=? i) && (i <? cur + len)) (bit map i).

Lemma range_tail map cur len mask w :
  wf map → 0 < len < 64 - cur mod 64 → 0 <= cur → cur + len < 2 ^ 32 →
  0 <= mask < 2 ^ 64 →
  (∀ n, 0 <= n → Z.testbit mask n = (cur mod 64 <=? n) && (n <? 64)) →
  word map (cur / 64) = Some w →
  ∃ map', word_upd (λ w, upd w (Z.land mask (BITMAP_LAST_WORD_MASK (u32 (cur + len)))))
            map (cur / 64) = Some map' ∧ range_post map map' cur len.
Proof.
  intros Hwf Hlen Hcur Hsize Hm Hmask Hw.
  destruct (word_upd_bit (λ w, upd w (Z.land mask (BITMAP_LAST_WORD_MASK (u32 (cur + len)))))
    map _ _ Hw) as (map' & Hupd & Hl & Hbit & Hwf').
  exists map'. split; [done|]. split; [done|]. split.
  { apply Hwf'; [done|]. apply upd_range; [by eapply wf_word|].
    apply bits_u64_range; [apply Z.land_nonneg; lia|].
    intros n Hn. rewrite Z.land_spec, Hmask by lia.
    by destruct (Z.ltb_spec n 64); [lia|rewrite andb_false_r]. }
  intros i Hi. rewrite Hbit. rewrite u32_id by (Z.div_mod_to_equations; lia).
  destruct (Z.eqb_spec (i / 64) (cur / 64)) as [He|Hne].
  - rewrite upd_bit, Z.land_spec, Hmask, last_mask_bit by (Z.div_mod_to_equations; lia).
    f_equal; [|unfold bit; by rewrite He, Hw].
    apply Bool.eq_iff_eq_true. rewrite !andb_true_iff, orb_true_iff, !Z.leb_le, !Z.ltb_lt, Z.eqb_eq.
    Z.div_mod_to_equations; lia.
  - assert ((cur <=? i) && (i <? cur + len) = false) as ->; [|by rewrite f_false].
    apply andb_false_iff. rewrite Z.leb_gt, Z.ltb_ge. Z.div_mod_to_equations; lia.
Qed.

Lemma range_loop_spec fuel : ∀ map cur len mask,
  (Z.to_nat len < fuel)%nat → wf map → 0 <= cur → 0 <= len →
  cur + len <= 64 * Z.of_nat (length map) → cur + len < 2 ^ 32 →
  0 <= mask < 2 ^ 64 →
  (∀ n, 0 <= n → Z.testbit mask n = (cur mod 64 <=? n) && (n <? 64)) →
  ∃ map', range_loop upd fuel map (cur / 64) len (64 - cur mod 64) mask (u32 (cur + len))
            = Some map' ∧ range_post map map' cur len.
Proof.
  induction fuel as [|fuel IH]; intros map cur len mask Hf Hwf Hcur Hlen Hfit Hsz Hm Hmask; [lia|].
  simpl. destruct (Z.leb_spec 0 (len - (64 - cur mod 64))) as [Hfull|Hpart].
  - destruct (word_Some map (cur / 64)) as [w Hw]; [Z.div_mod_to_equations; lia|].
    destruct (word_upd_bit (λ w, upd w mask) map _ _ Hw) as (map1 & -> & Hl1 & Hb1 & Hwf1).
    set (cur' := cur + (64 - cur mod 64)). set (len' := len - (64 - cur mod 64)).
    assert (cur' mod 64 = 0 ∧ cur' / 64 = cur / 64 + 1) as [Hc0 Hc1].
    { subst cur'. Z.div_mod_to_equations; lia. }
    destruct (IH map1 cur' len' (2 ^ 64 - 1)) as (map' & Hrun & Hl & Hwf' & Hb).
    all: try (subst cur' len'; Z.div_mod_to_equations; lia).
    { apply Hwf1; [done|]. apply upd_range; [by eapply wf_word|done]. }
    { intros n Hn. rewrite ones_bit, Hc0 by done. by destruct (Z.leb_spec 0 n); [|lia]. }
    exists map'. rewrite Hc0, Hc1, Z.sub_0_r in Hrun.
    replace (cur' + len') with (cur + len) in * by (subst cur' len'; lia).
    split; [exact Hrun|]. split; [lia|]. split; [done|].
    intros i Hi. rewrite Hb, Hb1 by done.
    destruct (Z.eqb_spec (i / 64) (cur / 64)) as [He|Hne].
    + rewrite upd_bit, Hmask by (Z.div_mod_to_equations; lia).
      assert ((cur' <=? i) && (i <? cur + len) = false) as ->.
      { apply andb_false_iff. rewrite Z.leb_gt, Z.ltb_ge. subst cur' len'.
        Z.div_mod_to_equations; lia. }
      rewrite f_false. f_equal; [|unfold bit; by rewrite He, Hw].
      apply Bool.eq_iff_eq_true. rewrite !andb_true_iff, !Z.leb_le, !Z.ltb_lt.
      subst cur' len'. Z.div_mod_to_equations; lia.
    + f_equal. apply Bool.eq_iff_eq_true. rewrite !andb_true_iff, !Z.leb_le, !Z.ltb_lt.
      subst cur' len'. Z.div_mod_to_equations; lia.
  - destruct (Z.eqb_spec len 0) as [->|Hne].
    + exists map. split; [done|]. repeat split; [done..|]. intros i Hi.
      assert ((cur <=? i) && (i <? cur + 0) = false) as ->; [|by rewrite f_false].
      apply andb_false_iff. rewrite Z.leb_gt, Z.ltb_ge. lia.
    + destruct (word_Some map (cur / 64)) as [w Hw]; [Z.div_mod_to_equations; lia|].
      apply (range_tail _ _ _ _ w); [done|lia|done|lia|done|done|done].
Qed.

Lemma range_walk_spec map start len :
  wf map → 0 <= start → 0 <= len → start + len <= 64 * Z.of_nat (length map) →
  start + len < 2 ^ 32 →
  ∃ map', range_walk upd map start len = Some map' ∧ range_post map map' start len.
Proof.
  intros. apply range_loop_spec; [lia|done..|apply u64_range|]. apply first_mask_bit.
Qed.
End range.

(** ** Searching *)

Lemma ctz_pos_spec p :
  0 <= ctz_pos p ∧ Z.testbit (Zpos p) (ctz_pos p) = true ∧
  ∀ k, 0 <= k < ctz_pos p → Z.testbit (Zpos p) k = false.
Proof.
  induction p as [p _|p (H0 & H1 & H2)|]; simpl.
  - split; [lia|]. split; [done|lia].
  - rewrite (Pos2Z.inj_xO p). split; [lia|]. split.
    + rewrite Z.add_1_l, Z.testbit_even_succ by done. done.
    + intros k Hk. destruct (decide (k = 0)) as [->|]; [by rewrite Z.testbit_even_0|].
      replace k with (Z.succ (k - 1)) by lia. rewrite Z.testbit_even_succ by lia.
      apply H2; lia.
  - split; [lia|]. split; [done|lia].
Qed.

Section find.
Context (map : list Z) (nbits invert : Z) (inv : bool).
Hypothesis map_wf : wf map.
Hypothesis map_fits : nbits <= 64 * Z.of_nat (length map).
Hypothesis invert_bit : ∀ n, 0 <= n < 64 → Z.testbit invert n = inv.
Hypothesis invert_range : 0 <= invert < 2 ^ 64.

Let b (i : Z) : bool := xorb (bit map i) inv.

Definition find_post (lo r : Z) : Prop :=
  ((∀ i, lo <= i < nbits → b i = false) → r = nbits) ∧
  (∀ k, lo <= k < nbits → b k = true → (∀ i, lo <= i < k → b i = false) →
        r = Z.min (k + 1) nbits).

Lemma find_hit start lo p :
  0 <= start → start mod 64 = 0 → lo < start + 64 → Zpos p < 2 ^ 64 →
  (∀ n, 0 <= n < 64 → Z.testbit (Zpos p) n = (lo <=? start + n) && b (start + n)) →
  find_post (Z.max lo start) (Z.min (start + (1 + ctz_pos p)) nbits).
Proof.
  intros Hs Hm Hlo Hp Htmp. destruct (ctz_pos_spec p) as (Hc0 & Hc1 & Hc2).
  assert (ctz_pos p < 64) as Hc.
  { destruct (Z.lt_ge_cases (ctz_pos p) 64) as [|Hge]; [done|].
    by rewrite (testbit_bound _ 64) in Hc1 by lia. }
  rewrite Htmp in Hc1 by lia. apply andb_true_iff in Hc1 as [Hc1 Hbc].
  apply Z.leb_le in Hc1. split.
  - intros Hall. destruct (Z.lt_ge_cases (start + ctz_pos p) nbits); [|lia].
    rewrite Hall in Hbc by lia. done.
  - intros k Hk Hbk Hfirst.
    assert (start + ctz_pos p <= k ∨ k < start + ctz_pos p) as [Hle|Hlt] by lia.
    + destruct (decide (start + ctz_pos p = k)) as [|]; [lia|].
      rewrite Hfirst in Hbc by lia. done.
    + assert (Z.testbit (Zpos p) (k - start) = true) as Ht.
      { rewrite Htmp by lia. rewrite Z.add_sub_assoc, Z.add_simpl_l, Hbk, andb_true_r.
        apply Z.leb_le. lia. }
      rewrite Hc2 in Ht by lia. done.
Qed.

Lemma find_loop_spec fuel : ∀ start lo tmp,
  0 <= start → start mod 64 = 0 → start < nbits → lo < start + 64 →
  (Z.to_nat (Z.of_nat (length map) - start / 64) < fuel)%nat → 0 <= tmp < 2 ^ 64 →
  (∀ n, 0 <= n < 64 → Z.testbit tmp n = (lo <=? start + n) && b (start + n)) →
  ∃ r, find_loop fuel map nbits start invert tmp = Some r ∧ find_post (Z.max lo start) r.
Proof.
  induction fuel as [|fuel IH]; intros start lo tmp Hs Hm Hn Hlo Hf Htr Htmp; [lia|].
  destruct tmp as [|p|p]; [| |lia].
  2: { exists (Z.min (start + builtin_ffsl (Zpos p)) nbits). split; [done|].
       apply find_hit; [lia..|done]. }
  assert (∀ i, Z.max lo start <= i < start + 64 → b i = false) as Hnone.
  { intros i Hi. specialize (Htmp (i - start) ltac:(lia)).
    rewrite Z.bits_0, Z.add_sub_assoc, Z.add_simpl_l in Htmp.
    destruct (Z.leb_spec lo i); [done|lia]. }
  cbn [find_loop]. change (0 =? 0) with true. cbv iota zeta. unfold BITS_PER_LONG.
  destruct (Z.leb_spec nbits (start + 64)).
  { exists nbits. split; [done|]. split; [done|]. intros k Hk Hbk.
    by rewrite Hnone in Hbk by lia. }
  assert ((start + 64) / 64 = start / 64 + 1) as Hdiv by (Z.div_mod_to_equations; lia).
  destruct (word_Some map ((start + 64) / 64)) as [w Hw]; [Z.div_mod_to_equations; lia|].
  rewrite Hw. pose proof (wf_word _ _ _ map_wf Hw) as Hwr.
  destruct (IH (start + 64) lo (Z.lxor w invert)) as (r & Hr & Hall & Hfst).
  1-5: Z.div_mod_to_equations; lia.
  { apply bits_u64_range; [by apply Z.lxor_nonneg; lia|]. intros n Hn64.
    by rewrite Z.lxor_spec, !(testbit_bound _ 64) by lia. }
  { intros n Hn64. destruct (Z.leb_spec lo (start + 64 + n)); [|lia].
    rewrite Z.lxor_spec, invert_bit, (bit_word _ _ _ _ Hw) by done. simpl. unfold b.
    do 2 f_equal. Z.div_mod_to_equations; lia. }
  exists r. split; [done|]. split.
  - intros Hz. apply Hall. intros i Hi. apply Hz. lia.
  - intros k Hk Hbk Hz.
    assert (start + 64 <= k).
    { destruct (Z.lt_ge_cases k (start + 64)); [|lia]. rewrite Hnone in Hbk by lia. done. }
    apply Hfst; [lia|done|]. intros i Hi. apply Hz; lia.
Qed.

Lemma find_next_spec start :
  0 <= start → 0 <= nbits → start < nbits →
  ∃ r, _find_next_bit map nbits start invert = Some r ∧ find_post start r.
Proof.
  intros Hs Hn Hlt. unfold _find_next_bit.
  destruct (Z.eqb_spec nbits 0), (Z.leb_spec nbits start); [lia..|]. simpl.
  unfold BITS_PER_LONG.
  destruct (word_Some map (start / 64)) as [w Hw]; [Z.div_mod_to_equations; lia|].
  rewrite Hw. pose proof (wf_word _ _ _ map_wf Hw) as Hwr.
  assert (round_down start 64 = 64 * (start / 64)) as ->.
  { unfold round_down. change (64 - 1) with (Z.ones 6).
    rewrite Z.ldiff_ones_r, Z.shiftl_mul_pow2, Z.shiftr_div_pow2 by lia.
    change (2 ^ 6) with 64. lia. }
  destruct (find_loop_spec (S (length map)) (64 * (start / 64)) start
    (Z.land (Z.lxor w invert) (BITMAP_FIRST_WORD_MASK start))) as (r & Hr & Hpost).
  1-5: rewrite ?(Z.mul_comm 64), ?Z.mod_mul, ?Z.div_mul by lia; Z.div_mod_to_equations; lia.
  { apply bits_u64_range.
    { apply Z.land_nonneg. right. apply u64_range. }
    intros m Hm64. rewrite Z.land_spec, Z.lxor_spec, !(testbit_bound _ 64) by lia. done. }
  { intros m Hm64. rewrite Z.land_spec, Z.lxor_spec, invert_bit, first_mask_bit by lia.
    rewrite (bit_word _ _ _ _ Hw) by lia. rewrite andb_comm. unfold b. f_equal.
    apply Bool.eq_iff_eq_true. rewrite andb_true_iff, !Z.leb_le, Z.ltb_lt.
    Z.div_mod_to_equations; lia. }
  exists r. split; [done|].
  replace (Z.max start (64 * (start / 64))) with start in Hpost; [done|].
  Z.div_mod_to_equations; lia.
Qed.
End find.

(** * Properties *)

(** C40: [bitmap_set map start len] stays inside the array whenever the bits
    [start .. start+len) do, and afterwards exactly those bits are set: every other bit,
    the number of words and their 64-bit range are what they were. *)
Theorem bitmap_set_spec map start len :
  wf map → 0 <= start → 0 <= len → start + len <= 64 * Z.of_nat (length map) →
  start + len < 2 ^ 32 →
  ∃ map', bitmap_set map start len = Some map' ∧ length map' = length map ∧ wf map' ∧
    ∀ i, 0 <= i → bit map' i = (start <=? i) && (i <? start + len) || bit map i.
Proof.
  intros. apply (range_walk_spec _ orb); [| |done..].
  - intros w m n Hn. by rewrite Z.lor_spec, orb_comm.
  - intros w m Hw Hm. apply bits_u64_range; [by apply Z.lor_nonneg; lia|].
    intros n Hn. by rewrite Z.lor_spec, !(testbit_bound _ 64) by lia.
Qed.

(** [bitmap_clear map start len] stays inside the array and clears exactly
    the bits [start .. start+len). *)
Theorem bitmap_clear_spec map start len :
  wf map → 0 <= start → 0 <= len → start + len <= 64 * Z.of_nat (length map) →
  start + len < 2 ^ 32 →
  ∃ map', bitmap_clear map start len = Some map' ∧ length map' = length map ∧ wf map' ∧
    ∀ i, 0 <= i → bit map' i = negb ((start <=? i) && (i <? start + len)) && bit map i.
Proof.
  intros. apply (range_walk_spec _ (λ m b, negb m && b)); [| |done..].
  - intros w m n Hn. rewrite Z.land_spec, testbit_u64, Z.lnot_spec by lia.
    destruct (Z.ltb_spec n 64); [|lia]. by rewrite andb_comm.
  - intros w m Hw Hm. apply bits_u64_range; [apply Z.land_nonneg; lia|].
    intros n Hn. by rewrite Z.land_spec, !(testbit_bound _ 64) by lia.
Qed.

(** [find_next_bit map size offset] reads only words of the array and
    terminates; with no bit of [offset .. size) set it returns [size], and with a first set
    bit [k] it returns [min (k+1) size], one more than the bit's index, since
    [__builtin_ffsl] counts from one. *)
Theorem find_next_bit_spec map size offset :
  wf map → 0 <= offset → 0 <= size <= 64 * Z.of_nat (length map) →
  ∃ r, find_next_bit map size offset = Some r ∧
    ((∀ i, offset <= i < size → bit map i = false) → r = size) ∧
    (∀ k, offset <= k < size → bit map k = true → (∀ i, offset <= i < k → bit map i = false) →
          r = Z.min (k + 1) size).
Proof.
  intros Hwf Ho Hs. destruct (Z.lt_ge_cases offset size).
  - destruct (find_next_spec map size 0 false) with (start := offset) as (r & Hr & H1 & H2);
      [done|lia|intros; apply Z.bits_0|done|lia..|].
    exists r. split; [done|]. setoid_rewrite xorb_false_r in H1.
    setoid_rewrite xorb_false_r in H2. done.
  - exists size. unfold find_next_bit, _find_next_bit.
    destruct (Z.leb_spec size offset); [|lia]. rewrite orb_true_r.
    split; [done|]. split; [done|]. intros; lia.
Qed.

(** [bitmap_full src nbits] answers 1 exactly when the bits
    [0 .. nbits-1), all but the last, are set: the search it relies on reports a zero in the
    last bit as [nbits]. *)
Theorem bitmap_full_spec map nbits :
  wf map → 0 < nbits <= 64 * Z.of_nat (length map) →
  ∃ r, bitmap_full map nbits = Some r ∧
    (r = true ↔ ∀ i, 0 <= i < nbits - 1 → bit map i = true).
Proof.
  intros Hwf Hn. unfold bitmap_full, find_next_zero_bit.
  destruct (find_next_spec map nbits (2 ^ 64 - 1) true) with (start := 0)
    as (r & -> & Hall & Hfst); [done|lia| |done || lia..|].
  { intros n Hn64. rewrite ones_bit by lia. apply Z.ltb_lt. lia. }
  setoid_rewrite xorb_true_r in Hall. setoid_rewrite xorb_true_r in Hfst.
  setoid_rewrite negb_true_iff in Hfst. setoid_rewrite negb_false_iff in Hfst.
  setoid_rewrite negb_false_iff in Hall.
  exists (r =? nbits). split; [done|]. rewrite Z.eqb_eq.
  assert (∀ m : nat, Z.of_nat m <= nbits → (∀ i, 0 <= i < Z.of_nat m → bit map i = true) ∨
    ∃ k, 0 <= k < Z.of_nat m ∧ bit map k = false ∧ ∀ i, 0 <= i < k → bit map i = true) as Hscan.
  { induction m as [|m IH]; intros Hm; [left; lia|]. destruct IH as [IH|(k & ? & ?)]; [lia| |].
    - destruct (bit map (Z.of_nat m)) eqn:Hb.
      + left. intros i Hi. destruct (decide (i = Z.of_nat m)) as [->|]; [done|]. apply IH; lia.
      + right. exists (Z.of_nat m). split; [lia|]. done.
    - right. exists k. split; [lia|done]. }
  destruct (Hscan (Z.to_nat nbits)) as [Hset|(k & Hk & Hbk & Hlow)]; [lia| |].
  - split; [|intros _]; [intros _ i Hi; apply Hset; lia|].
    apply Hall. intros i Hi. apply Hset. lia.
  - rewrite (Hfst k) by (done || lia). split.
    + intros Hmin i Hi. apply Hlow. lia.
    + intros Hfull. destruct (Z.lt_ge_cases k (nbits - 1)); [|lia].
      rewrite Hfull in Hbk by lia. done.
Qed.

(** ** Instances *)

Lemma wf_list l : forallb (λ w, (0 <=? w) && (w <? 2 ^ 64)) l = true → wf l.
Proof. intros H. apply Forall_forall. intros w Hw. rewrite forallb_forall in H.
  apply list_elem_of_In, H in Hw. lia. Qed.

Lemma bitmap_set_spec_witness :
  bitmap_set [0; 0] 60 10 = Some [0xF000000000000000; 0x3F] ∧
  ∃ map', bitmap_set [0; 0] 60 10 = Some map' ∧ length map' = 2%nat ∧ wf map' ∧
    ∀ i, 0 <= i → bit map' i = (60 <=? i) && (i <? 60 + 10) || bit [0; 0] i.
Proof.
  split; [reflexivity|].
  apply (bitmap_set_spec [0; 0] 60 10); [by apply wf_list|simpl; lia..].
Defined.

Lemma bitmap_clear_spec_witness :
  bitmap_clear [2 ^ 64 - 1; 2 ^ 64 - 1] 60 10 = Some [0x0FFFFFFFFFFFFFFF; 0xFFFFFFFFFFFFFFC0] ∧
  ∃ map', bitmap_clear [2 ^ 64 - 1; 2 ^ 64 - 1] 60 10 = Some map' ∧ length map' = 2%nat ∧ wf map' ∧
    ∀ i, 0 <= i → bit map' i =
      negb ((60 <=? i) && (i <? 60 + 10)) && bit [2 ^ 64 - 1; 2 ^ 64 - 1] i.
Proof.
  split; [reflexivity|].
  apply (bitmap_clear_spec [2 ^ 64 - 1; 2 ^ 64 - 1] 60 10); [by apply wf_list|simpl; lia..].
Defined.

(** Bit 66 is the only one set: the search from bit 3 answers 67. *)
Lemma find_next_bit_spec_witness :
  find_next_bit [0; 4] 128 3 = Some 67 ∧
  ∃ r, find_next_bit [0; 4] 128 3 = Some r ∧
    ((∀ i, 3 <= i < 128 → bit [0; 4] i = false) → r = 128) ∧
    (∀ k, 3 <= k < 128 → bit [0; 4] k = true → (∀ i, 3 <= i < k → bit [0; 4] i = false) →
          r = Z.min (k + 1) 128).
Proof.
  split; [reflexivity|].
  apply (find_next_bit_spec [0; 4] 128 3); [by apply wf_list|simpl; lia..].
Defined.

(** Bit 67, the last of 68, is clear, and the array counts as full. *)
Lemma bitmap_full_spec_witness :
  bitmap_full [2 ^ 64 - 1; 0x7] 68 = Some true ∧
  ∃ r, bitmap_full [2 ^ 64 - 1; 0x7] 68 = Some r ∧
    (r = true ↔ ∀ i, 0 <= i < 68 - 1 → bit [2 ^ 64 - 1; 0x7] i = true).
Proof.
  split; [reflexivity|].
  apply (bitmap_full_spec [2 ^ 64 - 1; 0x7] 68); [by apply wf_list|simpl; lia].
Defined.
