(* ===== verification/Str.v ===== *)
(** * ccan/str: comparisons of strings, counting, classes of characters

    The functions and macros of ccan/str/str.h and ccan/str/str.c, with their theorems.
    A [char] is a byte; the classes are those of the C locale. *)

From S2P Require Import Prelude CString.
Local Open Scope string_scope.
Local Open Scope Z_scope.

(** ** Comparisons *)

(* ccan/str/str.h:21-21 streq *)
Definition streq (a b : string) : bool := strcmp_eq a b.

(* ccan/str/str.h:32-32 strstarts *)
Definition strstarts (str prefix : string) : bool := strncmp_eq str prefix (strlen prefix).

(** [str + n]. *)
Definition from (n : nat) (str : string) : string := String.substring n (String.length str - n) str.

(* ccan/str/str.h:43-49 strends *)
Definition strends (str postfix : string) : bool :=
  if strlen str <? strlen postfix then false
  else streq (from (String.length str - String.length postfix) str) postfix.

(** ** Counting *)

(** [strstr]: what is left of the haystack from the first occurrence on. *)
Fixpoint strstr (haystack needle : string) : option string :=
  if String.prefix needle haystack then Some haystack
  else match haystack with String _ t => strstr t needle | EmptyString => None end.

(** The loop has fuel; [None] is a loop that does not end. *)
Fixpoint strcount_loop (fuel : nat) (haystack needle : string) (i : Z) : option Z :=
  match fuel with
  | O => None
  | S n =>
      match strstr haystack needle with
      | None => Some i
      | Some t => strcount_loop n (from (String.length needle) t) needle (i + 1)
      end
  end.

(** One step for each character and one to see the end. *)
(* ccan/str/str.c:4-13 strcount *)
Definition strcount (haystack needle : string) : option Z :=
  strcount_loop (S (String.length haystack)) haystack needle 0.

(** ** The room for a number *)

(** The bytes for the text of an integer of [n] bytes. *)
(* ccan/str/str.h:90-92 STR_MAX_CHARS *)
Definition STR_MAX_CHARS (n : Z) : Z := (n * 8 + 8) / 9 * 3 + 2.

(** ** Classes of characters *)

Definition between (a b : Z) (c : ascii) : bool := (a <=? code c) && (code c <=? b).

(* ccan/str/str.h:132-135 cisdigit *)
Definition cisdigit (c : ascii) : bool := between 48 57 c.
(* ccan/str/str.h:140-143 cislower *)
Definition cislower (c : ascii) : bool := islower c.
(* ccan/str/str.h:156-159 cisupper *)
Definition cisupper (c : ascii) : bool := between 65 90 c.
(* ccan/str/str.h:114-117 cisalpha *)
Definition cisalpha (c : ascii) : bool := cislower c || cisupper c.
(* ccan/str/str.h:110-113 cisalnum *)
Definition cisalnum (c : ascii) : bool := cisalpha c || cisdigit c.
(* ccan/str/str.h:118-121 cisascii *)
Definition cisascii (c : ascii) : bool := code c <? 128.
(* ccan/str/str.h:123-126 cisblank *)
Definition cisblank (c : ascii) : bool := (code c =? 32) || (code c =? 9).
(* ccan/str/str.h:128-131 ciscntrl *)
Definition ciscntrl (c : ascii) : bool := between 0 31 c || (code c =? 127).
(* ccan/str/str.h:136-139 cisgraph *)
Definition cisgraph (c : ascii) : bool := between 33 126 c.
(* ccan/str/str.h:144-147 cisprint *)
Definition cisprint (c : ascii) : bool := between 32 126 c.
(* ccan/str/str.h:148-151 cispunct *)
Definition cispunct (c : ascii) : bool := cisgraph c && negb (cisalnum c).
(* ccan/str/str.h:152-155 cisspace *)
Definition cisspace (c : ascii) : bool := isspace c.
(* ccan/str/str.h:160-163 cisxdigit *)
Definition cisxdigit (c : ascii) : bool := cisdigit c || between 97 102 c || between 65 70 c.

(** ** Lemmas *)

Lemma substring_app (s t : string) : String.substring 0 (String.length s) (s +:+ t) = s.
Proof. induction s as [|c s IH]; [by destruct t|]. rewrite append_cons. simpl. by rewrite IH. Qed.

Lemma from_app s t : from (String.length s) (s +:+ t) = t.
Proof.
  unfold from. rewrite append_length. replace (String.length s + String.length t - String.length s)%nat with (String.length t) by lia.
  induction s as [|c s IH]; [apply substring_all|]. rewrite append_cons. exact IH.
Qed.

Lemma split_at n s : (n <= String.length s)%nat → ∃ a, s = a +:+ from n s ∧ String.length a = n.
Proof.
  revert s. induction n as [|n IH]; intros s Hn.
  - exists "". split; [|done]. unfold from. by rewrite Nat.sub_0_r, substring_all.
  - destruct s as [|c s]; simpl in Hn; [lia|]. destruct (IH s) as (a & Ha & Hl); [lia|].
    exists (String c a). rewrite append_cons. simpl. split; [by f_equal|by rewrite Hl].
Qed.

Lemma prefix_spec p s : String.prefix p s = true ↔ ∃ t, s = p +:+ t.
Proof.
  revert s. induction p as [|c p IH]; intros s; simpl.
  - destruct s; (split; [|done]; eauto).
  - destruct s as [|x s]; [split; [done|by intros [t ?]]|]. simpl. destruct (ascii_dec c x) as [->|Hne].
    + rewrite IH. split; intros [t Ht]; exists t; [by rewrite append_cons, Ht|]. rewrite append_cons in Ht. by injection Ht.
    + split; [done|]. intros [t Ht]. rewrite append_cons in Ht. congruence.
Qed.

(** A string starts with a prefix exactly when it is the prefix and something after it, and
    ends with a postfix exactly when it is something and the postfix. *)
Lemma strstarts_spec s p : strstarts s p = true ↔ ∃ t, s = p +:+ t.
Proof.
  unfold strstarts, strncmp_eq, strlen. rewrite Nat2Z.id, String.eqb_eq, (substring_all p). split.
  - intros Hs. revert s Hs. induction p as [|c p IH]; intros s Hs; [by exists s|].
    destruct s as [|x s]; [done|]. simpl in Hs. injection Hs as -> Hs. destruct (IH s Hs) as [t ->]. by exists t.
  - intros [t ->]. apply substring_app.
Qed.

Lemma strends_spec s p : strends s p = true ↔ ∃ t, s = t +:+ p.
Proof.
  unfold strends, streq, strcmp_eq, strlen. destruct (Z.ltb_spec (Z.of_nat (String.length s)) (Z.of_nat (String.length p))) as [Hlt|Hge].
  - split; [done|]. intros [t ->]. rewrite append_length in Hlt. lia.
  - rewrite String.eqb_eq. split.
    + intros Hp. destruct (split_at (String.length s - String.length p) s) as (a & Ha & _); [lia|].
      exists a. by rewrite Hp in Ha.
    + intros [t ->]. rewrite append_length.
      replace (String.length t + String.length p - String.length p)%nat with (String.length t) by lia. apply from_app.
Qed.

(** [strstr] finds the first occurrence. *)
Definition occurs_in (needle s : string) : Prop := ∃ a b, s = a +:+ needle +:+ b.
Lemma append_inj (a b s t : string) : a +:+ s = b +:+ t → String.length a = String.length b → a = b ∧ s = t.
Proof.
  revert b. induction a as [|c a IH]; intros [|x b] He Hl; try done. rewrite !append_cons in He. injection He as -> He.
  simpl in Hl. destruct (IH b He) as [-> ->]; [lia|done].
Qed.

Lemma strstr_eq s needle : strstr s needle =
  if String.prefix needle s then Some s
  else match s with String _ t => strstr t needle | EmptyString => None end.
Proof. by destruct s. Qed.

Lemma strstr_spec s needle : match strstr s needle with
  | Some t => ∃ a b, s = a +:+ needle +:+ b ∧ t = needle +:+ b ∧
      ∀ x y, s = x +:+ needle +:+ y → (String.length a <= String.length x)%nat
  | None => ¬ occurs_in needle s
  end.
Proof.
  induction s as [|c s IH]; rewrite strstr_eq.
  - destruct (String.prefix needle "") eqn:Hp.
    + apply prefix_spec in Hp as [t Ht]. exists "", t. split_and!; [done..|]. simpl. lia.
    + intros (a & b & Hs). assert (needle = "") as ->; [|done].
      destruct a; [|done]. by destruct needle.
  - destruct (String.prefix needle (String c s)) eqn:Hp.
    + apply prefix_spec in Hp as [t Ht]. exists "", t. split_and!; [done..|]. simpl. lia.
    + assert (∀ x y, String c s = x +:+ needle +:+ y → ∃ x', x = String c x' ∧ s = x' +:+ needle +:+ y) as Hin.
      { intros [|d x] y Hs; [|rewrite append_cons in Hs; injection Hs as -> Hs; eauto].
        enough (String.prefix needle (String c s) = true) by congruence. apply prefix_spec. eauto. }
      destruct (strstr s needle) as [t|].
      * destruct IH as (a & b & -> & -> & Hmin). exists (String c a), b. split_and!; [done..|].
        intros x y (x' & -> & Hx)%Hin. simpl. apply Hmin in Hx. lia.
      * intros (x & y & (x' & _ & Hx)%Hin). apply IH. by exists x', y.
Qed.

(** *** Counting *)

(** The pieces with the needle between them. *)
Fixpoint pack (needle : string) (l : list string) : string :=
  match l with
  | [] => ""
  | [x] => x
  | x :: l' => x +:+ needle +:+ pack needle l'
  end.

Lemma pack_cons needle x y l : pack needle (x :: y :: l) = x +:+ needle +:+ pack needle (y :: l).
Proof. done. Qed.

Lemma pack_grow needle c x l : pack needle ((c +:+ x) :: l) = c +:+ pack needle (x :: l).
Proof. destruct l as [|y l]; [done|]. by rewrite !pack_cons, append_assoc. Qed.

(** What follows a shorter beginning has what follows a longer one at its end. *)
Lemma append_shift (a b s t : string) : a +:+ s = b +:+ t → (String.length a <= String.length b)%nat → ∃ c, s = c +:+ t.
Proof.
  intros He Hl. destruct (split_at (String.length a) b Hl) as (a' & Hb & Ha'). exists (from (String.length a) b).
  rewrite Hb, append_assoc in He. by apply append_inj in He as [_ ->].
Qed.

(** No more than [n] copies of the needle fit in [s] side by side, and [n] do. *)
Definition most (needle s : string) (n : nat) : Prop :=
  (∃ l, length l = S n ∧ s = pack needle l) ∧ ∀ x l, s = pack needle (x :: l) → (length l <= n)%nat.

Lemma strcount_loop_spec needle fuel s i :
  needle ≠ "" → (String.length s < fuel)%nat →
  ∃ n, strcount_loop fuel s needle i = Some (i + Z.of_nat n) ∧ most needle s n.
Proof.
  intros Hn. revert s i. induction fuel as [|fuel IH]; intros s i Hf; [lia|]. simpl.
  pose proof (strstr_spec s needle) as Hs. destruct (strstr s needle) as [t|].
  - destruct Hs as (a & b & -> & -> & Hmin). rewrite from_app. rewrite !append_length in Hf.
    assert (String.length needle ≠ 0%nat) by by destruct needle.
    destruct (IH b (i + 1)) as (n & -> & (l & Hl & ->) & Hmost); [lia|]. exists (S n). split; [f_equal; lia|]. split.
    + destruct l as [|y l]; [done|]. exists (a :: y :: l). split; [simpl in *; lia|done].
    + intros x [|y l'] He; [simpl; lia|]. rewrite pack_cons in He. pose proof (Hmin _ _ He) as Hle.
      rewrite <- !append_assoc in He. destruct (append_shift _ _ _ _ He) as [c Hc]; [rewrite !append_length; lia|].
      rewrite <- pack_grow in Hc. apply Hmost in Hc. simpl. lia.
  - exists 0%nat. split; [f_equal; lia|]. split; [by exists [s]|]. intros x [|y l] He; [simpl; lia|].
    destruct Hs. rewrite He, pack_cons. by eexists _, _.
Qed.

(** Counting ends for every needle but the empty one and answers the largest number of copies of the
    needle that are in the haystack side by side. *)
Theorem strcount_spec haystack needle : needle ≠ "" →
  ∃ n, strcount haystack needle = Some (Z.of_nat n) ∧ most needle haystack n.
Proof. intros Hn. destruct (strcount_loop_spec needle (S (String.length haystack)) haystack 0) as (n & Hc & Hm); [done|lia|]. eauto. Qed.

(** The empty needle is found again and again where it was found: the loop does not end. *)
Lemma strcount_empty fuel haystack i : strcount_loop fuel haystack "" i = None.
Proof.
  revert i. induction fuel as [|fuel IH]; intros i; [done|]. simpl. rewrite strstr_eq.
  assert (from 0 haystack = haystack) as Hf by (unfold from; by rewrite Nat.sub_0_r, substring_all).
  destruct haystack; simpl; by rewrite Hf.
Qed.

(** *** The room for a number *)

Lemma room_digits n : 0 < n → 2 ^ (8 * n) <= 10 ^ (3 * ((n * 8 + 8) / 9)).
Proof.
  intros Hn. assert (8 * n <= 9 * ((n * 8 + 8) / 9)) as Hk by (Z.div_mod_to_equations; lia).
  etransitivity; [apply Z.pow_le_mono_r; [lia|exact Hk]|]. rewrite !Z.pow_mul_r by (Z.div_mod_to_equations; lia).
  apply Z.pow_le_mono_l. lia.
Qed.

Lemma print_base_length base v k : 2 <= base → 0 <= v < base ^ k → 0 < k → strlen (print_base base v) <= k.
Proof.
  intros Hb Hv Hk. unfold print_base, strlen.
  pose proof (print_digits_length base (S (Z.to_nat (Z.log2 v))) v "" (pred (Z.to_nat k)) Hb) as Hlen.
  rewrite Nat.succ_pred in Hlen by lia. rewrite Z2Nat.id in Hlen by lia. simpl (String.length "") in Hlen. lia.
Qed.

(** [STR_MAX_CHARS] is enough for the text of any value of the type, signed or not, in decimal, and for the
    hexadecimal digits with 0x in front, the NUL included. *)
Theorem STR_MAX_CHARS_enough n v : 0 < n →
  (- 2 ^ (8 * n - 1) <= v < 2 ^ (8 * n) → strlen (print_d v) + 1 <= STR_MAX_CHARS n) ∧
  (0 <= v < 2 ^ (8 * n) → strlen ("0x" +:+ print_x v) + 1 <= STR_MAX_CHARS n).
Proof.
  intros Hn. pose proof (room_digits n Hn) as Hroom. unfold STR_MAX_CHARS.
  assert (0 < (n * 8 + 8) / 9 ∧ 2 * n + 1 <= 3 * ((n * 8 + 8) / 9)) as [Hk Hx] by (Z.div_mod_to_equations; lia).
  assert (2 ^ (8 * n - 1) <= 2 ^ (8 * n)) as Hhalf by (apply Z.pow_le_mono_r; lia). split; intros Hv.
  - assert (∀ u, 0 <= u < 10 ^ (3 * ((n * 8 + 8) / 9)) → strlen (print_u u) <= 3 * ((n * 8 + 8) / 9)) as Hu
      by (intros; apply print_base_length; lia).
    assert (2 ^ (8 * n - 1) < 2 ^ (8 * n)) by (apply Z.pow_lt_mono_r; lia).
    unfold print_d. destruct (Z.ltb_spec v 0).
    + rewrite strlen_app. change (strlen "-") with 1. pose proof (Hu (- v)). lia.
    + pose proof (Hu v). lia.
  - rewrite strlen_app. change (strlen "0x") with 2.
    assert (strlen (print_x v) <= 2 * n); [|lia]. apply print_base_length; [lia| |lia].
    replace (16 ^ (2 * n)) with (2 ^ (8 * n)); [done|]. change 16 with (2 ^ 4). rewrite <- Z.pow_mul_r by lia. f_equal. lia.
Qed.

(** *** Classes: a character of ASCII is in exactly one of four *)

Definition classes (c : ascii) : list bool := [ciscntrl c; code c =? 32; cisalnum c; cispunct c].
Lemma cis_partition c : cisascii c = true ↔ length (List.filter (λ b, b) (classes c)) = 1%nat.
Proof. destruct c as [[] [] [] [] [] [] [] []]; vm_compute; split; congruence. Qed.

(** ** Instances *)

Lemma strcount_spec_witness : "aa" ≠ "" ∧ strcount "aaa aaa" "aa" = Some 2 ∧ most "aa" "aaa aaa" 2.
Proof.
  split_and!; [done|reflexivity|]. destruct (strcount_spec "aaa aaa" "aa") as (n & Hn & Hm); [done|].
  assert (strcount "aaa aaa" "aa" = Some 2) as H2 by reflexivity. rewrite H2 in Hn. injection Hn as Hn.
  assert (n = 2%nat) as ->; [lia|exact Hm].
Defined.

Lemma STR_MAX_CHARS_enough_witness : STR_MAX_CHARS 4 = 14 ∧ strlen (print_d (- 2 ^ 31)) + 1 <= STR_MAX_CHARS 4.
Proof. split; [reflexivity|]. destruct (STR_MAX_CHARS_enough 4 (- 2 ^ 31)) as [Hd _]; [lia|].
  apply Hd. change (2 ^ (8 * 4 - 1)) with (2 ^ 31). change (2 ^ (8 * 4)) with (2 ^ 32). lia.
Defined.
