(* ===== verification/Ccan.v ===== *)
(** * ccan/endian and ccan/minmax: byte order, minima

    The byte swaps and conversions of ccan/endian/endian.h, on a host of either order, and
    the macros of ccan/minmax/minmax.h, with their theorems. *)

From Stdlib Require Import Btauto.
From S2P Require Import Prelude.
Local Open Scope Z_scope.

(** ** Swapping bytes *)

(* ccan/endian/endian.h:18-20 BSWAP_16 *)
Definition BSWAP_16 (val : Z) : Z :=
  Z.lor (Z.shiftl (Z.land (u16 val) 0x00ff) 8) (Z.shiftr (Z.land (u16 val) 0xff00) 8).

(* ccan/endian/endian.h:33-37 BSWAP_32 *)
Definition BSWAP_32 (val : Z) : Z :=
  Z.lor (Z.lor (Z.lor (Z.shiftl (Z.land (u32 val) 0x000000ff) 24)
    (Z.shiftl (Z.land (u32 val) 0x0000ff00) 8))
    (Z.shiftr (Z.land (u32 val) 0x00ff0000) 8))
    (Z.shiftr (Z.land (u32 val) 0xff000000) 24).

(* ccan/endian/endian.h:50-58 BSWAP_64 *)
Definition BSWAP_64 (val : Z) : Z :=
  Z.lor (Z.lor (Z.lor (Z.lor (Z.lor (Z.lor (Z.lor
    (Z.shiftl (Z.land (u64 val) 0x00000000000000ff) 56)
    (Z.shiftl (Z.land (u64 val) 0x000000000000ff00) 40))
    (Z.shiftl (Z.land (u64 val) 0x0000000000ff0000) 24))
    (Z.shiftl (Z.land (u64 val) 0x00000000ff000000) 8))
    (Z.shiftr (Z.land (u64 val) 0x000000ff00000000) 8))
    (Z.shiftr (Z.land (u64 val) 0x0000ff0000000000) 24))
    (Z.shiftr (Z.land (u64 val) 0x00ff000000000000) 40))
    (Z.shiftr (Z.land (u64 val) 0xff00000000000000) 56).

(* ccan/endian/endian.h:71-74 bswap_16 *)
Definition bswap_16 (val : Z) : Z := u16 (BSWAP_16 val).
(* ccan/endian/endian.h:84-87 bswap_32 *)
Definition bswap_32 (val : Z) : Z := u32 (BSWAP_32 val).
(* ccan/endian/endian.h:100-103 bswap_64 *)
Definition bswap_64 (val : Z) : Z := u64 (BSWAP_64 val).

(** ** Conversions, on a host of either order

    A macro with a definition for each host is one definition with the host as its argument; the
    lines are those of the little-endian host for the conversions to and from little-endian, which
    only cast there, and of the big-endian host for the others. *)

Inductive order : Set := HAVE_LITTLE_ENDIAN | HAVE_BIG_ENDIAN.

Section host.
Variable host : order.
Definition swap_if_big (swap : Z → Z) (x : Z) : Z := match host with HAVE_LITTLE_ENDIAN => x | HAVE_BIG_ENDIAN => swap x end.
Definition swap_if_little (swap : Z → Z) (x : Z) : Z := match host with HAVE_LITTLE_ENDIAN => swap x | HAVE_BIG_ENDIAN => x end.

(* ccan/endian/endian.h:134-134 CPU_TO_LE64 *)
Definition CPU_TO_LE64 (native : Z) : Z := swap_if_big BSWAP_64 (u64 native).
(* ccan/endian/endian.h:140-140 CPU_TO_LE32 *)
Definition CPU_TO_LE32 (native : Z) : Z := swap_if_big BSWAP_32 (u32 native).
(* ccan/endian/endian.h:146-146 CPU_TO_LE16 *)
Definition CPU_TO_LE16 (native : Z) : Z := swap_if_big BSWAP_16 (u16 native).
(* ccan/endian/endian.h:152-152 LE64_TO_CPU *)
Definition LE64_TO_CPU (le_val : Z) : Z := swap_if_big BSWAP_64 (u64 le_val).
(* ccan/endian/endian.h:158-158 LE32_TO_CPU *)
Definition LE32_TO_CPU (le_val : Z) : Z := swap_if_big BSWAP_32 (u32 le_val).
(* ccan/endian/endian.h:164-164 LE16_TO_CPU *)
Definition LE16_TO_CPU (le_val : Z) : Z := swap_if_big BSWAP_16 (u16 le_val).
(* ccan/endian/endian.h:180-180 CPU_TO_BE64 *)
Definition CPU_TO_BE64 (native : Z) : Z := swap_if_little BSWAP_64 (u64 native).
(* ccan/endian/endian.h:186-186 CPU_TO_BE32 *)
Definition CPU_TO_BE32 (native : Z) : Z := swap_if_little BSWAP_32 (u32 native).
(* ccan/endian/endian.h:192-192 CPU_TO_BE16 *)
Definition CPU_TO_BE16 (native : Z) : Z := swap_if_little BSWAP_16 (u16 native).
(* ccan/endian/endian.h:198-198 BE64_TO_CPU *)
Definition BE64_TO_CPU (le_val : Z) : Z := swap_if_little BSWAP_64 (u64 le_val).
(* ccan/endian/endian.h:204-204 BE32_TO_CPU *)
Definition BE32_TO_CPU (le_val : Z) : Z := swap_if_little BSWAP_32 (u32 le_val).
(* ccan/endian/endian.h:210-210 BE16_TO_CPU *)
Definition BE16_TO_CPU (le_val : Z) : Z := swap_if_little BSWAP_16 (u16 le_val).

(* ccan/endian/endian.h:226-229 cpu_to_le64 *)
Definition cpu_to_le64 (native : Z) : Z := u64 (CPU_TO_LE64 native).
(* ccan/endian/endian.h:235-238 cpu_to_le32 *)
Definition cpu_to_le32 (native : Z) : Z := u32 (CPU_TO_LE32 native).
(* ccan/endian/endian.h:244-247 cpu_to_le16 *)
Definition cpu_to_le16 (native : Z) : Z := u16 (CPU_TO_LE16 native).
(* ccan/endian/endian.h:253-256 le64_to_cpu *)
Definition le64_to_cpu (le_val : Z) : Z := u64 (LE64_TO_CPU le_val).
(* ccan/endian/endian.h:262-265 le32_to_cpu *)
Definition le32_to_cpu (le_val : Z) : Z := u32 (LE32_TO_CPU le_val).
(* ccan/endian/endian.h:271-274 le16_to_cpu *)
Definition le16_to_cpu (le_val : Z) : Z := u16 (LE16_TO_CPU le_val).
(** The first of its two [return]s swaps whatever the host. *)
(* ccan/endian/endian.h:280-284 cpu_to_be64 *)
Definition cpu_to_be64 (native : Z) : Z := u64 (BSWAP_64 native).
(* ccan/endian/endian.h:290-293 cpu_to_be32 *)
Definition cpu_to_be32 (native : Z) : Z := u32 (CPU_TO_BE32 native).
(* ccan/endian/endian.h:299-302 cpu_to_be16 *)
Definition cpu_to_be16 (native : Z) : Z := u16 (CPU_TO_BE16 native).
(* ccan/endian/endian.h:308-311 be64_to_cpu *)
Definition be64_to_cpu (be_val : Z) : Z := u64 (BE64_TO_CPU be_val).
(* ccan/endian/endian.h:317-320 be32_to_cpu *)
Definition be32_to_cpu (be_val : Z) : Z := u32 (BE32_TO_CPU be_val).
(* ccan/endian/endian.h:326-329 be16_to_cpu *)
Definition be16_to_cpu (be_val : Z) : Z := u16 (BE16_TO_CPU be_val).
End host.

(** ** Minima and maxima (of values of one type, already converted to it) *)

(* ccan/minmax/minmax.h:27-33 min *)
Definition min (a b : Z) : Z := if a <? b then a else b.
(* ccan/minmax/minmax.h:35-41 max *)
Definition max (a b : Z) : Z := if a >? b then a else b.
(* ccan/minmax/minmax.h:43-43 clamp *)
Definition clamp (v f c : Z) : Z := max (min v c) f.

(** The macros that are given the type, here its conversion. *)
(* ccan/minmax/minmax.h:46-51 min_t *)
Definition min_t (t : Z → Z) (a b : Z) : Z := min (t a) (t b).
(* ccan/minmax/minmax.h:52-57 max_t *)
Definition max_t (t : Z → Z) (a b : Z) : Z := max (t a) (t b).
(* ccan/minmax/minmax.h:59-65 clamp_t *)
Definition clamp_t (t : Z → Z) (v f c : Z) : Z := clamp (t v) (t f) (t c).

(** A value is kept between the bounds, and changed only when it is outside. *)
Lemma clamp_spec v f c : f <= c → f <= clamp v f c <= c ∧ (f <= v <= c → clamp v f c = v).
Proof. unfold clamp, min, max. intros. destruct (Z.ltb_spec v c); rewrite Z.gtb_ltb; case_match; lia. Qed.

(** ** Words as bytes *)

(** The byte of weight [256 ^ k], and the bytes of a word from the lowest. *)
Definition byte (x k : Z) : Z := Z.land (Z.shiftr x (8 * k)) 255.
Definition bytes (n : nat) (x : Z) : list Z := byte x <$> seqZ 0 (Z.of_nat n).
(** The word with these bytes. *)
Fixpoint word (l : list Z) : Z := match l with [] => 0 | b :: l' => Z.lor b (Z.shiftl (word l') 8) end.

Definition is_byte (b : Z) : Prop := 0 <= b < 2 ^ 8.

(** Comparisons in a goal, by cases. *)
Ltac compare_cases := repeat match goal with
  | |- context [?a <=? ?b] => destruct (Z.leb_spec a b)
  | |- context [?a <? ?b] => destruct (Z.ltb_spec a b)
  end; (done || lia).

Lemma byte_range x k : is_byte (byte x k).
Proof. unfold byte, is_byte. change 255 with (Z.ones 8). rewrite Z.land_ones by done. by apply Z.mod_pos_bound. Qed.

Lemma bytes_range n x : Forall is_byte (bytes n x).
Proof. apply Forall_fmap, Forall_forall. intros k _. apply byte_range. Qed.

Lemma word_bytes n x : word (bytes n x) = x mod 2 ^ (8 * Z.of_nat n).
Proof.
  unfold bytes. rewrite <- Z.land_ones by lia.
  enough (∀ m k, 0 <= k → word (byte x <$> seqZ k (Z.of_nat m)) = Z.land (Z.shiftr x (8 * k)) (Z.ones (8 * Z.of_nat m))) as Hw
    by (rewrite (Hw n 0) by lia; by rewrite Z.shiftr_0_r).
  clear n. induction m as [|m IH]; intros k Hk; [by rewrite Z.land_0_r|].
  rewrite Nat2Z.inj_succ, seqZ_cons by lia. cbn [fmap list_fmap word]. rewrite Z.pred_succ, IH by lia.
  unfold byte. change 255 with (Z.ones 8). apply Z.bits_inj'. intros i Hi.
  rewrite Z.lor_spec, Z.shiftl_spec, !Z.land_spec by done. rewrite !Z.testbit_ones by lia. rewrite (Z.shiftr_spec x _ i) by done.
  destruct (Z.ltb_spec i 8).
  - rewrite (Z.testbit_neg_r _ (i - 8)) by lia. rewrite andb_false_l, orb_false_r. f_equal. compare_cases.
  - rewrite Z.shiftr_spec by lia. replace (i - 8 + 8 * Z.succ k) with (i + 8 * k) by lia.
    rewrite andb_false_r, andb_false_r, orb_false_l. f_equal. compare_cases.
Qed.

Lemma bytes_word l : Forall is_byte l → bytes (length l) (word l) = l.
Proof.
  intros Hl. unfold bytes.
  enough (∀ k, 0 <= k → byte (Z.shiftl (word l) (8 * k)) <$> seqZ k (Z.of_nat (length l)) = l) as Hb.
  { specialize (Hb 0). rewrite Z.shiftl_0_r in Hb. by apply Hb. }
  induction Hl as [|b l Hb Hl IH]; intros k Hk; [done|]. cbn [length]. rewrite Nat2Z.inj_succ, seqZ_cons by lia.
  assert (∀ j, k < j → byte (Z.shiftl (word (b :: l)) (8 * k)) j = byte (Z.shiftl (word l) (8 * Z.succ k)) j) as Htail.
  { intros j Hj. cbn [word]. rewrite Z.shiftl_lor, Z.shiftl_shiftl by lia. replace (8 + 8 * k) with (8 * Z.succ k) by lia.
    apply Z.bits_inj'. intros i Hi. unfold byte. rewrite !Z.land_spec, !Z.shiftr_spec, Z.lor_spec, !Z.shiftl_spec by lia.
    rewrite (testbit_bound b 8) by (exact Hb || lia). done. }
  cbn [fmap list_fmap]. f_equal.
  - cbn [word]. apply Z.bits_inj'. intros i Hi. unfold byte. change 255 with (Z.ones 8).
    rewrite Z.land_spec, Z.testbit_ones, Z.shiftr_spec, Z.shiftl_spec, Z.lor_spec, Z.shiftl_spec by lia.
    replace (i + 8 * k - 8 * k) with i by lia. destruct (Z.ltb_spec i 8).
    + rewrite (Z.testbit_neg_r _ (i - 8)) by lia. rewrite orb_false_r. destruct (Z.leb_spec 0 i); [apply andb_true_r|lia].
    + rewrite (testbit_bound b 8) by (exact Hb || lia). by rewrite andb_false_r, andb_false_r.
  - rewrite Z.pred_succ. etransitivity; [|apply (IH (Z.succ k)); lia]. apply list_fmap_ext. intros i j Hj.
    apply Htail. apply list_elem_of_lookup_2, elem_of_seqZ in Hj. lia.
Qed.

(** ** The swaps reverse the bytes *)

(** A masked byte of a word, moved up or down. *)
Lemma masked_up x m k s : m = Z.shiftl 255 (8 * k) → 0 <= k → 0 <= s →
  Z.shiftl (Z.land x m) s = Z.shiftl (byte x k) (8 * k + s).
Proof.
  intros -> Hk Hs. apply Z.bits_inj'. intros i Hi. unfold byte. change 255 with (Z.ones 8).
  rewrite !Z.shiftl_spec, !Z.land_spec by lia. destruct (Z.ltb_spec i (8 * k + s)).
  - rewrite (Z.testbit_neg_r (Z.shiftr _ _)) by lia. destruct (Z.ltb_spec (i - s) 0); [by rewrite Z.testbit_neg_r by lia|].
    rewrite Z.shiftl_spec by lia. rewrite (Z.testbit_neg_r _ (i - s - 8 * k)) by lia. by rewrite andb_false_r.
  - rewrite Z.shiftl_spec, Z.shiftr_spec by lia. f_equal; [f_equal; lia|]. f_equal. lia.
Qed.

Lemma masked_down x m k s : m = Z.shiftl 255 (8 * k) → 0 <= s <= 8 * k →
  Z.shiftr (Z.land x m) s = Z.shiftl (byte x k) (8 * k - s).
Proof.
  intros Hm Hs. rewrite <- (Z.shiftl_0_r (Z.land x m)), (masked_up x m k 0) by (done || lia).
  rewrite Z.add_0_r. apply Z.shiftr_shiftl_l. lia.
Qed.

Lemma byte_mod x w k : 0 <= k → 8 * k + 8 <= w → byte (x mod 2 ^ w) k = byte x k.
Proof.
  intros Hk Hw. apply Z.bits_inj'. intros i Hi. unfold byte. change 255 with (Z.ones 8).
  rewrite !Z.land_spec, !Z.shiftr_spec, Z.testbit_ones by lia. destruct (Z.ltb_spec i 8); [|by rewrite !andb_false_r].
  by rewrite Z.mod_pow2_bits_low by lia.
Qed.

Lemma bytes_16 x : bytes 2 x = byte x <$> [0; 1]. Proof. done. Qed.
Lemma bytes_32 x : bytes 4 x = byte x <$> [0; 1; 2; 3]. Proof. done. Qed.
Lemma bytes_64 x : bytes 8 x = byte x <$> [0; 1; 2; 3; 4; 5; 6; 7]. Proof. done. Qed.

(** Both sides as a [Z.lor] of shifted bytes. *)
Ltac lor_of_bytes := unfold u16, u32, u64; rewrite !byte_mod by lia;
  rewrite ?bytes_16, ?bytes_32, ?bytes_64; cbn [fmap list_fmap rev app word];
  rewrite ?Z.shiftl_lor, ?Z.shiftl_shiftl, ?Z.shiftl_0_l, ?Z.lor_0_r by lia;
  repeat match goal with |- context [Z.shiftl _ ?n] =>
    let v := eval vm_compute in n in progress change n with v end;
  rewrite ?Z.shiftl_0_r, ?Z.lor_assoc.

Ltac lor_reorder := apply Z.bits_inj'; intros i _; rewrite !Z.lor_spec; btauto.

Lemma BSWAP_16_word x : BSWAP_16 x = word (rev (bytes 2 x)).
Proof.
  unfold BSWAP_16. rewrite (masked_up _ _ 0), (masked_down _ _ 1) by (done || lia). lor_of_bytes. lor_reorder.
Qed.

Lemma BSWAP_32_word x : BSWAP_32 x = word (rev (bytes 4 x)).
Proof.
  unfold BSWAP_32. rewrite (masked_up _ 0xff 0), (masked_up _ 0xff00 1) by (done || lia).
  rewrite (masked_down _ 0xff0000 2), (masked_down _ 0xff000000 3) by (done || lia). lor_of_bytes. lor_reorder.
Qed.

Lemma BSWAP_64_word x : BSWAP_64 x = word (rev (bytes 8 x)).
Proof.
  unfold BSWAP_64. rewrite (masked_up _ 0xff 0), (masked_up _ 0xff00 1) by (done || lia).
  rewrite (masked_up _ 0xff0000 2), (masked_up _ 0xff000000 3) by (done || lia).
  rewrite (masked_down _ 0xff00000000 4), (masked_down _ 0xff0000000000 5) by (done || lia).
  rewrite (masked_down _ 0xff000000000000 6), (masked_down _ 0xff00000000000000 7) by (done || lia).
  lor_of_bytes. lor_reorder.
Qed.

(** What the bytes of a word in memory are, from the lowest address. *)
Definition memory (host : order) (n : nat) (x : Z) : list Z :=
  match host with HAVE_LITTLE_ENDIAN => bytes n x | HAVE_BIG_ENDIAN => rev (bytes n x) end.

Section swap.
Variables (n : nat) (swap : Z → Z).
Hypothesis Hswap : ∀ x, swap x = word (rev (bytes n x)).
Notation W := (2 ^ (8 * Z.of_nat n)).

Lemma bytes_length x : length (bytes n x) = n.
Proof. unfold bytes. by rewrite length_fmap, length_seqZ, Nat2Z.id. Qed.

Lemma bytes_swap x : bytes n (swap x) = rev (bytes n x).
Proof.
  rewrite Hswap. rewrite <- (bytes_length x) at 1. rewrite <- length_rev. apply bytes_word.
  apply Forall_rev, bytes_range.
Qed.

Lemma swap_range x : 0 <= swap x < W.
Proof.
  rewrite Hswap. assert (∀ l, Forall is_byte l → word l mod 2 ^ (8 * Z.of_nat (length l)) = word l) as Hl.
  { intros l Hl. rewrite <- word_bytes. by rewrite bytes_word. }
  rewrite <- (Hl (rev (bytes n x))) by apply Forall_rev, bytes_range. rewrite length_rev, bytes_length.
  apply Z.mod_pos_bound. lia.
Qed.

Lemma swap_swap x : 0 <= x < W → swap (swap x) = x.
Proof. intros Hx. rewrite Hswap, bytes_swap, rev_involutive, word_bytes. by apply Z.mod_small. Qed.

Lemma swap_le host x : memory host n (swap_if_big host swap x) = bytes n x.
Proof. destruct host; simpl; [done|]. by rewrite bytes_swap, rev_involutive. Qed.
Lemma swap_be host x : memory host n (swap_if_little host swap x) = rev (bytes n x).
Proof. destruct host; simpl; [by rewrite bytes_swap|done]. Qed.
End swap.

(** Conversions to an order and back: little-endian words have their lowest byte first in memory,
    big-endian words their highest, whatever the host, and converting back gives the word. *)
Definition converts_le (host : order) (n : nat) (to_le to_cpu : Z → Z) : Prop :=
  ∀ x, 0 <= x < 2 ^ (8 * Z.of_nat n) → memory host n (to_le x) = bytes n x ∧ to_cpu (to_le x) = x.
Definition converts_be (host : order) (n : nat) (to_be to_cpu : Z → Z) : Prop :=
  ∀ x, 0 <= x < 2 ^ (8 * Z.of_nat n) → memory host n (to_be x) = rev (bytes n x) ∧ to_cpu (to_be x) = x.

(** A word whose bytes in memory are those of a value, from the highest, gives the value. *)
Definition reads_be (host : order) (n : nat) (to_cpu : Z → Z) : Prop :=
  ∀ x, 0 <= x < 2 ^ (8 * Z.of_nat n) →
    0 <= to_cpu x < 2 ^ (8 * Z.of_nat n) ∧ memory host n x = rev (bytes n (to_cpu x)).

Section converts.
Variables (host : order) (n : nat) (swap u : Z → Z).
Notation W := (2 ^ (8 * Z.of_nat n)).
Hypothesis Hswap : ∀ x, swap x = word (rev (bytes n x)).
Hypothesis Hu : ∀ x, 0 <= x < W → u x = x.

Lemma converts_le_of (to to_cpu : Z → Z) :
  (∀ x, to x = u (swap_if_big host swap (u x))) → (∀ x, to_cpu x = u (swap_if_big host swap (u x))) →
  converts_le host n to to_cpu.
Proof.
  intros Hto Hcpu x Hx. rewrite Hcpu, !Hto, !(Hu x) by done.
  assert (0 <= swap_if_big host swap x < W) as Hr by (destruct host; simpl; [done|by apply swap_range]).
  rewrite !(Hu (swap_if_big host swap x)) by done. split; [by apply swap_le|].
  destruct host; simpl; [by apply Hu|]. rewrite (swap_swap n) by done. by apply Hu.
Qed.

Lemma converts_be_of (to to_cpu : Z → Z) :
  (∀ x, to x = u (swap_if_little host swap (u x))) → (∀ x, to_cpu x = u (swap_if_little host swap (u x))) →
  converts_be host n to to_cpu.
Proof.
  intros Hto Hcpu x Hx. rewrite Hcpu, !Hto, !(Hu x) by done.
  assert (0 <= swap_if_little host swap x < W) as Hr by (destruct host; simpl; [by apply swap_range|done]).
  rewrite !(Hu (swap_if_little host swap x)) by done. split; [by apply swap_be|].
  destruct host; simpl; [rewrite (swap_swap n) by done; by apply Hu|by apply Hu].
Qed.
End converts.

(** C39: the conversions do what their names say on a host of either order: what is made for a byte order has
    its bytes in that order in memory, and comes back.  The exception is the one to big-endian 64-bit words:
    it does so on a little-endian host alone, and on the other leaves the lowest byte first; the one back
    from them reads big-endian memory on both. *)
Theorem byte_order_spec host :
  converts_le host 2 (cpu_to_le16 host) (le16_to_cpu host) ∧ converts_be host 2 (cpu_to_be16 host) (be16_to_cpu host) ∧
  converts_le host 4 (cpu_to_le32 host) (le32_to_cpu host) ∧ converts_be host 4 (cpu_to_be32 host) (be32_to_cpu host) ∧
  converts_le host 8 (cpu_to_le64 host) (le64_to_cpu host) ∧
  reads_be host 8 (be64_to_cpu host) ∧
  match host with
  | HAVE_LITTLE_ENDIAN => converts_be host 8 cpu_to_be64 (be64_to_cpu host)
  | HAVE_BIG_ENDIAN => ∀ x, memory host 8 (cpu_to_be64 x) = bytes 8 x
  end.
Proof.
  assert (∀ x, u64 (BSWAP_64 x) = BSWAP_64 x) as H64
    by (intros x; apply u64_id, (swap_range 8 _ BSWAP_64_word)).
  split_and!.
  - by apply (converts_le_of host 2 BSWAP_16 u16 BSWAP_16_word); [intros ? ?; by apply Z.mod_small|..].
  - by apply (converts_be_of host 2 BSWAP_16 u16 BSWAP_16_word); [intros ? ?; by apply Z.mod_small|..].
  - by apply (converts_le_of host 4 BSWAP_32 u32 BSWAP_32_word); [apply u32_id|..].
  - by apply (converts_be_of host 4 BSWAP_32 u32 BSWAP_32_word); [apply u32_id|..].
  - by apply (converts_le_of host 8 BSWAP_64 u64 BSWAP_64_word); [apply u64_id|..].
  - intros x Hx. unfold be64_to_cpu, BE64_TO_CPU. rewrite (u64_id x) by done. destruct host; cbn [swap_if_little memory].
    + rewrite H64. split; [by apply (swap_range 8 _ BSWAP_64_word)|].
      rewrite (bytes_swap 8 _ BSWAP_64_word). symmetry. apply rev_involutive.
    + by rewrite u64_id.
  - destruct host.
    + apply (converts_be_of HAVE_LITTLE_ENDIAN 8 BSWAP_64 u64 BSWAP_64_word); [apply u64_id| |done].
      intros x. unfold cpu_to_be64, swap_if_little. rewrite !H64, !BSWAP_64_word. f_equal. f_equal.
      rewrite !bytes_64. unfold u64. cbn [fmap list_fmap]. by rewrite !byte_mod by lia.
    + intros x. cbn [memory]. unfold cpu_to_be64. rewrite H64, (bytes_swap 8 _ BSWAP_64_word). apply rev_involutive.
Qed.

(** On a big-endian host a word sent as big-endian comes back with its bytes reversed. *)
Lemma be64_big_host x : be64_to_cpu HAVE_BIG_ENDIAN (cpu_to_be64 x) = BSWAP_64 x.
Proof.
  assert (0 <= BSWAP_64 x < 2 ^ 64) as Hr by apply (swap_range 8 _ BSWAP_64_word).
  unfold be64_to_cpu, BE64_TO_CPU, cpu_to_be64, swap_if_little. by rewrite !(u64_id (BSWAP_64 x)).
Qed.

Example bswap_example : bswap_64 1024 = 1125899906842624 ∧ bswap_32 1024 = 262144 ∧ bswap_16 1024 = 4.
Proof. by vm_compute. Qed.
