(* ===== verification/CList.v ===== *)
(** * ccan/list/list.h, ccan/list/list.c, util/list.h: doubly-linked lists in memory

    The state is the memory that holds list nodes, by address; a node that is not
    there cannot be read or written.  A list is known by the address of its head, whose
    node is the first member; an entry is at [off] bytes before its node.
    CCAN_LIST_DEBUG is not defined: the checks in the operations are empty.
    [assert] and [abort] end the process.  CListFacts proves that these are the
    lists of Rocq the rest of the development has in their place. *)

From S2P Require Import Prelude Prog.
Local Open Scope Z_scope.

(* ccan/list/list.h:27-30 list_node *)
Record list_node := ListNode { n_next : Z; n_prev : Z }.
#[export] Instance eta_list_node : Eta list_node := λ r, ListNode (n_next r) (n_prev r).
#[export] Instance list_node_eq : EqDecision list_node.
Proof. solve_decision. Defined.

Notation mem := (gmap Z list_node).
Notation N := (prog mem).

(** [p->next] and [p->prev], read and assigned. *)
Definition node_at (p : Z) : N list_node := m ← get; must (m !! p).
Definition next (p : Z) : N Z := n ← node_at p; mret (n_next n).
Definition prev (p : Z) : N Z := n ← node_at p; mret (n_prev n).
Definition store (p : Z) (f : list_node → list_node) : N unit := node_at p;; modify (alter f p).
Definition set_next (p v : Z) : N unit := store p (λ n, n <| n_next := v |>).
Definition set_prev (p v : Z) : N unit := store p (λ n, n <| n_prev := v |>).

(** The status of a process that [abort] ends. *)
Definition abort {A} : N A := exit 134.

(** As many steps as there are nodes, and one to see the end. *)
Definition nodes : N nat := gets (λ m, S (size m)).

(** ** Consistency *)

(** [true]: the node itself; the address of the head is only printed. *)
(* ccan/list/list.c:6-18 corrupt *)
Definition corrupt (aborts : bool) : N bool := if aborts then abort else mret false.

(** The loop, from the node [n] with [p] before it; [None] when its [prev] is
    another, or the last node. *)
(* ccan/list/list.c:26-30 list_check_node *)
Fixpoint check_loop (fuel : nat) (node p n : Z) : N (option Z) :=
  if n =? node then mret (Some p)
  else
    match fuel with
    | O => fault
    | S fuel' =>
        q ← prev n;
        if negb (q =? p) then mret None else n' ← next n; check_loop fuel' node n n'
    end.
(* ccan/list/list.c:20-36 list_check_node *)
Definition list_check_node (node : Z) (aborts : bool) : N bool :=
  n ← next node;
  fuel ← nodes;
  r ← check_loop fuel node node n;
  match r with
  | None => corrupt aborts
  | Some p => q ← prev node; if negb (q =? p) then corrupt aborts else mret true
  end.
(* ccan/list/list.c:38-43 list_check *)
Definition list_check (h : Z) (aborts : bool) : N bool := list_check_node h aborts.

(** ** Entries and nodes *)

(* ccan/list/list.h:639-642 list_node_to_off_ *)
Definition list_node_to_off_ (node off : Z) : Z := node - off.
(* ccan/list/list.h:643-646 list_node_from_off_ *)
Definition list_node_from_off_ (ptr off : Z) : Z := ptr + off.
(* ccan/list/list.h:664-673 list_entry_or_null *)
Definition list_entry_or_null (h n off : Z) : option Z :=
  if n =? h then None else Some (list_node_to_off_ n off).

(** ** Operations *)

(* ccan/list/list.h:146-150 list_head_init *)
Definition list_head_init (h : Z) : N unit := set_prev h h;; set_next h h.

(* ccan/list/list.h:166-182 list_add_ *)
Definition list_add (h n : Z) : N unit :=
  hn ← next h; set_next n hn;;
  set_prev n h;;
  hn ← next h; set_prev hn n;;
  set_next h n.

(* ccan/list/list.h:195-204 list_add_tail_ *)
Definition list_add_tail (h n : Z) : N unit :=
  set_next n h;;
  hp ← prev h; set_prev n hp;;
  hp ← prev h; set_next hp n;;
  set_prev h n.

(* util/list.h:24-39 list_add_after_ *)
Definition list_add_after (h l n : Z) : N unit :=
  ln ← next l;
  if ln =? h then list_add_tail h n
  else
    ln ← next l; set_next n ln;;
    set_prev n l;;
    ln ← next l; set_prev ln n;;
    set_next l n.

(* ccan/list/list.h:216-221 list_empty_ *)
Definition list_empty (h : Z) : N bool := hn ← next h; mret (hn =? h).

(* ccan/list/list.h:259-268 list_del_ *)
Definition list_del (n : Z) : N unit :=
  nn ← next n; np ← prev n; set_prev nn np;;
  np ← prev n; nn ← next n; set_next np nn.

(* ccan/list/list.h:284-298 list_del_from *)
Definition list_del_from (h n : Z) : N unit :=
  e ← list_empty h; if e : bool then abort else list_del n.

(* ccan/list/list.h:332-341 list_top_ *)
Definition list_top (h off : Z) : N (option Z) :=
  e ← list_empty h;
  if e : bool then mret None else hn ← next h; mret (Some (list_node_to_off_ hn off)).

(* ccan/list/list.h:360-369 list_pop_ *)
Definition list_pop (h off : Z) : N (option Z) :=
  e ← list_empty h;
  if e : bool then mret None
  else n ← next h; list_del n;; mret (Some (list_node_to_off_ n off)).

(* ccan/list/list.h:388-393 list_tail_ *)
Definition list_tail (h off : Z) : N (option Z) :=
  e ← list_empty h;
  if e : bool then mret None else hp ← prev h; mret (Some (list_node_to_off_ hp off)).

(* ccan/list/list.h:464-468 list_next *)
Definition list_next (h i off : Z) : N (option Z) :=
  n ← next (list_node_from_off_ i off); mret (list_entry_or_null h n off).
(* ccan/list/list.h:483-487 list_prev *)
Definition list_prev (h i off : Z) : N (option Z) :=
  n ← prev (list_node_from_off_ i off); mret (list_entry_or_null h n off).

(* ccan/list/list.h:506-522 list_append_list_ *)
Definition list_append_list (to from : Z) : N unit :=
  from_tail ← prev from;
  to_tail ← prev to;
  set_prev to from_tail;;
  set_next from_tail to;;
  set_next to_tail from;;
  set_prev from to_tail;;
  list_del from;;
  list_head_init from.

(* ccan/list/list.h:538-554 list_prepend_list_ *)
Definition list_prepend_list (to from : Z) : N unit :=
  from_tail ← prev from;
  to_head ← next to;
  set_next to from;;
  set_prev from to;;
  set_prev to_head from_tail;;
  set_next from_tail to_head;;
  list_del from;;
  list_head_init from.

(** ** Loops

    The variable of the loop, and what the body has computed so far; [inl] leaves
    the loop. *)

Section loops.
Context {A : Type} (body : A → Z → N (A + A)).

Fixpoint for_each_loop (fuel : nat) (h off i : Z) (a : A) : N A :=
  if list_node_from_off_ i off =? h then mret a
  else
    match fuel with
    | O => fault
    | S fuel' =>
        r ← body a i;
        match r with
        | inl a => mret a
        | inr a =>
            n ← next (list_node_from_off_ i off);
            for_each_loop fuel' h off (list_node_to_off_ n off) a
        end
    end.
(* ccan/list/list.h:585-590 list_for_each_off *)
Definition list_for_each_off (h off : Z) (a : A) : N A :=
  n ← next h; fuel ← nodes; for_each_loop fuel h off (list_node_to_off_ n off) a.

Fixpoint for_each_rev_loop (fuel : nat) (h off i : Z) (a : A) : N A :=
  if list_node_from_off_ i off =? h then mret a
  else
    match fuel with
    | O => fault
    | S fuel' =>
        r ← body a i;
        match r with
        | inl a => mret a
        | inr a =>
            n ← prev (list_node_from_off_ i off);
            for_each_rev_loop fuel' h off (list_node_to_off_ n off) a
        end
    end.
(* ccan/list/list.h:424-427 list_for_each_rev *)
Definition list_for_each_rev (h off : Z) (a : A) : N A :=
  n ← prev h; fuel ← nodes; for_each_rev_loop fuel h off (list_node_to_off_ n off) a.

(** The entry after is read before the body runs, which may delete its own. *)
Fixpoint for_each_safe_loop (fuel : nat) (h off i nxt : Z) (a : A) : N A :=
  if list_node_from_off_ i off =? h then mret a
  else
    match fuel with
    | O => fault
    | S fuel' =>
        r ← body a i;
        match r with
        | inl a => mret a
        | inr a =>
            n ← next (list_node_from_off_ nxt off);
            for_each_safe_loop fuel' h off nxt (list_node_to_off_ n off) a
        end
    end.
(* ccan/list/list.h:608-616 list_for_each_safe_off *)
Definition list_for_each_safe_off (h off : Z) (a : A) : N A :=
  n ← next h;
  nn ← next (list_node_from_off_ (list_node_to_off_ n off) off);
  fuel ← nodes;
  for_each_safe_loop fuel h off (list_node_to_off_ n off) (list_node_to_off_ nn off) a.
End loops.
