(* ===== verification/CListFacts.v ===== *)
(** * ccan/list is a list

    [is_list m h l]: the memory [m] holds the list with the head [h] and the nodes [l], in
    order.  Every operation on such a memory is the one on [l], and touches no node of
    another list; [list_check] accepts exactly these memories, and always answers. *)

From S2P Require Import Prelude Prog CList.
From S2P Require Tree.
Local Open Scope Z_scope.

(** ** Links and paths *)

Definition nextof (m : mem) (p : Z) : option Z := n_next <$> m !! p.
Definition prevof (m : mem) (p : Z) : option Z := n_prev <$> m !! p.
Definition link (m : mem) (a b : Z) : Prop := nextof m a = Some b ∧ prevof m b = Some a.

(** From [a] through [l] to [b]. *)
Fixpoint path (m : mem) (a : Z) (l : list Z) (b : Z) : Prop :=
  match l with [] => link m a b | x :: l' => link m a x ∧ path m x l' b end.
Definition is_list (m : mem) (h : Z) (l : list Z) : Prop := NoDup (h :: l) ∧ path m h l h.

(** The last node of a path before its end, and the first after its start. *)
Fixpoint final (a : Z) (l : list Z) : Z := match l with [] => a | x :: l' => final x l' end.
Definition first (l : list Z) (b : Z) : Z := match l with [] => b | x :: _ => x end.

Lemma final_in a l : final a l ∈ a :: l.
Proof.
  revert a. induction l as [|x l IH]; intros a; simpl; [left|]. right. apply IH.
Qed.
Lemma final_snoc a l x : final a (l ++ [x]) = x.
Proof. revert a. induction l as [|y l IH]; intros a; simpl; [done|apply IH]. Qed.
Lemma first_in l b : first l b ∈ b :: l.
Proof. destruct l; simpl; set_solver. Qed.

Lemma path_next m a l b : path m a l b → nextof m a = Some (first l b).
Proof. destruct l; simpl; [by intros []|by intros [[] _]]. Qed.
Lemma path_prev m a l b : path m a l b → prevof m b = Some (final a l).
Proof. revert a. induction l as [|x l IH]; intros a; simpl; [by intros []|]. intros [_ Hp]. by apply IH. Qed.
Lemma path_source m a l b q : path m a l b → q ∈ a :: l → is_Some (m !! q).
Proof.
  revert a. induction l as [|x l IH]; intros a; simpl.
  - intros [Hn _] ->%list_elem_of_singleton. unfold nextof in Hn. by destruct (m !! a).
  - intros [[Hn _] Hp] [->|Hq]%elem_of_cons; [|by eapply IH].
    unfold nextof in Hn. by destruct (m !! a).
Qed.

Lemma path_app m a l1 l2 b : path m a (l1 ++ l2) b ↔ path m a l1 (first l2 b) ∧ path m (final a l1) l2 b.
Proof.
  revert a. induction l1 as [|x l1 IH]; intros a; simpl; [|rewrite IH; tauto].
  split; [|by intros []]. intros Hp. split; [|done]. destruct l2; simpl in *; tauto.
Qed.

Lemma path_frame m m' a l b :
  (∀ q, q ∈ a :: l → nextof m' q = nextof m q) → (∀ q, q ∈ b :: l → prevof m' q = prevof m q) →
  path m a l b → path m' a l b.
Proof.
  revert a. induction l as [|x l IH]; intros a Hn Hp; simpl; unfold link.
  - by rewrite Hn, Hp by set_solver.
  - rewrite Hn, Hp by set_solver. intros [Hl Hpath]. split; [done|]. apply IH; [set_solver..|done].
Qed.
(** Another node before the first, another after the last. *)
Lemma path_start m m' a a' l b :
  NoDup (b :: l) → path m a l b → link m' a' (first l b) →
  (∀ q, q ∈ l → nextof m' q = nextof m q) → (∀ q, q ∈ b :: l → q ≠ first l b → prevof m' q = prevof m q) →
  path m' a' l b.
Proof.
  destruct l as [|x l]; simpl; [done|]. intros [Hb [Hx _]%NoDup_cons]%NoDup_cons [_ Hp] Hl Hn Hv. split; [done|].
  eapply path_frame, Hp; [done|]. intros q Hq. apply Hv; [set_solver|]. intros ->. set_solver.
Qed.
Lemma path_end m m' a l b b' :
  NoDup (a :: l) → path m a l b → link m' (final a l) b' →
  (∀ q, q ∈ a :: l → q ≠ final a l → nextof m' q = nextof m q) → (∀ q, q ∈ l → prevof m' q = prevof m q) →
  path m' a l b'.
Proof.
  revert a. induction l as [|x l IH]; intros a Hd Hpath Hl Hn Hp; simpl in *; [done|].
  apply NoDup_cons in Hd as [Ha Hd]. destruct Hpath as [Hax Hpath]. split.
  - unfold link. rewrite Hn, Hp; [done|left|left|]. intros ->. apply Ha, final_in.
  - apply IH; [done..| |]; intros q Hq; [|apply Hp; by right]. apply Hn. by right.
Qed.

(** ** One node more, one node less *)

(** The memories agree but for what is after [a], before [b], and about [n]. *)
Definition same_but (m m' : mem) (a n b : Z) : Prop :=
  (∀ q, q ≠ a → q ≠ n → nextof m' q = nextof m q) ∧ (∀ q, q ≠ b → q ≠ n → prevof m' q = prevof m q).

Lemma elem_ne {A} (x y : A) (l : list A) : x ∈ l → y ∉ l → x ≠ y.
Proof. by intros Hx Hy ->. Qed.

(** The two halves of a list, with another node between them, or nothing. *)
Lemma halves m m' h l1 l2 n a b :
  NoDup (h :: l1 ++ l2) → n ∉ h :: l1 ++ l2 → path m h l1 a → path m b l2 h →
  same_but m m' (final h l1) n (first l2 h) →
  (∀ c, link m' (final h l1) c → path m' h l1 c) ∧ (∀ c, link m' c (first l2 h) → path m' c l2 h).
Proof.
  intros [Hh (Hd1 & H12 & Hd2)%NoDup_app]%NoDup_cons Hn Hp1 Hp2 [Hnext Hprev].
  apply not_elem_of_cons in Hn as [Hnh Hn]. apply not_elem_of_app in Hn as [Hn1 Hn2].
  apply not_elem_of_app in Hh as [Hh1 Hh2].
  assert (n ∉ h :: l1) as Hn1' by by apply not_elem_of_cons. assert (n ∉ h :: l2) as Hn2' by by apply not_elem_of_cons.
  split; intros c Hl.
  - eapply path_end; [by apply NoDup_cons|exact Hp1|done|..].
    + intros q Hq Hne. apply Hnext; [done|by eapply elem_ne].
    + intros q Hq. apply Hprev; [|by eapply elem_ne].
      intros ->. destruct l2 as [|y l2]; simpl in *; [done|]. eapply H12; [exact Hq|left].
  - eapply path_start; [by apply NoDup_cons|exact Hp2|done|..].
    + intros q Hq. apply Hnext; [|by eapply elem_ne].
      intros ->. pose proof (final_in h l1) as [Hf|Hf]%elem_of_cons; [congruence|by eapply H12].
    + intros q Hq Hne. apply Hprev; [done|by eapply elem_ne].
Qed.

Lemma list_insert m m' h l1 l2 n :
  is_list m h (l1 ++ l2) → n ∉ h :: l1 ++ l2 →
  link m' (final h l1) n → link m' n (first l2 h) → same_but m m' (final h l1) n (first l2 h) →
  is_list m' h (l1 ++ n :: l2).
Proof.
  intros [Hd [Hp1 Hp2]%path_app] Hn Hl1 Hl2 Hsame.
  destruct (halves _ _ _ _ _ _ _ _ Hd Hn Hp1 Hp2 Hsame) as [Hm1 Hm2]. split.
  - rewrite <- Permutation_middle. apply NoDup_cons in Hd as [Hh Hd]. apply not_elem_of_cons in Hn as [Hnh Hn].
    apply NoDup_cons. split; [by apply not_elem_of_cons|by apply NoDup_cons].
  - apply path_app. split; [by apply Hm1|]. split; [done|by apply Hm2].
Qed.

Lemma list_remove m m' h l1 n l2 :
  is_list m h (l1 ++ n :: l2) → link m' (final h l1) (first l2 h) →
  same_but m m' (final h l1) n (first l2 h) → is_list m' h (l1 ++ l2).
Proof.
  intros [Hd [Hp1 [_ Hp2]]%path_app] Hl Hsame. rewrite <- Permutation_middle in Hd.
  apply NoDup_cons in Hd as [Hh [Hn Hd]%NoDup_cons]. apply not_elem_of_cons in Hh as [Hhn Hh].
  assert (NoDup (h :: l1 ++ l2)) as Hd' by by apply NoDup_cons.
  assert (n ∉ h :: l1 ++ l2) as Hn' by by apply not_elem_of_cons.
  destruct (halves _ _ _ _ _ _ _ _ Hd' Hn' Hp1 Hp2 Hsame) as [Hm1 Hm2].
  split; [done|]. apply path_app. split; [by apply Hm1|by apply Hm2].
Qed.

(** ** Assignments *)

Definition upd_next (p v : Z) (m : mem) : mem := alter (λ n, n <| n_next := v |>) p m.
Definition upd_prev (p v : Z) (m : mem) : mem := alter (λ n, n <| n_prev := v |>) p m.

Lemma nextof_upd_next p v m q : nextof (upd_next p v m) q = if decide (p = q) then (λ _, v) <$> nextof m q else nextof m q.
Proof. unfold nextof, upd_next. rewrite lookup_alter. destruct (decide _) as [->|]; [|done]. by destruct (m !! q). Qed.
Lemma prevof_upd_prev p v m q : prevof (upd_prev p v m) q = if decide (p = q) then (λ _, v) <$> prevof m q else prevof m q.
Proof. unfold prevof, upd_prev. rewrite lookup_alter. destruct (decide _) as [->|]; [|done]. by destruct (m !! q). Qed.
Lemma nextof_upd_prev p v m q : nextof (upd_prev p v m) q = nextof m q.
Proof. unfold nextof, upd_prev. rewrite lookup_alter. destruct (decide _) as [->|]; [|done]. by destruct (m !! q). Qed.
Lemma prevof_upd_next p v m q : prevof (upd_next p v m) q = prevof m q.
Proof. unfold prevof, upd_next. rewrite lookup_alter. destruct (decide _) as [->|]; [|done]. by destruct (m !! q). Qed.
Lemma is_Some_upd_next p v m q : is_Some (upd_next p v m !! q) ↔ is_Some (m !! q).
Proof. unfold upd_next. rewrite lookup_alter. destruct (decide _) as [->|]; [|done]. by rewrite fmap_is_Some. Qed.
Lemma is_Some_upd_prev p v m q : is_Some (upd_prev p v m !! q) ↔ is_Some (m !! q).
Proof. unfold upd_prev. rewrite lookup_alter. destruct (decide _) as [->|]; [|done]. by rewrite fmap_is_Some. Qed.

Lemma is_Some_next m p : is_Some (m !! p) → is_Some (nextof m p).
Proof. intros [n Hn]. unfold nextof. rewrite Hn. by eexists. Qed.
Lemma is_Some_prev m p : is_Some (m !! p) → is_Some (prevof m p).
Proof. intros [n Hn]. unfold prevof. rewrite Hn. by eexists. Qed.

Lemma next_run {A} p v (k : Z → N A) m : nextof m p = Some v → (next p ≫= k) m = k v m.
Proof.
  unfold nextof, next, node_at, mbind, prog_bind, get. destruct (m !! p) as [n|] eqn:Hn; [|done].
  intros [= <-]. done.
Qed.
Lemma prev_run {A} p v (k : Z → N A) m : prevof m p = Some v → (prev p ≫= k) m = k v m.
Proof.
  unfold prevof, prev, node_at, mbind, prog_bind, get. destruct (m !! p) as [n|] eqn:Hn; [|done].
  intros [= <-]. done.
Qed.
Lemma set_next_last p v m : is_Some (m !! p) → set_next p v m = Done () (upd_next p v m).
Proof. intros [n Hn]. unfold set_next, store, node_at, mbind, prog_bind, get. cbn. by rewrite Hn. Qed.
Lemma set_prev_last p v m : is_Some (m !! p) → set_prev p v m = Done () (upd_prev p v m).
Proof. intros [n Hn]. unfold set_prev, store, node_at, mbind, prog_bind, get. cbn. by rewrite Hn. Qed.
Lemma set_next_run {A} p v (k : unit → N A) m : is_Some (m !! p) → (set_next p v ≫= k) m = k () (upd_next p v m).
Proof. intros Hp. by apply bind_run, set_next_last. Qed.
Lemma set_prev_run {A} p v (k : unit → N A) m : is_Some (m !! p) → (set_prev p v ≫= k) m = k () (upd_prev p v m).
Proof. intros Hp. by apply bind_run, set_prev_last. Qed.

(** [links] reads a link through the assignments made; [steps] runs the assignments and reads
    of a function. *)
Ltac links := repeat rewrite ?nextof_upd_prev, ?prevof_upd_next, ?nextof_upd_next, ?prevof_upd_prev; repeat case_decide;
  simplify_eq; try done.
Ltac there := repeat first [apply is_Some_upd_next|apply is_Some_upd_prev]; done.
Ltac run_steps := repeat first
  [ rewrite set_next_run by there | rewrite set_prev_run by there
  | rewrite set_next_last by there | rewrite set_prev_last by there
  | erewrite next_run by (links; done) | erewrite prev_run by (links; done) ].

(** A function that touches the nodes of [S] only, and frees none. *)
Record touches (S : list Z) (m m' : mem) : Prop := {
  to_same q : q ∉ S → m' !! q = m !! q;
  to_alive q : is_Some (m' !! q) ↔ is_Some (m !! q);
}.
Lemma touches_upd_next S p v m0 m : p ∈ S → touches S m0 m → touches S m0 (upd_next p v m).
Proof.
  intros Hp [Hs Ha]. split; intros q; [|by rewrite is_Some_upd_next]. intros Hq. rewrite <- Hs by done.
  apply lookup_alter_ne. by intros ->.
Qed.
Lemma touches_upd_prev S p v m0 m : p ∈ S → touches S m0 m → touches S m0 (upd_prev p v m).
Proof.
  intros Hp [Hs Ha]. split; intros q; [|by rewrite is_Some_upd_prev]. intros Hq. rewrite <- Hs by done.
  apply lookup_alter_ne. by intros ->.
Qed.
Lemma touches_refl S m : touches S m m.
Proof. by split. Qed.
Lemma touches_trans S m m1 m2 : touches S m m1 → touches S m1 m2 → touches S m m2.
Proof. intros [H1 H2] [H3 H4]. split; intros q; [|by rewrite H4]. intros Hq. by rewrite H3, H1. Qed.
Lemma touches_mono S S' m m' : S ⊆ S' → touches S m m' → touches S' m m'.
Proof. intros HS [H1 H2]. split; [|done]. intros q Hq. apply H1. set_solver. Qed.
Ltac touched := repeat first [apply touches_upd_next; [set_solver|]|apply touches_upd_prev; [set_solver|]]; apply touches_refl.

(** ** The operations *)

Lemma list_node m h l q : is_list m h l → q ∈ h :: l → is_Some (m !! q).
Proof. intros [_ Hp]. by apply (path_source _ _ _ _ _ Hp). Qed.

Lemma list_add_run m h l n :
  is_list m h l → n ∉ h :: l → is_Some (m !! n) →
  ∃ m', list_add h n m = Done () m' ∧ is_list m' h (n :: l) ∧ touches (n :: h :: l) m m'.
Proof.
  intros Hl Hn Hnew. pose proof (path_next _ _ _ _ (proj2 Hl)) as Hnext. pose proof (first_in l h) as Hf.
  assert (is_Some (m !! h)) as Hh by (eapply list_node; [done|left]).
  assert (is_Some (m !! first l h)) as Hx by by eapply list_node.
  assert (n ≠ h) as Hnh by (intros ->; apply Hn; left).
  assert (n ≠ first l h) as Hnx by (intros ->; done).
  apply is_Some_next in Hnew as Hn1. apply is_Some_prev in Hnew as Hn2. apply is_Some_prev in Hx as Hx2.
  destruct Hn1 as [? Hn1], Hn2 as [? Hn2], Hx2 as [? Hx2].
  eexists. split; [unfold list_add; run_steps; reflexivity|].
  split; [|].
  - apply (list_insert m _ h [] l n); [done|done|..]; simpl.
    + split; links; rewrite ?Hnext, ?Hn1, ?Hn2, ?Hx2; done.
    + split; links; rewrite ?Hnext, ?Hn1, ?Hn2, ?Hx2; done.
    + split; intros q Hq1 Hq2; links.
  - touched.
Qed.

(** The links of the memory after the assignments. *)
Ltac linked := cbn [first final]; split; links; repeat match goal with H : nextof _ _ = Some _ |- _ => rewrite H | H : prevof _ _ = Some _ |- _ => rewrite H end; done.
Ltac unchanged := cbn [first final]; split; intros q Hq1 Hq2; links; congruence.

Lemma list_add_tail_run m h l n :
  is_list m h l → n ∉ h :: l → is_Some (m !! n) →
  ∃ m', list_add_tail h n m = Done () m' ∧ is_list m' h (l ++ [n]) ∧ touches (n :: h :: l) m m'.
Proof.
  intros Hl Hn Hnew. pose proof (path_prev _ _ _ _ (proj2 Hl)) as Hprev. pose proof (final_in h l) as Hf.
  assert (is_Some (m !! h)) as Hh by (eapply list_node; [done|left]).
  assert (is_Some (m !! final h l)) as Hx by by eapply list_node.
  assert (n ≠ h) as Hnh by (intros ->; apply Hn; left).
  assert (n ≠ final h l) as Hnx by (intros ->; done).
  apply is_Some_next in Hnew as Hn1. apply is_Some_prev in Hnew as Hn2. apply is_Some_next in Hx as Hx2.
  destruct Hn1 as [? Hn1], Hn2 as [? Hn2], Hx2 as [? Hx2].
  eexists. split; [unfold list_add_tail; run_steps; reflexivity|]. split; [|touched].
  apply (list_insert m _ h l [] n); rewrite ?app_nil_r; [done|done|linked|linked|unchanged].
Qed.

Lemma list_add_after_run m h l1 x l2 n :
  is_list m h (l1 ++ x :: l2) → n ∉ h :: l1 ++ x :: l2 → is_Some (m !! n) →
  ∃ m', list_add_after h x n m = Done () m' ∧ is_list m' h (l1 ++ x :: n :: l2) ∧ touches (n :: h :: l1 ++ x :: l2) m m'.
Proof.
  intros Hl Hn Hnew. pose proof (proj2 Hl) as [_ [_ Hx]]%path_app. pose proof (path_next _ _ _ _ Hx) as Hnext.
  unfold list_add_after. rewrite (next_run _ _ _ _ Hnext).
  destruct (Z.eqb_spec (first l2 h) h) as [Heq|Hne].
  { assert (l2 = []) as ->.
    { destruct l2 as [|y l2]; [done|]. simpl in Heq. subst y. destruct Hl as [[Hh _]%NoDup_cons _].
      destruct Hh. rewrite elem_of_app. right. right. left. }
    destruct (list_add_tail_run _ _ _ _ Hl Hn Hnew) as (m' & Hrun & Hl' & Ht). exists m'.
    by rewrite <- app_assoc in Hl'. }
  assert (is_Some (m !! x)) as Hxs by (eapply list_node; [done|right; rewrite elem_of_app; right; left]).
  assert (first l2 h ∈ h :: l1 ++ x :: l2) as Hf.
  { destruct l2 as [|y l2]; [left|]. right. rewrite elem_of_app. right. right. left. }
  assert (is_Some (m !! first l2 h)) as Hfs by by eapply list_node.
  assert (n ≠ x) as Hnx by (intros ->; apply Hn; right; rewrite elem_of_app; right; left).
  assert (n ≠ first l2 h) as Hnf by (intros ->; done).
  apply is_Some_next in Hnew as Hn1. apply is_Some_prev in Hnew as Hn2. apply is_Some_prev in Hfs as Hx2.
  destruct Hn1 as [? Hn1], Hn2 as [? Hn2], Hx2 as [? Hx2].
  eexists. split; [run_steps; reflexivity|]. split; [|touched].
  assert (∀ l, l1 ++ x :: l = (l1 ++ [x]) ++ l) as Hcons by (intros l; by rewrite <- app_assoc).
  rewrite Hcons in Hl, Hn. rewrite Hcons.
  apply (list_insert m _ h (l1 ++ [x]) l2 n); rewrite ?final_snoc; [done|done|linked|linked|unchanged].
Qed.

Lemma list_del_run m h l1 n l2 :
  is_list m h (l1 ++ n :: l2) →
  ∃ m', list_del n m = Done () m' ∧ is_list m' h (l1 ++ l2) ∧ touches (h :: l1 ++ l2) m m'.
Proof.
  intros Hl. pose proof (proj2 Hl) as [Hp1 Hp2]%path_app.
  pose proof (path_prev _ _ _ _ Hp1) as Hprev. pose proof (path_next _ _ _ _ (proj2 Hp2)) as Hnext. simpl in Hprev.
  pose proof (proj1 Hl) as Hd. rewrite <- Permutation_middle in Hd.
  apply NoDup_cons in Hd as [Hh [Hn Hd]%NoDup_cons]. apply not_elem_of_cons in Hh as [Hhn Hh].
  assert (final h l1 ∈ h :: l1 ++ l2) as Hf1.
  { pose proof (final_in h l1) as [->|Hin]%elem_of_cons; [left|right; rewrite elem_of_app; by left]. }
  assert (first l2 h ∈ h :: l1 ++ l2) as Hf2.
  { pose proof (first_in l2 h) as [->|Hin]%elem_of_cons; [left|right; rewrite elem_of_app; by right]. }
  assert (∀ q, q ∈ h :: l1 ++ l2 → is_Some (m !! q) ∧ q ≠ n) as Hall.
  { intros q Hq. split; [eapply list_node; [done|]; revert Hq; rewrite !elem_of_cons, !elem_of_app, elem_of_cons; tauto|].
    intros ->. apply elem_of_cons in Hq as [->|]; done. }
  destruct (Hall _ Hf1) as [Hs1 Hn1], (Hall _ Hf2) as [Hs2 Hn2].
  apply is_Some_next in Hs1 as Hx1. apply is_Some_prev in Hs2 as Hx2. destruct Hx1 as [? Hx1], Hx2 as [? Hx2].
  eexists. split; [unfold list_del; run_steps; reflexivity|]. split; [|touched].
  apply (list_remove m _ h l1 n l2); [done|linked|unchanged].
Qed.

Lemma list_head_init_run m h :
  is_Some (m !! h) → ∃ m', list_head_init h m = Done () m' ∧ is_list m' h [] ∧ touches [h] m m'.
Proof.
  intros Hh. apply is_Some_next in Hh as Hx1. apply is_Some_prev in Hh as Hx2. destruct Hx1 as [? Hx1], Hx2 as [? Hx2].
  eexists. split; [unfold list_head_init; run_steps; reflexivity|]. split; [|touched].
  split; [by apply NoDup_singleton|]. simpl. linked.
Qed.

Lemma list_first m h l : is_list m h l → first l h = h ↔ l = [].
Proof.
  intros [[Hh _]%NoDup_cons _]. split; [|by intros ->]. destruct l as [|x l]; [done|]. simpl. intros ->. by destruct Hh; left.
Qed.
Lemma list_empty_run {A} (k : bool → N A) m h l :
  is_list m h l → (list_empty h ≫= k) m = k (match l with [] => true | _ => false end) m.
Proof.
  intros Hl. unfold list_empty. pose proof (path_next _ _ _ _ (proj2 Hl)) as Hnext.
  assert ((hn ← next h; mret (hn =? h)) m = Done (first l h =? h) m) as Hrun by by rewrite (next_run _ _ _ _ Hnext).
  rewrite (bind_run _ _ _ _ _ Hrun). f_equal. destruct (Z.eqb_spec (first l h) h) as [He|He].
  - apply (list_first _ _ _ Hl) in He. by subst l.
  - destruct l; [|done]. by destruct He.
Qed.
Lemma list_top_run m h l off :
  is_list m h l → list_top h off m = Done ((λ n, n - off) <$> head l) m.
Proof.
  intros Hl. unfold list_top. rewrite (list_empty_run _ _ _ _ Hl). destruct l as [|x l]; [done|].
  by rewrite (next_run _ _ _ _ (path_next _ _ _ _ (proj2 Hl))).
Qed.
Lemma list_tail_run m h l off :
  is_list m h l → list_tail h off m = Done ((λ n, n - off) <$> last l) m.
Proof.
  intros Hl. unfold list_tail. rewrite (list_empty_run _ _ _ _ Hl). destruct l as [|x l]; [done|].
  rewrite (prev_run _ _ _ _ (path_prev _ _ _ _ (proj2 Hl))). do 2 f_equal.
  simpl. clear Hl. revert x. induction l as [|y l IH]; intros x; [done|]. simpl. apply IH.
Qed.
Lemma list_pop_run m h x l off :
  is_list m h (x :: l) → ∃ m', list_pop h off m = Done (Some (x - off)) m' ∧ is_list m' h l ∧ touches (h :: l) m m'.
Proof.
  intros Hl. unfold list_pop. rewrite (list_empty_run _ _ _ _ Hl).
  rewrite (next_run _ _ _ _ (path_next _ _ _ _ (proj2 Hl))).
  destruct (list_del_run m h [] x l Hl) as (m' & Hrun & Hl' & Ht). exists m'.
  simpl first. by rewrite (bind_run _ _ _ _ _ Hrun).
Qed.
Lemma list_next_run m h l1 x l2 off :
  is_list m h (l1 ++ x :: l2) → list_next h (x - off) off m = Done ((λ n, n - off) <$> head l2) m.
Proof.
  intros Hl. pose proof (proj2 Hl) as [_ [_ Hp]]%path_app. unfold list_next, list_node_from_off_.
  replace (x - off + off) with x by lia. rewrite (next_run _ _ _ _ (path_next _ _ _ _ Hp)). unfold list_entry_or_null.
  destruct l2 as [|y l2]; simpl; [by rewrite Z.eqb_refl|]. rewrite (proj2 (Z.eqb_neq y h)); [done|]. intros ->.
  destruct Hl as [[Hh _]%NoDup_cons _]. apply Hh. rewrite elem_of_app. right. right. left.
Qed.
Lemma list_prev_run m h l1 x l2 off :
  is_list m h (l1 ++ x :: l2) → list_prev h (x - off) off m = Done ((λ n, n - off) <$> last l1) m.
Proof.
  intros Hl. pose proof (proj2 Hl) as [Hp _]%path_app. unfold list_prev, list_node_from_off_.
  replace (x - off + off) with x by lia. pose proof (path_prev _ _ _ _ Hp) as Hx. simpl in Hx.
  rewrite (prev_run _ _ _ _ Hx). unfold list_entry_or_null.
  destruct l1 as [|y l1 _] using rev_ind; simpl; [by rewrite Z.eqb_refl|]. rewrite final_snoc, last_snoc.
  rewrite (proj2 (Z.eqb_neq y h)); [done|]. intros ->. destruct Hl as [[Hh _]%NoDup_cons _]. apply Hh.
  rewrite !elem_of_app. left. right. left.
Qed.

(** *** Moving a whole list *)

Lemma is_list_same m m' h l :
  (∀ q, q ∈ h :: l → m' !! q = m !! q) → is_list m h l → is_list m' h l.
Proof.
  intros Hs [Hd Hp]. split; [done|]. eapply path_frame, Hp; intros q Hq; unfold nextof, prevof; by rewrite Hs.
Qed.

(** The head of a list that was sewn into another one is taken out, and is empty again. *)
Lemma list_unsew m to l1 from l2 :
  is_list m to (l1 ++ from :: l2) →
  ∃ m', (list_del from;; list_head_init from) m = Done () m' ∧ is_list m' to (l1 ++ l2) ∧ is_list m' from [] ∧
    touches (to :: l1 ++ from :: l2) m m'.
Proof.
  intros Hl. destruct (list_del_run _ _ _ _ _ Hl) as (m1 & Hdel & Hl1 & Ht1).
  assert (is_Some (m1 !! from)) as Hf.
  { rewrite (to_alive _ _ _ Ht1). eapply list_node; [done|]. right. rewrite elem_of_app. right. left. }
  destruct (list_head_init_run _ _ Hf) as (m2 & Hinit & Hl2 & Ht2). exists m2.
  rewrite (bind_run _ _ _ _ _ Hdel). split; [done|]. split_and!; [|done|].
  - eapply is_list_same, Hl1. intros q Hq. apply (to_same _ _ _ Ht2). rewrite list_elem_of_singleton. intros ->.
    destruct Hl as [Hd _]. rewrite <- Permutation_middle in Hd. apply NoDup_cons in Hd as [Hh [Hn _]%NoDup_cons].
    apply elem_of_cons in Hq as [->|Hq]; [|done]. by apply Hh; left.
  - eapply touches_trans; eapply touches_mono; [|exact Ht1| |exact Ht2].
    + intros q. rewrite !elem_of_cons, !elem_of_app, elem_of_cons. tauto.
    + intros q ->%list_elem_of_singleton. rewrite elem_of_cons, elem_of_app. right. right. left.
Qed.

Lemma disjoint_ne (l1 l2 : list Z) x y : l1 ## l2 → x ∈ l1 → y ∈ l2 → x ≠ y.
Proof. intros Hd Hx Hy ->. by apply (Hd y). Qed.

Section two.
Context (m : mem) (to from : Z) (l1 l2 : list Z).
Hypotheses (Hto : is_list m to l1) (Hfrom : is_list m from l2) (Hdis : (to :: l1) ## (from :: l2)).

Lemma two_nodup l : l ≡ₚ l1 ++ from :: l2 → NoDup (to :: l).
Proof.
  intros ->. destruct Hto as [Hd1 _], Hfrom as [Hd2 _].
  change (NoDup ((to :: l1) ++ from :: l2)). apply NoDup_app. split_and!; [done| |done].
  intros x Hx Hx'. by apply (Hdis x).
Qed.

Lemma list_append_run :
  ∃ m', list_append_list to from m = Done () m' ∧ is_list m' to (l1 ++ l2) ∧ is_list m' from [] ∧
    touches (to :: l1 ++ from :: l2) m m'.
Proof.
  pose proof (final_in to l1) as Hf1. pose proof (final_in from l2) as Hf2.
  pose proof (path_prev _ _ _ _ (proj2 Hto)) as Hp1. pose proof (path_prev _ _ _ _ (proj2 Hfrom)) as Hp2.
  assert (∀ q, q ∈ to :: l1 → ∀ r, r ∈ from :: l2 → q ≠ r) as Hne by (intros q Hq r Hr; by eapply disjoint_ne).
  assert (is_Some (m !! to)) as Hs1 by (eapply list_node; [exact Hto|left]).
  assert (is_Some (m !! from)) as Hs2 by (eapply list_node; [exact Hfrom|left]).
  assert (is_Some (m !! final to l1)) as Hs3 by by apply (list_node _ _ _ _ Hto).
  assert (is_Some (m !! final from l2)) as Hs4 by by apply (list_node _ _ _ _ Hfrom).
  pose proof (Hne _ (list_elem_of_here to l1) _ (list_elem_of_here from l2)) as N1.
  pose proof (Hne _ (list_elem_of_here to l1) _ Hf2) as N2.
  pose proof (Hne _ Hf1 _ (list_elem_of_here from l2)) as N3. pose proof (Hne _ Hf1 _ Hf2) as N4.
  apply is_Some_next in Hs3 as Hx3. apply is_Some_next in Hs4 as Hx4. destruct Hx3 as [? Hx3], Hx4 as [? Hx4].
  set (m1 := upd_prev from (final to l1) (upd_next (final to l1) from (upd_next (final from l2) to
    (upd_prev to (final from l2) m)))).
  assert (is_list m1 to (l1 ++ from :: l2)) as Hl.
  { split; [by apply two_nodup|]. apply path_app. split.
    - eapply path_end; [apply Hto|apply Hto|subst m1; linked|..]; intros q Hq; subst m1.
      + intros Hqf. pose proof (Hne q Hq _ Hf2). links; congruence.
      + assert (q ≠ to) by (intros ->; by destruct Hto as [[Ht _]%NoDup_cons _]).
        pose proof (Hne q (list_elem_of_further _ _ _ Hq) _ (list_elem_of_here from l2)). links; congruence.
    - split; [subst m1; linked|]. eapply path_end; [apply Hfrom|apply Hfrom|subst m1; linked|..]; intros q Hq; subst m1.
      + intros Hqf. pose proof (Hne _ Hf1 q Hq). links; congruence.
      + assert (q ≠ from) by (intros ->; by destruct Hfrom as [[Ht _]%NoDup_cons _]).
        pose proof (Hne _ (list_elem_of_here to l1) q (list_elem_of_further _ _ _ Hq)). links; congruence. }
  destruct (list_unsew _ _ _ _ _ Hl) as (m' & Hrun & Hl1 & Hl2 & Ht). exists m'. split; [|split; [done|split; [done|]]].
  - unfold list_append_list. rewrite (prev_run _ _ _ _ Hp2), (prev_run _ _ _ _ Hp1).
    rewrite set_prev_run by there. rewrite set_next_run by there. rewrite set_next_run by there.
    rewrite set_prev_run by there. exact Hrun.
  - eapply touches_trans, Ht. subst m1.
    assert (∀ q, q ∈ to :: l1 → q ∈ to :: l1 ++ from :: l2) as Hin1 by (intros q; rewrite !elem_of_cons, elem_of_app; tauto).
    assert (∀ q, q ∈ from :: l2 → q ∈ to :: l1 ++ from :: l2) as Hin2 by (intros q; rewrite !elem_of_cons, elem_of_app, elem_of_cons; tauto).
    apply touches_upd_prev; [apply Hin2; left|]. apply touches_upd_next; [by apply Hin1|].
    apply touches_upd_next; [by apply Hin2|]. apply touches_upd_prev; [apply Hin1; left|]. apply touches_refl.
Qed.

Lemma list_prepend_run :
  ∃ m', list_prepend_list to from m = Done () m' ∧ is_list m' to (l2 ++ l1) ∧ is_list m' from [] ∧
    touches (to :: l1 ++ from :: l2) m m'.
Proof.
  pose proof (first_in l1 to) as Hf1. pose proof (final_in from l2) as Hf2.
  pose proof (path_next _ _ _ _ (proj2 Hto)) as Hp1. pose proof (path_prev _ _ _ _ (proj2 Hfrom)) as Hp2.
  assert (∀ q, q ∈ to :: l1 → ∀ r, r ∈ from :: l2 → q ≠ r) as Hne by (intros q Hq r Hr; by eapply disjoint_ne).
  assert (is_Some (m !! to)) as Hs1 by (eapply list_node; [exact Hto|left]).
  assert (is_Some (m !! from)) as Hs2 by (eapply list_node; [exact Hfrom|left]).
  assert (is_Some (m !! first l1 to)) as Hs3 by by apply (list_node _ _ _ _ Hto).
  assert (is_Some (m !! final from l2)) as Hs4 by by apply (list_node _ _ _ _ Hfrom).
  pose proof (Hne _ (list_elem_of_here to l1) _ (list_elem_of_here from l2)) as N1.
  pose proof (Hne _ (list_elem_of_here to l1) _ Hf2) as N2.
  pose proof (Hne _ Hf1 _ (list_elem_of_here from l2)) as N3. pose proof (Hne _ Hf1 _ Hf2) as N4.
  apply is_Some_prev in Hs3 as Hx3. apply is_Some_next in Hs4 as Hx4. destruct Hx3 as [? Hx3], Hx4 as [? Hx4].
  set (m1 := upd_next (final from l2) (first l1 to) (upd_prev (first l1 to) (final from l2)
    (upd_prev from to (upd_next to from m)))).
  assert (is_list m1 to ([] ++ from :: l2 ++ l1)) as Hl.
  { split; [apply two_nodup; by rewrite <- Permutation_middle, (Permutation_app_comm l1)|]. split; [subst m1; linked|].
    apply path_app. split.
    - eapply path_end; [apply Hfrom|apply Hfrom|subst m1; linked|..]; intros q Hq; subst m1.
      + intros Hqf. pose proof (Hne _ (list_elem_of_here to l1) q Hq). links; congruence.
      + assert (q ≠ from) by (intros ->; by destruct Hfrom as [[Ht _]%NoDup_cons _]).
        pose proof (Hne _ Hf1 q (list_elem_of_further _ _ _ Hq)). links; congruence.
    - eapply path_start; [apply Hto|apply Hto|subst m1; linked|..]; intros q Hq; subst m1.
      + assert (q ≠ to) by (intros ->; by destruct Hto as [[Ht _]%NoDup_cons _]).
        pose proof (Hne q (list_elem_of_further _ _ _ Hq) _ Hf2). links; congruence.
      + intros Hqf. pose proof (Hne q Hq _ (list_elem_of_here from l2)). links; congruence. }
  destruct (list_unsew _ _ _ _ _ Hl) as (m' & Hrun & Hl1 & Hl2 & Ht). exists m'. split; [|split; [done|split; [done|]]].
  - unfold list_prepend_list. rewrite (prev_run _ _ _ _ Hp2), (next_run _ _ _ _ Hp1).
    rewrite set_next_run by there. rewrite set_prev_run by there. rewrite set_prev_run by there.
    rewrite set_next_run by there. exact Hrun.
  - eapply touches_trans; [|eapply touches_mono, Ht].
    + subst m1. assert (∀ q, q ∈ to :: l1 → q ∈ to :: l1 ++ from :: l2) as Hin1 by (intros q; rewrite !elem_of_cons, elem_of_app; tauto).
      assert (∀ q, q ∈ from :: l2 → q ∈ to :: l1 ++ from :: l2) as Hin2 by (intros q; rewrite !elem_of_cons, elem_of_app, elem_of_cons; tauto).
      apply touches_upd_next; [by apply Hin2|]. apply touches_upd_prev; [by apply Hin1|].
      apply touches_upd_prev; [apply Hin2; left|]. apply touches_upd_next; [apply Hin1; left|]. apply touches_refl.
    + intros q. simpl. rewrite !elem_of_cons, !elem_of_app, !elem_of_cons. tauto.
Qed.
End two.

(** ** The check *)

(** The nodes of the memory point at nodes of it. *)
Definition closed (m : mem) : Prop := ∀ p n, m !! p = Some n → is_Some (m !! n_next n).

Lemma nodes_bound (m : mem) l : NoDup l → (∀ q, q ∈ l → is_Some (m !! q)) → (length l ≤ size m)%nat.
Proof.
  intros Hd Hin. rewrite <- (size_dom (D := gset Z)). rewrite <- (size_list_to_set (C := gset Z)) by done.
  apply subseteq_size. intros q. rewrite elem_of_list_to_set, elem_of_dom. apply Hin.
Qed.
Lemma list_length m h l : is_list m h l → (length l < size m)%nat.
Proof.
  intros Hl. pose proof (nodes_bound m (h :: l) (proj1 Hl)) as Hb. simpl in Hb. apply Hb.
  intros q Hq. by eapply list_node.
Qed.

(** What the loop has seen: the nodes [l] after [node], linked one by one. *)
Definition seen (m : mem) (node : Z) (l : list Z) : Prop :=
  NoDup (node :: l) ∧ ∀ l1 x l2, l = l1 ++ x :: l2 → link m (final node l1) x.

Lemma seen_path m node l b : seen m node l → link m (final node l) b → path m node l b.
Proof.
  intros [_ Hl] Hb. revert node Hl Hb. induction l as [|x l IH]; intros node Hl Hb; simpl in *; [done|].
  split; [by apply (Hl [] x l)|]. apply IH; [|done]. intros l1 y l2 ->. by apply (Hl (x :: l1) y l2).
Qed.
Lemma seen_snoc m node l n :
  seen m node l → n ≠ node → link m (final node l) n → seen m node (l ++ [n]).
Proof.
  intros [Hd Hl] Hne Hn. split.
  - change (NoDup ((node :: l) ++ [n])). apply NoDup_app. split_and!; [done| |by apply NoDup_singleton].
    intros x Hx ->%list_elem_of_singleton. apply elem_of_cons in Hx as [->|Hx]; [done|].
    apply list_elem_of_split in Hx as (l1 & l2 & ->). destruct (Hl l1 n l2 eq_refl) as [_ Hp], Hn as [_ Hp'].
    rewrite Hp in Hp'. injection Hp' as Hf.
    assert (final node l1 = final n l2) as Hf'.
    { rewrite Hf. clear. revert node. induction l1 as [|y l1 IH]; intros node; simpl; [done|apply IH]. }
    pose proof (final_in node l1) as H1. rewrite Hf' in H1. pose proof (final_in n l2) as H2.
    change (NoDup ((node :: l1) ++ n :: l2)) in Hd. apply NoDup_app in Hd as (_ & Hd & _). by eapply Hd.
  - intros l1 x l2 Heq. destruct l2 as [|y l2 _] using rev_ind.
    + apply app_inj_tail in Heq as [-> ->]. done.
    + change (l ++ [n] = l1 ++ (x :: l2) ++ [y]) in Heq. rewrite app_assoc in Heq.
      apply app_inj_tail in Heq as [-> ->]. by eapply Hl.
Qed.

Lemma check_loop_sound m node fuel : ∀ l n,
  closed m → is_Some (m !! node) → seen m node l → nextof m (final node l) = Some n →
  (∀ q, q ∈ l → is_Some (m !! q)) → (size m < S fuel + length l)%nat →
  ∃ r, check_loop fuel node (final node l) n m = Done r m ∧
    ∀ p, r = Some p → ∃ l', seen m node l' ∧ p = final node l' ∧ nextof m p = Some node.
Proof.
  induction fuel as [|fuel IH]; intros l n Hc Hnode Hseen Hn Hall Hfuel; simpl;
    destruct (Z.eqb_spec n node) as [->|Hne];
    try by (exists (Some (final node l)); split; [done|]; intros p [= <-]; exists l).
  - exfalso. assert (length (node :: l) ≤ size m)%nat; [|simpl in *; lia].
    apply nodes_bound; [apply Hseen|]. intros q [->|Hq]%elem_of_cons; auto.
  - assert (is_Some (m !! n)) as Hsn.
    { unfold nextof in Hn. destruct (m !! final node l) as [x|] eqn:Hx; [|done]. injection Hn as <-. by eapply Hc. }
    destruct (is_Some_prev _ _ Hsn) as [q Hq]. rewrite (prev_run _ _ _ _ Hq).
    destruct (Z.eqb_spec q (final node l)) as [->|Hqp]; simpl; [|by exists None].
    destruct (is_Some_next _ _ Hsn) as [n' Hn']. rewrite (next_run _ _ _ _ Hn').
    destruct (IH (l ++ [n]) n') as (r & Hr & Hcase); [done|done|by apply seen_snoc|by rewrite final_snoc|..].
    + intros x. rewrite elem_of_app, list_elem_of_singleton. intros [Hx| ->]; auto.
    + rewrite length_app. simpl. lia.
    + rewrite final_snoc in Hr. eauto.
Qed.
Lemma check_loop_complete m h fuel p l :
  path m p l h → h ∉ l → (length l ≤ fuel)%nat → check_loop fuel h p (first l h) m = Done (Some (final p l)) m.
Proof.
  revert fuel p. induction l as [|x l IH]; intros fuel p Hp Hh Hf; simpl.
  { destruct fuel; simpl; by rewrite Z.eqb_refl. }
  apply not_elem_of_cons in Hh as [Hx Hh]. destruct Hp as [[_ Hpx] Hp]. destruct fuel as [|fuel]; simpl in *; [lia|].
  rewrite (proj2 (Z.eqb_neq x h)) by congruence. rewrite (prev_run _ _ _ _ Hpx), Z.eqb_refl. simpl.
  rewrite (next_run _ _ _ _ (path_next _ _ _ _ Hp)). apply IH; [done..|lia].
Qed.

(** C22: the consistency check always answers, in a memory whose nodes point at nodes: it accepts exactly the
    heads of the memories that hold a list, and it changes nothing.  The fuel, one step for a node,
    is enough: a node whose [prev] is the node before it is never met twice.  What it refuses ends
    the process when there is a message to print. *)
Theorem list_check_spec m h aborts :
  closed m → is_Some (m !! h) →
  ((∃ l, is_list m h l) ∧ list_check h aborts m = Done true m) ∨
  ((∀ l, ¬ is_list m h l) ∧ list_check h aborts m = if aborts then Exited 134 m else Done false m).
Proof.
  intros Hc Hh. destruct (is_Some_next _ _ Hh) as [n Hn]. destruct (is_Some_prev _ _ Hh) as [q Hq].
  assert (corrupt aborts m = if aborts then Exited 134 m else Done false m) as Hcor by by destruct aborts.
  destruct (check_loop_sound m h (S (size m)) [] n) as (r & Hr & Hsound);
    [done|done|split; [by apply NoDup_singleton|by intros [] ?]|done|by intros ? ?%elem_of_nil|simpl; lia|].
  assert (list_check h aborts m = match r with
    | None => corrupt aborts m
    | Some p => if negb (q =? p) then corrupt aborts m else Done true m
    end) as ->.
  { unfold list_check, list_check_node. rewrite (next_run _ _ _ _ Hn). unfold nodes, gets.
    unfold mbind at 1, prog_bind at 1. rewrite (bind_run _ _ _ _ _ Hr). destruct r as [p|]; [|done].
    rewrite (prev_run _ _ _ _ Hq). by destruct (q =? p). }
  assert (∀ l, is_list m h l → r = Some (final h l) ∧ q = final h l) as Hcomplete.
  { intros l Hl. pose proof (path_next _ _ _ _ (proj2 Hl)) as Hf. rewrite Hn in Hf. injection Hf as ->.
    pose proof (path_prev _ _ _ _ (proj2 Hl)) as Hp. rewrite Hq in Hp. injection Hp as ->. split; [|done].
    pose proof (list_length _ _ _ Hl) as Hlen. pose proof Hl as [[Hnot _]%NoDup_cons Hpath].
    assert (length l ≤ S (size m))%nat as Hfuel by lia.
    pose proof (check_loop_complete _ _ _ _ _ Hpath Hnot Hfuel) as Hrun. cbn [final] in Hr. rewrite Hrun in Hr. by injection Hr. }
  destruct r as [p|].
  2: { right. split; [|exact Hcor]. intros l Hl. by destruct (Hcomplete _ Hl). }
  destruct (Z.eqb_spec q p) as [->|Hne]; simpl.
  - left. split; [|done]. destruct (Hsound p eq_refl) as (l & Hs & -> & Hnext). exists l. split; [apply Hs|].
    by apply seen_path.
  - right. split; [|exact Hcor]. intros l Hl. destruct (Hcomplete _ Hl) as [[= ->] ->]. done.
Qed.

(** ** The loops *)

Section loops.
Context {A : Type} (body : A → Z → N (A + A)) (h off : Z).

(** The body on the entries of the nodes [l], in order. *)
Fixpoint on_entries (l : list Z) (a : A) : N A :=
  match l with
  | [] => mret a
  | x :: l' => r ← body a (x - off); match r with inl a => mret a | inr a => on_entries l' a end
  end.

Lemma for_each_loop_run l2 : ∀ l1 fuel a m,
  (∀ l1 x l2 a m a' m', is_list m h (l1 ++ x :: l2) → body a (x - off) m = Done (inr a') m' → is_list m' h (l1 ++ x :: l2)) →
  is_list m h (l1 ++ l2) → (length l2 ≤ fuel)%nat →
  for_each_loop body fuel h off (first l2 h - off) a m = on_entries l2 a m.
Proof.
  induction l2 as [|x l2 IH]; intros l1 fuel a m Hbody Hl Hf.
  { destruct fuel; simpl; unfold list_node_from_off_; rewrite (proj2 (Z.eqb_eq _ _)); (done || lia). }
  destruct fuel as [|fuel]; simpl in *; [lia|]. unfold list_node_from_off_ at 1.
  replace (x - off + off) with x by lia. rewrite (proj2 (Z.eqb_neq x h)).
  2: { intros ->. destruct Hl as [[Hh _]%NoDup_cons _]. apply Hh. rewrite elem_of_app. right. left. }
  unfold mbind at 1 3, prog_bind at 1 3. destruct (body a (x - off) m) as [[a'|a'] m'| |] eqn:Hb; [done| |done..].
  specialize (Hbody _ _ _ _ _ _ _ Hl Hb) as Hl'. pose proof (proj2 Hl') as [_ [_ Hp]]%path_app.
  unfold list_node_from_off_. replace (x - off + off) with x by lia.
  rewrite (next_run _ _ _ _ (path_next _ _ _ _ Hp)). unfold list_node_to_off_.
  apply (IH (l1 ++ [x])); [done|by rewrite <- app_assoc|lia].
Qed.

Lemma for_each_safe_loop_run l2 : ∀ l1 fuel a m nxt,
  (∀ l1 x l2 a m a' m', is_list m h (l1 ++ x :: l2) → body a (x - off) m = Done (inr a') m' →
    ∃ l1', is_list m' h (l1' ++ l2)) →
  is_list m h (l1 ++ l2) → (length l2 ≤ fuel)%nat →
  (∀ x l3, l2 = x :: l3 → nxt = first l3 h - off) →
  for_each_safe_loop body fuel h off (first l2 h - off) nxt a m = on_entries l2 a m.
Proof.
  induction l2 as [|x l2 IH]; intros l1 fuel a m nxt Hbody Hl Hf Hnxt.
  { destruct fuel; simpl; unfold list_node_from_off_; rewrite (proj2 (Z.eqb_eq _ _)); (done || lia). }
  destruct fuel as [|fuel]; simpl in *; [lia|]. unfold list_node_from_off_ at 1.
  replace (x - off + off) with x by lia. rewrite (proj2 (Z.eqb_neq x h)).
  2: { intros ->. destruct Hl as [[Hh _]%NoDup_cons _]. apply Hh. rewrite elem_of_app. right. left. }
  unfold mbind at 1 3, prog_bind at 1 3. destruct (body a (x - off) m) as [[a'|a'] m'| |] eqn:Hb; [done| |done..].
  destruct (Hbody _ _ _ _ _ _ _ Hl Hb) as [l1' Hl']. rewrite (Hnxt x l2 eq_refl).
  unfold list_node_from_off_. replace (first l2 h - off + off) with (first l2 h) by lia.
  assert (∃ v, nextof m' (first l2 h) = Some v ∧ ∀ y l3, l2 = y :: l3 → v = first l3 h) as (v & Hv & Hvl).
  { destruct l2 as [|y l2]; simpl.
    - rewrite app_nil_r in Hl'. exists (first l1' h). by split; [apply (path_next _ _ _ _ (proj2 Hl'))|].
    - pose proof (proj2 Hl') as [_ [_ Hp]]%path_app. exists (first l2 h). split; [by apply (path_next _ _ _ _ Hp)|].
      by intros ? ? [= <- <-]. }
  rewrite (next_run _ _ _ _ Hv). apply (IH l1'); [done..|lia|]. unfold list_node_to_off_.
  intros y l3 ->. by rewrite (Hvl y l3 eq_refl).
Qed.

Lemma list_for_each_run m l a :
  (∀ l1 x l2 a m a' m', is_list m h (l1 ++ x :: l2) → body a (x - off) m = Done (inr a') m' → is_list m' h (l1 ++ x :: l2)) →
  is_list m h l → list_for_each_off body h off a m = on_entries l a m.
Proof.
  intros Hbody Hl. unfold list_for_each_off. rewrite (next_run _ _ _ _ (path_next _ _ _ _ (proj2 Hl))).
  pose proof (list_length _ _ _ Hl). by apply (for_each_loop_run l []); [done..|lia].
Qed.

(** The loop that allows deletion runs its body on the entries of the list it starts with, each
    once and in order, until the body leaves it, whatever the body does to the nodes before the
    next one: its own entry may be deleted, and freed with what it is part of. *)
Lemma list_for_each_safe_spec m l a :
  (∀ l1 x l2 a m a' m', is_list m h (l1 ++ x :: l2) → body a (x - off) m = Done (inr a') m' →
    ∃ l1', is_list m' h (l1' ++ l2)) →
  is_list m h l → list_for_each_safe_off body h off a m = on_entries l a m.
Proof.
  intros Hbody Hl. unfold list_for_each_safe_off. rewrite (next_run _ _ _ _ (path_next _ _ _ _ (proj2 Hl))).
  unfold list_node_from_off_, list_node_to_off_. replace (first l h - off + off) with (first l h) by lia.
  assert (∃ v, nextof m (first l h) = Some v ∧ ∀ x l3, l = x :: l3 → v = first l3 h) as (v & Hv & Hvl).
  { destruct l as [|x l]; simpl.
    - exists h. by split; [apply (path_next _ _ _ _ (proj2 Hl))|].
    - exists (first l h). split; [by apply (path_next _ _ _ _ (proj2 (proj2 Hl)))|]. by intros ? ? [= <- <-]. }
  rewrite (next_run _ _ _ _ Hv). pose proof (list_length _ _ _ Hl).
  apply (for_each_safe_loop_run l []); [done..|lia|]. intros x l3 ->. by rewrite (Hvl x l3 eq_refl).
Qed.
End loops.

(** ** The lists of the library

    Tree has a list of objects where the code has a head and a node in every object.
    The node of the object [p] is at [node_of p], [off] bytes into it. *)

(** The lists of other nodes are as they were. *)
Definition leaves_others (S : list Z) (m m' : mem) : Prop :=
  ∀ h l, (h :: l) ## S → is_list m h l → is_list m' h l.
Lemma touches_others S m m' : touches S m m' → leaves_others S m m'.
Proof.
  intros Ht h l Hd. apply is_list_same. intros q Hq. apply (to_same _ _ _ Ht). intros Hs. by apply (Hd q).
Qed.

Section objects.
Context (h off : Z) (node_of : positive → Z) `{!Inj (=) (=) node_of}.
Definition entry (p : positive) : Z := node_of p - off.
Definition holds (m : mem) (l : list positive) : Prop := is_list m h (node_of <$> l).

Lemma node_in p (l : list positive) : node_of p ∈ node_of <$> l ↔ p ∈ l.
Proof. rewrite list_elem_of_fmap. split; [by intros (q & ->%(inj node_of) & Hq)|eauto]. Qed.
Lemma tree_next_split (l1 : list positive) p l2 : p ∉ l1 → Tree.list_next (l1 ++ (p :: l2)) p = head l2.
Proof.
  induction l1 as [|q l1 IH]; simpl; [by rewrite decide_True|]. intros [Hne Hp]%not_elem_of_cons.
  rewrite decide_False by congruence. by apply IH.
Qed.
Lemma list_del_notin (l : list positive) p : p ∉ l → Tree.list_del p l = l.
Proof.
  induction l as [|q l IH]; [done|]. intros [Hne Hp]%not_elem_of_cons. unfold Tree.list_del in *.
  rewrite filter_cons_True by congruence. by rewrite IH.
Qed.
Lemma tree_del_split l1 p l2 : NoDup (l1 ++ p :: l2) → Tree.list_del p (l1 ++ p :: l2) = l1 ++ l2.
Proof.
  intros (_ & Hd & [Hp _]%NoDup_cons)%NoDup_app. pose proof (list_del_notin l2 p Hp) as H2.
  assert (Tree.list_del p l1 = l1) as H1 by (apply list_del_notin; intros Hq; apply (Hd p Hq); left).
  unfold Tree.list_del in *. rewrite filter_app, filter_cons_False by naive_solver. by rewrite H1, H2.
Qed.
Lemma holds_split m l p :
  holds m l → p ∈ l → ∃ l1 l2, l = l1 ++ (p :: l2) ∧ (p ∉ l1) ∧ NoDup l ∧
    is_list m h ((node_of <$> l1) ++ (node_of p :: (node_of <$> l2))).
Proof.
  intros Hl (l1 & l2 & -> & Hp)%list_elem_of_split_l. exists l1, l2. split_and!; [done|done| |by unfold holds in Hl; rewrite fmap_app in Hl].
  destruct Hl as [[_ Hd]%NoDup_cons _]. by eapply NoDup_fmap_1.
Qed.

(** C21: the lists of the library are lists: where the code's memory holds a list of objects, the
    first entry, the entry after one, adding at the end and deletion in the code are the functions
    of that name on the list, and other lists stay as they are.  The loop that releases
    every object ends, with an empty list. *)
Theorem tree_lists_refine m l :
  holds m l →
  list_top h off m = Done (entry <$> Tree.list_top l) m ∧
  (∀ p, p ∈ l → list_next h (entry p) off m = Done (entry <$> Tree.list_next l p) m) ∧
  (∀ p, p ∉ l → node_of p ≠ h → is_Some (m !! node_of p) →
    ∃ m', list_add_tail h (node_of p) m = Done () m' ∧ holds m' (Tree.list_add_tail p l) ∧
      leaves_others (node_of p :: h :: (node_of <$> l)) m m') ∧
  (∀ p, p ∈ l → ∃ m', list_del (node_of p) m = Done () m' ∧ holds m' (Tree.list_del p l) ∧
      leaves_others (h :: (node_of <$> l)) m m') ∧
  (∃ m', list_for_each_safe_off (λ _ i, list_del (list_node_from_off_ i off);; mret (inr ())) h off () m = Done () m' ∧
    holds m' []).
Proof.
  intros Hl. split_and!.
  - rewrite (list_top_run _ _ _ off Hl). by destruct l.
  - intros p Hp. destruct (holds_split _ _ _ Hl Hp) as (l1 & l2 & -> & Hp1 & _ & Hl').
    unfold entry at 1. rewrite (tree_next_split _ _ _ Hp1), (list_next_run _ _ _ _ _ off Hl'). by destruct l2.
  - intros p Hp Hh Hs. assert (node_of p ∉ h :: (node_of <$> l)) as Hn.
    { apply not_elem_of_cons. by rewrite node_in. }
    destruct (list_add_tail_run _ _ _ _ Hl Hn Hs) as (m' & Hrun & Hl' & Ht). exists m'. split; [done|].
    split; [|by apply touches_others]. unfold holds, Tree.list_add_tail. by rewrite fmap_app.
  - intros p Hp. destruct (holds_split _ _ _ Hl Hp) as (l1 & l2 & -> & _ & Hd & Hl').
    destruct (list_del_run _ _ _ _ _ Hl') as (m' & Hrun & Hl2 & Ht). exists m'. split; [done|].
    rewrite (tree_del_split _ _ _ Hd). split; [unfold holds; by rewrite fmap_app|].
    apply touches_others. eapply touches_mono, Ht. rewrite fmap_app. intros q. simpl.
    rewrite !elem_of_cons, !elem_of_app, elem_of_cons. tauto.
  - rewrite list_for_each_safe_spec with (l := node_of <$> l); [|clear; intros l1 x l2 [] m [] m' Hl Hrun|done].
    + clear -Hl. unfold holds in *. revert m Hl. induction (node_of <$> l) as [|x l' IH]; intros m Hl; [by exists m|].
      destruct (list_del_run m h [] x l' Hl) as (m1 & Hrun & Hl1 & _). simpl on_entries.
      unfold list_node_from_off_. replace (x - off + off) with x by lia.
      rewrite (bind_run _ _ _ (inr ()) m1); [by apply IH|]. by rewrite (bind_run _ _ _ _ _ Hrun).
    + exists l1. unfold list_node_from_off_ in Hrun. replace (x - off + off) with x in Hrun by lia.
      destruct (list_del_run _ _ _ _ _ Hl) as (m1 & Hdel & Hl1 & _). rewrite (bind_run _ _ _ _ _ Hdel) in Hrun.
      by injection Hrun as <-.
Qed.
End objects.

(** ** A memory with a list of two nodes and a node of its own *)

Definition demo_node (p : positive) : Z := 100 * Zpos p + 16.
#[export] Instance demo_node_inj : Inj (=) (=) demo_node.
Proof. intros p q. unfold demo_node. lia. Qed.
Definition demo_mem : mem :=
  list_to_map [(1000, ListNode 116 216); (116, ListNode 216 1000); (216, ListNode 1000 116); (316, ListNode 0 0)].
Lemma demo_holds : holds 1000 demo_node demo_mem [1; 2]%positive.
Proof. split; [by apply (bool_decide_unpack _); vm_compute|by vm_compute]. Qed.

Lemma tree_lists_refine_witness :
  holds 1000 demo_node demo_mem [1; 2]%positive ∧
  list_top 1000 16 demo_mem = Done (Some 100) demo_mem ∧
  (∃ m', list_add_tail 1000 316 demo_mem = Done () m' ∧ holds 1000 demo_node m' [1; 2; 3]%positive) ∧
  (∃ m', list_del 116 demo_mem = Done () m' ∧ holds 1000 demo_node m' [2]%positive).
Proof.
  split; [exact demo_holds|].
  destruct (tree_lists_refine 1000 16 demo_node demo_mem [1; 2]%positive demo_holds) as (Htop & _ & Hadd & Hdel & _).
  split; [exact Htop|]. split.
  - destruct (Hadd 3%positive) as (m' & Hrun & Hl & _); [by apply (bool_decide_unpack _); vm_compute|done|by eexists|].
    by exists m'.
  - destruct (Hdel 1%positive) as (m' & Hrun & Hl & _); [by apply (bool_decide_unpack _); vm_compute|]. by exists m'.
Defined.

(** The last node's link to the one before is wrong. *)
Definition torn_mem : mem := <[216 := ListNode 1000 1000]> (delete 316 demo_mem).
Lemma torn_closed : closed torn_mem.
Proof.
  assert (map_Forall (λ _ n, is_Some (torn_mem !! n_next n)) torn_mem) as H by by apply (bool_decide_unpack _); vm_compute.
  exact H.
Qed.
Lemma list_check_spec_witness :
  closed torn_mem ∧ (∀ l, ¬ is_list torn_mem 1000 l) ∧
  list_check 1000 false torn_mem = Done false torn_mem ∧ list_check 1000 true torn_mem = Exited 134 torn_mem.
Proof.
  split; [exact torn_closed|].
  destruct (list_check_spec torn_mem 1000 false torn_closed) as [[_ Hrun]|[Hno Hrun]]; [by eexists|discriminate Hrun|].
  destruct (list_check_spec torn_mem 1000 true torn_closed) as [[_ Hrun']|[_ Hrun']]; [by eexists|discriminate Hrun'|].
  done.
Defined.
