(* ===== verification/Layout.v ===== *)
(** * The layout of C structures

    Where the members of a structure lie by the rules of the System V ABI of x86-64, with
    gcc's packed structures: natural alignment, anonymous structures and unions, arrays and
    bit-fields.  Positions are in bits from the start, lowest bit of the lowest byte first,
    and the contents of an object are the number these bits make.  The theorems hold of every
    type: members lie inside their structure, those of a structure one after the other; what is
    written to a member is read back, and other members are left alone. *)

From S2P Require Import Prelude CString.
Local Open Scope string_scope.
Local Open Scope Z_scope.

#[local] Set Warnings "-register-all".
Inductive ctype :=
  | UInt (n : Z)                                          (* an unsigned integer of n bytes *)
  | Arr (t : ctype) (k : Z)
  | Bits (n w : Z)                                        (* a bit-field of w bits, of an n-byte type *)
  | Struct (packed : bool) (ms : list (string * ctype))   (* anonymous members have no name *)
  | Union (ms : list (string * ctype)).

(** In bytes. *)
Fixpoint align (t : ctype) : Z :=
  match t with
  | UInt n | Bits n _ => n
  | Arr t _ => align t
  | Struct packed ms => if packed : bool then 1 else foldr (λ m a, Z.max (align m.2) a) 1 ms
  | Union ms => foldr (λ m a, Z.max (align m.2) a) 1 ms
  end.

Definition round_up (pos a : Z) : Z := (pos + a - 1) / a * a.

(** Where a member goes when the members before it end at [pos]: a bit-field stays there
    unless it would cross a boundary of its type, anything else is aligned. *)
Definition place (packed : bool) (pos : Z) (t : ctype) : Z :=
  match t with
  | Bits n w => if packed || (pos / (8 * n) =? (pos + w - 1) / (8 * n)) then pos else round_up pos (8 * n)
  | _ => round_up pos (if packed then 8 else 8 * align t)
  end.

(** In bits. *)
Fixpoint size (t : ctype) : Z :=
  match t with
  | UInt n => 8 * n
  | Arr t k => k * size t
  | Bits _ w => w
  | Struct packed ms =>
      round_up ((fix go pos ms := match ms with
                  | [] => pos
                  | m :: ms' => go (place packed pos m.2 + size m.2) ms'
                  end) 0 ms) (8 * align t)
  | Union ms => round_up (foldr (λ m a, Z.max (size m.2) a) 0 ms) (8 * align t)
  end.

(** The members of a structure with their positions. *)
Fixpoint placed (packed : bool) (pos : Z) (ms : list (string * ctype)) : list (Z * (string * ctype)) :=
  match ms with
  | [] => []
  | m :: ms' => let p := place packed pos m.2 in (p, m) :: placed packed (p + size m.2) ms'
  end.

Record field := Field { f_name : string; f_pos : Z; f_width : Z }.

(** The members that have a name, those of anonymous structures and unions included. *)
Fixpoint fields (base : Z) (name : string) (t : ctype) : list field :=
  match t with
  | Struct packed ms =>
      (fix go pos ms := match ms with
        | [] => []
        | m :: ms' => let p := place packed pos m.2 in
            (fields (base + p) m.1 m.2 ++ go (p + size m.2) ms')%list
        end) 0 ms
  | Union ms => (fix go ms := match ms with [] => [] | m :: ms' => (fields base m.1 m.2 ++ go ms')%list end) ms
  | _ => [Field name base (size t)]
  end.

Definition sizeof (t : ctype) : Z := size t / 8.
Definition find_field (t : ctype) (name : string) : option field :=
  List.find (λ f, String.eqb (f_name f) name) (fields 0 "" t).

(** ** Reading and writing a member *)

Definition get (f : field) (m : Z) : Z := Z.land (Z.shiftr m (f_pos f)) (Z.ones (f_width f)).
(** The value is cut to the width of the member. *)
Definition set (f : field) (v m : Z) : Z :=
  Z.lor (Z.ldiff m (Z.shiftl (Z.ones (f_width f)) (f_pos f)))
    (Z.shiftl (Z.land v (Z.ones (f_width f))) (f_pos f)).

(** ** Well-formed types *)

Fixpoint wf (t : ctype) : bool :=
  match t with
  | UInt n => 0 <? n
  | Arr t k => (0 <? k) && wf t
  | Bits n w => (0 <? n) && (0 <? w) && (w <=? 8 * n)
  | Struct _ ms | Union ms => forallb (λ m, wf m.2) ms
  end.

(** ** Members lie inside, one after the other *)

Lemma ctype_induction (P : ctype → Prop) :
  (∀ n, P (UInt n)) → (∀ t k, P t → P (Arr t k)) → (∀ n w, P (Bits n w)) →
  (∀ packed ms, Forall (λ m, P m.2) ms → P (Struct packed ms)) →
  (∀ ms, Forall (λ m, P m.2) ms → P (Union ms)) → ∀ t, P t.
Proof.
  intros Hint Harr Hbits Hstruct Hunion. fix IH 1. intros [n|t k|n w|packed ms|ms]; [apply Hint|apply Harr, IH|apply Hbits| |].
  - apply Hstruct. induction ms as [|m ms IHms]; constructor; [apply IH|exact IHms].
  - apply Hunion. induction ms as [|m ms IHms]; constructor; [apply IH|exact IHms].
Qed.

(** Where the members of a structure end. *)
Fixpoint ends (packed : bool) (pos : Z) (ms : list (string * ctype)) : Z :=
  match ms with [] => pos | m :: ms' => ends packed (place packed pos m.2 + size m.2) ms' end.

Lemma size_struct packed ms : size (Struct packed ms) = round_up (ends packed 0 ms) (8 * align (Struct packed ms)).
Proof. simpl. f_equal. generalize 0. induction ms as [|m ms IH]; intros pos; [done|apply IH]. Qed.

Lemma size_union ms : size (Union ms) = round_up (foldr (λ m a, Z.max (size m.2) a) 0 ms) (8 * align (Union ms)).
Proof. done. Qed.

Lemma fields_struct base name packed ms :
  fields base name (Struct packed ms) = flat_map (λ pm, fields (base + pm.1) pm.2.1 pm.2.2) (placed packed 0 ms).
Proof. simpl. generalize 0. induction ms as [|m ms IH]; intros pos; [done|]. simpl. by rewrite IH. Qed.

Lemma fields_union base name ms : fields base name (Union ms) = flat_map (λ m, fields base m.1 m.2) ms.
Proof. simpl. induction ms as [|m ms IH]; [done|]. simpl. by rewrite IH. Qed.

Lemma round_up_ge pos a : 0 < a → pos <= round_up pos a.
Proof. intros Ha. unfold round_up. pose proof (Z.mul_div_le (pos + a - 1) a Ha). pose proof (Z.mul_succ_div_gt (pos + a - 1) a Ha). lia. Qed.

Lemma wf_members t ms : (∃ packed, t = Struct packed ms) ∨ t = Union ms → wf t = true → Forall (λ m, wf m.2 = true) ms.
Proof. intros Ht Hw. apply Forall_forall. intros m Hm. destruct Ht as [[packed ->]| ->]; simpl in Hw;
  rewrite forallb_forall in Hw; by apply Hw, list_elem_of_In. Qed.

Lemma align_pos t : wf t = true → 0 < align t.
Proof.
  assert (∀ ms : list (string * ctype), 0 < foldr (λ m a, Z.max (align m.2) a) 1 ms) as Hms.
  { intros ms. induction ms; simpl; lia. }
  induction t using ctype_induction; intros Hw; simpl in *.
  - lia.
  - apply andb_true_iff in Hw as [_ Hw]. auto.
  - rewrite !andb_true_iff in Hw. lia.
  - destruct packed; [done|apply Hms].
  - apply Hms.
Qed.

Lemma place_ge packed pos t : wf t = true → pos <= place packed pos t.
Proof.
  intros Hw. pose proof (align_pos t Hw). destruct t; simpl in *; try (apply round_up_ge; destruct packed; lia).
  destruct (_ || _); [lia|]. apply round_up_ge. lia.
Qed.

Lemma ends_ge packed ms pos :
  Forall (λ m, wf m.2 = true) ms → Forall (λ m, 0 <= size m.2) ms → pos <= ends packed pos ms.
Proof.
  intros Hw Hs. revert pos. induction ms as [|m ms IH]; intros pos; simpl; [lia|].
  apply Forall_cons in Hw as [Hm Hw]. apply Forall_cons in Hs as [Hsm Hs].
  pose proof (IH Hw Hs (place packed pos m.2 + size m.2)). pose proof (place_ge packed pos m.2 Hm). lia.
Qed.

Lemma size_nonneg t : wf t = true → 0 <= size t.
Proof.
  induction t as [n|t k IH|n w|packed ms IH|ms IH] using ctype_induction; intros Hw.
  - simpl in *. lia.
  - simpl in *. apply andb_true_iff in Hw as [Hk Hw]. apply Z.mul_nonneg_nonneg; [lia|auto].
  - simpl in *. rewrite !andb_true_iff in Hw. lia.
  - pose proof (align_pos _ Hw). rewrite size_struct. etransitivity; [|apply round_up_ge; lia].
    apply ends_ge; [eapply wf_members; eauto|]. apply (wf_members _ ms) in Hw; [|eauto].
    apply Forall_forall. intros m Hm. rewrite Forall_forall in IH, Hw. auto.
  - pose proof (align_pos _ Hw). rewrite size_union. etransitivity; [|apply round_up_ge; lia]. clear. induction ms; simpl; lia.
Qed.

Lemma sizes_nonneg ms : Forall (λ m : string * ctype, wf m.2 = true) ms → Forall (λ m, 0 <= size m.2) ms.
Proof. intros Hw. eapply Forall_impl; [exact Hw|]. intros m. apply size_nonneg. Qed.

(** A member of a structure: after what was placed before it, and before the end. *)
Lemma placed_bounds packed ms pos p m :
  Forall (λ m, wf m.2 = true) ms → (p, m) ∈ placed packed pos ms →
  m ∈ ms ∧ pos <= p ∧ p + size m.2 <= ends packed pos ms.
Proof.
  intros Hw. revert pos. induction ms as [|x ms IH]; intros pos; simpl; [by intros []%elem_of_nil|].
  apply Forall_cons in Hw as [Hx Hw]. pose proof (place_ge packed pos _ Hx). pose proof (size_nonneg _ Hx).
  intros [[= -> ->]|Hin]%elem_of_cons.
  - split; [by left|]. split; [lia|]. apply ends_ge; [done|by apply sizes_nonneg].
  - destruct (IH Hw _ Hin) as (Hm & Hp & He). split; [by right|]. lia.
Qed.

(** Members of a structure follow each other. *)
Lemma placed_order packed ms pos i j p m q n :
  Forall (λ m, wf m.2 = true) ms → (i < j)%nat →
  placed packed pos ms !! i = Some (p, m) → placed packed pos ms !! j = Some (q, n) → p + size m.2 <= q.
Proof.
  intros Hw. revert pos i j. induction ms as [|x ms IH]; intros pos i j Hij Hi Hj; [done|].
  apply Forall_cons in Hw as [Hx Hw]. simpl in Hi, Hj. destruct j as [|j]; [lia|]. simpl in Hj. destruct i as [|i].
  - injection Hi as <- <-. apply list_elem_of_lookup_2, (placed_bounds _ _ _ _ _ Hw) in Hj. tauto.
  - simpl in Hi. eapply IH; [done| |done..]. lia.
Qed.

(** Every named member lies inside. *)
Lemma fields_inside t base name f :
  wf t = true → 0 <= base → f ∈ fields base name t →
  base <= f_pos f ∧ 0 <= f_width f ∧ f_pos f + f_width f <= base + size t.
Proof.
  revert base name. induction t as [n|t k IH|n w|packed ms IH|ms IH] using ctype_induction; intros base name Hw Hb Hf.
  1-3: pose proof (size_nonneg _ Hw) as Hs; apply list_elem_of_singleton in Hf as ->; cbn [f_pos f_width]; lia.
  - rewrite fields_struct in Hf. apply list_elem_of_In, in_flat_map in Hf as ([p m] & Hin & Hf).
    apply list_elem_of_In in Hin, Hf. pose proof (wf_members _ ms (or_introl (ex_intro _ packed eq_refl)) Hw) as Hms.
    destruct (placed_bounds _ _ _ _ _ Hms Hin) as (Hm & Hp & He). simpl in Hf.
    rewrite Forall_forall in IH, Hms. destruct (IH m Hm (base + p) m.1) as (H1 & H2 & H3); [auto|lia|done|].
    pose proof (align_pos _ Hw). rewrite size_struct. pose proof (round_up_ge (ends packed 0 ms) (8 * align (Struct packed ms))). lia.
  - rewrite fields_union in Hf. apply list_elem_of_In, in_flat_map in Hf as (m & Hin & Hf).
    apply list_elem_of_In in Hin, Hf. pose proof (wf_members _ ms (or_intror eq_refl) Hw) as Hms.
    rewrite Forall_forall in IH, Hms. destruct (IH m Hin base m.1) as (H1 & H2 & H3); [auto..|].
    pose proof (align_pos _ Hw). assert (size m.2 <= size (Union ms)) as Hle; [|lia].
    rewrite size_union.
    etransitivity; [|apply round_up_ge; lia]. clear -Hin. induction Hin as [m ms|m x ms Hin IH]; simpl; lia.
Qed.

(** ** Reading what was written *)

Definition apart (f g : field) : Prop := f_pos f + f_width f <= f_pos g ∨ f_pos g + f_width g <= f_pos f.
#[export] Instance apart_dec f g : Decision (apart f g).
Proof. unfold apart. apply _. Defined.
Definition fits_in (n : Z) (f : field) : Prop := 0 <= f_pos f ∧ 0 <= f_width f ∧ f_pos f + f_width f <= n.
#[export] Instance fits_in_dec n f : Decision (fits_in n f).
Proof. unfold fits_in. apply _. Defined.

(** The bits of the member are those of the value, the others those of the word. *)
Lemma set_bits f v m i : 0 <= f_pos f → 0 <= f_width f → 0 <= i →
  Z.testbit (set f v m) i =
  if decide (f_pos f <= i < f_pos f + f_width f) then Z.testbit v (i - f_pos f) else Z.testbit m i.
Proof.
  intros Hp Hw Hi. unfold set. rewrite Z.lor_spec, Z.ldiff_spec, !Z.shiftl_spec by done.
  destruct (Z.ltb_spec i (f_pos f)).
  - rewrite !(Z.testbit_neg_r _ (i - f_pos f)) by lia. rewrite andb_true_r, orb_false_r.
    by destruct (decide _); [lia|].
  - rewrite Z.land_spec, Z.testbit_ones by done. destruct (decide _).
    + rewrite (proj2 (Z.leb_le 0 _)), (proj2 (Z.ltb_lt (i - f_pos f) _)) by lia. simpl. by rewrite andb_false_r, andb_true_r.
    + rewrite (proj2 (Z.ltb_ge (i - f_pos f) _)) by lia. rewrite !andb_false_r. by rewrite andb_true_r, orb_false_r.
Qed.

Lemma get_bits f m i : 0 <= f_pos f → 0 <= f_width f → 0 <= i →
  Z.testbit (get f m) i = if decide (i < f_width f) then Z.testbit m (i + f_pos f) else false.
Proof.
  intros Hp Hw Hi. unfold get. rewrite Z.land_spec, Z.shiftr_spec, Z.testbit_ones by done.
  rewrite (proj2 (Z.leb_le 0 i)) by done. destruct (decide _).
  - rewrite (proj2 (Z.ltb_lt i _)) by done. apply andb_true_r.
  - rewrite (proj2 (Z.ltb_ge i _)) by lia. apply andb_false_r.
Qed.

Lemma get_set_same n f v m : fits_in n f → get f (set f v m) = v mod 2 ^ f_width f.
Proof.
  intros (Hp & Hw & _). rewrite <- Z.land_ones by done. apply Z.bits_inj'. intros i Hi.
  rewrite get_bits, Z.land_spec, Z.testbit_ones by done. rewrite (proj2 (Z.leb_le 0 i)) by done.
  destruct (decide (i < f_width f)).
  - rewrite set_bits by lia. rewrite decide_True by lia. rewrite (proj2 (Z.ltb_lt i _)), andb_true_r by done. f_equal. lia.
  - rewrite (proj2 (Z.ltb_ge i _)) by lia. by rewrite andb_false_r.
Qed.

Lemma get_set_other n f g v m : fits_in n f → fits_in n g → apart f g → get g (set f v m) = get g m.
Proof.
  intros (Hp & Hw & _) (Hp' & Hw' & _) Ha. apply Z.bits_inj'. intros i Hi. rewrite !get_bits by done.
  destruct (decide _); [|done]. rewrite set_bits by lia. by rewrite decide_False by (unfold apart in Ha; lia).
Qed.

Lemma set_range n f v m : fits_in n f → 0 <= m < 2 ^ n → 0 <= set f v m < 2 ^ n.
Proof.
  intros (Hp & Hw & Hn) Hm. assert (0 <= set f v m) as H0.
  { unfold set. apply Z.lor_nonneg. split.
    - apply Z.ldiff_nonneg. lia.
    - apply Z.shiftl_nonneg, Z.land_nonneg. right. rewrite Z.ones_equiv. pose proof (Z.pow_pos_nonneg 2 (f_width f)). lia. }
  split; [done|]. assert (set f v m = set f v m mod 2 ^ n) as ->; [|apply Z.mod_pos_bound; lia].
  apply Z.bits_inj'. intros i Hi. destruct (Z.ltb_spec i n); [by rewrite Z.mod_pow2_bits_low|].
  rewrite Z.mod_pow2_bits_high by lia. rewrite set_bits, decide_False by lia. by apply (testbit_bound m n).
Qed.

(** Writing the same member twice is writing the last value. *)
Lemma set_set n f v v' m : fits_in n f → set f v' (set f v m) = set f v' m.
Proof.
  intros (Hp & Hw & _). apply Z.bits_inj'. intros i Hi. rewrite !set_bits by done. by destruct (decide _).
Qed.

(** Members that do not overlap are written in any order. *)
Lemma set_comm n f g v v' m : fits_in n f → fits_in n g → apart f g → set f v (set g v' m) = set g v' (set f v m).
Proof.
  intros (Hp & Hw & _) (Hp' & Hw' & _) Ha. apply Z.bits_inj'. intros i Hi. rewrite !set_bits by done.
  unfold apart in Ha. do 2 destruct (decide _); first [done|lia].
Qed.

(** The members of a type, and two members of different members of a structure. *)
Lemma fields_fit t name f : wf t = true → f ∈ fields 0 name t → fits_in (size t) f.
Proof. intros Hw Hf. unfold fits_in. pose proof (fields_inside t 0 name f Hw ltac:(lia) Hf). lia. Qed.

Lemma struct_apart packed ms i j p m q n f g base :
  wf (Struct packed ms) = true → 0 <= base → i ≠ j →
  placed packed 0 ms !! i = Some (p, m) → placed packed 0 ms !! j = Some (q, n) →
  f ∈ fields (base + p) m.1 m.2 → g ∈ fields (base + q) n.1 n.2 → apart f g.
Proof.
  intros Hw Hb Hij Hi Hj Hf Hg. pose proof (wf_members _ ms (or_introl (ex_intro _ packed eq_refl)) Hw) as Hms.
  destruct (placed_bounds _ _ _ _ _ Hms (list_elem_of_lookup_2 _ _ _ Hi)) as (Hm & Hp & _).
  destruct (placed_bounds _ _ _ _ _ Hms (list_elem_of_lookup_2 _ _ _ Hj)) as (Hn & Hq & _).
  pose proof Hms as Hms'. rewrite Forall_forall in Hms'.
  destruct (fields_inside _ (base + p) _ _ (Hms' _ Hm) ltac:(lia) Hf) as (H1 & H2 & H3).
  destruct (fields_inside _ (base + q) _ _ (Hms' _ Hn) ltac:(lia) Hg) as (H4 & H5 & H6).
  unfold apart. assert (i < j ∨ j < i)%nat as [Hlt|Hlt] by lia.
  - pose proof (placed_order _ _ _ _ _ _ _ _ _ Hms Hlt Hi Hj). lia.
  - pose proof (placed_order _ _ _ _ _ _ _ _ _ Hms Hlt Hj Hi). lia.
Qed.

(** The same with the side conditions as computations, for members that are known. *)
Lemma get_same n w f v m : bool_decide (fits_in n f ∧ f_width f = w) = true → get f (set f v m) = v mod 2 ^ w.
Proof. intros [Hf <-]%bool_decide_eq_true. by eapply get_set_same. Qed.
Lemma get_other n f g v m : bool_decide (fits_in n f ∧ fits_in n g ∧ apart f g) = true → get g (set f v m) = get g m.
Proof. intros (Hf & Hg & Ha)%bool_decide_eq_true. by eapply get_set_other. Qed.
