(* ===== verification/Idxd.v ===== *)
(** * accfg/idxd.h: opcodes, statuses, flags and the layout of descriptors

    The enumerations of the header with their values, its flags, and the structures shared
    with the device and the driver: where every member lies, computed by the rules of the
    System V ABI of x86-64 (alignment, packed structures, unions, bit-fields), and the
    reading and writing of a member.  The theorems are about the layout: nothing lies
    outside, members of a structure do not overlap, a member that is written is read
    back and disturbs only those it overlaps.  The command status codes are in Param. *)

From S2P Require Import Prelude CString Layout.
Local Open Scope string_scope.
Local Open Scope Z_scope.

(** ** Flags *)

(* accfg/idxd.h:37-37 IDXD_OP_FLAG_FENCE *)
Definition IDXD_OP_FLAG_FENCE : Z := 0x0001.
(* accfg/idxd.h:38-38 IDXD_OP_FLAG_BOF *)
Definition IDXD_OP_FLAG_BOF : Z := 0x0002.
(* accfg/idxd.h:39-39 IDXD_OP_FLAG_CRAV *)
Definition IDXD_OP_FLAG_CRAV : Z := 0x0004.
(* accfg/idxd.h:40-40 IDXD_OP_FLAG_RCR *)
Definition IDXD_OP_FLAG_RCR : Z := 0x0008.
(* accfg/idxd.h:41-41 IDXD_OP_FLAG_RCI *)
Definition IDXD_OP_FLAG_RCI : Z := 0x0010.
(* accfg/idxd.h:42-42 IDXD_OP_FLAG_CRSTS *)
Definition IDXD_OP_FLAG_CRSTS : Z := 0x0020.
(* accfg/idxd.h:43-43 IDXD_OP_FLAG_CR *)
Definition IDXD_OP_FLAG_CR : Z := 0x0080.
(* accfg/idxd.h:44-44 IDXD_OP_FLAG_CC *)
Definition IDXD_OP_FLAG_CC : Z := 0x0100.
(* accfg/idxd.h:45-45 IDXD_OP_FLAG_ADDR1_TCS *)
Definition IDXD_OP_FLAG_ADDR1_TCS : Z := 0x0200.
(* accfg/idxd.h:46-46 IDXD_OP_FLAG_ADDR2_TCS *)
Definition IDXD_OP_FLAG_ADDR2_TCS : Z := 0x0400.
(* accfg/idxd.h:47-47 IDXD_OP_FLAG_ADDR3_TCS *)
Definition IDXD_OP_FLAG_ADDR3_TCS : Z := 0x0800.
(* accfg/idxd.h:48-48 IDXD_OP_FLAG_CR_TCS *)
Definition IDXD_OP_FLAG_CR_TCS : Z := 0x1000.
(* accfg/idxd.h:49-49 IDXD_OP_FLAG_STORD *)
Definition IDXD_OP_FLAG_STORD : Z := 0x2000.
(* accfg/idxd.h:50-50 IDXD_OP_FLAG_DRDBK *)
Definition IDXD_OP_FLAG_DRDBK : Z := 0x4000.
(* accfg/idxd.h:51-51 IDXD_OP_FLAG_DSTS *)
Definition IDXD_OP_FLAG_DSTS : Z := 0x8000.
(* accfg/idxd.h:54-54 IDXD_OP_FLAG_RD_SRC2_AECS *)
Definition IDXD_OP_FLAG_RD_SRC2_AECS : Z := 0x010000.
(* accfg/idxd.h:55-55 IDXD_OP_FLAG_RD_SRC2_2ND *)
Definition IDXD_OP_FLAG_RD_SRC2_2ND : Z := 0x020000.
(* accfg/idxd.h:56-56 IDXD_OP_FLAG_WR_SRC2_CMPL *)
Definition IDXD_OP_FLAG_WR_SRC2_CMPL : Z := 0x040000.
(* accfg/idxd.h:58-58 IDXD_COMPRESS_FLAG_EOB_BFINAL *)
Definition IDXD_COMPRESS_FLAG_EOB_BFINAL : Z := 0x000c.
(* accfg/idxd.h:59-59 IDXD_COMPRESS_FLAG_FLUSH_OUTPUT *)
Definition IDXD_COMPRESS_FLAG_FLUSH_OUTPUT : Z := 0x0002.
(* accfg/idxd.h:61-61 IDXD_DECOMPRESS_FLAG_SELECT_EOB_BFINAL *)
Definition IDXD_DECOMPRESS_FLAG_SELECT_EOB_BFINAL : Z := 0x0010.
(* accfg/idxd.h:62-62 IDXD_DECOMPRESS_FLAG_CHECK_EOB *)
Definition IDXD_DECOMPRESS_FLAG_CHECK_EOB : Z := 0x0008.
(* accfg/idxd.h:63-63 IDXD_DECOMPRESS_FLAG_STOP_ON_EOB *)
Definition IDXD_DECOMPRESS_FLAG_STOP_ON_EOB : Z := 0x0004.
(* accfg/idxd.h:64-64 IDXD_DECOMPRESS_FLAG_FLUSH_OUTPUT *)
Definition IDXD_DECOMPRESS_FLAG_FLUSH_OUTPUT : Z := 0x0002.
(* accfg/idxd.h:65-65 IDXD_DECOMPRESS_FLAG_EN_DECOMPRESS *)
Definition IDXD_DECOMPRESS_FLAG_EN_DECOMPRESS : Z := 0x0001.
(* accfg/idxd.h:67-67 IDXD_CRYPTO_CIPHER_FLAG_FLUSH_OUTPUT *)
Definition IDXD_CRYPTO_CIPHER_FLAG_FLUSH_OUTPUT : Z := 0x0002.
(* accfg/idxd.h:188-188 DSA_COMP_STATUS_MASK *)
Definition DSA_COMP_STATUS_MASK : Z := 0x7f.
(* accfg/idxd.h:189-189 DSA_COMP_STATUS_WRITE *)
Definition DSA_COMP_STATUS_WRITE : Z := 0x80.
(* accfg/idxd.h:400-400 DSA_COMP_FI_FA_MASKED_MASK *)
Definition DSA_COMP_FI_FA_MASKED_MASK : Z := 0x1.
(* accfg/idxd.h:401-401 DSA_COMP_FI_FA_MASKED_SHIFT *)
Definition DSA_COMP_FI_FA_MASKED_SHIFT : Z := 0x0.
(* accfg/idxd.h:402-402 DSA_COMP_FI_OP_ID_MASK *)
Definition DSA_COMP_FI_OP_ID_MASK : Z := 0x7.
(* accfg/idxd.h:403-403 DSA_COMP_FI_OP_ID_SHIFT *)
Definition DSA_COMP_FI_OP_ID_SHIFT : Z := 0x1.
(* accfg/idxd.h:507-507 IDXD_IOC_BASE *)
Definition IDXD_IOC_BASE : Z := 100.
(* accfg/idxd.h:508-508 IDXD_WIN_BASE *)
Definition IDXD_WIN_BASE : Z := 200.
(* accfg/idxd.h:516-516 IDXD_WIN_FLAGS_PROT_READ *)
Definition IDXD_WIN_FLAGS_PROT_READ : Z := 0x0001.
(* accfg/idxd.h:517-517 IDXD_WIN_FLAGS_PROT_WRITE *)
Definition IDXD_WIN_FLAGS_PROT_WRITE : Z := 0x0002.
(* accfg/idxd.h:518-518 IDXD_WIN_FLAGS_WIN_CHECK *)
Definition IDXD_WIN_FLAGS_WIN_CHECK : Z := 0x0004.
(* accfg/idxd.h:519-519 IDXD_WIN_FLAGS_OFFSET_MODE *)
Definition IDXD_WIN_FLAGS_OFFSET_MODE : Z := 0x0008.
(* accfg/idxd.h:521-522 IDXD_WIN_FLAGS_MASK *)
Definition IDXD_WIN_FLAGS_MASK : Z :=
  Z.lor (Z.lor (Z.lor IDXD_WIN_FLAGS_PROT_READ IDXD_WIN_FLAGS_PROT_WRITE) IDXD_WIN_FLAGS_WIN_CHECK)
    IDXD_WIN_FLAGS_OFFSET_MODE.

(** ** Enumerations

    A constant without a value is one more than the one before it. *)

(* accfg/idxd.h:70-101 dsa_opcode *)
Inductive dsa_opcode : Set :=
  | DSA_OPCODE_NOOP | DSA_OPCODE_BATCH | DSA_OPCODE_DRAIN | DSA_OPCODE_MEMMOVE | DSA_OPCODE_MEMFILL
  | DSA_OPCODE_COMPARE | DSA_OPCODE_COMPVAL | DSA_OPCODE_CR_DELTA | DSA_OPCODE_AP_DELTA | DSA_OPCODE_DUALCAST
  | DSA_OPCODE_TRANSL_FETCH | DSA_OPCODE_CRCGEN | DSA_OPCODE_COPY_CRC | DSA_OPCODE_DIF_CHECK
  | DSA_OPCODE_DIF_INS | DSA_OPCODE_DIF_STRP | DSA_OPCODE_DIF_UPDT | DSA_OPCODE_DIX_GEN | DSA_OPCODE_CFLUSH
  | DSA_OPCODE_UPDATE_WIN | DSA_OPCODE_RS_IPASID_MEMCOPY | DSA_OPCODE_RS_IPASID_FILL
  | DSA_OPCODE_RS_IPASID_COMPARE | DSA_OPCODE_RS_IPASID_COMPVAL | DSA_OPCODE_RS_IPASID_CFLUSH
  | DSA_OPCODE_URS_IPASID_MEMCOPY | DSA_OPCODE_URS_IPASID_FILL | DSA_OPCODE_URS_IPASID_COMPARE
  | DSA_OPCODE_URS_IPASID_COMPVAL | DSA_OPCODE_URS_IPASID_CFLUSH.

(* accfg/idxd.h:70-101 dsa_opcode *)
Definition dsa_opcode_value (x : dsa_opcode) : Z :=
  match x with
  | DSA_OPCODE_NOOP => 0 | DSA_OPCODE_BATCH => 1 | DSA_OPCODE_DRAIN => 2 | DSA_OPCODE_MEMMOVE => 3
  | DSA_OPCODE_MEMFILL => 4 | DSA_OPCODE_COMPARE => 5 | DSA_OPCODE_COMPVAL => 6 | DSA_OPCODE_CR_DELTA => 7
  | DSA_OPCODE_AP_DELTA => 8 | DSA_OPCODE_DUALCAST => 9 | DSA_OPCODE_TRANSL_FETCH => 10
  | DSA_OPCODE_CRCGEN => 0x10 | DSA_OPCODE_COPY_CRC => 17 | DSA_OPCODE_DIF_CHECK => 18
  | DSA_OPCODE_DIF_INS => 19 | DSA_OPCODE_DIF_STRP => 20 | DSA_OPCODE_DIF_UPDT => 21
  | DSA_OPCODE_DIX_GEN => 0x17 | DSA_OPCODE_CFLUSH => 0x20 | DSA_OPCODE_UPDATE_WIN => 33
  | DSA_OPCODE_RS_IPASID_MEMCOPY => 0x23 | DSA_OPCODE_RS_IPASID_FILL => 36
  | DSA_OPCODE_RS_IPASID_COMPARE => 37 | DSA_OPCODE_RS_IPASID_COMPVAL => 38
  | DSA_OPCODE_RS_IPASID_CFLUSH => 39 | DSA_OPCODE_URS_IPASID_MEMCOPY => 0x33
  | DSA_OPCODE_URS_IPASID_FILL => 52 | DSA_OPCODE_URS_IPASID_COMPARE => 53
  | DSA_OPCODE_URS_IPASID_COMPVAL => 54 | DSA_OPCODE_URS_IPASID_CFLUSH => 55
  end.
Definition dsa_opcodes : list dsa_opcode :=
  [DSA_OPCODE_NOOP; DSA_OPCODE_BATCH; DSA_OPCODE_DRAIN; DSA_OPCODE_MEMMOVE; DSA_OPCODE_MEMFILL;
   DSA_OPCODE_COMPARE; DSA_OPCODE_COMPVAL; DSA_OPCODE_CR_DELTA; DSA_OPCODE_AP_DELTA; DSA_OPCODE_DUALCAST;
   DSA_OPCODE_TRANSL_FETCH; DSA_OPCODE_CRCGEN; DSA_OPCODE_COPY_CRC; DSA_OPCODE_DIF_CHECK; DSA_OPCODE_DIF_INS;
   DSA_OPCODE_DIF_STRP; DSA_OPCODE_DIF_UPDT; DSA_OPCODE_DIX_GEN; DSA_OPCODE_CFLUSH; DSA_OPCODE_UPDATE_WIN;
   DSA_OPCODE_RS_IPASID_MEMCOPY; DSA_OPCODE_RS_IPASID_FILL; DSA_OPCODE_RS_IPASID_COMPARE;
   DSA_OPCODE_RS_IPASID_COMPVAL; DSA_OPCODE_RS_IPASID_CFLUSH; DSA_OPCODE_URS_IPASID_MEMCOPY;
   DSA_OPCODE_URS_IPASID_FILL; DSA_OPCODE_URS_IPASID_COMPARE; DSA_OPCODE_URS_IPASID_COMPVAL;
   DSA_OPCODE_URS_IPASID_CFLUSH].

(* accfg/idxd.h:103-126 iax_opcode *)
Inductive iax_opcode : Set :=
  | IAX_OPCODE_NOOP | IAX_OPCODE_DRAIN | IAX_OPCODE_MEMMOVE | IAX_OPCODE_TRANSL_FETCH | IAX_OPCODE_DECRYPT
  | IAX_OPCODE_ENCRYPT | IAX_OPCODE_DECOMPRESS | IAX_OPCODE_COMPRESS | IAX_OPCODE_CRC64
  | IAX_OPCODE_ZDECOMPRESS32 | IAX_OPCODE_ZDECOMPRESS16 | IAX_OPCODE_ZDECOMPRESS8 | IAX_OPCODE_ZCOMPRESS32
  | IAX_OPCODE_ZCOMPRESS16 | IAX_OPCODE_ZCOMPRESS8 | IAX_OPCODE_SCAN | IAX_OPCODE_SET_MEMBERSHIP
  | IAX_OPCODE_EXTRACT | IAX_OPCODE_SELECT | IAX_OPCODE_RLE_BURST | IAX_OPCODE_FIND_UNIQUE
  | IAX_OPCODE_EXPAND.

(* accfg/idxd.h:103-126 iax_opcode *)
Definition iax_opcode_value (x : iax_opcode) : Z :=
  match x with
  | IAX_OPCODE_NOOP => 0 | IAX_OPCODE_DRAIN => 2 | IAX_OPCODE_MEMMOVE => 3 | IAX_OPCODE_TRANSL_FETCH => 0x0a
  | IAX_OPCODE_DECRYPT => 0x40 | IAX_OPCODE_ENCRYPT => 0x41 | IAX_OPCODE_DECOMPRESS => 0x42
  | IAX_OPCODE_COMPRESS => 67 | IAX_OPCODE_CRC64 => 0x44 | IAX_OPCODE_ZDECOMPRESS32 => 0x48
  | IAX_OPCODE_ZDECOMPRESS16 => 73 | IAX_OPCODE_ZDECOMPRESS8 => 74 | IAX_OPCODE_ZCOMPRESS32 => 0x4c
  | IAX_OPCODE_ZCOMPRESS16 => 77 | IAX_OPCODE_ZCOMPRESS8 => 78 | IAX_OPCODE_SCAN => 0x50
  | IAX_OPCODE_SET_MEMBERSHIP => 81 | IAX_OPCODE_EXTRACT => 82 | IAX_OPCODE_SELECT => 83
  | IAX_OPCODE_RLE_BURST => 84 | IAX_OPCODE_FIND_UNIQUE => 85 | IAX_OPCODE_EXPAND => 86
  end.
Definition iax_opcodes : list iax_opcode :=
  [IAX_OPCODE_NOOP; IAX_OPCODE_DRAIN; IAX_OPCODE_MEMMOVE; IAX_OPCODE_TRANSL_FETCH; IAX_OPCODE_DECRYPT;
   IAX_OPCODE_ENCRYPT; IAX_OPCODE_DECOMPRESS; IAX_OPCODE_COMPRESS; IAX_OPCODE_CRC64;
   IAX_OPCODE_ZDECOMPRESS32; IAX_OPCODE_ZDECOMPRESS16; IAX_OPCODE_ZDECOMPRESS8; IAX_OPCODE_ZCOMPRESS32;
   IAX_OPCODE_ZCOMPRESS16; IAX_OPCODE_ZCOMPRESS8; IAX_OPCODE_SCAN; IAX_OPCODE_SET_MEMBERSHIP;
   IAX_OPCODE_EXTRACT; IAX_OPCODE_SELECT; IAX_OPCODE_RLE_BURST; IAX_OPCODE_FIND_UNIQUE; IAX_OPCODE_EXPAND].

(* accfg/idxd.h:129-159 dsa_completion_status *)
Inductive dsa_completion_status : Set :=
  | DSA_COMP_NONE | DSA_COMP_SUCCESS | DSA_COMP_SUCCESS_PRED | DSA_COMP_PAGE_FAULT_NOBOF
  | DSA_COMP_PAGE_FAULT_IR | DSA_COMP_BATCH_FAIL | DSA_COMP_BATCH_PAGE_FAULT | DSA_COMP_DR_OFFSET_NOINC
  | DSA_COMP_DR_OFFSET_ERANGE | DSA_COMP_DIF_ERR | DSA_COMP_BAD_OPCODE | DSA_COMP_INVALID_FLAGS
  | DSA_COMP_NOZERO_RESERVE | DSA_COMP_XFER_ERANGE | DSA_COMP_DESC_CNT_ERANGE | DSA_COMP_DR_ERANGE
  | DSA_COMP_OVERLAP_BUFFERS | DSA_COMP_DCAST_ERR | DSA_COMP_DESCLIST_ALIGN | DSA_COMP_INT_HANDLE_INVAL
  | DSA_COMP_CRA_XLAT | DSA_COMP_CRA_ALIGN | DSA_COMP_ADDR_ALIGN | DSA_COMP_PRIV_BAD
  | DSA_COMP_TRAFFIC_CLASS_CONF | DSA_COMP_PFAULT_RDBA | DSA_COMP_HW_ERR1 | DSA_COMP_HW_ERR_DRB
  | DSA_COMP_TRANSLATION_FAIL.

(* accfg/idxd.h:129-159 dsa_completion_status *)
Definition dsa_completion_status_value (x : dsa_completion_status) : Z :=
  match x with
  | DSA_COMP_NONE => 0 | DSA_COMP_SUCCESS => 1 | DSA_COMP_SUCCESS_PRED => 2 | DSA_COMP_PAGE_FAULT_NOBOF => 3
  | DSA_COMP_PAGE_FAULT_IR => 4 | DSA_COMP_BATCH_FAIL => 5 | DSA_COMP_BATCH_PAGE_FAULT => 6
  | DSA_COMP_DR_OFFSET_NOINC => 7 | DSA_COMP_DR_OFFSET_ERANGE => 8 | DSA_COMP_DIF_ERR => 9
  | DSA_COMP_BAD_OPCODE => 0x10 | DSA_COMP_INVALID_FLAGS => 17 | DSA_COMP_NOZERO_RESERVE => 18
  | DSA_COMP_XFER_ERANGE => 19 | DSA_COMP_DESC_CNT_ERANGE => 20 | DSA_COMP_DR_ERANGE => 21
  | DSA_COMP_OVERLAP_BUFFERS => 22 | DSA_COMP_DCAST_ERR => 23 | DSA_COMP_DESCLIST_ALIGN => 24
  | DSA_COMP_INT_HANDLE_INVAL => 25 | DSA_COMP_CRA_XLAT => 26 | DSA_COMP_CRA_ALIGN => 27
  | DSA_COMP_ADDR_ALIGN => 28 | DSA_COMP_PRIV_BAD => 29 | DSA_COMP_TRAFFIC_CLASS_CONF => 30
  | DSA_COMP_PFAULT_RDBA => 31 | DSA_COMP_HW_ERR1 => 32 | DSA_COMP_HW_ERR_DRB => 33
  | DSA_COMP_TRANSLATION_FAIL => 34
  end.
Definition dsa_completion_statuses : list dsa_completion_status :=
  [DSA_COMP_NONE; DSA_COMP_SUCCESS; DSA_COMP_SUCCESS_PRED; DSA_COMP_PAGE_FAULT_NOBOF; DSA_COMP_PAGE_FAULT_IR;
   DSA_COMP_BATCH_FAIL; DSA_COMP_BATCH_PAGE_FAULT; DSA_COMP_DR_OFFSET_NOINC; DSA_COMP_DR_OFFSET_ERANGE;
   DSA_COMP_DIF_ERR; DSA_COMP_BAD_OPCODE; DSA_COMP_INVALID_FLAGS; DSA_COMP_NOZERO_RESERVE;
   DSA_COMP_XFER_ERANGE; DSA_COMP_DESC_CNT_ERANGE; DSA_COMP_DR_ERANGE; DSA_COMP_OVERLAP_BUFFERS;
   DSA_COMP_DCAST_ERR; DSA_COMP_DESCLIST_ALIGN; DSA_COMP_INT_HANDLE_INVAL; DSA_COMP_CRA_XLAT;
   DSA_COMP_CRA_ALIGN; DSA_COMP_ADDR_ALIGN; DSA_COMP_PRIV_BAD; DSA_COMP_TRAFFIC_CLASS_CONF;
   DSA_COMP_PFAULT_RDBA; DSA_COMP_HW_ERR1; DSA_COMP_HW_ERR_DRB; DSA_COMP_TRANSLATION_FAIL].

(* accfg/idxd.h:161-186 iax_completion_status *)
Inductive iax_completion_status : Set :=
  | IAX_COMP_NONE | IAX_COMP_SUCCESS | IAX_COMP_PAGE_FAULT_IR | IAX_COMP_OUTBUF_OVERFLOW
  | IAX_COMP_BAD_OPCODE | IAX_COMP_INVALID_FLAGS | IAX_COMP_NOZERO_RESERVE | IAX_COMP_INVALID_SIZE
  | IAX_COMP_OVERLAP_BUFFERS | IAX_COMP_INT_HANDLE_INVAL | IAX_COMP_CRA_XLAT | IAX_COMP_CRA_ALIGN
  | IAX_COMP_ADDR_ALIGN | IAX_COMP_PRIV_BAD | IAX_COMP_TRAFFIC_CLASS_CONF | IAX_COMP_PFAULT_RDBA
  | IAX_COMP_HW_ERR1 | IAX_COMP_HW_ERR_DRB | IAX_COMP_TRANSLATION_FAIL | IAX_COMP_PRS_TIMEOUT
  | IAX_COMP_WATCHDOG | IAX_COMP_INVALID_COMP_FLAG | IAX_COMP_INVALID_FILTER_FLAG
  | IAX_COMP_INVALID_NUM_ELEMS.

(* accfg/idxd.h:161-186 iax_completion_status *)
Definition iax_completion_status_value (x : iax_completion_status) : Z :=
  match x with
  | IAX_COMP_NONE => 0 | IAX_COMP_SUCCESS => 1 | IAX_COMP_PAGE_FAULT_IR => 0x04
  | IAX_COMP_OUTBUF_OVERFLOW => 5 | IAX_COMP_BAD_OPCODE => 0x10 | IAX_COMP_INVALID_FLAGS => 17
  | IAX_COMP_NOZERO_RESERVE => 18 | IAX_COMP_INVALID_SIZE => 19 | IAX_COMP_OVERLAP_BUFFERS => 0x16
  | IAX_COMP_INT_HANDLE_INVAL => 0x19 | IAX_COMP_CRA_XLAT => 26 | IAX_COMP_CRA_ALIGN => 27
  | IAX_COMP_ADDR_ALIGN => 28 | IAX_COMP_PRIV_BAD => 29 | IAX_COMP_TRAFFIC_CLASS_CONF => 30
  | IAX_COMP_PFAULT_RDBA => 31 | IAX_COMP_HW_ERR1 => 32 | IAX_COMP_HW_ERR_DRB => 33
  | IAX_COMP_TRANSLATION_FAIL => 34 | IAX_COMP_PRS_TIMEOUT => 35 | IAX_COMP_WATCHDOG => 36
  | IAX_COMP_INVALID_COMP_FLAG => 0x30 | IAX_COMP_INVALID_FILTER_FLAG => 49
  | IAX_COMP_INVALID_NUM_ELEMS => 0x33
  end.
Definition iax_completion_statuses : list iax_completion_status :=
  [IAX_COMP_NONE; IAX_COMP_SUCCESS; IAX_COMP_PAGE_FAULT_IR; IAX_COMP_OUTBUF_OVERFLOW; IAX_COMP_BAD_OPCODE;
   IAX_COMP_INVALID_FLAGS; IAX_COMP_NOZERO_RESERVE; IAX_COMP_INVALID_SIZE; IAX_COMP_OVERLAP_BUFFERS;
   IAX_COMP_INT_HANDLE_INVAL; IAX_COMP_CRA_XLAT; IAX_COMP_CRA_ALIGN; IAX_COMP_ADDR_ALIGN; IAX_COMP_PRIV_BAD;
   IAX_COMP_TRAFFIC_CLASS_CONF; IAX_COMP_PFAULT_RDBA; IAX_COMP_HW_ERR1; IAX_COMP_HW_ERR_DRB;
   IAX_COMP_TRANSLATION_FAIL; IAX_COMP_PRS_TIMEOUT; IAX_COMP_WATCHDOG; IAX_COMP_INVALID_COMP_FLAG;
   IAX_COMP_INVALID_FILTER_FLAG; IAX_COMP_INVALID_NUM_ELEMS].

(* accfg/idxd.h:510-513 idxd_win_type *)
Inductive idxd_win_type : Set :=
  | IDXD_WIN_TYPE_SA_SS | IDXD_WIN_TYPE_SA_MS.

(* accfg/idxd.h:510-513 idxd_win_type *)
Definition idxd_win_type_value (x : idxd_win_type) : Z :=
  match x with
  | IDXD_WIN_TYPE_SA_SS => 0 | IDXD_WIN_TYPE_SA_MS => 1
  end.
Definition idxd_win_types : list idxd_win_type :=
  [IDXD_WIN_TYPE_SA_SS; IDXD_WIN_TYPE_SA_MS].

(** ** Structures *)

Definition uint8_t : ctype := UInt 1.
Definition uint16_t : ctype := UInt 2.
Definition uint32_t : ctype := UInt 4.
Definition uint64_t : ctype := UInt 8.

(* accfg/idxd.h:191-394 hw_desc *)
Definition hw_desc : ctype := Struct true
  [("pasid", Bits 4 20); ("rsvd", Bits 4 11); ("priv", Bits 4 1); ("flags", Bits 4 24); ("opcode", Bits 4 8);
   ("completion_addr", uint64_t);
   ("", Union
    [("src_addr", uint64_t); ("rdback_addr", uint64_t); ("pattern", uint64_t); ("desc_list_addr", uint64_t);
     ("win_base_addr", uint64_t); ("transl_fetch_addr", uint64_t)]);
   ("", Union
    [("dst_addr", uint64_t); ("rdback_addr2", uint64_t); ("src2_addr", uint64_t); ("comp_pattern", uint64_t);
     ("win_size", uint64_t)]);
   ("", Union
    [("xfer_size", uint32_t); ("desc_count", uint32_t); ("region_size", uint32_t)]);
   ("int_handle", uint16_t);
   ("", Union
    [("rsvd1", uint16_t); ("iax_compr_flags", uint16_t); ("iax_decompr_flags", uint16_t);
     ("iax_crc64_flags", uint16_t); ("iax_cipher_flags", uint16_t)]);
   ("", Union
    [("expected_res", uint8_t);
     ("", Struct false
      [("delta_addr", uint64_t); ("max_delta_size", uint32_t); ("delt_rsvd", uint32_t);
       ("expected_res_mask", uint8_t)]);
     ("delta_rec_size", uint32_t); ("dest2", uint64_t);
     ("", Struct false
      [("crc_seed", uint32_t); ("crc_rsvd", uint32_t); ("seed_addr", uint64_t)]);
     ("", Struct false
      [("src_dif_flags", uint8_t); ("dif_chk_res", uint8_t); ("dif_chk_flags", uint8_t);
       ("dif_chk_res2", Arr uint8_t 5); ("chk_ref_tag_seed", uint32_t); ("chk_app_tag_mask", uint16_t);
       ("chk_app_tag_seed", uint16_t)]);
     ("", Struct false
      [("dif_ins_res", uint8_t); ("dest_dif_flag", uint8_t); ("dif_ins_flags", uint8_t);
       ("dif_ins_res2", Arr uint8_t 13); ("ins_ref_tag_seed", uint32_t); ("ins_app_tag_mask", uint16_t);
       ("ins_app_tag_seed", uint16_t)]);
     ("", Struct false
      [("src_upd_flags", uint8_t); ("upd_dest_flags", uint8_t); ("dif_upd_flags", uint8_t);
       ("dif_upd_res", Arr uint8_t 5); ("src_ref_tag_seed", uint32_t); ("src_app_tag_mask", uint16_t);
       ("src_app_tag_seed", uint16_t); ("dest_ref_tag_seed", uint32_t); ("dest_app_tag_mask", uint16_t);
       ("dest_app_tag_seed", uint16_t)]);
     ("", Struct false
      [("iax_src2_addr", uint64_t); ("iax_max_dst_size", uint32_t); ("iax_src2_xfer_size", uint32_t);
       ("iax_filter_flags", uint32_t); ("iax_num_inputs", uint32_t)]);
     ("", Struct false
      [("iax_crc64_rsvd", uint64_t); ("iax_crc64_rsvd2", uint64_t); ("iax_crc64_poly", uint64_t)]);
     ("", Struct false
      [("transl_fetch_rsvd", uint64_t); ("transl_fetch_region_stride", uint32_t);
       ("transl_fetch_rsvd2", uint32_t); ("transl_fetch_rsvd3", uint64_t)]);
     ("", Struct false
      [("rest_ip_res1", Arr uint8_t 20);
       ("", Union
        [("src_pasid_hndl", uint16_t); ("rest_ip_res2", Arr uint8_t 2); ("src1_pasid_hndl", uint16_t)]);
       ("", Union
        [("dest_pasid_hndl", uint16_t); ("src2_pasid_hndl", uint16_t); ("rest_ip_res3", Arr uint8_t 2)])]);
     ("", Struct false
      [("unrest_ip_res1", Arr uint8_t 8);
       ("", Union
        [("", Struct false
          [("addr1_pasid", Bits 4 20); ("unrest_ip_res2", Bits 4 11); ("addr1_priv", Bits 4 1)]);
         ("", Struct false
          [("src_pasid", Bits 4 20); ("unrest_ip_res3", Bits 4 11); ("unrest_src_priv", Bits 4 1)]);
         ("", Struct false
          [("unrest_ip_res4", Bits 4 32)]);
         ("", Struct false
          [("src1_pasid", Bits 4 20); ("unrest_ip_res5", Bits 4 11); ("unrest_src1_priv", Bits 4 1)])]);
       ("", Union
        [("", Struct false
          [("addr2_pasid", Bits 4 20); ("unrest_ip_res6", Bits 4 11); ("addr2_priv", Bits 4 1)]);
         ("", Struct false
          [("dest_pasid", Bits 4 20); ("unrest_ip_res7", Bits 4 11); ("unrest_dest_priv", Bits 4 1)]);
         ("", Struct false
          [("src2_pasid", Bits 4 20); ("unrest_ip_res8", Bits 4 11); ("unrest_src2_priv", Bits 4 1)]);
         ("", Struct false
          [("unrest_ip_res9", Bits 4 32)])]);
       ("unrest_ip_res10", Bits 8 48); ("ipt_handle", uint16_t)]);
     ("", Struct false
      [("update_win_resv2", Arr uint8_t 21); ("idpt_win_flags", uint8_t); ("idpt_win_handle", uint16_t)]);
     ("", Struct false
      [("transl_fetch_res", uint64_t); ("region_stride", uint32_t)]);
     ("", Struct false
      [("dix_gen_res", uint8_t); ("dest_dif_flags", uint8_t); ("dif_flags", uint8_t);
       ("dix_gen_res2", Arr uint8_t 13); ("ref_tag_seed", uint32_t); ("app_tag_mask", uint16_t);
       ("app_tag_seed", uint16_t)]);
     ("op_specific", Arr uint8_t 24)])].

(* accfg/idxd.h:396-398 raw_desc *)
Definition raw_desc : ctype := Struct true
  [("field", Arr uint64_t 8)].

(* accfg/idxd.h:409-499 completion_record *)
Definition completion_record : ctype := Struct true
  [("status", uint8_t);
   ("", Union
    [("result", uint8_t); ("dif_status", uint8_t)]);
   ("rsvd", uint16_t);
   ("", Union
    [("bytes_completed", uint32_t); ("descs_completed", uint32_t)]);
   ("fault_addr", uint64_t);
   ("", Union
    [("", Struct false
      [("invalid_flags", Bits 4 24); ("rsvd2", Bits 4 8)]);
     ("delta_rec_size", uint32_t); ("crc_val", uint32_t);
     ("", Struct false
      [("dif_chk_ref_tag", uint32_t); ("dif_chk_app_tag_mask", uint16_t); ("dif_chk_app_tag", uint16_t)]);
     ("", Struct false
      [("dif_ins_res", uint64_t); ("dif_ins_ref_tag", uint32_t); ("dif_ins_app_tag_mask", uint16_t);
       ("dif_ins_app_tag", uint16_t)]);
     ("", Struct false
      [("dif_upd_src_ref_tag", uint32_t); ("dif_upd_src_app_tag_mask", uint16_t);
       ("dif_upd_src_app_tag", uint16_t); ("dif_upd_dest_ref_tag", uint32_t);
       ("dif_upd_dest_app_tag_mask", uint16_t); ("dif_upd_dest_app_tag", uint16_t)]);
     ("", Struct false
      [("dix_gen_res", uint64_t); ("dix_ref_tag", uint32_t); ("dix_app_tag_mask", uint16_t);
       ("dix_app_tag", uint16_t)]);
     ("", Struct false
      [("iax_invalid_flags", uint32_t); ("iax_rsvd", uint32_t); ("iax_output_size", uint32_t);
       ("iax_output_bits", uint8_t); ("iax_rsvd2", uint8_t); ("iax_xor_chksum", uint16_t);
       ("iax_crc", uint32_t);
       ("", Union
        [("iax_min", uint32_t); ("iax_first", uint32_t)]);
       ("", Union
        [("iax_max", uint32_t); ("iax_last", uint32_t)]);
       ("", Union
        [("iax_sum", uint32_t); ("iax_population_cnt", uint32_t)])]);
     ("", Struct false
      [("crc64_invalid_flags", uint32_t); ("crc64_rsvd", uint32_t); ("crc64_rsvd2", uint64_t);
       ("crc64_rsvd3", uint64_t); ("crc64_result", uint64_t)]);
     ("op_specific", Arr uint8_t 48)])].

(* accfg/idxd.h:501-504 raw_completion_record *)
Definition raw_completion_record : ctype := Struct true
  [("field", Arr uint64_t 8)].

(* accfg/idxd.h:524-530 idxd_win_param *)
Definition idxd_win_param : ctype := Struct true
  [("base", uint64_t); ("size", uint64_t); ("type", uint32_t); ("flags", uint16_t); ("handle", uint16_t)].

(* accfg/idxd.h:532-535 idxd_win_attach *)
Definition idxd_win_attach : ctype := Struct true
  [("fd", uint32_t); ("handle", uint16_t)].

(* accfg/idxd.h:537-541 idxd_win_fault *)
Definition idxd_win_fault : ctype := Struct true
  [("offset", uint64_t); ("len", uint64_t); ("write_fault", uint32_t)].

(** ** Theorems *)

(** The values of an enumeration tell its constants apart. *)
Section enum.
Context {A : Type} (value : A → Z) (all : list A).
Definition of_value (z : Z) : option A := List.find (λ x, value x =? z) all.
End enum.

Lemma dsa_opcode_of_value x : of_value dsa_opcode_value dsa_opcodes (dsa_opcode_value x) = Some x.
Proof. by destruct x. Qed.
Lemma iax_opcode_of_value x : of_value iax_opcode_value iax_opcodes (iax_opcode_value x) = Some x.
Proof. by destruct x. Qed.
Lemma dsa_completion_status_of_value x : of_value dsa_completion_status_value dsa_completion_statuses (dsa_completion_status_value x) = Some x.
Proof. by destruct x. Qed.
Lemma iax_completion_status_of_value x : of_value iax_completion_status_value iax_completion_statuses (iax_completion_status_value x) = Some x.
Proof. by destruct x. Qed.
Lemma idxd_win_type_of_value x : of_value idxd_win_type_value idxd_win_types (idxd_win_type_value x) = Some x.
Proof. by destruct x. Qed.

(** An opcode fits the member [opcode], a status the seven bits of DSA_COMP_STATUS_MASK. *)
Lemma opcodes_fit : (∀ x, 0 <= dsa_opcode_value x < 2 ^ 8) ∧ (∀ x, 0 <= iax_opcode_value x < 2 ^ 8).
Proof. split; intros []; done. Qed.
Lemma statuses_fit : (∀ x, Z.land (dsa_completion_status_value x) DSA_COMP_STATUS_MASK = dsa_completion_status_value x) ∧
  (∀ x, Z.land (iax_completion_status_value x) DSA_COMP_STATUS_MASK = iax_completion_status_value x).
Proof. split; intros []; done. Qed.

(** *** Members of descriptors and completion records *)

(** The member of a name, as a field of the object. *)
Definition member (t : ctype) (name : string) : field := default (Field "" 0 0) (find_field t name).

Lemma wf_desc : wf hw_desc = true. Proof. done. Qed.
Lemma wf_comp : wf completion_record = true. Proof. done. Qed.

(** The objects have the sizes the device and the driver expect, and no name is used twice in one. *)
Lemma sizes_of_objects :
  sizeof <$> [hw_desc; raw_desc; completion_record; raw_completion_record; idxd_win_param; idxd_win_attach; idxd_win_fault] =
  [64; 64; 64; 64; 24; 6; 20].
Proof. reflexivity. Qed.
Lemma names_differ : NoDup (f_name <$> fields 0 "" hw_desc) ∧ NoDup (f_name <$> fields 0 "" completion_record).
Proof. split; apply (bool_decide_unpack _); vm_compute; exact I. Qed.

(** The members of a descriptor in its 512 bits: whatever member is written, with whatever value, the
    descriptor stays one, the member then reads as the value cut to its width, and every member that shares no
    bit with it reads as before. *)
Theorem hw_desc_members f g v d :
  f ∈ fields 0 "" hw_desc → g ∈ fields 0 "" hw_desc → 0 <= d < 2 ^ 512 →
  0 <= set f v d < 2 ^ 512 ∧ get f (set f v d) = v mod 2 ^ f_width f ∧ (apart f g → get g (set f v d) = get g d).
Proof.
  intros Hf Hg Hd. change 512 with (size hw_desc) in *.
  pose proof (fields_fit _ _ _ wf_desc Hf) as Hfit. pose proof (fields_fit _ _ _ wf_desc Hg) as Hgit.
  split; [by apply set_range|]. split; [by eapply get_set_same|by eapply get_set_other].
Qed.

(** The members outside the unions, and the first of each union, do not overlap. *)
Definition desc_row : list string :=
  ["pasid"; "rsvd"; "priv"; "flags"; "opcode"; "completion_addr"; "src_addr"; "dst_addr"; "xfer_size"; "int_handle";
   "rsvd1"; "op_specific"].
Lemma desc_row_tiles :
  foldl (λ p n, if f_pos (member hw_desc n) =? p then p + f_width (member hw_desc n) else -1) 0 desc_row = 512.
Proof. reflexivity. Qed.

Lemma hw_desc_members_witness :
  member hw_desc "flags" ∈ fields 0 "" hw_desc ∧ get (member hw_desc "flags") (set (member hw_desc "flags") 0xc 0) = 0xc.
Proof.
  assert (∀ n, existsb (λ f, bool_decide (f_name f = n)) (fields 0 "" hw_desc) = true →
    member hw_desc n ∈ fields 0 "" hw_desc) as Hin.
  { intros n Hn. unfold member, find_field. destruct (List.find _ _) as [f|] eqn:Hf.
    - by apply list_elem_of_In, (List.find_some _ _ Hf).
    - apply existsb_exists in Hn as (f & Hin & Hn). apply (List.find_none _ _ Hf) in Hin.
      apply bool_decide_eq_true in Hn. by rewrite Hn, String.eqb_refl in Hin. }
  assert (member hw_desc "flags" ∈ fields 0 "" hw_desc) as Hf by (by apply Hin).
  split; [done|]. by destruct (hw_desc_members _ _ 0xc 0 Hf Hf) as (_ & -> & _).
Defined.
