(* ===== verification/DsaMove.v ===== *)
(** * test/dsa_prep.c, test/dsa.c: moving memory through page faults

    The test program's memory move: the descriptor it prepares, and the loop that waits for the
    device and, when the device stopped at a fault, advances the descriptor, touches the page
    and submits again.  The device is a parameter.  Its laws say what its documentation says of a
    memory move: the status of its completion record is not 0; with a success all bytes are copied;
    with a fault some are, from either end, and the record has the count; any other status may come
    at any time.  The wait is the one of processors without UMWAIT: a look each millisecond. *)

From S2P Require Import Prelude CString Layout Idxd.
Local Open Scope string_scope.
Local Open Scope Z_scope.

(** ** Descriptors *)

Definition desc (name : string) : field := member hw_desc name.
Definition comp (name : string) : field := member completion_record name.

(* test/accel_test.c:520-528 acctest_prep_desc_common *)
Definition acctest_prep_desc_common (hw opcode dest src len dflags : Z) : Z :=
  let hw := set (desc "flags") dflags hw in
  let hw := set (desc "opcode") opcode hw in
  let hw := set (desc "src_addr") src hw in
  let hw := set (desc "dst_addr") dest hw in
  set (desc "xfer_size") len hw.

(** The members of a task a memory move uses; [t_comp_addr] is where the completion record is. *)
(* test/accel_test.h:52-97 task *)
Record task := Task {
  t_desc : Z;        (* struct hw_desc, in memory *)
  t_comp : Z;        (* struct completion_record, in memory *)
  t_comp_addr : Z;
  t_opcode : Z;
  t_src1 : Z;
  t_dst1 : Z;
  t_xfer_size : Z;   (* uint64_t *)
  t_dflags : Z;      (* uint32_t *)
}.

(* test/dsa_prep.c:58-69 dsa_prep_memcpy *)
Definition dsa_prep_memcpy (tsk : task) : task :=
  let opcode := if t_opcode tsk =? dsa_opcode_value DSA_OPCODE_DRAIN then dsa_opcode_value DSA_OPCODE_MEMMOVE
                else t_opcode tsk in
  let hw := acctest_prep_desc_common (t_desc tsk) opcode (t_dst1 tsk) (t_src1 tsk) (t_xfer_size tsk) (t_dflags tsk) in
  let hw := set (desc "completion_addr") (t_comp_addr tsk) hw in
  Task hw (set (comp "status") 0 (t_comp tsk)) (t_comp_addr tsk) opcode (t_src1 tsk) (t_dst1 tsk) (t_xfer_size tsk)
    (t_dflags tsk).

(** ** Memory and the device *)

Definition memory : Type := Z → Z.
Definition upd (a v : Z) (m : memory) : memory := λ b, if b =? a then v else m b.

Definition ACCTEST_COMP_STAT_CODE_MASK : Z := 0x3F.
Definition ACCTEST_COMP_STAT_RW_MASK : Z := 0x80.
(* test/accel_test.h:46-47 stat_val *)
Definition stat_val (status : Z) : Z := Z.land status ACCTEST_COMP_STAT_CODE_MASK.

Definition flip (v : Z) : Z := u8 (Z.lnot v).
(* test/accel_test.h:262-274 resolve_page_fault *)
Definition resolve_page_fault (addr status : Z) (m : memory) : memory :=
  let m := upd addr (flip (m addr)) m in
  if Z.land status ACCTEST_COMP_STAT_RW_MASK =? 0 then upd addr (flip (m addr)) m else m.

(** A device in state [D] is given a descriptor and the memory: what it does to the memory, the
    completion record it writes, and after how many milliseconds. *)
Class Device (D : Type) := serve : Z → memory → D → memory * Z * Z * D.

Section move.
Context {D : Type} `{Device D}.

Record state := State {
  s_task : task;
  s_mem : memory;
  s_dev : D;
  s_answer : option (Z * Z);   (* the completion record that is on its way, and when it is there *)
}.

Definition with_comp (c : Z) (t : task) : task :=
  Task (t_desc t) c (t_comp_addr t) (t_opcode t) (t_src1 t) (t_dst1 t) (t_xfer_size t) (t_dflags t).
Definition with_desc (hw : Z) (t : task) : task :=
  Task hw (t_comp t) (t_comp_addr t) (t_opcode t) (t_src1 t) (t_dst1 t) (t_xfer_size t) (t_dflags t).

(** The device has its own time; what it does to the memory shows when the program looks.  A
    descriptor no shared queue takes is one that is answered late. *)
(* test/accel_test.c:530-540 acctest_desc_submit *)
Definition acctest_desc_submit (s : state) : state :=
  let '(m, c, delay, d) := serve (t_desc (s_task s)) (s_mem s) (s_dev s) in
  State (s_task s) m d (Some (c, delay)).

(* test/dsa_prep.c:71-92 dsa_reprep_memcpy *)
Definition dsa_reprep_memcpy (s : state) : state :=
  let t := s_task s in
  let c := t_comp t in
  let hw := t_desc t in
  let n := get (comp "bytes_completed") c in
  let hw := set (desc "xfer_size") (get (desc "xfer_size") hw - n) hw in
  let hw :=
    if get (comp "result") c =? 0 then
      let hw := set (desc "src_addr") (get (desc "src_addr") hw + n) hw in
      set (desc "dst_addr") (get (desc "dst_addr") hw + n) hw
    else hw in
  let m := resolve_page_fault (get (comp "fault_addr") c) (get (comp "status") c) (s_mem s) in
  acctest_desc_submit (State (with_comp (set (comp "status") 0 c) (with_desc hw t)) m (s_dev s) (s_answer s)).

Definition ACCTEST_STATUS_OK : Z := 0.
Definition ACCTEST_STATUS_TIMEOUT : Z := 5.
(* test/accel_test.c:19-19 ms_timeout *)
Definition ms_timeout : Z := 5000.

Definition EAGAIN : Z := 11.

(** The completion record after [j] milliseconds. *)
Definition comp_at (s : state) (j : Z) : Z :=
  match s_answer s with
  | Some (c, delay) => if delay <=? j then c else t_comp (s_task s)
  | None => t_comp (s_task s)
  end.

(** The wait without UMWAIT: a look at the status each millisecond; [n] more of them are left. *)
(* test/accel_test.c:343-347 acctest_wait_on_desc_timeout *)
Fixpoint poll (status : Z → Z) (n : nat) (j : Z) : Z :=
  match n with
  | O => j
  | S n => if status j =? 0 then poll status n (j + 1) else j
  end.
(** Its result, and when it came to it. *)
(* test/accel_test.c:337-375 acctest_wait_on_desc_timeout *)
Definition acctest_wait_on_desc_timeout (s : state) (msec_timeout : Z) : Z * Z :=
  let j := poll (λ j, get (comp "status") (comp_at s j)) (Z.to_nat msec_timeout) 0 in
  (if j =? msec_timeout then - EAGAIN else 0, j).

(** [goto again], with fuel. *)
(* test/dsa.c:772-794 dsa_wait_memcpy *)
Fixpoint dsa_wait_memcpy (fuel : nat) (s : state) : option (Z * state) :=
  match fuel with
  | O => None
  | S n =>
      let '(rc, j) := acctest_wait_on_desc_timeout s ms_timeout in
      let s := State (with_comp (comp_at s j) (s_task s)) (s_mem s) (s_dev s) (s_answer s) in
      let status := get (comp "status") (t_comp (s_task s)) in
      let flags := get (desc "flags") (t_desc (s_task s)) in
      if rc <? 0 then Some (ACCTEST_STATUS_TIMEOUT, s)
      else if (stat_val status =? dsa_completion_status_value DSA_COMP_PAGE_FAULT_NOBOF) &&
              (Z.land flags IDXD_OP_FLAG_BOF =? 0)
              || (stat_val status =? dsa_completion_status_value DSA_COMP_CRA_XLAT)
      then dsa_wait_memcpy n (dsa_reprep_memcpy s)
      else Some (ACCTEST_STATUS_OK, s)
  end.

(** One task of [dsa_memcpy_multi_task_nodes]: prepared, submitted, waited for. *)
(* test/dsa.c:801-828 dsa_memcpy_multi_task_nodes *)
Definition move_task (fuel : nat) (tsk : task) (m : memory) (d : D) : option (Z * state) :=
  dsa_wait_memcpy fuel (acctest_desc_submit (State (dsa_prep_memcpy tsk) m d None)).
End move.
Arguments State {D} _ _ _ _.
Arguments state D : clear implicits.

(** ** Members of the descriptor of a move *)

Lemma desc_same w x v hw : bool_decide (fits_in 512 (desc x) ∧ f_width (desc x) = w) = true →
  get (desc x) (set (desc x) v hw) = v mod 2 ^ w.
Proof. apply get_same. Qed.
Lemma desc_other x y v hw : bool_decide (fits_in 512 (desc x) ∧ fits_in 512 (desc y) ∧ apart (desc x) (desc y)) = true →
  get (desc y) (set (desc x) v hw) = get (desc y) hw.
Proof. apply get_other. Qed.

(** A member that was written last, and one that was not. *)
Ltac members := repeat first
  [ rewrite (desc_same 64) by reflexivity | rewrite (desc_same 32) by reflexivity
  | rewrite (desc_same 24) by reflexivity | rewrite (desc_same 8) by reflexivity
  | rewrite desc_other by reflexivity ].

(** What a descriptor asks for. *)
Record asks (hw opcode flags src dst n : Z) : Prop := {
  ask_opcode : get (desc "opcode") hw = opcode;
  ask_flags : get (desc "flags") hw = flags;
  ask_src : get (desc "src_addr") hw = src;
  ask_dst : get (desc "dst_addr") hw = dst;
  ask_size : get (desc "xfer_size") hw = n;
}.

Lemma common_asks hw opcode dest src len dflags addr :
  asks (set (desc "completion_addr") addr (acctest_prep_desc_common hw opcode dest src len dflags))
    (opcode mod 2 ^ 8) (dflags mod 2 ^ 24) (src mod 2 ^ 64) (dest mod 2 ^ 64) (len mod 2 ^ 32).
Proof. unfold acctest_prep_desc_common. split; by members. Qed.

(** The descriptor after a stop at which [k] bytes were done, the first ones or the last: the rest. *)
Lemma shrink_asks hw opcode flags src dst n k : asks hw opcode flags src dst n →
  asks (set (desc "xfer_size") (get (desc "xfer_size") hw - k) hw) opcode flags src dst ((n - k) mod 2 ^ 32).
Proof. intros [H1 H2 H3 H4 H5]. split; members; congruence. Qed.
Lemma advance_asks hw opcode flags src dst n k : asks hw opcode flags src dst n →
  asks (set (desc "dst_addr") (get (desc "dst_addr") (set (desc "src_addr") (get (desc "src_addr") hw + k) hw) + k)
        (set (desc "src_addr") (get (desc "src_addr") hw + k) hw))
    opcode flags ((src + k) mod 2 ^ 64) ((dst + k) mod 2 ^ 64) n.
Proof. intros [H1 H2 H3 H4 H5]. split; members; congruence. Qed.

(** ** What the device promises of a move *)

(** [m'] is [m] with [k] bytes moved. *)
Definition moved (src dst k : Z) (m m' : memory) : Prop :=
  ∀ a, m' a = if decide (dst <= a < dst + k) then m (src + (a - dst)) else m a.
Definition is_memory (m : memory) : Prop := ∀ a, 0 <= m a < 2 ^ 8.
Definition status_of (c : Z) : Z := get (comp "status") c.

Lemma cleared c : status_of (set (comp "status") 0 c) = 0.
Proof. by apply (get_same 512 8). Qed.

(** The statuses for which the program tries again. *)
Definition again (c : Z) : Prop :=
  stat_val (status_of c) = dsa_completion_status_value DSA_COMP_PAGE_FAULT_NOBOF ∨
  stat_val (status_of c) = dsa_completion_status_value DSA_COMP_CRA_XLAT.

(** [k] of [n] bytes, from the first on or, when the record's result says so, the last ones; what is
    still to be done starts [lo] bytes in. *)
Definition part (src dst n : Z) (m m' : memory) (result k lo : Z) : Prop :=
  if result =? 0 then lo = k ∧ moved src dst k m m'
  else lo = 0 ∧ moved (src + (n - k)) (dst + (n - k)) k m m'.

(** The answers to a move of [n] bytes: success, all of them done; a stop, a part of them done, at an
    address which the program may touch; or any other status, of which nothing is said but that the
    device writes to the destination only. *)
Definition served (src dst n : Z) (m m' : memory) (c : Z) (left left' : nat) : Prop :=
  status_of c ≠ 0 ∧ is_memory m' ∧ (∀ a, ¬ (dst <= a < dst + n) → m' a = m a) ∧
  (stat_val (status_of c) = dsa_completion_status_value DSA_COMP_SUCCESS → moved src dst n m m') ∧
  (again c → ∃ k lo, 0 <= k < n ∧ part src dst n m m' (get (comp "result") c) k lo ∧
    get (comp "bytes_completed") c = k ∧ (left' < left)%nat ∧
    (Z.land (status_of c) ACCTEST_COMP_STAT_RW_MASK ≠ 0 →
     dst + lo <= get (comp "fault_addr") c < dst + lo + (n - k))).

Definition no_overlap (src dst n : Z) : Prop := src + n <= dst ∨ dst + n <= src.
Definition addresses (src dst n : Z) : Prop :=
  0 <= src ∧ src + n <= 2 ^ 64 ∧ 0 <= dst ∧ dst + n <= 2 ^ 64 ∧ 0 <= n < 2 ^ 32.

(** Every stop is for a reason that is then gone, and there are only so many; a device may be late at
    any time. *)
Class MoveLaws (D : Type) `{Device D} := {
  pages_left : D → nat;
  serve_move hw flags src dst n (m : memory) d m' c delay d' :
    asks hw (dsa_opcode_value DSA_OPCODE_MEMMOVE) flags src dst n → Z.land flags IDXD_OP_FLAG_BOF = 0 →
    no_overlap src dst n → addresses src dst n → is_memory m →
    serve hw m d = (m', c, delay, d') → 0 <= delay ∧ served src dst n m m' c (pages_left d) (pages_left d');
}.

(** ** The move is made *)

Lemma flip_flip v : 0 <= v < 2 ^ 8 → flip (flip v) = v.
Proof. intros Hv. unfold flip, Z.lnot. wrap_lia. Qed.
Lemma flip_range v : 0 <= flip v < 2 ^ 8.
Proof. apply Z.mod_pos_bound. done. Qed.

(** Touching a page changes at most the byte at the address, and not even that after a read. *)
Lemma resolve_spec addr status m : is_memory m →
  is_memory (resolve_page_fault addr status m) ∧
  (∀ a, a ≠ addr → resolve_page_fault addr status m a = m a) ∧
  (Z.land status ACCTEST_COMP_STAT_RW_MASK = 0 → resolve_page_fault addr status m addr = m addr).
Proof.
  intros Hm. unfold resolve_page_fault. destruct (Z.eqb_spec (Z.land status ACCTEST_COMP_STAT_RW_MASK) 0) as [Hz|Hz].
  - assert (∀ a, upd addr (flip (upd addr (flip (m addr)) m addr)) (upd addr (flip (m addr)) m) a = m a) as Hsame.
    { intros a. unfold upd. destruct (Z.eqb_spec a addr) as [->|]; [|done]. rewrite Z.eqb_refl. by apply flip_flip. }
    split_and!; [intros a; rewrite Hsame; apply Hm|by intros; rewrite Hsame|by intros; rewrite Hsame].
  - split_and!; [|intros a Ha|done].
    + intros a. unfold upd. destruct (a =? addr); [apply flip_range|apply Hm].
    + unfold upd. by destruct (Z.eqb_spec a addr).
Qed.

(** The wait ends when the record is there, or with the time. *)
Lemma poll_spec (status : Z → Z) delay n j : (∀ i, status i = 0 ↔ i < delay) →
  poll status n j = Z.max j (Z.min delay (j + Z.of_nat n)).
Proof.
  intros Hst. revert j. induction n as [|n IH]; intros j; simpl; [lia|].
  destruct (Z.eqb_spec (status j) 0) as [Hj%Hst|Hj]; [rewrite IH; lia|]. rewrite Hst in Hj. lia.
Qed.

Section correct.
Context {D : Type} `{MoveLaws D}.
Variables (src dst len flags : Z) (m0 : memory).
Hypothesis Hno : no_overlap src dst len.
Hypothesis Hadr : addresses src dst len.
Hypothesis Hbof : Z.land flags IDXD_OP_FLAG_BOF = 0.
Hypothesis Hm0 : is_memory m0.

(** The bytes are where they belong but for those from [lo] to [hi], which may be anything. *)
Definition progress (lo hi : Z) (m : memory) : Prop :=
  is_memory m ∧ (∀ a, dst <= a < dst + len → ¬ (dst + lo <= a < dst + hi) → m a = m0 (src + (a - dst))) ∧
  (∀ a, ¬ (dst <= a < dst + len) → m a = m0 a).

(** [k] bytes moved of what is left, [from] bytes on. *)
Lemma moved_bytes lo hi from k m m' : 0 <= lo <= from → from + k <= hi → hi <= len → 0 <= k →
  progress lo hi m → moved (src + from) (dst + from) k m m' → ∀ a,
  m' a = if decide (dst + from <= a < dst + from + k) then m0 (src + (a - dst)) else m a.
Proof.
  intros Hfrom Hto Hhi Hk (_ & _ & Hout) Hmv a. rewrite Hmv. destruct (decide _); [|done].
  rewrite Hout by (unfold no_overlap in Hno; lia). f_equal. lia.
Qed.

Lemma progress_part lo hi m m' result k off : 0 <= lo → 0 <= k <= hi - lo → hi <= len → is_memory m' →
  progress lo hi m → part (src + lo) (dst + lo) (hi - lo) m m' result k off →
  progress (lo + off) (lo + off + (hi - lo - k)) m'.
Proof.
  intros Hlo Hk Hhi Hm' Hprog Hpart. pose proof Hprog as (_ & Hdone & Hout). unfold part in Hpart.
  destruct (result =? 0); destruct Hpart as [-> Hmv].
  - pose proof (moved_bytes lo hi lo k m m' ltac:(lia) ltac:(lia) Hhi ltac:(lia) Hprog Hmv) as Hb.
    split_and!; [done|intros a Ha Hna|intros a Ha]; rewrite Hb; destruct (decide _); try done; [apply Hdone; lia|lia|by apply Hout].
  - replace (src + lo + (hi - lo - k)) with (src + (hi - k)) in Hmv by lia.
    replace (dst + lo + (hi - lo - k)) with (dst + (hi - k)) in Hmv by lia.
    pose proof (moved_bytes lo hi (hi - k) k m m' ltac:(lia) ltac:(lia) Hhi ltac:(lia) Hprog Hmv) as Hb.
    split_and!; [done|intros a Ha Hna|intros a Ha]; rewrite Hb; destruct (decide _); try done; [apply Hdone; lia|lia|by apply Hout].
Qed.

Lemma progress_touched lo hi addr status m : 0 <= lo → hi <= len →
  (Z.land status ACCTEST_COMP_STAT_RW_MASK ≠ 0 → dst + lo <= addr < dst + hi) →
  progress lo hi m → progress lo hi (resolve_page_fault addr status m).
Proof.
  intros Hlo Hhi Haddr (Hb & Hdone & Hout). destruct (resolve_spec addr status m Hb) as (Hb' & Hother & Hread).
  assert (∀ a, ¬ (dst + lo <= a < dst + hi) → resolve_page_fault addr status m a = m a) as Hsame.
  { intros a Ha. destruct (decide (a = addr)) as [->|Hne]; [|by apply Hother].
    destruct (decide (Z.land status ACCTEST_COMP_STAT_RW_MASK = 0)) as [|Hw]; [by apply Hread|].
    by specialize (Haddr Hw). }
  split_and!; [done|intros a Ha Hna; rewrite Hsame by done; by apply Hdone|intros a Ha; rewrite Hsame by lia; by apply Hout].
Qed.

(** The end of the loop: the last descriptor the device was given asked for what was left, from [lo] to [hi];
    a time-out is that its answer came too late, and OK that it came in time with a status for which the
    program does not try again. *)
Definition move_ends (rc : Z) (s : state D) : Prop :=
  ∃ lo hi hw m1 d1 c delay, 0 <= lo <= hi ∧ hi <= len ∧
    asks hw (dsa_opcode_value DSA_OPCODE_MEMMOVE) flags (src + lo) (dst + lo) (hi - lo) ∧ progress lo hi m1 ∧
    serve hw m1 d1 = (s_mem s, c, delay, s_dev s) ∧
    (∀ a, ¬ (dst <= a < dst + len) → s_mem s a = m0 a) ∧
    (ms_timeout <= delay ∧ rc = ACCTEST_STATUS_TIMEOUT ∨
     delay < ms_timeout ∧ rc = ACCTEST_STATUS_OK ∧ t_comp (s_task s) = c ∧ ¬ again c ∧
       (stat_val (status_of c) = dsa_completion_status_value DSA_COMP_SUCCESS → moved src dst len m0 (s_mem s))).

Lemma retry_again (c hw : Z) opcode s1 d1 n1 : asks hw opcode flags s1 d1 n1 →
  (stat_val (status_of c) =? dsa_completion_status_value DSA_COMP_PAGE_FAULT_NOBOF) &&
    (Z.land (get (desc "flags") hw) IDXD_OP_FLAG_BOF =? 0)
  || (stat_val (status_of c) =? dsa_completion_status_value DSA_COMP_CRA_XLAT) = true ↔ again c.
Proof.
  intros Hask. rewrite (ask_flags _ _ _ _ _ _ Hask), Hbof, andb_true_r. unfold again.
  by rewrite orb_true_iff, !Z.eqb_eq.
Qed.

(** A run of the loop, right before the device is given the descriptor. *)
Lemma wait_moves fuel lo hi t m d b : 0 <= lo <= hi → hi <= len →
  asks (t_desc t) (dsa_opcode_value DSA_OPCODE_MEMMOVE) flags (src + lo) (dst + lo) (hi - lo) → progress lo hi m →
  status_of (t_comp t) = 0 → (pages_left d < fuel)%nat →
  ∃ rc s, dsa_wait_memcpy fuel (acctest_desc_submit (State t m d b)) = Some (rc, s) ∧ move_ends rc s.
Proof.
  revert lo hi t m d b. induction fuel as [|fuel IH]; intros lo hi t m d b Hlo Hhi Hask Hprog Hst Hfuel; [lia|].
  unfold acctest_desc_submit. cbn [s_task s_mem s_dev]. destruct (serve (t_desc t) m d) as [[[m' c] delay] d'] eqn:Hserve.
  unfold addresses, no_overlap in Hadr, Hno.
  destruct (serve_move _ _ _ _ _ _ _ _ _ _ _ Hask Hbof ltac:(unfold no_overlap; lia) ltac:(unfold addresses; lia)
    (proj1 Hprog) Hserve) as (Hdelay & Hne & Hm' & Hframe & Hsucc & Hagain).
  pose proof Hprog as (_ & Hdone & Hout).
  assert (∀ a, ¬ (dst <= a < dst + len) → m' a = m0 a) as Houtside
    by (intros a Ha; rewrite Hframe by lia; by apply Hout).
  cbn [dsa_wait_memcpy]. unfold acctest_wait_on_desc_timeout. set (s := State t m' d' (Some (c, delay))).
  rewrite (poll_spec _ delay).
  2: { intros i. unfold s, comp_at. cbn [s_answer s_task]. destruct (Z.leb_spec delay i); split; intros Hi; [|lia|lia|exact Hst].
       by destruct Hne. }
  set (j := Z.max 0 (Z.min delay (0 + Z.of_nat (Z.to_nat ms_timeout)))).
  assert (j = Z.min delay ms_timeout) as Hj by (unfold j, ms_timeout; lia). clearbody j. subst s.
  unfold comp_at. cbn [s_answer s_task s_mem s_dev t_comp t_desc with_comp].
  destruct (Z.eqb_spec j ms_timeout) as [Hlate|Hin].
  { change (- EAGAIN <? 0) with true. cbv iota. eexists _, _. split; [done|].
    exists lo, hi, (t_desc t), m, d, c, delay. split_and!; try done; lia. }
  change (0 <? 0) with false. cbv iota. replace (delay <=? j) with true by (symmetry; apply Z.leb_le; lia).
  fold (status_of c). destruct (_ || _) eqn:Hretry.
  - apply (retry_again _ _ _ _ _ _ Hask), Hagain in Hretry as (k & off & Hk & Hpart & Hn & Hleft & Haddr).
    unfold dsa_reprep_memcpy. cbn [s_task t_comp t_desc s_mem s_dev s_answer with_comp with_desc t_comp_addr t_opcode t_src1
      t_dst1 t_xfer_size t_dflags].
    rewrite Hn. pose proof (progress_part lo hi m m' _ k off (proj1 Hlo) ltac:(lia) Hhi Hm' Hprog Hpart) as Hprog'.
    assert (0 <= off <= k) as Hoff by (unfold part in Hpart; destruct (_ =? 0); lia).
    apply (IH (lo + off) (lo + off + (hi - lo - k))); [lia|lia| | |by apply cleared|lia].
    + cbn [t_desc]. pose proof (shrink_asks _ _ _ _ _ _ k Hask) as Hadv. rewrite Z.mod_small in Hadv by lia.
      replace (lo + off + (hi - lo - k) - (lo + off)) with (hi - lo - k) by lia.
      unfold part in Hpart. destruct (_ =? 0); destruct Hpart as [-> _].
      * apply (advance_asks _ _ _ _ _ _ k) in Hadv. rewrite !Z.mod_small in Hadv by lia. by rewrite !Z.add_assoc.
      * by rewrite !Z.add_0_r.
    + apply progress_touched; [lia|lia| |done]. fold (status_of c). intros Hw. specialize (Haddr Hw). lia.
  - assert (¬ again c) as Hnot.
    { intros Ha. apply (retry_again _ _ _ _ _ _ Hask) in Ha. congruence. }
    eexists _, _. split; [done|].
    exists lo, hi, (t_desc t), m, d, c, delay. split_and!; try done; try lia. right. split_and!; [lia|done..|].
    intros Hs. specialize (Hsucc Hs). simpl. intros a.
    rewrite (moved_bytes lo hi lo (hi - lo) m m') by (lia || done).
    destruct (decide (dst <= a < dst + len)) as [Ha|Ha].
    + destruct (decide _); [done|]. apply Hdone; [done|lia].
    + rewrite decide_False by lia. by apply Hout.
Qed.
End correct.


(** ** An instance: a device that does what a list says *)

Definition copy (src dst k : Z) (m : memory) : memory := λ a, if decide (dst <= a < dst + k) then m (src + (a - dst)) else m a.
Definition record (status result n addr : Z) : Z :=
  set (comp "fault_addr") addr (set (comp "bytes_completed") n (set (comp "result") result (set (comp "status") status 0))).

(** A stop at a page of the source after [k] bytes, from the start or from the end; an error; a late success. *)
Inductive answer : Set := Stop (k : Z) | StopBack (k : Z) | Broken | Late.

#[export] Instance scripted : Device (list answer) := λ hw m d,
  let src := get (desc "src_addr") hw in let dst := get (desc "dst_addr") hw in let n := get (desc "xfer_size") hw in
  match d with
  | Stop k :: d' => if (0 <=? k) && (k <? n) then (copy src dst k m, record 3 0 k (src + k), 2, d')
                    else (copy src dst n m, record 1 0 0 0, 2, d')
  | StopBack k :: d' =>
      if (0 <=? k) && (k <? n) then (copy (src + (n - k)) (dst + (n - k)) k m, record 3 1 k src, 2, d')
      else (copy src dst n m, record 1 0 0 0, 2, d')
  | Broken :: d' => (m, record 0x20 0 0 0, 2, d')
  | Late :: d' => (copy src dst n m, record 1 0 0 0, ms_timeout, d')
  | [] => (copy src dst n m, record 1 0 0 0, 1, [])
  end.

Lemma comp_same w x v c : bool_decide (fits_in 512 (comp x) ∧ f_width (comp x) = w) = true →
  get (comp x) (set (comp x) v c) = v mod 2 ^ w.
Proof. apply get_same. Qed.
Lemma comp_other x y v c : bool_decide (fits_in 512 (comp x) ∧ fits_in 512 (comp y) ∧ apart (comp x) (comp y)) = true →
  get (comp y) (set (comp x) v c) = get (comp y) c.
Proof. apply get_other. Qed.

Lemma record_members status result n addr :
  0 <= status < 2 ^ 8 → 0 <= result < 2 ^ 8 → 0 <= n < 2 ^ 32 → 0 <= addr < 2 ^ 64 →
  status_of (record status result n addr) = status ∧ get (comp "result") (record status result n addr) = result ∧
  get (comp "bytes_completed") (record status result n addr) = n ∧
  get (comp "fault_addr") (record status result n addr) = addr.
Proof.
  intros Hs Hr Hn Ha. unfold status_of, record. split_and!.
  - do 3 rewrite comp_other by reflexivity. rewrite (comp_same 8) by reflexivity. by apply Z.mod_small.
  - do 2 rewrite comp_other by reflexivity. rewrite (comp_same 8) by reflexivity. by apply Z.mod_small.
  - rewrite comp_other by reflexivity. rewrite (comp_same 32) by reflexivity. by apply Z.mod_small.
  - rewrite (comp_same 64) by reflexivity. by apply Z.mod_small.
Qed.

Lemma copy_memory src dst k m : is_memory m → is_memory (copy src dst k m).
Proof. intros Hm a. unfold copy. destruct (decide _); apply Hm. Qed.
Lemma copy_frame src dst k n m a : k <= n → ¬ (dst <= a < dst + n) → copy src dst k m a = m a.
Proof. intros Hk Ha. unfold copy. rewrite decide_False by lia. done. Qed.

(** A success, and a status for which nothing is tried again. *)
Lemma served_done src dst n m c left left' : 0 <= n → is_memory m → status_of c = 1 →
  served src dst n m (copy src dst n m) c left left'.
Proof.
  intros Hn Hm Hc. split_and!; [lia|by apply copy_memory|intros a Ha; by apply (copy_frame _ _ _ n)|by intros _ a|].
  unfold again. rewrite Hc. by intros [|].
Qed.
Lemma served_broken src dst n m c left left' : is_memory m → status_of c = 0x20 → served src dst n m m c left left'.
Proof.
  intros Hm Hc. split_and!; [lia|done|done|by rewrite Hc|]. unfold again. rewrite Hc. by intros [|].
Qed.
Lemma served_stop src dst n m m' c k lo left : 0 <= k < n → is_memory m' → (∀ a, ¬ (dst <= a < dst + n) → m' a = m a) →
  status_of c = 3 → part src dst n m m' (get (comp "result") c) k lo → get (comp "bytes_completed") c = k →
  served src dst n m m' c (S left) left.
Proof.
  intros Hk Hm' Hframe Hc Hp Hn. split_and!; [lia|done|done|by rewrite Hc|].
  intros _. exists k, lo. split_and!; [lia..|done|done|lia|]. by rewrite Hc.
Qed.

#[export] Instance scripted_laws : MoveLaws (list answer).
Proof.
  refine {| pages_left := length |}. intros hw flags src dst n m d m' c delay d' Hask _ Hno Hadr Hm.
  unfold serve, scripted. rewrite (ask_src _ _ _ _ _ _ Hask), (ask_dst _ _ _ _ _ _ Hask), (ask_size _ _ _ _ _ _ Hask).
  unfold addresses in Hadr.
  assert (status_of (record 1 0 0 0) = 1) as Hone by by apply record_members.
  assert (status_of (record 0x20 0 0 0) = 0x20) as Hbad by by apply record_members.
  assert (∀ left left', served src dst n m (copy src dst n m) (record 1 0 0 0) left left') as Hall
    by (intros; apply served_done; (lia || done)).
  destruct d as [|[k|k| |] d]; [by intros [= <- <- <- <-]| | | |].
  - destruct (_ && _) eqn:Hk; [|by intros [= <- <- <- <-]]. intros [= <- <- <- <-]. apply andb_true_iff in Hk as [H0 Hlt].
    destruct (record_members 3 0 k (src + k)) as (Hs & Hr & Hb & _); [lia..|]. split; [lia|].
    apply (served_stop _ _ _ _ _ _ k k); [lia|by apply copy_memory|intros a Ha; apply (copy_frame _ _ _ n); lia|done| |done].
    rewrite Hr. split; [done|by intros a].
  - destruct (_ && _) eqn:Hk; [|by intros [= <- <- <- <-]]. intros [= <- <- <- <-]. apply andb_true_iff in Hk as [H0 Hlt].
    destruct (record_members 3 1 k src) as (Hs & Hr & Hb & _); [lia..|]. split; [lia|].
    apply (served_stop _ _ _ _ _ _ k 0); [lia|by apply copy_memory| |done| |done].
    + intros a Ha. apply (copy_frame _ _ _ k); lia.
    + rewrite Hr. split; [done|by intros a].
  - intros [= <- <- <- <-]. split; [lia|]. by apply served_broken.
  - intros [= <- <- <- <-]. split; [done|]. apply Hall.
Defined.

Definition move_example : task :=
  Task 0 0 0x5000 (dsa_opcode_value DSA_OPCODE_MEMMOVE) 0x1000 0x2000 16
    (Z.lor IDXD_OP_FLAG_CRAV IDXD_OP_FLAG_RCR).
Definition counting : memory := λ a, a mod 256.
Definition move_result (d : list answer) : option Z := option_map fst (move_task 4 move_example counting d).

